(* ===== verification/_CoqProject ===== *)
-Q . S2P
Prelude.v
Interaction.v
GoStrings.v
GoEncoding.v
GoText.v
GoErrors.v
GoUrl.v
GoPath.v
Jwt.v
BridgeSig.v
OpenShiftClient.v
BridgeServer.v
BridgeProofs.v
Concrete.v
BridgeTheorems.v
ApiTypes.v
GoHeap.v
DeepCopyTypes.v
DeepCopy.v
Kube.v
StatusSchema.v
Singleton.v
GatewayHelpers.v
GatewayRpc.v
ProviderController.v
ProviderProofs.v
MemberController.v
MemberProofs.v
PolicyController.v
PolicyProofs.v
FakeCluster.v
ControllerTheorems.v
Detect.v
GatewayConfig.v
Toml.v
Pki.v
GatewayTls.v
GatewayResources.v
GatewayDeployment.v
GatewayRouting.v
Dependencies.v
EmbeddedPostgres.v
GatewayReconciler.v
Watches.v
Manager.v
GatewayGuard.v
GatewayProofs.v
GatewayFlow.v
GatewayTheorems.v
GatewayAgreement.v
SmokeTest.v
BridgeMain.v
BridgeProcess.v
BridgeStartup.v
GatewayCluster.v
ControllerLiveness.v
StatusTheorems.v
GatewayWitnesses.v
