(* ===== verification/Prelude.v ===== *)
(** * OGO, the OpenShell Gateway Operator: a verification development

    The repository is a Kubernetes operator (Go) and a sidecar.  The operator
    (internal/controller) reconciles four custom resources: OpenShellGateway, a
    cluster-wide singleton for which it provisions a gateway (RBAC, PKI, keys,
    configuration, Deployment, Service, Routes, an OAuth client and optional
    dependencies); OpenShellProvider, OpenShellWorkspaceMember and
    OpenShellPolicy, which it carries to that gateway over gRPC with an admin
    token it signs itself.  The sidecar, the auth-bridge (internal/authbridge,
    cmd/auth-bridge), turns OpenShift logins and tokens into tokens the gateway
    accepts, signed with the key the operator generated.

    ** How code is modelled

    A Go function is a definition of the same name.  One that performs effects
    is a program ([prog], Interaction.v): a tree of calls to its environment,
    each with its answer, ending in a result.  Errors are values ([err + A],
    [option err]).  Nothing is assumed of an environment unless a theorem says
    so: a [handler] answers the calls with a state of its own, [run] and [trace]
    execute a program against it, and [always G Q t p] says that after a history
    [t] every call of [p] obeys the permission [G] and every result [Q], for all
    answers.  Concurrent requests to the bridge are interleaved call by call in a
    transition system ([pool_step]); the goroutines of the bridge process are
    one too ([BridgeProcess.step]).  The generated deep copies run on a store of
    pointers, slices and maps ([heapM]).  Integers that matter at their width are
    wrapped explicitly; times are nanoseconds in Z; strings are byte strings.

    Code outside the repository is a parameter: RSA, SHA-256 and PEM ([Crypto]),
    X.509 ([X509]), TLS pairs ([TlsLib]), net/url ([GoURL]), JSON decoding
    ([BodyDecode]), durations ([Durations]), apimachinery ([ApiMachinery]), YAML
    manifests ([ManifestLib]), printable runes ([Unicode]), controller-runtime's
    predicates ([ControllerRuntime]), flags of libraries ([LibraryFlags]), the
    growth of slices ([GrowSlice]).  The [...Laws]
    classes state what is documented of them; Concrete.v, FakeCluster.v and
    GatewayCluster.v give executable instances, which show that the laws can
    hold and let the witnesses run the programs.

    ** Files

    Go and effects
    - Prelude: notations, tactics and lemmas on lists, strings and options.
    - Interaction: programs, handlers, traces, [always], concurrent pools.
    - GoStrings, GoEncoding, GoText, GoErrors, GoUrl, GoPath: what the code uses
      of strings, hex and base64, JSON and [%q], wrapped errors and codes, URLs,
      path/filepath.
    - GoHeap: a store of pointers, slices and maps, copying programs on it and
      what it means that two values share nothing.

    The auth-bridge
    - Jwt: internal/authbridge/jwt.go.
    - BridgeSig, OpenShiftClient, BridgeServer: the calls of the bridge,
      openshift.go, server.go.
    - BridgeProofs, BridgeTheorems: invariants of the concurrent bridge; claims
      C1 to C9 (tokens are backed by the cluster's answers, redirects are
      allowed ones, codes are single-use and bounded, identity resolution is
      sound and complete, the sweeper is invisible, the exchange succeeds).
    - BridgeMain: the set-up of cmd/auth-bridge/main.go, with C38 on certificate
      reloading.  BridgeProcess: its goroutines from the listeners to the graceful
      shutdown, with C35: every run after a signal ends, in five seconds and
      whatever time the goroutines were not scheduled.

    The controllers of the small resources
    - ApiTypes, Kube: api/v1alpha1 and the Kubernetes objects and calls.
    - DeepCopyTypes, DeepCopy: zz_generated.deepcopy.go on the store of GoHeap;
      C40, a deep copy holds the same value and shares nothing with the original.
    - StatusSchema: the schemas the markers of the API types give the status
      subresources.  StatusTheorems: C30, the schemas are an invariant: from
      objects that conform the reconcilers write statuses that do.
    - Singleton, GatewayHelpers, GatewayRpc: singleton.go, the helpers of the
      gateway controller, openshell_grpc.go with the permission all three
      controllers share ([rpc_guard]; the class [Connects] is the interface they
      use it through).
    - ProviderController/-Proofs, MemberController/-Proofs,
      PolicyController/-Proofs: one controller and its permission each.
    - ControllerTheorems: C10 to C18, C21 and C22 (Synced means converged,
      finalizers wait for the gateway, calls are confined, grants follow
      revocations, one owner of the global policy, errors stay in the log).
    - ControllerLiveness: C19, on every branch of the four reconcilers an error
      is returned or a retry scheduled unless nothing is left to do; C20, when
      the API server and the gateway accept the calls, the resource reaches
      Synced in two reconciles, the first of which adds the finalizer.

    The gateway controller
    - Detect: internal/openshift/detect.go, with C37.
    - GatewayConfig, Toml: internal/gateway/config.go and a reader of its output.
    - Pki: internal/pki/pki.go.
    - GatewayTls, GatewayResources, GatewayDeployment, GatewayRouting: the steps
      of openshellgateway_controller.go by subject.
    - Dependencies, EmbeddedPostgres: dependency.go and dep_*.go; the record
      [DependencyReconciler] is the Go interface.
    - GatewayReconciler: the loop, the status, the deletion and the map functions
      of its watches.
    - Watches: SetupWithManager of the four controllers; C31, which requests an
      event enqueues, also when the List of a map function fails.
    - GatewayGuard: the permission [gateway_guard] of a whole reconcile.
      GatewayProofs and GatewayFlow prove that every step, every dependency (by
      the interface [dependency_ok]) and the loop obey it.
    - GatewayTheorems: C23 to C29, read off the permission (one active gateway,
      what it may create, write and delete, the finalizer waits, a rollout comes
      after what its pod mounts, Secrets are stable, the TLS pair is consistent,
      Running means ready).
    - GatewayAgreement: C32 and C33, the configuration file is faithful and the
      pod is wired to objects the operator writes with the keys it reads.  BridgeStartup: C34 and C36, the bridge starts in that pod as
      configured, with a key both sides can load.
    - Manager: cmd/main.go and groupversion_info.go; C39, the manager starts with
      the configuration of its flags or exits, for every growth of slices.
    - SmokeTest: hack/smoke-test-config/main.go.
    - GatewayCluster, GatewayWitnesses: an executable API server, complete runs
      of the reconciler on it, and the applications of the theorems to them.

    ** What a failed call did

    An answer of the environment does not tell all: a gateway call that was
    answered with an error may have taken effect.  The theorems on members (C13,
    C15) and policies (C17) therefore speak of every state the gateway may be in
    after a history ([members_may], [policy_may]); C15 makes the one exception
    the source documents, a failed re-add.  C10 speaks of Synced, before which the
    only failed call can be a creation answered with AlreadyExists.  Finalizers
    (C11) rest on what the status recorded.

    ** Termination and bounds

    Programs are inductive trees, so every reconcile and every request handler
    terminates against every environment.  Loops over lists are structural; the
    only fuel is the length of a string in the trimming functions of GoStrings,
    in GoPath and in the label parser of StatusSchema, which each step shortens.
    The shutdown of the bridge is a relation, and C35 proves that every run of it
    ends.  The number of pending codes is bounded by C4.

    ** Not modelled

    The generated gRPC client (openshellclient), embedded YAML, logging, metrics
    and the validation markers of the specs; of the markers of the statuses, the
    limit on the length of a condition's message.  Owner references, server-side
    defaulting and conflicts appear only as answers of the environment.  The
    clock is monotone only where a theorem says so.

    ** Plan

    Modelled is all of the program's own logic.  Open: convergence of the gateway
    controller (a second reconcile on an unchanged cluster changes nothing, for
    every cluster and not only the executed one), synchronisation of the OAuth
    client and the Routes as functional theorems, and interleavings of several
    reconciles with a shared API server. *)

From stdpp Require Export base tactics strings list gmap pretty sorting.
From Stdlib Require Export ZArith Lia.
From Stdlib Require Import Ascii.

(** ** Scopes and notations *)

Declare Scope ogo_scope.
Delimit Scope ogo_scope with ogo.
Open Scope ogo_scope.

(** Boolean equality of Go strings, as [==] and [!=] of the source. *)
Notation "x =s y" := (bool_decide ((x : string) = y)) (at level 70) : ogo_scope.
Notation "x <>s y" := (negb (bool_decide ((x : string) = y))) (at level 70) : ogo_scope.

(** ** Tactics of the development *)

(** Turn boolean hypotheses into propositions and clean up. *)
Ltac bool_simpl :=
  repeat match goal with
  | H : _ && _ = true |- _ => apply andb_true_iff in H; destruct H
  | H : _ || _ = false |- _ => apply orb_false_iff in H; destruct H
  | H : negb _ = true |- _ => apply negb_true_iff in H
  | H : negb _ = false |- _ => apply negb_false_iff in H
  | H : bool_decide _ = true |- _ => apply bool_decide_eq_true in H
  | H : bool_decide _ = false |- _ => apply bool_decide_eq_false in H
  end.

(** Case analysis on the scrutinee of some [match] of the goal. *)
Ltac split_match :=
  match goal with
  | |- context [match ?x with _ => _ end] =>
      lazymatch x with
      | context [match _ with _ => _ end] => fail
      | _ => destruct x eqn:?
      end
  end.

Ltac split_match_in H :=
  match type of H with
  | context [match ?x with _ => _ end] =>
      lazymatch x with
      | context [match _ with _ => _ end] => fail
      | _ => destruct x eqn:?
      end
  end.

Create HintDb ogo discriminated.

(** ** Generic lemmas *)

Section options.
Context {A : Type}.

(** The value of a Go map index expression: the zero value when the key is
    absent. *)
Definition or_zero (d : A) (o : option A) : A := default d o.

Lemma option_is_some_not_none (o : option A) : is_Some o ↔ o ≠ None.
Proof. split; [by intros [? ->]|]. destruct o; [by eexists|done]. Qed.
End options.

Section lists.
Context {A : Type}.

Lemma Forall_snoc_iff (P : A → Prop) l x : Forall P (l ++ [x]) ↔ Forall P l ∧ P x.
Proof. by rewrite Forall_app, Forall_singleton. Qed.

Lemma elem_of_snoc (l : list A) x y : y ∈ l ++ [x] ↔ y ∈ l ∨ y = x.
Proof. by rewrite elem_of_app, list_elem_of_singleton. Qed.

(** [existsb] as an existential. *)
Lemma existsb_elem_of (f : A → bool) l :
  existsb f l = true ↔ ∃ x, x ∈ l ∧ f x = true.
Proof.
  rewrite existsb_exists. split; intros (x & ? & ?); exists x;
    by rewrite list_elem_of_In in *.
Qed.

Lemma existsb_not_elem_of (f : A → bool) l :
  existsb f l = false ↔ ∀ x, x ∈ l → f x = false.
Proof.
  split.
  - intros H x Hx. destruct (f x) eqn:E; [|done].
    assert (existsb f l = true) by (apply existsb_elem_of; eauto). congruence.
  - intros H. destruct (existsb f l) eqn:E; [|done].
    apply existsb_elem_of in E as (x & Hx & E'). rewrite H in E'; done.
Qed.
End lists.

(** ** Strings as sequences of bytes *)

Lemma string_app_cons a s1 s2 : (String a s1 +:+ s2) = String a (s1 +:+ s2).
Proof. done. Qed.

Lemma string_app_nil_r s : (s +:+ "") = s.
Proof. induction s as [|a s IH]; [done|]. rewrite string_app_cons. by f_equal. Qed.

Lemma string_app_assoc s1 s2 s3 : ((s1 +:+ s2) +:+ s3) = (s1 +:+ (s2 +:+ s3)).
Proof. induction s1 as [|a s1 IH]; [done|]. rewrite !string_app_cons. by f_equal. Qed.

Lemma string_length_app s1 s2 :
  String.length (s1 +:+ s2) = String.length s1 + String.length s2.
Proof. induction s1 as [|a s1 IH]; [done|]. rewrite string_app_cons. cbn. by rewrite IH. Qed.

(** Appending on the right is injective as well. *)
Lemma string_app_inj_r s s1 s2 : (s1 +:+ s) = (s2 +:+ s) → s1 = s2.
Proof.
  revert s2. induction s1 as [|a s1 IH]; intros [|b s2] H; [done|..].
  - apply (f_equal String.length) in H. rewrite !string_length_app in H. cbn in H. lia.
  - apply (f_equal String.length) in H. rewrite !string_length_app in H. cbn in H. lia.
  - rewrite !string_app_cons in H. injection H as -> H. f_equal. by apply IH.
Qed.

(** All bytes of a string satisfy a predicate. *)
Fixpoint all_bytes (f : ascii → bool) (s : string) : bool :=
  match s with
  | EmptyString => true
  | String a s => f a && all_bytes f s
  end.

Lemma all_bytes_app f s1 s2 :
  all_bytes f (s1 +:+ s2) = all_bytes f s1 && all_bytes f s2.
Proof.
  induction s1 as [|a s1 IH]; [done|]. rewrite string_app_cons. cbn.
  by rewrite IH, andb_assoc.
Qed.

Lemma all_bytes_impl (f g : ascii → bool) s :
  (∀ a, f a = true → g a = true) → all_bytes f s = true → all_bytes g s = true.
Proof.
  intros Hfg. induction s as [|a s IH]; cbn; [done|].
  rewrite !andb_true_iff. intros [Ha Hs]. auto.
Qed.

(** Splitting at the first occurrence of a byte: what precedes and what
    follows it, or [None] when the byte does not occur. *)
Fixpoint split_at (c : ascii) (s : string) : option (string * string) :=
  match s with
  | EmptyString => None
  | String a s =>
      if bool_decide (a = c) then Some (EmptyString, s)
      else match split_at c s with
           | Some (b, r) => Some (String a b, r)
           | None => None
           end
  end.

Definition lacks (c : ascii) (s : string) : bool :=
  all_bytes (λ a, negb (bool_decide (a = c))) s.

Lemma split_at_app c s r :
  lacks c s = true → split_at c (s +:+ String c r) = Some (s, r).
Proof.
  unfold lacks. induction s as [|a s IH].
  - intros _. change ("" +:+ String c r) with (String c r). cbn [split_at].
    by rewrite bool_decide_eq_true_2.
  - rewrite string_app_cons. cbn [split_at all_bytes]. intros [Ha Hs]%andb_true_iff.
    apply negb_true_iff in Ha. by rewrite Ha, IH.
Qed.

Lemma split_at_Some c s b r :
  split_at c s = Some (b, r) → s = (b +:+ String c r) ∧ lacks c b = true.
Proof.
  revert b r. induction s as [|a s IH]; intros b r; cbn [split_at all_bytes]; [done|].
  case_bool_decide as Ha; [intros [= <- <-]; by subst|].
  destruct (split_at c s) as [[b' r']|] eqn:E; [|done].
  intros [= <- <-]. destruct (IH b' r' eq_refl) as [-> Hl].
  split; [done|]. unfold lacks in *. cbn [split_at all_bytes]. by rewrite bool_decide_eq_false_2.
Qed.

Lemma split_at_None c s : split_at c s = None ↔ lacks c s = true.
Proof.
  unfold lacks. induction s as [|a s IH]; cbn [split_at all_bytes]; [done|].
  case_bool_decide; cbn [split_at all_bytes]; [done|].
  destruct (split_at c s) as [[b r]|]; rewrite <-IH; done.
Qed.

(** The separator lemma behind the name encodings of the operator: a prefix
    that lacks the separator is determined by the concatenation. *)
Lemma join_inj c a1 b1 a2 b2 :
  lacks c a1 = true → lacks c a2 = true →
  (a1 +:+ String c b1) = (a2 +:+ String c b2) → a1 = a2 ∧ b1 = b2.
Proof.
  intros H1 H2 E. apply (f_equal (split_at c)) in E.
  rewrite !split_at_app in E by done. by injection E.
Qed.
