(* ===== verification/Interaction.v ===== *)
(** * Interaction programs

    The operator and the auth-bridge spend their life talking to the outside:
    the Kubernetes API server, the gateway's gRPC endpoint, the OpenShift OAuth
    server, the clock, the random source.  A Go function that does so is
    translated into a [prog]: a finite tree whose nodes are the calls it makes
    and whose branches are the possible answers.  Nothing is assumed about the
    answers; what a theorem needs of them is a hypothesis about the handler
    ([run]), a property of the history ([always]) or of a shared state that
    several threads use ([Pool]). *)

From S2P Require Import Prelude.

(** ** Signatures and programs *)

(** A signature: the calls a component can make and the type of the answer to
    each of them. *)
Record sig := Sig { call : Type; resp : call → Type }.

Inductive prog (S : sig) (A : Type) : Type :=
| Ret (a : A)
| Call (c : call S) (k : resp S c → prog S A).

Arguments Ret {S A} a.
Arguments Call {S A} c k.

#[export] Instance prog_ret S : MRet (prog S) := λ A a, Ret a.

Fixpoint bind {S A B} (f : A → prog S B) (p : prog S A) : prog S B :=
  match p with
  | Ret a => f a
  | Call c k => Call c (λ r, bind f (k r))
  end.

#[export] Instance prog_bind S : MBind (prog S) := λ A B f p, bind f p.

(** One call, answered. *)
Definition do {S} (c : call S) : prog S (resp S c) := Call c Ret.

(** [v, err := f(...); if err != nil { return err }]: an error is returned to
    the caller as it is. *)
Notation "x ←? p ; q" :=
  (mbind (λ r_, match r_ with inl e_ => mret (inl e_) | inr x => q end) p)
  (at level 20, p at level 100, q at level 200, right associativity,
   only parsing) : ogo_scope.

(** ** Running a program against a handler *)

Definition handler (S : sig) (W : Type) := ∀ c : call S, W → resp S c * W.

Fixpoint run {S W A} (h : handler S W) (p : prog S A) (w : W) : A * W :=
  match p with
  | Ret a => (a, w)
  | Call c k => let '(r, w') := h c w in run h (k r) w'
  end.

(** An event: a call with the answer it got. *)
Record event (S : sig) := Ev { ev_call : call S; ev_resp : resp S ev_call }.
Arguments Ev {S} ev_call ev_resp.
Arguments ev_call {S} e.
Arguments ev_resp {S} e.

(** The events of a run, in order. *)
Fixpoint trace {S W A} (h : handler S W) (p : prog S A) (w : W) : list (event S) :=
  match p with
  | Ret _ => []
  | Call c k => let '(r, w') := h c w in Ev c r :: trace h (k r) w'
  end.

Section run_lemmas.
Context {S : sig} {W : Type} (h : handler S W).

Lemma run_bind {A B} (p : prog S A) (f : A → prog S B) w :
  run h (p ≫= f) w = let '(a, w') := run h p w in run h (f a) w'.
Proof.
  revert w. induction p as [a|c k IH]; intros w; [done|].
  cbn. destruct (h c w) as [r w']. apply IH.
Qed.

Lemma run_do (c : call S) w : run h (do c) w = h c w.
Proof. cbn. by destruct (h c w). Qed.

Lemma trace_bind {A B} (p : prog S A) (f : A → prog S B) w :
  trace h (p ≫= f) w =
    trace h p w ++ let '(a, w') := run h p w in trace h (f a) w'.
Proof.
  revert w. induction p as [a|c k IH]; intros w; [done|].
  cbn. destruct (h c w) as [r w']. cbn. f_equal. apply IH.
Qed.
End run_lemmas.

Section laws.
Context {S : sig}.

Lemma bind_ret_l {A B} (a : A) (f : A → prog S B) : (mret a ≫= f) = f a.
Proof. done. Qed.

(** Pointwise equality of programs, so that the monad laws need no
    extensionality axiom. *)
Fixpoint prog_eq {A} (p q : prog S A) : Prop :=
  match p, q with
  | Ret a, Ret b => a = b
  | Call c k, Call c' k' => ∃ E : c = c', ∀ r, prog_eq (k r) (k' (eq_rect c (resp S) r c' E))
  | _, _ => False
  end.

Lemma prog_eq_refl {A} (p : prog S A) : prog_eq p p.
Proof. induction p as [a|c k IH]; cbn; [done|]. exists eq_refl. exact IH. Qed.

Lemma prog_eq_run {A W} (h : handler S W) (p q : prog S A) w :
  prog_eq p q → run h p w = run h q w.
Proof.
  revert q w. induction p as [a|c k IH]; intros [b|c' k'] w H; try done.
  - cbn in *. by subst.
  - destruct H as [<- H]. cbn in *. destruct (h c w) as [r w']. by apply IH.
Qed.

Lemma bind_ret_r {A} (p : prog S A) : prog_eq (p ≫= mret) p.
Proof. induction p as [a|c k IH]; cbn; [done|]. exists eq_refl. exact IH. Qed.

Lemma bind_assoc {A B C} (p : prog S A) (f : A → prog S B) (g : B → prog S C) :
  prog_eq ((p ≫= f) ≫= g) (p ≫= λ a, f a ≫= g).
Proof.
  induction p as [a|c k IH]; [apply prog_eq_refl|]. exists eq_refl. exact IH.
Qed.
End laws.

(** ** What a program may do, whatever the environment answers

    [always G Q t p]: running [p] after the history [t], every call it makes is
    permitted by [G] (which sees the history up to that call), and when it
    returns, [Q] holds of the whole history and the result.  The quantifier
    over answers is the environment: an API server that fails, another actor
    that changes an object between two calls, a gateway that is down. *)

Fixpoint always {S A} (G : list (event S) → call S → Prop)
    (Q : list (event S) → A → Prop) (t : list (event S)) (p : prog S A) : Prop :=
  match p with
  | Ret a => Q t a
  | Call c k => G t c ∧ ∀ r, always G Q (t ++ [Ev c r]) (k r)
  end.

Section always_lemmas.
Context {S : sig} (G : list (event S) → call S → Prop).

Lemma always_mono {A} (Q Q' : list (event S) → A → Prop) t p :
  always G Q t p → (∀ t' a, Q t' a → Q' t' a) → always G Q' t p.
Proof.
  revert t. induction p as [a|c k IH]; intros t; cbn; [eauto|].
  intros [HG H] HQ. split; [done|]. intros r. by apply IH.
Qed.

Lemma always_bind {A B} (Q : list (event S) → B → Prop) t (p : prog S A) f :
  always G (λ t' a, always G Q t' (f a)) t p → always G Q t (p ≫= f).
Proof.
  revert t. induction p as [a|c k IH]; intros t; cbn; [done|].
  intros [HG H]. split; [done|]. intros r. by apply IH.
Qed.

Lemma always_ret {A} (Q : list (event S) → A → Prop) t (a : A) :
  Q t a → always G Q t (mret a).
Proof. done. Qed.

Lemma always_call {A} (Q : list (event S) → A → Prop) t (c : call S) (f : resp S c → prog S A) :
  G t c → (∀ r, always G Q (t ++ [Ev c r]) (f r)) → always G Q t (Call c Ret ≫= f).
Proof. intros HG H. split; [done|exact H]. Qed.

(** The rule for a subprogram with a specification of its own. *)
Lemma always_cut {A B} (Q : list (event S) → B → Prop) (R : list (event S) → A → Prop) t
    (p : prog S A) f :
  always G R t p → (∀ t' a, R t' a → always G Q t' (f a)) → always G Q t (p ≫= f).
Proof. intros Hp Hf. apply always_bind. by apply (always_mono R). Qed.

(** The history only grows. *)
Lemma always_prefix {A} (Q : list (event S) → A → Prop) t p :
  always G Q t p → always G (λ t' a, t `prefix_of` t' ∧ Q t' a) t p.
Proof.
  revert t. induction p as [a|c k IH]; intros t; cbn; [done|].
  intros [HG H]. split; [done|]. intros r. eapply always_mono; [by apply IH|].
  intros t' a [Hp ?]. split; [|done]. etrans; [|done]. by eexists.
Qed.

Lemma always_cut_grow {A B} (Q : list (event S) → B → Prop)
    (R : list (event S) → A → Prop) t (p : prog S A) f :
  always G R t p →
  (∀ t' a, t ⊆ t' → R t' a → always G Q t' (f a)) → always G Q t (p ≫= f).
Proof.
  intros Hp Hf. eapply always_cut; [by apply always_prefix|].
  intros t' a [[s ->] ?]. apply Hf; [|done]. intros x Hx. apply elem_of_app. auto.
Qed.

(** What every permitted call satisfies holds of the whole history. *)
Lemma always_hist {A} (P : call S → Prop) (Q : list (event S) → A → Prop) t p :
  (∀ t' c, G t' c → P c) → Forall (λ e, P (ev_call e)) t →
  always G Q t p → always G (λ t' a, Forall (λ e, P (ev_call e)) t' ∧ Q t' a) t p.
Proof.
  intros HP. revert t. induction p as [a|c k IH]; intros t Ht; cbn; [done|].
  intros [HG H]. split; [done|]. intros r. apply IH; [|done].
  apply Forall_snoc_iff. split; [done|]. by eapply HP.
Qed.

(** Soundness: the events and the result of any run obey the
    specification. *)
Lemma always_run {A W} (Q : list (event S) → A → Prop) (h : handler S W) t p w :
  always G Q t p →
  Q (t ++ trace h p w) (run h p w).1 ∧
  ∀ i e, trace h p w !! i = Some e → G (t ++ take i (trace h p w)) (ev_call e).
Proof.
  revert t w. induction p as [a|c k IH]; intros t w; cbn.
  { rewrite app_nil_r. intros H. split; [done|]. intros i e. by rewrite lookup_nil. }
  intros [HG H]. destruct (h c w) as [r w']. cbn.
  destruct (IH r _ w' (H r)) as [HQ HT]. rewrite <-app_assoc in HQ.
  split; [done|]. intros [|i] e; cbn.
  - intros [= <-]. by rewrite app_nil_r.
  - intros He. specialize (HT i e He). by rewrite <-app_assoc in HT.
Qed.
End always_lemmas.

(** The permission of one event of a run, at the history that precedes it. *)
Lemma always_event {S A W} (G : list (event S) → call S → Prop) (Q : list (event S) → A → Prop)
    (h : handler S W) (p : prog S A) w i c r :
  always G Q [] p → trace h p w !! i = Some (Ev c r) → G (take i (trace h p w)) c.
Proof. intros Hp Hi. apply (always_run G Q h [] p w) in Hp as [_ H]. apply (H i (Ev c r) Hi). Qed.

(** Strengthening the permission. *)
Lemma always_weaken {S A} (G G' : list (event S) → call S → Prop)
    (Q : list (event S) → A → Prop) t p :
  (∀ t' c, G t' c → G' t' c) → always G Q t p → always G' Q t p.
Proof.
  intros HG. revert t. induction p as [a|c k IH]; intros t; cbn; [done|].
  intros [Hc H]. split; [by apply HG|]. intros r. by apply IH.
Qed.

Lemma hist_grow {A} (t : list A) e : t ⊆ t ++ [e].
Proof. intros x Hx. apply elem_of_app. auto. Qed.
Lemma hist_elem_of {A} (x : A) (t t' : list A) : t ⊆ t' → x ∈ t → x ∈ t'.
Proof. auto. Qed.

#[export] Hint Resolve hist_grow hist_elem_of : ogo.

(** ** When any call is permitted, only results matter *)

Abbreviation unguarded := (λ _ _, True).

Lemma always_any {S A} t (p : prog S A) : always unguarded (λ _ _, True) t p.
Proof. revert t. induction p as [a|c k IH]; intros t; [done|]. split; [done|]. intros r. apply IH. Qed.

(** A subprogram whose result does not matter to the claim. *)
Lemma always_skip {S A B} (Q : list (event S) → B → Prop) t (p : prog S A) f :
  (∀ t' a, t ⊆ t' → always unguarded Q t' (f a)) → always unguarded Q t (p ≫= f).
Proof. intros Hf. eapply always_cut_grow; [apply always_any|]. intros t' a Ht _. by apply Hf. Qed.

(** What a program returns may be proved apart from what it may do. *)
Lemma always_both {S A} (G : list (event S) → call S → Prop) (Q R : list (event S) → A → Prop) t p :
  always G Q t p → always unguarded R t p → always G (λ t' a, Q t' a ∧ R t' a) t p.
Proof.
  revert t. induction p as [a|c k IH]; intros t; cbn; [done|]. intros [HG H1] [_ H2].
  split; [done|]. intros r. by apply IH.
Qed.

(** One symbolic step: the call at the head of the program is permitted, its
    answer is arbitrary. *)
Ltac always_step := apply always_call; [|intros ?].

(** ** What a program does when its calls are answered as expected

    [responds h c P]: in every state [h] answers [c] with something in [P].
    [yields h p Q]: every run of [p] against [h] ends with a trace and a result
    in [Q].  Together they state what happens in a cooperative environment. *)

Section yields.
Context {S : sig} {W : Type} (h : handler S W).

Definition responds (c : call S) (P : resp S c → Prop) : Prop := ∀ w, P (h c w).1.

Definition yields {A} (p : prog S A) (Q : list (event S) → A → Prop) : Prop :=
  ∀ w, Q (trace h p w) (run h p w).1.

Lemma yields_ret {A} (a : A) (Q : list (event S) → A → Prop) : Q [] a → yields (mret a) Q.
Proof. intros HQ w. exact HQ. Qed.

Lemma yields_mono {A} (p : prog S A) (Q Q' : list (event S) → A → Prop) :
  yields p Q → (∀ t a, Q t a → Q' t a) → yields p Q'.
Proof. intros Hp HQ w. apply HQ, Hp. Qed.

Lemma yields_bind {A B} (p : prog S A) (f : A → prog S B) (R : list (event S) → A → Prop) Q :
  yields p R → (∀ t a, R t a → yields (f a) (λ t' b, Q (t ++ t') b)) → yields (p ≫= f) Q.
Proof.
  intros Hp Hf w. rewrite trace_bind, run_bind. specialize (Hp w).
  destruct (run h p w) as [a w']. cbn in *. apply (Hf _ _ Hp).
Qed.

Lemma yields_call {A} (c : call S) (f : resp S c → prog S A) P Q :
  responds c P → (∀ r, P r → yields (f r) (λ t a, Q (Ev c r :: t) a)) → yields (Call c Ret ≫= f) Q.
Proof.
  intros Hc Hf w. specialize (Hc w). cbn. destruct (h c w) as [r w']. apply (Hf r Hc).
Qed.

(** A call whose answer does not matter. *)
Lemma yields_any {A} (c : call S) (f : resp S c → prog S A) Q :
  (∀ r, yields (f r) (λ t a, Q (Ev c r :: t) a)) → yields (Call c Ret ≫= f) Q.
Proof. intros Hf. apply (yields_call c f (λ _, True)); [done|]. auto. Qed.
End yields.

(** ** Several programs that share a state

    Requests are served by threads that interleave at their calls.  [effect]
    relates the shared state before a call, the call, its answer and the state
    after; [env] are the steps of everything else (time passes, a sweeper
    runs). *)

Section pool.
Context {S : sig} {A St : Type}.
Context (effect : St → ∀ c : call S, resp S c → St → Prop) (env : St → St → Prop).
Context (spawn : prog S A → Prop).

Definition config : Type := St * list (prog S A) * list A.

Inductive pool_step : config → config → Prop :=
| pool_spawn σ ts rs p :
    spawn p → pool_step (σ, ts, rs) (σ, p :: ts, rs)
| pool_call σ ts1 c k ts2 rs r σ' :
    effect σ c r σ' →
    pool_step (σ, ts1 ++ Call c k :: ts2, rs) (σ', ts1 ++ k r :: ts2, rs)
| pool_return σ ts1 a ts2 rs :
    pool_step (σ, ts1 ++ Ret a :: ts2, rs) (σ, ts1 ++ ts2, rs ++ [a])
| pool_env σ ts rs σ' :
    env σ σ' → pool_step (σ, ts, rs) (σ', ts, rs).

Definition reachable (σ0 : St) (c : config) : Prop := rtc pool_step (σ0, [], []) c.

(** A rely/guarantee argument: [le] is the order in which the shared state
    evolves, [I] an invariant of it, [G] what a thread must guarantee of the
    state when it makes a call, [Q] what its result promises. *)
Context (le : St → St → Prop) (I : St → Prop).
Context (G : St → call S → Prop).

Fixpoint safe {B} (Q : St → B → Prop) (σ : St) (p : prog S B) : Prop :=
  match p with
  | Ret a => ∀ σ', le σ σ' → Q σ' a
  | Call c k => ∀ σ', le σ σ' → I σ' → G σ' c ∧
      ∀ r σ'', effect σ' c r σ'' → I σ'' → safe Q σ'' (k r)
  end.

Context `{!PreOrder le}.

Lemma safe_le {B} (Q : St → B → Prop) σ σ' p : le σ σ' → safe Q σ p → safe Q σ' p.
Proof.
  destruct p as [a|c k]; cbn; intros Hle H σ'' Hle'; apply H; by transitivity σ'.
Qed.

Lemma safe_bind {B C} (Q : St → C → Prop) σ (p : prog S B) (f : B → prog S C) :
  safe (λ σ' b, safe Q σ' (f b)) σ p → safe Q σ (p ≫= f).
Proof.
  revert σ. induction p as [b|c k IH]; intros σ; cbn.
  - intros H. apply H. reflexivity.
  - intros H σ' Hle HI. destruct (H σ' Hle HI) as [HG Hk]. split; [done|].
    intros r σ'' He HI''. by apply IH, Hk.
Qed.

(** A sequential specification holds under interference when it speaks of the
    thread's own calls, which are part of what the shared state records. *)
Lemma always_safe {B} (view : St → list (event S)) (H : list (event S) → call S → Prop)
    (R : list (event S) → B → Prop) :
  (∀ σ σ', le σ σ' → view σ ⊆ view σ') →
  (∀ σ c r σ', effect σ c r σ' → view σ ⊆ view σ' ∧ Ev c r ∈ view σ') →
  (∀ t σ c, t ⊆ view σ → I σ → H t c → G σ c) →
  ∀ t σ p, always H R t p → t ⊆ view σ →
  safe (λ σ' b, ∃ t', t' ⊆ view σ' ∧ R t' b) σ p.
Proof.
  intros Hle He HG t σ p. revert t σ. induction p as [b|c k IH]; intros t σ; cbn.
  - intros HR Ht σ' Hl. exists t. split; [|done]. etrans; eauto.
  - intros [Hc Hk] Ht σ' Hl HI. split; [apply (HG t); [etrans; eauto|done..]|].
    intros r σ'' Hs HI''. eapply IH; [apply Hk|]. apply He in Hs as [Hv Hin].
    intros x [Hx| ->]%elem_of_snoc; [|done]. apply Hv, (Hle _ _ Hl), Ht, Hx.
Qed.

Lemma safe_mono {B} (Q Q' : St → B → Prop) σ p :
  (∀ σ' b, Q σ' b → Q' σ' b) → safe Q σ p → safe Q' σ p.
Proof.
  intros HQ. revert σ. induction p as [b|c k IH]; intros σ; cbn; [eauto|].
  intros H σ' Hl HI. destruct (H σ' Hl HI) as [HG Hk]. split; [done|]. eauto.
Qed.

Lemma safe_cut {B D} (R : St → B → Prop) (Q : St → D → Prop) σ (p : prog S B) f :
  safe R σ p → (∀ σ' b, R σ' b → safe Q σ' (f b)) → safe Q σ (p ≫= f).
Proof. intros Hp Hf. apply safe_bind. by apply (safe_mono R). Qed.

Lemma safe_call {B} (Q : St → B → Prop) σ c (f : resp S c → prog S B) :
  (∀ σ', le σ σ' → I σ' → G σ' c ∧
     ∀ r σ'', effect σ' c r σ'' → I σ'' → safe Q σ'' (f r)) →
  safe Q σ (Call c Ret ≫= f).
Proof. done. Qed.

Lemma safe_ret {B} (Q : St → B → Prop) σ (b : B) :
  (∀ σ', le σ σ' → Q σ' b) → safe Q σ (mret b).
Proof. done. Qed.

Context (Q : St → A → Prop).
Context (effect_le : ∀ σ c r σ', effect σ c r σ' → le σ σ').
Context (env_le : ∀ σ σ', env σ σ' → le σ σ').
Context (effect_I : ∀ σ c r σ', I σ → G σ c → effect σ c r σ' → I σ').
Context (env_I : ∀ σ σ', I σ → env σ σ' → I σ').
Context (Q_mono : ∀ σ σ' a, le σ σ' → Q σ a → Q σ' a).
Context (spawn_safe : ∀ σ p, spawn p → safe Q σ p).

Definition pool_ok (c : config) : Prop :=
  let '(σ, ts, rs) := c in I σ ∧ Forall (safe Q σ) ts ∧ Forall (Q σ) rs.

Lemma pool_step_ok c c' : pool_ok c → pool_step c c' → pool_ok c'.
Proof.
  intros Hok Hs. destruct Hs as [σ ts rs p Hp|σ ts1 c k ts2 rs r σ' He|σ ts1 a ts2 rs|σ ts rs σ' He];
    destruct Hok as (HI & Ht & Hr).
  - split; [done|]. split; [|done]. constructor; eauto.
  - rewrite Forall_app, Forall_cons in Ht. destruct Ht as (H1 & H & H2).
    destruct (H σ ltac:(reflexivity) HI) as [HG Hk].
    assert (le σ σ') as Hle by eauto. assert (I σ') as HI' by eauto.
    split; [done|]. split.
    + rewrite Forall_app, Forall_cons. split; [|split; [by apply Hk|]];
        eapply Forall_impl; eauto using safe_le.
    + eapply Forall_impl; eauto.
  - rewrite Forall_app, Forall_cons in Ht. destruct Ht as (H1 & H & H2).
    split; [done|]. split; [by apply Forall_app|].
    apply Forall_app. split; [done|]. constructor; [|done]. apply H. reflexivity.
  - assert (le σ σ') as Hle by eauto. split; [eauto|].
    split; eapply Forall_impl; eauto using safe_le.
Qed.

(** Every reachable configuration satisfies the invariant, has only safe
    threads and has delivered only results that keep their promise. *)
Lemma reachable_ok σ0 c : I σ0 → reachable σ0 c → pool_ok c.
Proof.
  intros HI Hr. unfold reachable in Hr.
  assert (pool_ok (σ0, [], [])) as Hok by (repeat split; auto).
  revert Hok. generalize dependent (σ0, @nil (prog S A), @nil A).
  intros c0 Hr. induction Hr; eauto using pool_step_ok.
Qed.
End pool.
