(* ===== verification/GoStrings.v ===== *)
(** * The Go standard library the operator uses: strings and encodings

    A Go string is a sequence of bytes: here a [string], whose [ascii]
    characters are the bytes.  The file models the functions of [strings],
    [encoding/hex], [encoding/base64], [unicode/utf8], [strconv.Quote] (the
    [%q] verb) and the string and value rendering of [encoding/json] that the
    sources call. *)

From S2P Require Import Prelude.
From Stdlib Require Import Ascii.

(** ** strings *)

Definition HasPrefix (s prefix : string) : bool := String.prefix prefix s.

Fixpoint drop_bytes (n : nat) (s : string) : string :=
  match n, s with
  | 0, _ => s
  | S n, String _ s => drop_bytes n s
  | S _, EmptyString => EmptyString
  end.

Fixpoint take_bytes (n : nat) (s : string) : string :=
  match n, s with
  | 0, _ => EmptyString
  | S n, String a s => String a (take_bytes n s)
  | S _, EmptyString => EmptyString
  end.

Definition TrimPrefix (s prefix : string) : string :=
  if HasPrefix s prefix then drop_bytes (String.length prefix) s else s.

(** [strings.Contains]. *)
Definition Contains (s sub : string) : bool :=
  match String.index 0 sub s with Some _ => true | None => false end.

(** [strings.TrimRight(s, "c")] for a one-byte cut set. *)
Fixpoint TrimRightByte (c : ascii) (s : string) : string :=
  match s with
  | EmptyString => EmptyString
  | String a s =>
      match TrimRightByte c s with
      | EmptyString => if bool_decide (a = c) then EmptyString else String a EmptyString
      | s' => String a s'
      end
  end.

(** The UTF-8 encodings of the runes [unicode.IsSpace] accepts. *)
Definition byte_str (l : list nat) : string :=
  fold_right (λ n s, String (ascii_of_nat n) s) EmptyString l.

Definition space_runes : list string :=
  map byte_str
    ([ [9]; [10]; [11]; [12]; [13]; [32]; [194; 133]; [194; 160]; [225; 154; 128];
       [226; 128; 168]; [226; 128; 169]; [226; 128; 175]; [226; 129; 159];
       [227; 128; 128] ] ++ map (λ n, [226; 128; 128 + n]) (seq 0 11)).

Definition first_space (s : string) : option nat :=
  fold_right (λ sp acc, if HasPrefix s sp then Some (String.length sp) else acc)
    None space_runes.

Fixpoint trim_left_go (fuel : nat) (s : string) : string :=
  match fuel with
  | 0 => s
  | S fuel =>
      match first_space s with
      | Some n => trim_left_go fuel (drop_bytes n s)
      | None => s
      end
  end.

Definition has_suffix (s suf : string) : bool :=
  (String.length suf <=? String.length s)%nat &&
  (drop_bytes (String.length s - String.length suf) s =s suf).

Definition last_space (s : string) : option nat :=
  fold_right (λ sp acc, if has_suffix s sp then Some (String.length sp) else acc)
    None space_runes.

Fixpoint trim_right_go (fuel : nat) (s : string) : string :=
  match fuel with
  | 0 => s
  | S fuel =>
      match last_space s with
      | Some n => trim_right_go fuel (take_bytes (String.length s - n) s)
      | None => s
      end
  end.

(** [strings.TrimSpace]: at most one rune per byte is removed on each side, so
    the length of the string is enough fuel. *)
Definition TrimSpace (s : string) : string :=
  let s' := trim_left_go (String.length s) s in
  trim_right_go (String.length s') s'.

(** [strings.Cut(s, sep)] for a one-byte separator. *)
Definition Cut (s : string) (sep : ascii) : option (string * string) := split_at sep s.

(** ** encoding/hex *)

Definition hex_digit (n : N) : ascii :=
  ascii_of_N (if (n <? 10)%N then 48 + n else 87 + n)%N.

Definition hex_byte (a : ascii) (s : string) : string :=
  String (hex_digit (N_of_ascii a / 16)) (String (hex_digit (N_of_ascii a mod 16)) s).

Fixpoint hex_EncodeToString (s : string) : string :=
  match s with
  | EmptyString => EmptyString
  | String a s => hex_byte a (hex_EncodeToString s)
  end.

Definition is_hex (a : ascii) : bool :=
  let n := N_of_ascii a in
  ((48 <=? n) && (n <=? 57) || (97 <=? n) && (n <=? 102))%N.

Lemma hex_encode_is_hex s : all_bytes is_hex (hex_EncodeToString s) = true.
Proof.
  induction s as [|a s IH]; [done|]. cbn [hex_EncodeToString hex_byte all_bytes].
  rewrite IH. destruct a as [[] [] [] [] [] [] [] []]; reflexivity.
Qed.

Lemma hex_encode_length s :
  String.length (hex_EncodeToString s) = 2 * String.length s.
Proof. induction s as [|a s IH]; [done|]. cbn. rewrite IH. lia. Qed.

Lemma hex_byte_inj a b r s : hex_byte a r = hex_byte b s → a = b ∧ r = s.
Proof.
  unfold hex_byte. intros [= H1 H2 H3]. split; [|done].
  assert (∀ n m : N, (n < 16)%N → (m < 16)%N → hex_digit n = hex_digit m → n = m) as Hd.
  { intros n m Hn Hm H. unfold hex_digit in H.
    apply (f_equal N_of_ascii) in H.
    destruct (N.ltb_spec n 10), (N.ltb_spec m 10); rewrite !N_ascii_embedding in H; lia. }
  assert (N_of_ascii a < 256)%N by (apply N_ascii_bounded).
  assert (N_of_ascii b < 256)%N by (apply N_ascii_bounded).
  apply Hd in H1; [|apply N.Div0.div_lt_upper_bound; lia..].
  apply Hd in H2; [|apply N.mod_lt; lia..].
  rewrite <-(ascii_N_embedding a), <-(ascii_N_embedding b). f_equal.
  rewrite (N.div_mod (N_of_ascii a) 16), (N.div_mod (N_of_ascii b) 16) by lia. lia.
Qed.

#[export] Instance hex_encode_inj : Inj (=) (=) hex_EncodeToString.
Proof.
  intros s. induction s as [|a s IH]; intros [|b t]; cbn [hex_EncodeToString];
    unfold hex_byte; try done.
  intros H. apply (hex_byte_inj a b) in H as [-> H]. f_equal. by apply IH.
Qed.

(** ** Decimal rendering ([%d]) *)

Definition itoa (z : Z) : string := pretty z.
