(* ===== verification/GoEncoding.v ===== *)
(** * The Go standard library the operator uses: base64, UTF-8, quoting, JSON *)

From S2P Require Import Prelude GoStrings.
From Stdlib Require Import Ascii.

(** ** encoding/base64

    A sextet is handled as six bits, so that encoding and decoding are the
    regrouping of bits that the RFC describes. *)

Definition sextet : Type := bool * bool * bool * bool * bool * bool.

Definition sextet_index (x : sextet) : nat :=
  let '(b5, b4, b3, b2, b1, b0) := x in
  N.to_nat (N_of_ascii (Ascii b0 b1 b2 b3 b4 b5 false false)).

Definition std_alphabet : string :=
  "ABCDEFGHIJKLMNOPQRSTUVWXYZabcdefghijklmnopqrstuvwxyz0123456789+/".
Definition url_alphabet : string :=
  "ABCDEFGHIJKLMNOPQRSTUVWXYZabcdefghijklmnopqrstuvwxyz0123456789-_".

Definition enc_sextet (alphabet : string) (x : sextet) : ascii :=
  match String.get (sextet_index x) alphabet with Some a => a | None => "000"%char end.

Fixpoint byte_index (a : ascii) (s : string) : option nat :=
  match s with
  | EmptyString => None
  | String b s => if bool_decide (a = b) then Some 0 else S <$> byte_index a s
  end.

Definition dec_sextet (alphabet : string) (a : ascii) : option sextet :=
  match byte_index a alphabet with
  | Some n =>
      match ascii_of_nat n with
      | Ascii b0 b1 b2 b3 b4 b5 _ _ => Some (b5, b4, b3, b2, b1, b0)
      end
  | None => None
  end.

(** [EncodeToString] of [base64.RawURLEncoding] and [base64.RawStdEncoding]
    (no padding), and of [StdEncoding] with [pad = "=" ]. *)
Fixpoint base64_encode (alphabet pad : string) (s : string) : string :=
  let e := enc_sextet alphabet in
  match s with
  | EmptyString => EmptyString
  | String (Ascii a0 a1 a2 a3 a4 a5 a6 a7) EmptyString =>
      String (e (a7, a6, a5, a4, a3, a2))
        (String (e (a1, a0, false, false, false, false)) (pad +:+ pad))
  | String (Ascii a0 a1 a2 a3 a4 a5 a6 a7)
      (String (Ascii b0 b1 b2 b3 b4 b5 b6 b7) EmptyString) =>
      String (e (a7, a6, a5, a4, a3, a2))
        (String (e (a1, a0, b7, b6, b5, b4))
          (String (e (b3, b2, b1, b0, false, false)) pad))
  | String (Ascii a0 a1 a2 a3 a4 a5 a6 a7)
      (String (Ascii b0 b1 b2 b3 b4 b5 b6 b7)
        (String (Ascii c0 c1 c2 c3 c4 c5 c6 c7) r)) =>
      String (e (a7, a6, a5, a4, a3, a2))
        (String (e (a1, a0, b7, b6, b5, b4))
          (String (e (b3, b2, b1, b0, c7, c6))
            (String (e (c5, c4, c3, c2, c1, c0)) (base64_encode alphabet pad r))))
  end.

Definition RawURLEncoding_EncodeToString (s : string) : string :=
  base64_encode url_alphabet "" s.

Definition byte1 (x y : sextet) : ascii :=
  let '(x5, x4, x3, x2, x1, x0) := x in
  let '(y5, y4, _, _, _, _) := y in Ascii y4 y5 x0 x1 x2 x3 x4 x5.
Definition byte2 (y z : sextet) : ascii :=
  let '(_, _, y3, y2, y1, y0) := y in
  let '(z5, z4, z3, z2, _, _) := z in Ascii z2 z3 z4 z5 y0 y1 y2 y3.
Definition byte3 (z u : sextet) : ascii :=
  let '(_, _, _, _, z1, z0) := z in
  let '(u5, u4, u3, u2, u1, u0) := u in Ascii u0 u1 u2 u3 u4 u5 z0 z1.

Definition is_pad (a : ascii) : bool := bool_decide (a = "="%char).

(** [DecodeString], with the line breaks the decoder skips already removed.
    [padded] distinguishes [StdEncoding] from [RawStdEncoding]; neither is
    strict, so the unused trailing bits are ignored. *)
Fixpoint base64_quanta (alphabet : string) (padded : bool) (s : string) : option string :=
  let d := dec_sextet alphabet in
  match s with
  | EmptyString => Some EmptyString
  | String a EmptyString => None
  | String a (String b EmptyString) =>
      if padded then None
      else match d a, d b with
           | Some x, Some y => Some (String (byte1 x y) EmptyString)
           | _, _ => None
           end
  | String a (String b (String c EmptyString)) =>
      if padded then None
      else match d a, d b, d c with
           | Some x, Some y, Some z => Some (String (byte1 x y) (String (byte2 y z) EmptyString))
           | _, _, _ => None
           end
  | String a (String b (String c (String e r))) =>
      match d a, d b with
      | Some x, Some y =>
          if padded && is_pad c then
            (if is_pad e then
               match r with
               | EmptyString => Some (String (byte1 x y) EmptyString)
               | _ => None
               end
             else None)
          else match d c with
               | None => None
               | Some z =>
                   if padded && is_pad e then
                     match r with
                     | EmptyString => Some (String (byte1 x y) (String (byte2 y z) EmptyString))
                     | _ => None
                     end
                   else match d e with
                        | None => None
                        | Some u =>
                            match base64_quanta alphabet padded r with
                            | Some s' =>
                                Some (String (byte1 x y)
                                  (String (byte2 y z) (String (byte3 z u) s')))
                            | None => None
                            end
                        end
               end
      | _, _ => None
      end
  end.

Fixpoint strip_newlines (s : string) : string :=
  match s with
  | EmptyString => EmptyString
  | String a s =>
      if bool_decide (a = "010"%char) || bool_decide (a = "013"%char)
      then strip_newlines s else String a (strip_newlines s)
  end.

Definition StdEncoding_DecodeString (s : string) : option string :=
  base64_quanta std_alphabet true (strip_newlines s).
Definition RawStdEncoding_DecodeString (s : string) : option string :=
  base64_quanta std_alphabet false (strip_newlines s).
Definition RawURLEncoding_DecodeString (s : string) : option string :=
  base64_quanta url_alphabet false (strip_newlines s).

(** *** Round trips *)

Lemma dec_enc_sextet_std x : dec_sextet std_alphabet (enc_sextet std_alphabet x) = Some x.
Proof. destruct x as [[[[[[] []] []] []] []] []]; vm_compute; reflexivity. Qed.

Lemma dec_enc_sextet_url x : dec_sextet url_alphabet (enc_sextet url_alphabet x) = Some x.
Proof. destruct x as [[[[[[] []] []] []] []] []]; vm_compute; reflexivity. Qed.

Definition plain_byte (a : ascii) : bool :=
  negb (bool_decide (a = "010"%char) || bool_decide (a = "013"%char) || is_pad a).

Lemma enc_sextet_url_plain x : plain_byte (enc_sextet url_alphabet x) = true.
Proof. destruct x as [[[[[[] []] []] []] []] []]; vm_compute; reflexivity. Qed.

Lemma enc_sextet_std_plain x : plain_byte (enc_sextet std_alphabet x) = true.
Proof. destruct x as [[[[[[] []] []] []] []] []]; vm_compute; reflexivity. Qed.

Lemma strip_newlines_plain s : all_bytes plain_byte s = true → strip_newlines s = s.
Proof.
  induction s as [|a s IH]; [done|]. cbn [all_bytes strip_newlines].
  intros [Ha Hs]%andb_true_iff. unfold plain_byte in Ha.
  apply negb_true_iff, orb_false_iff in Ha as [Ha _]. rewrite Ha. f_equal. auto.
Qed.

(** Induction over strings three bytes at a time. *)
Lemma string_ind3 (P : string → Prop) :
  P "" → (∀ a, P (String a "")) → (∀ a b, P (String a (String b ""))) →
  (∀ a b c r, P r → P (String a (String b (String c r)))) → ∀ s, P s.
Proof.
  intros H0 H1 H2 H3.
  assert (∀ n s, String.length s ≤ n → P s) as H; [|by eauto].
  induction n as [|n IH]; intros [|a [|b [|c r]]] Hl; cbn in Hl; try lia; auto.
  apply H3, IH. lia.
Qed.

Lemma raw_url_plain s : all_bytes plain_byte (RawURLEncoding_EncodeToString s) = true.
Proof.
  unfold RawURLEncoding_EncodeToString.
  induction s as [|[]|[] []|[] [] [] r IH] using string_ind3;
    cbn [base64_encode all_bytes]; rewrite ?enc_sextet_url_plain; done.
Qed.

Lemma raw_url_roundtrip s :
  RawURLEncoding_DecodeString (RawURLEncoding_EncodeToString s) = Some s.
Proof.
  unfold RawURLEncoding_DecodeString. rewrite strip_newlines_plain by apply raw_url_plain.
  unfold RawURLEncoding_EncodeToString.
  induction s as [|[]|[] []|[] [] [] r IH] using string_ind3;
    cbn [base64_encode base64_quanta String.append andb]; rewrite ?dec_enc_sextet_url;
    [done|done|done|]. by rewrite IH.
Qed.

(** The padded encoding decodes with [StdEncoding]. *)
Lemma std_roundtrip s :
  base64_quanta std_alphabet true (base64_encode std_alphabet "=" s) = Some s.
Proof.
  assert (∀ x, is_pad (enc_sextet std_alphabet x) = false) as Hp.
  { intros x. pose proof (enc_sextet_std_plain x) as H. unfold plain_byte in H.
    apply negb_true_iff, orb_false_iff in H. tauto. }
  induction s as [|[]|[] []|[] [] [] r IH] using string_ind3;
    cbn [base64_encode base64_quanta andb]; [done|..].
  - change ("=" +:+ "=") with (String "=" (String "=" "")). cbn [base64_quanta].
    by rewrite !dec_enc_sextet_std.
  - by rewrite !dec_enc_sextet_std, Hp.
  - by rewrite !dec_enc_sextet_std, !Hp, IH.
Qed.
