(* ===== verification/GoText.v ===== *)
(** * The Go standard library the operator uses: UTF-8, [%q] and JSON text *)

From S2P Require Import Prelude GoStrings.
From Stdlib Require Import Ascii.

(** [strconv.IsPrint] on runes outside ASCII is a table of the Unicode
    database: a parameter.  On ASCII it is the range from space to tilde. *)
Class Unicode := is_print_wide : N → bool.

(** ** unicode/utf8 *)

Definition between (lo hi n : N) : bool := ((lo <=? n) && (n <=? hi))%N.
Definition cont (n : N) : bool := between 128 191 n.

(** [utf8.DecodeRuneInString] at the start of a non-empty string: the rune and
    its width, or [None] for an invalid sequence (width 1). *)
Definition DecodeRune (s : string) : option (N * nat) :=
  match s with
  | EmptyString => None
  | String a0 r =>
      let n0 := N_of_ascii a0 in
      if (n0 <? 128)%N then Some (n0, 1)
      else match r with
      | EmptyString => None
      | String a1 r =>
          let n1 := N_of_ascii a1 in
          if between 194 223 n0 && cont n1
          then Some (((n0 - 192) * 64 + (n1 - 128))%N, 2)
          else match r with
          | EmptyString => None
          | String a2 r =>
              let n2 := N_of_ascii a2 in
              let ok3 := if (n0 =? 224)%N then between 160 191 n1
                         else if (n0 =? 237)%N then between 128 159 n1
                         else between 225 239 n0 && cont n1 in
              if ok3 && cont n2
              then Some (((n0 - 224) * 4096 + (n1 - 128) * 64 + (n2 - 128))%N, 3)
              else match r with
              | EmptyString => None
              | String a3 _ =>
                  let n3 := N_of_ascii a3 in
                  let ok4 := if (n0 =? 240)%N then between 144 191 n1
                             else if (n0 =? 244)%N then between 128 143 n1
                             else between 241 243 n0 && cont n1 in
                  if ok4 && cont n2 && cont n3
                  then Some (((n0 - 240) * 262144 + (n1 - 128) * 4096 +
                              (n2 - 128) * 64 + (n3 - 128))%N, 4)
                  else None
              end
          end
      end
  end.

(** Hexadecimal rendering of a rune on a fixed number of digits. *)
Fixpoint hex_fixed (digits : nat) (n : N) (acc : string) : string :=
  match digits with
  | 0 => acc
  | S digits => hex_fixed digits (n / 16) (String (hex_digit (n mod 16)) acc)
  end.

Definition backslash : ascii := "\"%char.
Definition dquote : ascii := "034"%char.

Section text.
Context {U : Unicode}.

(** [strconv.IsPrint]. *)
Definition IsPrint (r : N) : bool :=
  if (r <? 128)%N then between 32 126 r else is_print_wide r.

(** [appendEscapedRune] of strconv, for a rune that starts the string [s] and
    is [width] bytes long. *)
Definition escape_rune (r : N) (width : nat) (s : string) : string :=
  if (r =? 34)%N || (r =? 92)%N then String backslash (take_bytes 1 s)
  else if IsPrint r then take_bytes width s
  else if (r =? 7)%N then "\a" else if (r =? 8)%N then "\b"
  else if (r =? 12)%N then "\f" else if (r =? 10)%N then "\n"
  else if (r =? 13)%N then "\r" else if (r =? 9)%N then "\t"
  else if (r =? 11)%N then "\v"
  else if (r <? 32)%N || (r =? 127)%N then "\x" +:+ hex_fixed 2 r ""
  else if (r <? 65536)%N then "\u" +:+ hex_fixed 4 r ""
  else "\U" +:+ hex_fixed 8 r "".

(** The body of [strconv.Quote]; [skip] counts the bytes of the current rune
    that were already handled. *)
Fixpoint quote_go (skip : nat) (s : string) : string :=
  match s with
  | EmptyString => EmptyString
  | String a r =>
      match skip with
      | S skip => quote_go skip r
      | 0 =>
          match DecodeRune s with
          | Some (rune, width) => escape_rune rune width s +:+ quote_go (width - 1) r
          | None => "\x" +:+ hex_byte a "" +:+ quote_go 0 r
          end
      end
  end.

(** [strconv.Quote], the [%q] verb on a string. *)
Definition Quote (s : string) : string :=
  String dquote (quote_go 0 s +:+ String dquote "").

(** Bytes that [%q] copies as they are. *)
Definition verbatim (a : ascii) : bool :=
  let n := N_of_ascii a in between 32 126 n && negb (n =? 34)%N && negb (n =? 92)%N.

Lemma DecodeRune_ascii a r :
  (N_of_ascii a <? 128)%N = true → DecodeRune (String a r) = Some (N_of_ascii a, 1).
Proof. intros H. cbn [DecodeRune]. by rewrite H. Qed.

Lemma verbatim_ascii a : verbatim a = true → (N_of_ascii a <? 128)%N = true.
Proof.
  unfold verbatim, between. rewrite !andb_true_iff, !N.leb_le, N.ltb_lt. lia.
Qed.

Lemma escape_rune_verbatim a r :
  verbatim a = true → escape_rune (N_of_ascii a) 1 (String a r) = String a "".
Proof.
  intros H. pose proof (verbatim_ascii a H) as Ha. unfold verbatim in H.
  apply andb_true_iff in H as [[Hb H1]%andb_true_iff H2].
  apply negb_true_iff in H1, H2. unfold escape_rune, IsPrint. by rewrite H1, H2, Ha, Hb.
Qed.

Lemma quote_go_verbatim s : all_bytes verbatim s = true → quote_go 0 s = s.
Proof.
  induction s as [|a s IH]; [done|]. cbn [all_bytes]. intros [Ha Hs]%andb_true_iff.
  cbn [quote_go]. rewrite DecodeRune_ascii by by apply verbatim_ascii.
  rewrite escape_rune_verbatim by done. cbn [Nat.sub]. by rewrite (IH Hs).
Qed.

Lemma Quote_verbatim s :
  all_bytes verbatim s = true → Quote s = String dquote (s +:+ String dquote "").
Proof. intros H. unfold Quote. by rewrite quote_go_verbatim. Qed.
End text.

(** ** encoding/json *)

(** [htmlSafeSet]: ASCII bytes that [json.Marshal] copies. *)
Definition json_safe (n : N) : bool :=
  between 32 127 n && negb (n =? 34)%N && negb (n =? 92)%N &&
  negb (n =? 60)%N && negb (n =? 62)%N && negb (n =? 38)%N.

Definition json_escape (n : N) : string :=
  if (n =? 34)%N || (n =? 92)%N then String backslash (String (ascii_of_N n) "")
  else if (n =? 8)%N then "\b" else if (n =? 12)%N then "\f"
  else if (n =? 10)%N then "\n" else if (n =? 13)%N then "\r"
  else if (n =? 9)%N then "\t"
  else "\u00" +:+ hex_fixed 2 n "".

(** [appendString] of encoding/json with HTML escaping on. *)
Fixpoint json_string_go (skip : nat) (s : string) : string :=
  match s with
  | EmptyString => EmptyString
  | String a r =>
      match skip with
      | S skip => json_string_go skip r
      | 0 =>
          let n := N_of_ascii a in
          if (n <? 128)%N then
            (if json_safe n then String a (json_string_go 0 r)
             else json_escape n +:+ json_string_go 0 r)
          else match DecodeRune s with
               | None => "\ufffd" +:+ json_string_go 0 r
               | Some (rune, width) =>
                   (if (rune =? 8232)%N || (rune =? 8233)%N
                    then "\u202" +:+ hex_fixed 1 rune ""
                    else take_bytes width s) +:+ json_string_go (width - 1) r
               end
      end
  end.

Definition json_string (s : string) : string :=
  String dquote (json_string_go 0 s +:+ String dquote "").

(** JSON values as the sources build them (Go maps and slices of
    [interface{}]). *)
Inductive json :=
| JStr (s : string)
| JInt (z : Z)
| JBool (b : bool)
| JArr (l : list json)
| JObj (l : list (string * json)).

Fixpoint join_with (sep : string) (l : list string) : string :=
  match l with
  | [] => ""
  | [x] => x
  | x :: l => x +:+ sep +:+ join_with sep l
  end.

(** [json.Marshal]: the fields in the order given (a struct's declaration
    order; a map's keys are sorted by the caller). *)
Fixpoint json_render (j : json) : string :=
  match j with
  | JStr s => json_string s
  | JInt z => itoa z
  | JBool b => if b then "true" else "false"
  | JArr l => "[" +:+ join_with "," (map json_render l) +:+ "]"
  | JObj l =>
      "{" +:+ join_with "," (map (λ '(k, v), json_string k +:+ ":" +:+ json_render v) l) +:+ "}"
  end.

(** The value of a field, as [m[k]] of a decoded map. *)
Fixpoint assoc {A} (k : string) (l : list (string * A)) : option A :=
  match l with
  | [] => None
  | (k', v) :: l => if k' =s k then Some v else assoc k l
  end.
