(* ===== verification/GoErrors.v ===== *)
(** * Errors as the sources build and inspect them

    Go errors are values with a message; [fmt.Errorf] with [%w] keeps the error
    it wraps reachable for [errors.Is] and [errors.As].  The sources
    distinguish Kubernetes API errors ([apierrors.IsNotFound],
    [apierrors.IsAlreadyExists], [meta.IsNoMatchError]), gRPC status errors
    ([grpcstatus.Code]) and one sentinel. *)

From S2P Require Import Prelude.

Inductive api_reason := NotFound | AlreadyExists | Conflict | OtherReason.

(** The gRPC codes the sources test for; the others are one constructor. *)
Inductive grpc_code :=
  CodeAlreadyExists | CodeInvalidArgument | CodeFailedPrecondition | CodeOther.

#[export] Instance api_reason_eq_dec : EqDecision api_reason.
Proof. solve_decision. Defined.
#[export] Instance grpc_code_eq_dec : EqDecision grpc_code.
Proof. solve_decision. Defined.

Inductive err :=
| Err (msg : string)                       (* errors.New, fmt.Errorf without %w *)
| EApi (r : api_reason) (msg : string)     (* apierrors.StatusError *)
| ENoMatch (msg : string)                  (* meta.NoKindMatchError *)
| EGrpc (c : grpc_code) (msg : string)     (* a gRPC status error *)
| EMembershipRemoved                       (* errMembershipRemoved *)
| EWrap (msg : string) (inner : err).      (* fmt.Errorf with %w *)

#[export] Instance err_eq_dec : EqDecision err.
Proof. solve_decision. Defined.

(** [errMembershipRemoved]'s text (openshellworkspacemember_controller.go). *)
Definition membershipRemovedText : string :=
  "workspace membership removed but re-add failed".

(** [err.Error()]. *)
Definition Error (e : err) : string :=
  match e with
  | Err m | EApi _ m | ENoMatch m | EGrpc _ m | EWrap m _ => m
  | EMembershipRemoved => membershipRemovedText
  end.

(** [fmt.Errorf("pre%w", e)]. *)
Definition Errorf_w (pre : string) (e : err) : err := EWrap (pre +:+ Error e) e.

(** [errors.As] walks the wrapped errors to the innermost one. *)
Fixpoint innermost (e : err) : err :=
  match e with EWrap _ e => innermost e | _ => e end.

Definition IsNotFound (e : err) : bool :=
  match innermost e with EApi NotFound _ => true | _ => false end.
Definition IsAlreadyExists (e : err) : bool :=
  match innermost e with EApi AlreadyExists _ => true | _ => false end.
Definition IsNoMatchError (e : err) : bool :=
  match innermost e with ENoMatch _ => true | _ => false end.
(** [errors.Is(err, errMembershipRemoved)]. *)
Definition IsMembershipRemoved (e : err) : bool :=
  match innermost e with EMembershipRemoved => true | _ => false end.
(** [grpcstatus.Code]: an error that is not a status error has code Unknown. *)
Definition Code (e : err) : grpc_code :=
  match innermost e with EGrpc c _ => c | _ => CodeOther end.

(** [client.IgnoreNotFound]. *)
Definition IgnoreNotFound (e : err) : option err :=
  if IsNotFound e then None else Some e.

Lemma innermost_wrap pre e : innermost (Errorf_w pre e) = innermost e.
Proof. done. Qed.
