(* ===== verification/GoUrl.v ===== *)
(** * The Go standard library the operator uses: query strings and URLs

    [url.Values] with [Get], [Set], [Encode] and [url.ParseQuery] are modelled;
    the URL grammar itself ([url.Parse], [URL.String]) is a parameter, of which
    the sources use the four components below. *)

From S2P Require Import Prelude GoStrings GoErrors.
From Stdlib Require Import Ascii.

(** ** url.QueryEscape and url.QueryUnescape *)

Definition unreserved (a : ascii) : bool :=
  let n := N_of_ascii a in
  ((48 <=? n) && (n <=? 57) || (65 <=? n) && (n <=? 90) || (97 <=? n) && (n <=? 122)
   || (n =? 45) || (n =? 46) || (n =? 95) || (n =? 126))%N.

Definition upper_hex (n : N) : ascii :=
  ascii_of_N (if (n <? 10)%N then 48 + n else 55 + n)%N.

Definition escape_byte (a : ascii) (rest : string) : string :=
  if unreserved a then String a rest
  else if bool_decide (a = " "%char) then String "+"%char rest
  else String "%"%char (String (upper_hex (N_of_ascii a / 16))
                         (String (upper_hex (N_of_ascii a mod 16)) rest)).

Fixpoint QueryEscape (s : string) : string :=
  match s with
  | EmptyString => EmptyString
  | String a s => escape_byte a (QueryEscape s)
  end.

Definition unhex (a : ascii) : option N :=
  let n := N_of_ascii a in
  if ((48 <=? n) && (n <=? 57))%N then Some (n - 48)%N
  else if ((97 <=? n) && (n <=? 102))%N then Some (n - 87)%N
  else if ((65 <=? n) && (n <=? 70))%N then Some (n - 55)%N
  else None.

Fixpoint QueryUnescape (s : string) : option string :=
  match s with
  | EmptyString => Some EmptyString
  | String a r =>
      if bool_decide (a = "%"%char) then
        match r with
        | String h (String l r') =>
            match unhex h, unhex l, QueryUnescape r' with
            | Some x, Some y, Some s' => Some (String (ascii_of_N (16 * x + y)) s')
            | _, _, _ => None
            end
        | _ => None
        end
      else match QueryUnescape r with
           | Some s' => Some (String (if bool_decide (a = "+"%char) then " "%char else a) s')
           | None => None
           end
  end.

Lemma unescape_escape_byte a r :
  QueryUnescape (escape_byte a r) =
    match QueryUnescape r with Some s => Some (String a s) | None => None end.
Proof. destruct a as [[] [] [] [] [] [] [] []]; reflexivity. Qed.

Lemma unescape_escape s : QueryUnescape (QueryEscape s) = Some s.
Proof.
  induction s as [|a s IH]; [done|]. cbn [QueryEscape].
  by rewrite unescape_escape_byte, IH.
Qed.

(** Bytes that separate pairs and keys from values. *)
Definition query_plain (a : ascii) : bool :=
  negb (bool_decide (a = "&"%char) || bool_decide (a = "="%char) || bool_decide (a = ";"%char)).

Lemma escape_byte_plain a r :
  all_bytes query_plain (escape_byte a r) = all_bytes query_plain r.
Proof. destruct a as [[] [] [] [] [] [] [] []]; reflexivity. Qed.

Lemma escape_plain s : all_bytes query_plain (QueryEscape s) = true.
Proof. induction s as [|a s IH]; [done|]. cbn [QueryEscape]. by rewrite escape_byte_plain. Qed.

Lemma escape_lacks c s :
  query_plain c = false → lacks c (QueryEscape s) = true.
Proof.
  intros Hc. eapply all_bytes_impl; [|apply (escape_plain s)].
  intros a Ha. apply negb_true_iff, bool_decide_eq_false. by intros ->; rewrite Ha in Hc.
Qed.

(** ** url.Values *)

Abbreviation Values := (gmap string (list string)).

(** [Values.Get]: the first value, or the empty string. *)
Definition Get (v : Values) (k : string) : string :=
  match v !! k with Some (x :: _) => x | _ => "" end.

(** [Values.Set]. *)
Definition VSet (k x : string) (v : Values) : Values := <[k := [x]]> v.

Definition sorted_keys {A} (m : gmap string A) : list string :=
  merge_sort String.le (elements (dom m)).

Definition pair_text (kv : string * string) : string :=
  QueryEscape kv.1 +:+ String "="%char (QueryEscape kv.2).

Definition pairs_of (v : Values) : list (string * string) :=
  k ← sorted_keys v; x ← default [] (v !! k); mret (k, x).

Fixpoint join_amp (l : list string) : string :=
  match l with
  | [] => ""
  | [x] => x
  | x :: l => x +:+ String "&"%char (join_amp l)
  end.

(** [Values.Encode]: sorted by key. *)
Definition Encode (v : Values) : string := join_amp (map pair_text (pairs_of v)).

(** [url.ParseQuery] on one key=value piece; pieces with a semicolon or a bad
    escape are dropped ([URL.Query] ignores the error). *)
Definition parse_pair (s : string) : option (string * string) :=
  if s =s "" then None
  else if negb (lacks ";"%char s) then None
  else let '(k, x) := match split_at "="%char s with Some kx => kx | None => (s, "") end in
       match QueryUnescape k, QueryUnescape x with
       | Some k, Some x => Some (k, x)
       | _, _ => None
       end.

Fixpoint split_amp_go (cur : string) (s : string) : list string :=
  match s with
  | EmptyString => [cur]
  | String a s =>
      if bool_decide (a = "&"%char) then cur :: split_amp_go "" s
      else split_amp_go (cur +:+ String a "") s
  end.

Definition add_value (v : Values) (kx : string * string) : Values :=
  <[kx.1 := default [] (v !! kx.1) ++ [kx.2]]> v.

Definition parse_pairs (s : string) : list (string * string) :=
  omap parse_pair (split_amp_go "" s).

Definition ParseQuery (s : string) : Values := foldl add_value ∅ (parse_pairs s).

(** *** [ParseQuery] inverts [Encode] on the pairs *)

Lemma split_amp_app cur s r :
  lacks "&"%char s = true →
  split_amp_go cur (s +:+ String "&"%char r) = (cur +:+ s) :: split_amp_go "" r.
Proof.
  unfold lacks. revert cur. induction s as [|a s IH]; intros cur.
  - intros _. change ("" +:+ String "&"%char r) with (String "&"%char r).
    cbn [split_amp_go]. rewrite bool_decide_eq_true_2 by done. by rewrite string_app_nil_r.
  - rewrite string_app_cons. cbn [all_bytes split_amp_go].
    intros [Ha Hs]%andb_true_iff. apply negb_true_iff in Ha. rewrite Ha, IH by done.
    by rewrite string_app_assoc.
Qed.

Lemma split_amp_last cur s :
  lacks "&"%char s = true → split_amp_go cur s = [cur +:+ s].
Proof.
  unfold lacks. revert cur. induction s as [|a s IH]; intros cur; cbn [all_bytes split_amp_go].
  - intros _. by rewrite string_app_nil_r.
  - intros [Ha Hs]%andb_true_iff. apply negb_true_iff in Ha. rewrite Ha, IH by done.
    by rewrite string_app_assoc.
Qed.

Lemma split_join_amp l :
  l ≠ [] → Forall (λ s, lacks "&"%char s = true) l → split_amp_go "" (join_amp l) = l.
Proof.
  intros Hne Hl. induction Hl as [|x l Hx Hl IH]; [done|].
  destruct l as [|y l]; cbn [join_amp].
  - by rewrite split_amp_last.
  - rewrite split_amp_app by done. f_equal. by apply IH.
Qed.

Lemma pair_text_lacks c kv :
  query_plain c = false → c ≠ "="%char → lacks c (pair_text kv) = true.
Proof.
  intros Hc Hne. unfold lacks, pair_text. rewrite all_bytes_app. cbn [all_bytes].
  rewrite (bool_decide_eq_false_2 ("="%char = c)) by done. cbn [negb andb].
  apply andb_true_iff. split; by apply escape_lacks.
Qed.

Lemma parse_pair_text kv : parse_pair (pair_text kv) = Some kv.
Proof.
  unfold parse_pair. rewrite bool_decide_eq_false_2.
  2:{ unfold pair_text. intros H. apply (f_equal String.length) in H.
      rewrite string_length_app in H. cbn in H. lia. }
  rewrite pair_text_lacks by done. cbn [negb].
  unfold pair_text. rewrite split_at_app by by apply escape_lacks.
  rewrite !unescape_escape. by destruct kv.
Qed.

Lemma parse_pairs_join l :
  l ≠ [] → parse_pairs (join_amp (map pair_text l)) = l.
Proof.
  intros Hne. unfold parse_pairs. rewrite split_join_amp.
  - clear Hne. induction l as [|kv l IH]; [done|]. cbn. by rewrite parse_pair_text, IH.
  - by destruct l.
  - apply Forall_map, Forall_true. intros kv. by apply pair_text_lacks.
Qed.

Lemma parse_pairs_Encode v : parse_pairs (Encode v) = pairs_of v.
Proof.
  unfold Encode. destruct (pairs_of v) as [|kv l] eqn:E; [done|]. by apply parse_pairs_join.
Qed.

(** The values a list of pairs gives to a key. *)
Definition values_at (k : string) (l : list (string * string)) : list string :=
  kx ← l; if kx.1 =s k then [kx.2] else [].

Lemma foldl_add_value m l k :
  default [] (foldl add_value m l !! k) = default [] (m !! k) ++ values_at k l.
Proof.
  revert m. induction l as [|[k' x] l IH]; intros m.
  { cbn. by rewrite app_nil_r. }
  change (values_at k ((k', x) :: l)) with ((if k' =s k then [x] else []) ++ values_at k l).
  cbn [foldl]. rewrite IH. unfold add_value at 1. cbn [fst snd].
  rewrite lookup_insert. case_bool_decide as Hk.
  - subst. rewrite decide_True by done.
    change (default [] (Some ?l)) with l. by rewrite <-app_assoc.
  - by rewrite decide_False.
Qed.

Lemma sorted_keys_spec {A} (m : gmap string A) k : k ∈ sorted_keys m ↔ is_Some (m !! k).
Proof. unfold sorted_keys. by rewrite merge_sort_Permutation, elem_of_elements, elem_of_dom. Qed.

Lemma sorted_keys_NoDup {A} (m : gmap string A) : NoDup (sorted_keys m).
Proof. unfold sorted_keys. rewrite merge_sort_Permutation. apply NoDup_elements. Qed.

Lemma sorted_keys_sorted {A} (m : gmap string A) : StronglySorted String.le (sorted_keys m).
Proof. apply StronglySorted_merge_sort; apply _. Qed.

Lemma values_at_app k l1 l2 : values_at k (l1 ++ l2) = values_at k l1 ++ values_at k l2.
Proof. unfold values_at. by rewrite bind_app. Qed.

Lemma values_at_same k xs : values_at k (x ← xs; mret (k, x)) = xs.
Proof.
  induction xs as [|x xs IH]; [done|].
  change (values_at k ((k, x) :: (x ← xs; mret (k, x))) = x :: xs).
  change (values_at k ((k, x) :: ?l)) with ((if k =s k then [x] else []) ++ values_at k l).
  rewrite bool_decide_eq_true_2 by done. cbn. by f_equal.
Qed.

Lemma values_at_other k k' xs : k' ≠ k → values_at k (x ← xs; mret (k', x)) = [].
Proof.
  intros Hk. induction xs as [|x xs IH]; [done|].
  change (values_at k ((k', x) :: (x ← xs; mret (k', x))) = []).
  change (values_at k ((k', x) :: ?l)) with ((if k' =s k then [x] else []) ++ values_at k l).
  by rewrite bool_decide_eq_false_2.
Qed.

Lemma values_at_pairs v k : values_at k (pairs_of v) = default [] (v !! k).
Proof.
  unfold pairs_of.
  assert (∀ ks, NoDup ks →
    values_at k (k ← ks; x ← default [] (v !! k); mret (k, x)) =
    if bool_decide (k ∈ ks) then default [] (v !! k) else []) as H.
  { intros ks Hnd. induction Hnd as [|k' ks Hk' Hnd IH]; [done|].
    rewrite bind_cons, values_at_app, IH. destruct (decide (k' = k)) as [->|Hne].
    - rewrite values_at_same, !bool_decide_decide.
      rewrite (decide_False (P := k ∈ ks)), (decide_True (P := k ∈ k :: ks)) by set_solver.
      by rewrite app_nil_r.
    - rewrite values_at_other by done. cbn [app].
      rewrite (bool_decide_ext (k ∈ ks) (k ∈ k' :: ks)) by set_solver. done. }
  rewrite H by apply sorted_keys_NoDup.
  case_bool_decide as Hk; [done|]. rewrite sorted_keys_spec in Hk.
  by apply eq_None_not_Some in Hk as ->.
Qed.

(** A client that parses an encoded query reads the values that were set. *)
Lemma Get_ParseQuery_Encode v k : Get (ParseQuery (Encode v)) k = Get v k.
Proof.
  assert (∀ w : Values, Get w k = hd "" (default [] (w !! k))) as HG.
  { intros w. unfold Get. by destruct (w !! k) as [[|]|]. }
  rewrite !HG. unfold ParseQuery. rewrite parse_pairs_Encode, foldl_add_value.
  by rewrite values_at_pairs, lookup_empty.
Qed.

(** ** url.URL *)

(** [Rest] stands for the fields the sources neither read nor write (user
    information, opaque part, fragment, encoding hints). *)
Record URL := mkURL {
  Scheme : string; UHost : string; Path : string; RawQuery : string; Rest : string
}.

(** [url.Parse] and [URL.String] for a URL that [Parse]
    returned and whose [RawQuery] was replaced. *)
Class GoURL := {
  url_Parse : string → err + URL;
  url_String : URL → string
}.

(** [u.Query()]. *)
Definition Query (u : URL) : Values := ParseQuery (RawQuery u).

(** [u.RawQuery = q]. *)
Definition with_query (u : URL) (q : string) : URL :=
  mkURL (Scheme u) (UHost u) (Path u) q (Rest u).
