(* ===== verification/GoPath.v ===== *)
(** * path/filepath: Clean and Join, for Unix paths

    Lexical processing of slash-separated paths, as the operator's manager and
    the smoke-test tool use it to name files below a directory. *)

From S2P Require Import Prelude GoStrings.
From Stdlib Require Import Ascii.

(** [strings.Split(s, "/")]. *)
Fixpoint split_slash (s : string) : list string :=
  match s with
  | EmptyString => [""]
  | String c s =>
      if bool_decide (c = "/"%char) then "" :: split_slash s
      else match split_slash s with
           | x :: l => String c x :: l
           | [] => [String c ""]
           end
  end.

(** [strings.Join(l, "/")]. *)
Fixpoint join_slash (l : list string) : string :=
  match l with
  | [] => ""
  | [x] => x
  | x :: l => x +:+ "/" +:+ join_slash l
  end.

(** The elements kept so far, the last one first: an empty element and [.]
    vanish, [..] undoes the element before it, and at the root nothing. *)
Definition clean_element (rooted : bool) (acc : list string) (x : string) : list string :=
  if (x =s "") || (x =s ".") then acc
  else if x =s ".." then
    match acc with
    | y :: acc' => if y =s ".." then ".." :: acc else acc'
    | [] => if rooted then [] else [".."]
    end
  else x :: acc.

Definition Clean (path : string) : string :=
  let rooted := HasPrefix path "/" in
  let l := reverse (foldl (clean_element rooted) [] (split_slash path)) in
  if rooted then "/" +:+ join_slash l
  else match l with [] => "." | _ => join_slash l end.

(** [filepath.Join]: empty elements in front are dropped. *)
Fixpoint Join (elem : list string) : string :=
  match elem with
  | [] => ""
  | x :: rest => if x =s "" then Join rest else Clean (join_slash (x :: rest))
  end.

(** ** Elements and paths *)

(** An element of a path: not empty, no slash, not [.] or [..]. *)
Definition proper (x : string) : Prop :=
  x ≠ "" ∧ x ≠ "." ∧ x ≠ ".." ∧ split_slash x = [x].

Lemma split_slash_app x s : split_slash x = [x] → split_slash (x +:+ "/" +:+ s) = x :: split_slash s.
Proof.
  induction x as [|c x IH]; intros Hx; [done|].
  cbn [split_slash] in Hx. change (String c x +:+ "/" +:+ s) with (String c (x +:+ "/" +:+ s)).
  cbn [split_slash]. case_bool_decide; [by destruct x|].
  destruct (split_slash x) as [|y l] eqn:E; [by destruct x; cbn in E; repeat case_match|].
  injection Hx as -> ->. by rewrite IH.
Qed.

Lemma split_join l : l ≠ [] → Forall proper l → split_slash (join_slash l) = l.
Proof.
  intros Hne HF. induction HF as [|x l (_ & _ & _ & Hx) HF IH]; [done|].
  destruct l as [|y l]; [done|]. change (join_slash (x :: y :: l)) with (x +:+ "/" +:+ join_slash (y :: l)).
  by rewrite split_slash_app, IH.
Qed.

Lemma clean_proper rooted acc l :
  Forall proper l → foldl (clean_element rooted) acc l = reverse l ++ acc.
Proof.
  intros HF. revert acc. induction HF as [|x l (H1 & H2 & H3 & _) HF IH]; intros acc; [done|].
  cbn [foldl]. rewrite IH, reverse_cons, <-app_assoc. f_equal. unfold clean_element.
  by rewrite !bool_decide_eq_false_2.
Qed.

Lemma proper_unrooted x s : proper x → HasPrefix (x +:+ s) "/" = false.
Proof.
  intros (H1 & _ & _ & Hx). destruct x as [|c x]; [done|]. cbn [split_slash] in Hx.
  change (HasPrefix (String c x +:+ s) "/")
    with (if ascii_dec "/"%char c then String.prefix "" (x +:+ s) else false).
  destruct (ascii_dec "/"%char c) as [<-|]; [|done].
  rewrite bool_decide_eq_true_2 in Hx by done. by injection Hx.
Qed.

Lemma join_slash_cons x l : ∃ s, join_slash (x :: l) = x +:+ s.
Proof. destruct l; [exists ""; by rewrite string_app_nil_r|by eexists]. Qed.

(** A clean relative path is its elements. *)
Lemma Clean_relative l : l ≠ [] → Forall proper l → Clean (join_slash l) = join_slash l.
Proof.
  intros Hne HF. unfold Clean. destruct l as [|x l]; [done|].
  destruct (join_slash_cons x l) as [s Hs]. pose proof (Forall_inv HF) as Hx.
  rewrite Hs at 1. rewrite (proper_unrooted x s) by done.
  rewrite split_join, clean_proper, app_nil_r, reverse_involutive by done. done.
Qed.

(** ... and an absolute one its elements below the root. *)
Lemma Clean_absolute l : l ≠ [] → Forall proper l → Clean ("/" +:+ join_slash l) = "/" +:+ join_slash l.
Proof.
  intros Hne HF. unfold Clean.
  assert (HasPrefix ("/" +:+ join_slash l) "/" = true) as -> by by destruct (join_slash l).
  change (split_slash ("/" +:+ join_slash l)) with ("" :: split_slash (join_slash l)).
  rewrite split_join by done. cbn [foldl]. change (clean_element true [] "") with (@nil string).
  by rewrite clean_proper, app_nil_r, reverse_involutive.
Qed.

Lemma join_slash_snoc l x : l ≠ [] → join_slash (l ++ [x]) = join_slash l +:+ "/" +:+ x.
Proof.
  intros Hne. induction l as [|y l IH]; [done|]. destruct l as [|z l]; [done|].
  change (join_slash ((y :: z :: l) ++ [x])) with (y +:+ "/" +:+ join_slash ((z :: l) ++ [x])).
  rewrite IH by done. change (join_slash (y :: z :: l)) with (y +:+ "/" +:+ join_slash (z :: l)).
  by rewrite !string_app_assoc.
Qed.

(** A file directly below a clean absolute directory. *)
Lemma Join_absolute l x :
  l ≠ [] → Forall proper l → proper x →
  Join ["/" +:+ join_slash l; x] = "/" +:+ join_slash l +:+ "/" +:+ x.
Proof.
  intros Hne HF Hx. cbn [Join]. rewrite bool_decide_eq_false_2 by by intros [=].
  change (join_slash ["/" +:+ join_slash l; x]) with (("/" +:+ join_slash l) +:+ "/" +:+ x).
  rewrite string_app_assoc, <-join_slash_snoc by done.
  apply Clean_absolute; [by destruct l|]. by apply Forall_snoc_iff.
Qed.
