(* ===== verification/Jwt.v ===== *)
(** * internal/authbridge/jwt.go: minting tokens and publishing the key

    The cryptography is a parameter ([Crypto]); the assembly of the token, the
    claims, the key identifier and the JWKS document are the code's own. *)

From S2P Require Import Prelude GoStrings GoEncoding GoText GoErrors.
From Stdlib Require Import Ascii.

(** ** The cryptographic primitives *)

Class Crypto := {
  rsa_key : Type;                                    (* *rsa.PrivateKey *)
  pem_Decode : string → option string;               (* the first block's bytes *)
  ParsePKCS8PrivateKey : string → err + option rsa_key;  (* None: not an RSA key *)
  MarshalPKCS1PublicKey : rsa_key → string;
  sha256_Sum256 : string → string;
  SignPKCS1v15 : rsa_key → string → err + string;    (* of a SHA-256 digest *)
  VerifyPKCS1v15 : rsa_key → string → string → bool; (* with its public half *)
  pub_N_Bytes : rsa_key → string;
  pub_E : rsa_key → N
}.

(** A signature made with a key verifies with its public half. *)
Class CryptoLaws (C : Crypto) : Prop := {
  sign_verifies : ∀ k digest sig,
    SignPKCS1v15 k digest = inr sig → VerifyPKCS1v15 k digest sig = true
}.

(** ** Time *)

(** [time.Time] and [time.Duration] in nanoseconds. *)
Definition Second : Z := 1000000000.
Definition Minute : Z := 60 * Second.
Definition Hour : Z := 60 * Minute.
(** [t.Unix()]. *)
Definition Unix (t : Z) : Z := t `div` Second.

Definition algRS256 : string := "RS256".

Section jwt.
Context {C : Crypto}.

Record JWTSigner := mkSigner { privateKey : rsa_key; kid : string }.

(** The key identifier derived from the public key's hash. *)
Definition derive_kid (key : rsa_key) : string :=
  hex_EncodeToString (take_bytes 16 (sha256_Sum256 (MarshalPKCS1PublicKey key))).

Definition NewJWTSignerFromPEM (signingPEM kid : string) : err + JWTSigner :=
  let kid := TrimSpace kid in
  match pem_Decode signingPEM with
  | None => inl (Err "no PEM block found in signing key")
  | Some block =>
      match ParsePKCS8PrivateKey block with
      | inl e => inl (Errorf_w "parsing signing key: " e)
      | inr None => inl (Err "signing key is not RSA")
      | inr (Some rsaKey) =>
          let kid := if kid =s "" then derive_kid rsaKey else kid in
          inr (mkSigner rsaKey kid)
      end
  end.

(** [type Claims] with [RealmAccess] inlined as its only field. *)
Record Claims := mkClaims {
  Issuer : string; Subject : string; Audience : string;
  ExpiresAt : Z; IssuedAt : Z;
  PreferredUsername : string; Email : string;
  Roles : list string
}.

(** The JSON shape of [Claims]: the struct tags, with [email,omitempty]. *)
Definition claims_json (c : Claims) : json :=
  JObj ([("iss", JStr (Issuer c)); ("sub", JStr (Subject c)); ("aud", JStr (Audience c));
         ("exp", JInt (ExpiresAt c)); ("iat", JInt (IssuedAt c));
         ("preferred_username", JStr (PreferredUsername c))]
        ++ (if Email c =s "" then [] else [("email", JStr (Email c))])
        ++ [("realm_access", JObj [("roles", JArr (map JStr (Roles c)))])]).

(** [map[string]string] marshals with its keys sorted. *)
Definition header_json (s : JWTSigner) : json :=
  JObj [("alg", JStr algRS256); ("kid", JStr (kid s)); ("typ", JStr "JWT")].

Definition mint_claims (now : Z) (issuer audience subject username email : string)
    (roles : list string) (ttl : Z) : Claims :=
  mkClaims issuer subject audience (Unix (now + ttl)) (Unix now) username email roles.

Definition dot : ascii := "."%char.

Definition signing_input (s : JWTSigner) (c : Claims) : string :=
  RawURLEncoding_EncodeToString (json_render (header_json s)) +:+
  String dot (RawURLEncoding_EncodeToString (json_render (claims_json c))).

(** [MintToken]; [now] is the value of [time.Now()] at its start. *)
Definition MintToken (s : JWTSigner) (now : Z)
    (issuer audience subject username email : string) (roles : list string) (ttl : Z)
    : err + string :=
  let claims := mint_claims now issuer audience subject username email roles ttl in
  let signingInput := signing_input s claims in
  let hash := sha256_Sum256 signingInput in
  match SignPKCS1v15 (privateKey s) hash with
  | inl e => inl (Errorf_w "signing JWT: " e)
  | inr signature =>
      inr (signingInput +:+ String dot (RawURLEncoding_EncodeToString signature))
  end.

(** [big.NewInt(int64(e)).Bytes()]: big-endian, no leading zero; an [int] has
    at most 8 bytes. *)
Fixpoint be_bytes (fuel : nat) (n : N) (acc : string) : string :=
  match fuel with
  | 0 => acc
  | S fuel =>
      if (n =? 0)%N then acc
      else be_bytes fuel (n / 256) (String (ascii_of_N (n mod 256)) acc)
  end.

(** [JWKS], as the document it marshals to. *)
Definition JWKS (s : JWTSigner) : json :=
  JObj [("keys", JArr [JObj
    [("kty", JStr "RSA");
     ("n", JStr (RawURLEncoding_EncodeToString (pub_N_Bytes (privateKey s))));
     ("e", JStr (RawURLEncoding_EncodeToString (be_bytes 8 (pub_E (privateKey s)) "")));
     ("kid", JStr (kid s)); ("use", JStr "sig"); ("alg", JStr algRS256)]])].

(** ** What a relying party does with a token *)

(** The three parts of a compact JWS, decoded, and the signed text. *)
Definition jws_open (tok : string) : option (string * string * string * string) :=
  match split_at dot tok with
  | None => None
  | Some (h, r) =>
      match split_at dot r with
      | None => None
      | Some (c, g) =>
          match RawURLEncoding_DecodeString h, RawURLEncoding_DecodeString c,
                RawURLEncoding_DecodeString g with
          | Some h', Some c', Some g' => Some (h', c', g', h +:+ String dot c)
          | _, _, _ => None
          end
      end
  end.

(** The payload a holder of the public key accepts. *)
Definition verify_token (key : rsa_key) (tok : string) : option (string * string) :=
  match jws_open tok with
  | Some (h, c, g, input) =>
      if VerifyPKCS1v15 key (sha256_Sum256 input) g then Some (h, c) else None
  | None => None
  end.

Lemma enc_sextet_no_dot x : bool_decide (enc_sextet url_alphabet x = dot) = false.
Proof. destruct x as [[[[[[] []] []] []] []] []]; vm_compute; reflexivity. Qed.

Lemma raw_url_no_dot s : lacks dot (RawURLEncoding_EncodeToString s) = true.
Proof.
  unfold RawURLEncoding_EncodeToString, lacks.
  induction s as [|[]|[] []|[] [] [] r IH] using string_ind3;
    cbn [base64_encode all_bytes]; rewrite ?enc_sextet_no_dot; cbn [negb andb];
    [done|done|done|exact IH].
Qed.

Lemma jws_open_mint h c g :
  jws_open ((RawURLEncoding_EncodeToString h +:+
               String dot (RawURLEncoding_EncodeToString c)) +:+
             String dot (RawURLEncoding_EncodeToString g)) =
  Some (h, c, g, RawURLEncoding_EncodeToString h +:+
                   String dot (RawURLEncoding_EncodeToString c)).
Proof.
  unfold jws_open. rewrite string_app_assoc, string_app_cons.
  rewrite split_at_app by apply raw_url_no_dot.
  rewrite split_at_app by apply raw_url_no_dot.
  by rewrite !raw_url_roundtrip.
Qed.

(** A minted token is accepted under the signer's key, and what is accepted is
    exactly the header and the claims that were asked for. *)
Lemma MintToken_verifies `{!CryptoLaws C} s now issuer audience subject username email roles ttl tok :
  MintToken s now issuer audience subject username email roles ttl = inr tok →
  verify_token (privateKey s) tok =
    Some (json_render (header_json s),
          json_render (claims_json
            (mint_claims now issuer audience subject username email roles ttl))).
Proof.
  unfold MintToken. destruct (SignPKCS1v15 _ _) as [e|g] eqn:Hs; [done|].
  intros [= <-]. unfold verify_token, signing_input. rewrite jws_open_mint.
  unfold signing_input in Hs. by rewrite (sign_verifies _ _ _ Hs).
Qed.

(** Two tokens that are equal were minted for the same claims text: a token is
    never reinterpreted. *)
Lemma MintToken_payload s now issuer audience subject username email roles ttl tok :
  MintToken s now issuer audience subject username email roles ttl = inr tok →
  ∃ g, jws_open tok =
    Some (json_render (header_json s),
          json_render (claims_json
            (mint_claims now issuer audience subject username email roles ttl)), g,
          signing_input s (mint_claims now issuer audience subject username email roles ttl)).
Proof.
  unfold MintToken. destruct (SignPKCS1v15 _ _) as [e|g] eqn:Hs; [done|].
  intros [= <-]. exists g. unfold signing_input. by rewrite jws_open_mint.
Qed.

(** The token is not the empty string, which [handleToken] uses as "no token". *)
Lemma MintToken_nonempty s now issuer audience subject username email roles ttl :
  MintToken s now issuer audience subject username email roles ttl ≠ inr "".
Proof.
  intros H. apply MintToken_payload in H as [g H].
  assert (jws_open "" = None) as E by reflexivity. by rewrite E in H.
Qed.
End jwt.

Arguments JWTSigner {C}.
