(* ===== verification/BridgeSig.v ===== *)
(** * What the auth-bridge process talks to

    The calls of cmd/auth-bridge and internal/authbridge: the clock, the random
    source, the environment and the file system, HTTP requests, and the two
    critical sections on the map of pending codes (server.go takes [codesMu]
    around each of them, so each is one atomic call). *)

From S2P Require Import Prelude Interaction GoStrings GoErrors GoUrl Jwt.

(** The two clients of [OpenShiftClient]: [saHTTPClient] follows no redirect
    and is the one that carries the bridge's own token. *)
Inductive http_client := httpClient | saHTTPClient.

Record http_request := mkReq {
  rq_method : string;
  rq_url : string;
  rq_headers : list (string * string);
  rq_basic : option (string * string);     (* SetBasicAuth *)
  rq_body : string
}.

Record http_response := mkResp { StatusCode : Z; Body : string }.

(** server.go: [type pendingCode]. *)
Record pendingCode := mkPending { jwt : string; expiresAt : Z; redirectURI : string }.

#[export] Instance http_client_eq_dec : EqDecision http_client.
Proof. solve_decision. Defined.
#[export] Instance pendingCode_eq_dec : EqDecision pendingCode.
Proof. solve_decision. Defined.

Section bridge_sig.
Context {C : Crypto}.

Inductive bcall :=
| BNow                                          (* time.Now() *)
| BRand (n : nat)                               (* n bytes of crypto/rand *)
| BGetenv (key : string)                        (* os.LookupEnv *)
| BReadFile (path : string)                     (* os.ReadFile *)
| BHttp (c : http_client) (r : http_request)    (* client.Do(req) *)
| BGenerateRSA                                  (* rsa.GenerateKey(rand, 2048) *)
| BTake (code : string)                         (* look up and delete, under codesMu *)
| BPut (code jwt redirectURI : string) (ttl : Z). (* insert unless full, under codesMu;
                                                   the section reads the clock *)

Definition bresp (c : bcall) : Type :=
  match c with
  | BNow => Z
  | BRand _ => string
  | BGetenv _ => option string
  | BReadFile _ => err + string
  | BHttp _ _ => err + http_response
  | BGenerateRSA => err + rsa_key
  | BTake _ => option pendingCode
  | BPut _ _ _ _ => bool
  end.

Definition BSig : sig := Sig bcall bresp.

(** One call of the bridge. *)
Definition bdo (c : bcall) : prog BSig (bresp c) := Call (S := BSig) c Ret.
End bridge_sig.

(** [os.Getenv]: unset and empty are the same. *)
Definition Getenv {C : Crypto} (key : string) : prog BSig string :=
  v ← bdo (BGetenv key); mret (default "" v).

(** [io.LimitReader]. *)
Fixpoint LimitReader (n : N) (s : string) : string :=
  match s with
  | EmptyString => EmptyString
  | String a s => if (n =? 0)%N then EmptyString else String a (LimitReader (n - 1) s)
  end.
