(* ===== verification/OpenShiftClient.v ===== *)
(** * internal/authbridge/openshift.go: the client of the OpenShift APIs

    [GetUserInfo] resolves an access token to an identity.  For a
    ServiceAccount it asks the Group objects for its memberships and, when the
    users API gives no uid, the TokenReview API for the uid. *)

From S2P Require Import Prelude Interaction GoStrings GoEncoding GoText GoErrors GoUrl Jwt BridgeSig.
From Stdlib Require Import Ascii.

(** [type TokenResponse]. *)
Record TokenResponse := mkTokenResponse {
  AccessToken : string; TokenType : string; ExpiresIn : Z; RefreshToken : string
}.

(** [type UserInfo]; also the shape of the users/~ answer. *)
Record UserInfo := mkUserInfo { Name : string; UID : string; Groups : list string }.

(** The answer of a TokenReview: authenticated, and the user's uid. *)
Record TokenReview := mkTokenReview { Authenticated : bool; ReviewUID : string }.

(** [json.Decoder.Decode] of a response body into the four structs the client
    declares.  JSON decoding is the library's: a parameter. *)
Class BodyDecode := {
  decode_TokenResponse : string → err + TokenResponse;
  decode_User : string → err + UserInfo;
  decode_TokenReview : string → err + TokenReview;
  decode_Group : string → err + list string
}.

(** [type OpenShiftClient].  The HTTP clients are the calls; of the transport
    they share, the PEM its certificate pool was filled from is kept ([None]: the
    system's roots). *)
Record OpenShiftClient := mkOSC {
  oauthServerURL : string; clientID : string; clientSecret : string; SATokenPath : string;
  RootCAs : option string
}.

Definition defaultSATokenPath : string := "/var/run/secrets/kubernetes.io/serviceaccount/token".

Definition saCACertPath : string := "/var/run/secrets/kubernetes.io/serviceaccount/ca.crt".

Definition slash : ascii := "/"%char.

Definition NewOpenShiftClient {C : Crypto} (oauthServerURL clientID clientSecret : string)
    : prog BSig OpenShiftClient :=
  caCert ← bdo (BReadFile saCACertPath);
  mret (mkOSC (TrimRightByte slash oauthServerURL) clientID clientSecret defaultSATokenPath
          (match caCert with inr pem => Some pem | inl _ => None end)).

Definition AuthorizationURL (c : OpenShiftClient) : string := oauthServerURL c +:+ "/oauth/authorize".
Definition TokenURL (c : OpenShiftClient) : string := oauthServerURL c +:+ "/oauth/token".

Definition grantAuthorizationCode : string := "authorization_code".

(** [url.PathEscape]: what a path segment may hold unescaped. *)
Definition segment_byte (a : ascii) : bool :=
  unreserved a || bool_decide (a ∈ ["$"; "&"; "+"; "="; ":"; "@"]%char).

Fixpoint PathEscape (s : string) : string :=
  match s with
  | EmptyString => EmptyString
  | String a s =>
      if segment_byte a then String a (PathEscape s)
      else String "%"%char (String (upper_hex (N_of_ascii a / 16))
                             (String (upper_hex (N_of_ascii a mod 16)) (PathEscape s)))
  end.

Definition bearer (token : string) : string * string := ("Authorization", "Bearer " +:+ token).

Definition saPrefix : string := "system:serviceaccount:".

Section client.
Context {C : Crypto} {D : BodyDecode} {L : GoURL} {U : Unicode}.

(** [http.NewRequestWithContext] fails on a URL that does not parse. *)
Definition NewRequest (rq : http_request) : err + http_request :=
  match url_Parse (rq_url rq) with
  | inr _ => inr rq
  | inl e => inl e
  end.

Definition kubeAPIURL : prog BSig string :=
  apiURL ← Getenv "KUBERNETES_API_URL";
  mret (TrimRightByte slash
    (if apiURL =s "" then "https://kubernetes.default.svc:443" else apiURL)).

Definition ExchangeCode (c : OpenShiftClient) (code redirectURI : string)
    : prog BSig (err + TokenResponse) :=
  let data : Values :=
    <["grant_type" := [grantAuthorizationCode]]>
      (<["code" := [code]]> (<["redirect_uri" := [redirectURI]]> ∅)) in
  match NewRequest (mkReq "POST" (TokenURL c)
          [("Content-Type", "application/x-www-form-urlencoded")]
          (Some (clientID c, clientSecret c)) (Encode data)) with
  | inl e => mret (inl (Errorf_w "creating token request: " e))
  | inr req =>
      r ← bdo (BHttp httpClient req);
      match r with
      | inl e => mret (inl (Errorf_w "token exchange: " e))
      | inr rs =>
          if negb (StatusCode rs =? 200)%Z
          then mret (inl (Err ("token exchange failed (" +:+ itoa (StatusCode rs) +:+ "): "
                                +:+ LimitReader 65536 (Body rs))))
          else match decode_TokenResponse (Body rs) with
               | inl e => mret (inl (Errorf_w "decoding token response: " e))
               | inr t => mret (inr t)
               end
      end
  end.

(** The bridge's own ServiceAccount token, as both lookups below read it. *)
Definition readSAToken (c : OpenShiftClient) : prog BSig (err + string) :=
  raw ← bdo (BReadFile (SATokenPath c));
  match raw with
  | inl _ => mret (inl (Err "reading service account token failed"))
  | inr raw =>
      let saToken := TrimSpace raw in
      if saToken =s "" then mret (inl (Err "service account token file is empty"))
      else mret (inr saToken)
  end.

(** A user name as stored in a Group object, possibly base64-encoded. *)
Definition group_user (u : string) : option string :=
  if HasPrefix u "b64:" then
    let encoded := TrimPrefix u "b64:" in
    match StdEncoding_DecodeString encoded with
    | Some d => Some d
    | None => RawStdEncoding_DecodeString encoded
    end
  else Some u.

Definition user_listed (username : string) (users : list string) : bool :=
  existsb (λ u, bool_decide (group_user u = Some username)) users.

Definition group_request (apiURL saToken groupName : string) : http_request :=
  mkReq "GET" (apiURL +:+ "/apis/user.openshift.io/v1/groups/" +:+ PathEscape groupName)
    [bearer saToken] None "".

(** The loop of [checkGroupMemberships], [matched] accumulated in order. *)
Fixpoint group_loop (apiURL saToken username : string) (groupNames matched : list string)
    : prog BSig (err + list string) :=
  match groupNames with
  | [] => mret (inr matched)
  | groupName :: rest =>
      if groupName =s "" then group_loop apiURL saToken username rest matched
      else
        match NewRequest (group_request apiURL saToken groupName) with
        | inl e => mret (inl e)
        | inr req =>
            r ← bdo (BHttp saHTTPClient req);
            match r with
            | inl e => mret (inl (Errorf_w ("group lookup for " +:+ Quote groupName +:+ ": ") e))
            | inr rs =>
                if (StatusCode rs =? 404)%Z
                then group_loop apiURL saToken username rest matched
                else if negb (StatusCode rs =? 200)%Z
                then mret (inl (Err ("group lookup for " +:+ Quote groupName
                       +:+ " failed with status " +:+ itoa (StatusCode rs))))
                else match decode_Group (LimitReader 1048576 (Body rs)) with
                     | inl e => mret (inl (Errorf_w ("decoding group " +:+ groupName +:+ ": ") e))
                     | inr users =>
                         group_loop apiURL saToken username rest
                           (if user_listed username users then matched ++ [groupName] else matched)
                     end
            end
        end
  end.

Definition checkGroupMemberships (c : OpenShiftClient) (username : string)
    (groupNames : list string) : prog BSig (err + list string) :=
  apiURL ← kubeAPIURL;
  saToken ←? readSAToken c;
  group_loop apiURL saToken username groupNames [].

Definition review_body (token : string) : string :=
  json_render (JObj [("apiVersion", JStr "authentication.k8s.io/v1"); ("kind", JStr "TokenReview");
                     ("spec", JObj [("token", JStr token)])]).

Definition review_request (apiURL saToken token : string) : http_request :=
  mkReq "POST" (apiURL +:+ "/apis/authentication.k8s.io/v1/tokenreviews")
    [bearer saToken; ("Content-Type", "application/json")] None (review_body token).

Definition tokenReviewUID (c : OpenShiftClient) (token : string) : prog BSig (err + string) :=
  saToken ←? readSAToken c;
  apiURL ← kubeAPIURL;
  match NewRequest (review_request apiURL saToken token) with
  | inl e => mret (inl e)
  | inr req =>
      r ← bdo (BHttp saHTTPClient req);
      match r with
      | inl e => mret (inl (Errorf_w "TokenReview request: " e))
      | inr rs =>
          if negb (StatusCode rs =? 201)%Z && negb (StatusCode rs =? 200)%Z
          then mret (inl (Err ("TokenReview failed with status " +:+ itoa (StatusCode rs))))
          else match decode_TokenReview (LimitReader 65536 (Body rs)) with
               | inl e => mret (inl (Errorf_w "decoding TokenReview response: " e))
               | inr raw =>
                   if negb (Authenticated raw)
                   then mret (inl (Err "TokenReview: token did not authenticate"))
                   else if ReviewUID raw =s ""
                   then mret (inl (Err "TokenReview: response has no user uid"))
                   else mret (inr (ReviewUID raw))
               end
      end
  end.

(** [info.Groups] extended with the groups not already [seen]. *)
Definition add_unseen (groups extra : list string) : list string :=
  groups ++ filter (λ g, g ∉ groups) extra.

Definition users_request (apiURL accessToken : string) : http_request :=
  mkReq "GET" (apiURL +:+ "/apis/user.openshift.io/v1/users/~") [bearer accessToken] None "".

(** The ServiceAccount part of [GetUserInfo]. *)
Definition complete_sa (c : OpenShiftClient) (accessToken : string) (info : UserInfo)
    (groupNames : list string) : prog BSig (err + UserInfo) :=
  g ← match groupNames with
      | [] => mret (inr [])
      | _ => checkGroupMemberships c (Name info) groupNames
      end;
  match g with
  | inl e => mret (inl (Errorf_w ("group CR lookup for " +:+ Quote (Name info) +:+ ": ") e))
  | inr extra =>
      let info := mkUserInfo (Name info) (UID info) (add_unseen (Groups info) extra) in
      if UID info =s "" then
        u ← tokenReviewUID c accessToken;
        match u with
        | inl e =>
            mret (inl (Errorf_w ("resolving ServiceAccount UID for " +:+ Quote (Name info) +:+ ": ") e))
        | inr uid => mret (inr (mkUserInfo (Name info) uid (Groups info)))
        end
      else mret (inr info)
  end.

Definition GetUserInfo (c : OpenShiftClient) (accessToken : string) (groupNames : list string)
    : prog BSig (err + UserInfo) :=
  apiURL ← kubeAPIURL;
  match NewRequest (users_request apiURL accessToken) with
  | inl e => mret (inl e)
  | inr req =>
      r ← bdo (BHttp httpClient req);
      match r with
      | inl e => mret (inl (Errorf_w "user info request: " e))
      | inr rs =>
          if negb (StatusCode rs =? 200)%Z
          then mret (inl (Err ("user info failed (" +:+ itoa (StatusCode rs) +:+ "): "
                                +:+ LimitReader 512 (Body rs))))
          else match decode_User (Body rs) with
               | inl e => mret (inl (Errorf_w "decoding user info: " e))
               | inr info =>
                   if HasPrefix (Name info) saPrefix
                   then complete_sa c accessToken info groupNames
                   else mret (inr info)
               end
      end
  end.

(** ** What the identity rests on *)

(** The users API answered for this access token. *)
Definition identified (t : list (event BSig)) (accessToken : string) (raw : UserInfo) : Prop :=
  ∃ apiURL rs, Ev (S := BSig) (BHttp httpClient (users_request apiURL accessToken)) (inr rs) ∈ t ∧
    StatusCode rs = 200%Z ∧ decode_User (Body rs) = inr raw.

(** A Group object lists the user. *)
Definition backed (t : list (event BSig)) (username g : string) : Prop :=
  ∃ apiURL saToken rs users,
    Ev (S := BSig) (BHttp saHTTPClient (group_request apiURL saToken g)) (inr rs) ∈ t ∧
    StatusCode rs = 200%Z ∧ decode_Group (LimitReader 1048576 (Body rs)) = inr users ∧
    user_listed username users = true.

(** The TokenReview API authenticated the token and gave the uid. *)
Definition reviewed (t : list (event BSig)) (accessToken uid : string) : Prop :=
  ∃ apiURL saToken rs raw,
    Ev (S := BSig) (BHttp saHTTPClient (review_request apiURL saToken accessToken)) (inr rs) ∈ t ∧
    decode_TokenReview (LimitReader 65536 (Body rs)) = inr raw ∧
    Authenticated raw = true ∧ ReviewUID raw = uid ∧ uid ≠ "".

(** The identity [info] is what the cluster says of [accessToken]. *)
Definition vouched (t : list (event BSig)) (accessToken : string) (groupNames : list string)
    (info : UserInfo) : Prop :=
  ∃ raw, identified t accessToken raw ∧ Name info = Name raw ∧
    (∀ g, g ∈ Groups info →
      g ∈ Groups raw ∨
      HasPrefix (Name raw) saPrefix = true ∧ g ≠ "" ∧ g ∈ groupNames ∧ backed t (Name raw) g) ∧
    (UID info = UID raw ∨ reviewed t accessToken (UID info)) ∧
    (HasPrefix (Name info) saPrefix = true → UID info ≠ "").

(** The bridge's ServiceAccount token was read from its file. *)
Definition sa_token_read (c : OpenShiftClient) (t : list (event BSig)) (sa : string) : Prop :=
  ∃ raw, Ev (S := BSig) (BReadFile (SATokenPath c)) (inr raw) ∈ t ∧
    sa = TrimSpace raw ∧ sa ≠ "".

(** What resolving [accessToken] may do.  The user's token goes to the users
    API as a credential and to the TokenReview API as the thing reviewed; the
    requests made with the bridge's own token go through the client that
    follows no redirect; nothing touches the pending codes. *)
Definition lookup_guard (c : OpenShiftClient) (accessToken : string)
    (t : list (event BSig)) (b : call BSig) : Prop :=
  match b with
  | BGetenv _ | BReadFile _ => True
  | BHttp httpClient rq => ∃ apiURL, rq = users_request apiURL accessToken
  | BHttp saHTTPClient rq =>
      ∃ apiURL sa, sa_token_read c t sa ∧
        (rq = review_request apiURL sa accessToken ∨
         ∃ g, g ≠ "" ∧ rq = group_request apiURL sa g)
  | _ => False
  end.

Lemma identified_mono t t' tok raw : t ⊆ t' → identified t tok raw → identified t' tok raw.
Proof. intros Hp (a & rs & H & ?). exists a, rs. eauto with ogo. Qed.

Lemma backed_mono t t' n g : t ⊆ t' → backed t n g → backed t' n g.
Proof. intros Hp (a & s & rs & us & H & ?). exists a, s, rs, us. eauto with ogo. Qed.

Lemma reviewed_mono t t' tok uid : t ⊆ t' → reviewed t tok uid → reviewed t' tok uid.
Proof. intros Hp (a & s & rs & us & H & ?). exists a, s, rs, us. eauto with ogo. Qed.

Lemma sa_token_read_mono c t t' sa : t ⊆ t' → sa_token_read c t sa → sa_token_read c t' sa.
Proof. intros Hp (raw & H & ?). exists raw. eauto with ogo. Qed.

Lemma vouched_mono t t' tok names info :
  t ⊆ t' → vouched t tok names info → vouched t' tok names info.
Proof.
  intros Hp (raw & Hid & Hn & Hg & Hu & Hs). exists raw.
  split; [by eapply identified_mono|]. split; [done|]. split; [|split; [|done]].
  - intros g Hg'. destruct (Hg g Hg') as [?|(? & ? & ? & ?)]; eauto 8 using backed_mono.
  - destruct Hu; eauto using reviewed_mono.
Qed.

Lemma NewRequest_id rq rq' : NewRequest rq = inr rq' → rq' = rq.
Proof. unfold NewRequest. destruct (url_Parse _); congruence. Qed.

Lemma kubeAPIURL_spec c tok t : always (lookup_guard c tok) (λ _ _, True) t kubeAPIURL.
Proof. by repeat split. Qed.

Lemma readSAToken_spec c tok t :
  always (lookup_guard c tok) (λ t' r, ∀ sa, r = inr sa → sa_token_read c t' sa)
    t (readSAToken c).
Proof.
  unfold readSAToken. always_step; [done|]. destruct r as [e|raw]; [done|].
  case_bool_decide as Hs; [done|]. cbn. intros sa [= <-]. exists raw.
  split; [|done]. apply elem_of_snoc. auto.
Qed.

Lemma group_loop_spec c tok apiURL saToken username (all names matched : list string) t :
  sa_token_read c t saToken →
  (∀ g, g ∈ names → g ∈ all) →
  (∀ g, g ∈ matched → g ≠ "" ∧ g ∈ all ∧ backed t username g) →
  always (lookup_guard c tok) (λ t' r, ∀ extra, r = inr extra →
      ∀ g, g ∈ extra → g ≠ "" ∧ g ∈ all ∧ backed t' username g)
    t (group_loop apiURL saToken username names matched).
Proof.
  revert matched t. induction names as [|g0 names IH]; intros matched t Hsa Hall Hm.
  { cbn. naive_solver. }
  apply Forall_forall in Hall. apply Forall_cons in Hall as [Hhd Htl].
  rewrite Forall_forall in Htl.
  cbn [group_loop]. case_bool_decide as Hg; [by apply IH|].
  destruct (NewRequest _) as [e|rq] eqn:Hrq; [done|].
  apply NewRequest_id in Hrq as ->.
  always_step; [cbn; by eauto 8|]. destruct r as [e|rs]; [done|].
  set (t' := t ++ _). assert (t ⊆ t') as Hp by apply hist_grow.
  assert (sa_token_read c t' saToken) as Hsa' by eauto using sa_token_read_mono.
  assert (∀ g, g ∈ matched → g ≠ "" ∧ g ∈ all ∧ backed t' username g) as Hm'.
  { intros g Hg'. destruct (Hm g Hg') as (? & ? & ?). eauto using backed_mono. }
  destruct (Z.eqb_spec (StatusCode rs) 404); [by apply IH|].
  destruct (Z.eqb_spec (StatusCode rs) 200) as [H200|]; [|done]. cbn [negb].
  destruct (decode_Group _) as [e|users] eqn:Hd; [done|].
  apply IH; [done..|]. destruct (user_listed username users) eqn:Hu; [|done].
  intros g [Hg'| ->]%elem_of_snoc; [auto|]. split; [done|]. split; [done|].
  exists apiURL, saToken, rs, users. split; [apply elem_of_snoc; auto|done].
Qed.

Lemma checkGroupMemberships_spec c tok username names t :
  always (lookup_guard c tok) (λ t' r, ∀ extra, r = inr extra →
      ∀ g, g ∈ extra → g ≠ "" ∧ g ∈ names ∧ backed t' username g)
    t (checkGroupMemberships c username names).
Proof.
  unfold checkGroupMemberships. eapply always_cut; [apply kubeAPIURL_spec|]. intros t0 api _.
  eapply always_cut; [apply readSAToken_spec|]. intros t' [e|sa] Hsa; [done|].
  apply group_loop_spec; [by apply Hsa|done|]. intros g []%not_elem_of_nil.
Qed.

Lemma tokenReviewUID_spec c token t :
  always (lookup_guard c token) (λ t' r, ∀ uid, r = inr uid → reviewed t' token uid)
    t (tokenReviewUID c token).
Proof.
  unfold tokenReviewUID. eapply always_cut; [apply readSAToken_spec|].
  intros t' [e|sa] Hsa; [done|]. specialize (Hsa sa eq_refl).
  eapply always_cut_grow; [apply kubeAPIURL_spec|]. intros t0 api Hp _.
  destruct (NewRequest _) as [e|rq] eqn:Hrq; [done|].
  apply NewRequest_id in Hrq as ->.
  always_step; [cbn; by eauto 8 using sa_token_read_mono|]. destruct r as [e|rs]; [done|].
  destruct (negb _ && _); [done|].
  destruct (decode_TokenReview _) as [e|raw] eqn:Hd; [done|].
  destruct (Authenticated raw) eqn:Ha; [|done]. cbn [negb].
  case_bool_decide as Hu; [done|]. cbn. intros uid [= <-].
  exists api, sa, rs, raw. split; [|done]. apply elem_of_snoc. auto.
Qed.

Lemma complete_sa_spec c tok raw names t :
  HasPrefix (Name raw) saPrefix = true → identified t tok raw →
  always (lookup_guard c tok) (λ t' r, ∀ info, r = inr info → vouched t' tok names info)
    t (complete_sa c tok raw names).
Proof.
  intros Hpre Hid. unfold complete_sa.
  eapply always_cut_grow with (R := λ t' r, ∀ extra, r = inr extra →
      ∀ g, g ∈ extra → g ≠ "" ∧ g ∈ names ∧ backed t' (Name raw) g).
  { destruct names as [|n ns]; [|apply checkGroupMemberships_spec].
    cbn. intros extra [= <-]. set_solver. }
  intros t' [e|extra] Hp Hx; [done|]. specialize (Hx _ eq_refl). cbn [UID Name Groups].
  assert (∀ t'', t' ⊆ t'' → ∀ g, g ∈ add_unseen (Groups raw) extra →
    g ∈ Groups raw ∨ HasPrefix (Name raw) saPrefix = true ∧ g ≠ "" ∧ g ∈ names ∧
      backed t'' (Name raw) g) as HG.
  { intros t'' Hp' g [Hg|[_ Hg]%list_elem_of_filter]%elem_of_app; [by left|right].
    destruct (Hx g Hg) as (? & ? & ?). eauto 6 using backed_mono. }
  case_bool_decide as Hu.
  - eapply always_cut_grow; [apply tokenReviewUID_spec|].
    intros t'' [e|uid] Hp' Hr; [done|]. cbn. intros info [= <-].
    specialize (Hr _ eq_refl). exists raw. split; [by eauto using identified_mono|].
    split; [done|]. split; [by apply HG|]. split; [by right|].
    intros _. by destruct Hr as (? & ? & ? & ? & ? & ? & ? & <- & ?).
  - cbn. intros info [= <-]. exists raw. split; [by eauto using identified_mono|].
    split; [done|]. split; [by apply HG|]. split; [by left|done].
Qed.

(** The specification of [GetUserInfo], for its callers. *)
Lemma GetUserInfo_spec c tok names t :
  always (lookup_guard c tok) (λ t' r, ∀ info, r = inr info → vouched t' tok names info)
    t (GetUserInfo c tok names).
Proof.
  unfold GetUserInfo.
  eapply always_cut; [apply kubeAPIURL_spec|]. intros t' api _.
  destruct (NewRequest _) as [e|rq] eqn:Hrq; [done|].
  apply NewRequest_id in Hrq as ->.
  always_step; [cbn; by eauto|]. destruct r as [e|rs]; [done|].
  destruct (Z.eqb_spec (StatusCode rs) 200) as [H200|]; [|done]. cbn [negb].
  destruct (decode_User _) as [e|raw] eqn:Hd; [done|].
  assert (∀ t0, identified (t0 ++ [Ev (S := BSig) (BHttp httpClient (users_request api tok)) (inr rs)])
    tok raw) as Hid.
  { intros t0. exists api, rs. split; [|done]. apply elem_of_snoc. auto. }
  destruct (HasPrefix (Name raw) saPrefix) eqn:Hpre; [by apply complete_sa_spec|].
  cbn. intros info [= <-]. exists raw. split; [done|]. split; [done|]. split; [by auto|].
  split; [by left|]. congruence.
Qed.
End client.
