(* ===== verification/BridgeServer.v ===== *)
(** * internal/authbridge/server.go: the OIDC bridge's HTTP handlers

    Each handler is an interaction program that returns the response it
    writes.  The map of pending codes is the shared state; the critical
    sections on it are [codes_take] and [codes_put], the sweeper is
    [sweep_codes]. *)

From S2P Require Import Prelude Interaction GoStrings GoText GoErrors GoUrl Jwt BridgeSig.
From S2P Require Import OpenShiftClient.
From Stdlib Require Import Ascii.

Definition responseTypeCode : string := "code".
Definition tokenTypeBearer : string := "Bearer".
Definition roleUser : string := "openshell-user".
Definition roleAdmin : string := "openshell-admin".

(** [type Config]. *)
Record Config := mkConfig {
  cfgIssuer : string; cfgExternalIssuer : string; cfgAudience : string;
  cfgListenAddr : string; cfgOpenShiftOAuth : string;
  cfgClientID : string; cfgClientSecret : string;
  cfgUserGroup : string; cfgAdminGroup : string;
  cfgTokenTTL : Z
}.

(** ** Requests and responses *)

(** An incoming request as net/http hands it to a handler: [Form] is the
    outcome of [r.ParseForm()]. *)
Record request := mkRequest {
  Method : string; URLPath : string; RHost : string;
  RQuery : Values; Form : option Values; Authorization : string
}.

Inductive response :=
| RError (msg : string) (code : Z)      (* http.Error *)
| RRedirect (location : string)         (* http.Redirect with StatusFound *)
| RJson (doc : json)                    (* 200, application/json, Encode(doc) *)
| RPlain (body : string)                (* 200 and a body *)
| RNotFound.                            (* the mux has no such path *)

(** [securityHeaders] puts these on every response. *)
Definition security_headers : list (string * string) :=
  [("X-Content-Type-Options", "nosniff"); ("X-Frame-Options", "DENY"); ("Cache-Control", "no-store")].

Definition securityHeaders {S} (next : request → prog S response) (r : request)
    : prog S (list (string * string) * response) :=
  rs ← next r; mret (security_headers, rs).

(** ** The pending codes *)

Definition maxPendingCodes : nat := Z.to_nat 10000.

(** [if len(s.codes) >= maxPendingCodes { ... }; s.codes[code] = &pendingCode{...}]. *)
Definition codes_put (codes : gmap string pendingCode) (now : Z)
    (code jwt redirectURI : string) (ttl : Z) : bool * gmap string pendingCode :=
  if (maxPendingCodes <=? size codes)%nat then (false, codes)
  else (true, <[code := mkPending jwt (now + ttl) redirectURI]> codes).

(** [pending, ok := s.codes[code]; if ok { delete(s.codes, code) }]. *)
Definition codes_take (codes : gmap string pendingCode) (code : string)
    : option pendingCode * gmap string pendingCode :=
  match codes !! code with
  | Some p => (Some p, delete code codes)
  | None => (None, codes)
  end.

(** [now.After(v.expiresAt)]. *)
Definition expired (now : Z) (p : pendingCode) : bool := (expiresAt p <? now)%Z.

(** One tick of [sweepExpiredCodes]. *)
Definition sweep_codes (now : Z) (codes : gmap string pendingCode) : gmap string pendingCode :=
  filter (λ kp, expired now kp.2 = false) codes.

(** ** Pure helpers *)

(** [splitState]: at the first colon. *)
Definition splitState (combined : string) : string * string :=
  match split_at ":"%char combined with
  | Some (a, b) => (a, b)
  | None => (combined, "")
  end.

Definition isAuthorized (cfg : Config) (username : string) (groups : list string) : bool :=
  if username =s "kube:admin" then true
  else if cfgUserGroup cfg =s "" then false
  else existsb (λ g, g =s cfgUserGroup cfg) groups.

Definition mapRoles (cfg : Config) (groups : list string) : list string :=
  roleUser ::
  (if cfgAdminGroup cfg <>s "" then
     if existsb (λ g, g =s cfgAdminGroup cfg) groups then [roleAdmin] else []
   else []).

(** [int(ttl.Seconds())], exact for durations of whole seconds. *)
Definition ttl_seconds (ttl : Z) : Z := Z.quot ttl Second.

(** The literal error documents of the token endpoints. *)
Definition dquoted (s : string) : string := String dquote (s +:+ String dquote "").
Definition error_doc (msg : string) : string :=
  "{" +:+ dquoted "error" +:+ ":" +:+ dquoted msg +:+ "}".

Section server.
Context {C : Crypto} {D : BodyDecode} {L : GoURL} {U : Unicode}.

(** [type Server], the code map being the shared state. *)
Record Server := mkServer { config : Config; signer : JWTSigner; osc : OpenShiftClient }.

Definition generateCode : prog BSig string :=
  b ← bdo (BRand 16); mret (hex_EncodeToString b).

Definition local_host (host : string) : bool :=
  (host =s "localhost") || (host =s "127.0.0.1") ||
  HasPrefix host "localhost:" || HasPrefix host "127.0.0.1:".

Definition isAllowedRedirectURI (cfg : Config) (uri : string) : bool :=
  if uri =s "" then false
  else match url_Parse uri with
  | inl _ => false
  | inr u =>
      if UHost u =s "" then false
      else if (Scheme u <>s "http") && (Scheme u <>s "https") then false
      else if local_host (UHost u) then true
      else if cfgExternalIssuer cfg <>s "" then
        match url_Parse (cfgExternalIssuer cfg) with
        | inr allowed => (UHost u =s UHost allowed) && HasPrefix (Path u) "/callback"
        | inl _ => false
        end
      else false
  end.

Definition handleDiscovery (s : Server) (r : request) : prog BSig response :=
  let cfg := config s in
  let local := HasPrefix (RHost r) "localhost" || HasPrefix (RHost r) "127.0.0.1" in
  let base := if local then cfgIssuer cfg else cfgExternalIssuer cfg in
  mret (RJson (JObj
    [("authorization_endpoint", JStr (cfgExternalIssuer cfg +:+ "/authorize"));
     ("grant_types_supported", JArr [JStr grantAuthorizationCode]);
     ("issuer", JStr base);
     ("jwks_uri", JStr (base +:+ "/jwks"));
     ("response_types_supported", JArr [JStr responseTypeCode]);
     ("scopes_supported", JArr [JStr "openid"; JStr "profile"; JStr "email"]);
     ("subject_types_supported", JArr [JStr "public"]);
     ("token_endpoint", JStr (cfgExternalIssuer cfg +:+ "/token"));
     ("token_endpoint_auth_methods_supported", JArr [JStr "client_secret_basic"])])).

Definition handleJWKS (s : Server) (_ : request) : prog BSig response :=
  mret (RJson (JWKS (signer s))).

Definition authorize_params (s : Server) (bridgeState state : string) : Values :=
  <["response_type" := ["code"]]> (<["client_id" := [cfgClientID (config s)]]>
    (<["redirect_uri" := [cfgExternalIssuer (config s) +:+ "/callback"]]>
      (<["state" := [bridgeState +:+ String ":"%char state]]>
        (<["scope" := ["user:info"]]> ∅)))).

Definition handleAuthorize (s : Server) (r : request) : prog BSig response :=
  let clientRedirectURI := Get (RQuery r) "redirect_uri" in
  let state := Get (RQuery r) "state" in
  if negb (isAllowedRedirectURI (config s) clientRedirectURI)
  then mret (RError "invalid redirect_uri" 400)
  else
    bridgeState ← generateCode;
    ok ← bdo (BPut bridgeState "" clientRedirectURI (5 * Minute));
    if negb ok then mret (RError "too many pending requests" 503)
    else mret (RRedirect (AuthorizationURL (osc s) +:+ "?" +:+
                 Encode (authorize_params s bridgeState state))).

(** The token for an identity, as both flows mint it. *)
Definition mint_for (s : Server) (now : Z) (info : UserInfo) : err + string :=
  MintToken (signer s) now (cfgIssuer (config s)) (cfgAudience (config s))
    (UID info) (Name info) "" (mapRoles (config s) (Groups info)) (cfgTokenTTL (config s)).

Definition access_denied (cfg : Config) (name : string) : string :=
  "access denied: user " +:+ Quote name +:+
  " is not a member of the required OpenShift group " +:+ Quote (cfgUserGroup cfg).

(** The end of [handleCallback]: the browser goes back to the client's
    redirect URI with the bridge code and the client's own state. *)
Definition callback_redirect (redirectURL bridgeCode clientState : string) : response :=
  if redirectURL =s "" then RError "missing redirect_uri" 400
  else match url_Parse redirectURL with
       | inl _ => RError "invalid redirect URI" 400
       | inr u =>
           let q := VSet "state" clientState (VSet "code" bridgeCode (Query u)) in
           RRedirect (url_String (with_query u (Encode q)))
       end.

Definition handleCallback (s : Server) (r : request) : prog BSig response :=
  let code := Get (RQuery r) "code" in
  let '(bridgeState, clientState) := splitState (Get (RQuery r) "state") in
  pending ← bdo (BTake bridgeState);
  match pending with
  | None => mret (RError "invalid or expired state" 400)
  | Some pending =>
      now ← bdo BNow;
      if expired now pending then mret (RError "invalid or expired state" 400)
      else
        tokenResp ← ExchangeCode (osc s) code (cfgExternalIssuer (config s) +:+ "/callback");
        match tokenResp with
        | inl _ => mret (RError "authentication failed" 500)
        | inr tokenResp =>
            userInfo ← GetUserInfo (osc s) (AccessToken tokenResp)
                         [cfgUserGroup (config s); cfgAdminGroup (config s)];
            match userInfo with
            | inl _ => mret (RError "failed to get user info" 500)
            | inr userInfo =>
                if negb (isAuthorized (config s) (Name userInfo) (Groups userInfo))
                then mret (RError (access_denied (config s) (Name userInfo)) 403)
                else
                  now ← bdo BNow;
                  match mint_for s now userInfo with
                  | inl _ => mret (RError "token generation failed" 500)
                  | inr jwt =>
                      bridgeCode ← generateCode;
                      ok ← bdo (BPut bridgeCode jwt "" (60 * Second));
                      if negb ok then mret (RError "too many pending requests" 503)
                      else mret (callback_redirect (redirectURI pending) bridgeCode clientState)
                  end
            end
        end
  end.

Definition token_document (cfg : Config) (jwt : string) : json :=
  JObj [("access_token", JStr jwt); ("expires_in", JInt (ttl_seconds (cfgTokenTTL cfg)));
        ("token_type", JStr tokenTypeBearer)].

Definition handleToken (s : Server) (r : request) : prog BSig response :=
  if Method r <>s "POST" then mret (RError "method not allowed" 405)
  else match Form r with
  | None => mret (RError "bad request" 400)
  | Some form =>
      if Get form "grant_type" <>s grantAuthorizationCode
      then mret (RError (error_doc "unsupported_grant_type") 400)
      else
        pending ← bdo (BTake (Get form "code"));
        match pending with
        | None => mret (RError (error_doc "invalid_grant") 400)
        | Some pending =>
            now ← bdo BNow;
            if expired now pending || (jwt pending =s "")
            then mret (RError (error_doc "invalid_grant") 400)
            else mret (RJson (token_document (config s) (jwt pending)))
        end
  end.

Definition exchange_document (cfg : Config) (jwt : string) (now : Z) : json :=
  JObj [("access_token", JStr jwt); ("client_id", JStr (cfgAudience cfg));
        ("expires_at", JInt (Unix (now + cfgTokenTTL cfg)));
        ("expires_in", JInt (ttl_seconds (cfgTokenTTL cfg)));
        ("issuer", JStr (cfgExternalIssuer cfg)); ("token_type", JStr tokenTypeBearer)].

Definition handleTokenExchange (s : Server) (r : request) : prog BSig response :=
  if Method r <>s "POST" then mret (RError "method not allowed" 405)
  else if negb (HasPrefix (Authorization r) "Bearer ")
  then mret (RError (error_doc "missing Bearer token") 401)
  else
    let ocpToken := TrimPrefix (Authorization r) "Bearer " in
    userInfo ← GetUserInfo (osc s) ocpToken [cfgUserGroup (config s); cfgAdminGroup (config s)];
    match userInfo with
    | inl _ => mret (RError (error_doc "invalid OpenShift token") 401)
    | inr userInfo =>
        if negb (isAuthorized (config s) (Name userInfo) (Groups userInfo))
        then mret (RError (error_doc "user is not a member of the required group") 403)
        else
          now ← bdo BNow;
          match mint_for s now userInfo with
          | inl _ => mret (RError (error_doc "token generation failed") 500)
          | inr jwt =>
              now ← bdo BNow;
              mret (RJson (exchange_document (config s) jwt now))
          end
    end.

(** [Handler]: the mux of the seven endpoints behind [securityHeaders]. *)
Definition mux (s : Server) (r : request) : prog BSig response :=
  if URLPath r =s "/.well-known/openid-configuration" then handleDiscovery s r
  else if URLPath r =s "/jwks" then handleJWKS s r
  else if URLPath r =s "/authorize" then handleAuthorize s r
  else if URLPath r =s "/callback" then handleCallback s r
  else if URLPath r =s "/token" then handleToken s r
  else if URLPath r =s "/token/exchange" then handleTokenExchange s r
  else if URLPath r =s "/healthz" then mret (RPlain "ok")
  else mret RNotFound.

Definition Handler (s : Server) : request → prog BSig (list (string * string) * response) :=
  securityHeaders (mux s).

(** [NewJWTSigner] and its two branches (jwt.go), and [NewServer]. *)
Definition generateJWTSigner : prog BSig (err + JWTSigner) :=
  k ← bdo BGenerateRSA;
  match k with
  | inl e => mret (inl (Errorf_w "generating RSA key: " e))
  | inr key => mret (inr (mkSigner key (derive_kid key)))
  end.

Definition loadJWTSigner (signingKeyPath kidPath : string) : prog BSig (err + JWTSigner) :=
  p ← bdo (BReadFile signingKeyPath);
  match p with
  | inl e => mret (inl (Errorf_w ("reading signing key from " +:+ signingKeyPath +:+ ": ") e))
  | inr signingPEM =>
      kid ← (if kidPath <>s "" then
               k ← bdo (BReadFile kidPath);
               match k with inr kidBytes => mret (TrimSpace kidBytes) | inl _ => mret "" end
             else mret "");
      mret (NewJWTSignerFromPEM signingPEM kid)
  end.

Definition NewJWTSigner : prog BSig (err + JWTSigner) :=
  signingKeyPath ← Getenv "AUTH_BRIDGE_SIGNING_KEY";
  publicKeyPath ← Getenv "AUTH_BRIDGE_PUBLIC_KEY";
  kidPath ← Getenv "AUTH_BRIDGE_KID";
  if (signingKeyPath <>s "") && (publicKeyPath <>s "")
  then loadJWTSigner signingKeyPath kidPath
  else generateJWTSigner.

Definition NewServer (cfg : Config) : prog BSig (err + Server) :=
  signer ←? NewJWTSigner;
  client ← NewOpenShiftClient (cfgOpenShiftOAuth cfg) (cfgClientID cfg) (cfgClientSecret cfg);
  mret (inr (mkServer cfg signer client)).
End server.
