(* ===== verification/BridgeProofs.v ===== *)
(** * The auth-bridge under concurrent requests

    net/http serves every request on its own goroutine; the sweeper and the
    clock run beside them.  The theorems of this file hold in every reachable
    configuration of that system, for any requests, any interleaving and any
    answers of the OpenShift APIs. *)

From S2P Require Import Prelude Interaction GoStrings GoText GoErrors GoUrl Jwt BridgeSig.
From S2P Require Import OpenShiftClient BridgeServer.
From Stdlib Require Import Ascii.

Section bridge.
Context {C : Crypto} {D : BodyDecode} {L : GoURL} {U : Unicode}.

(** ** The system *)

Record bstate := mkState {
  codes : gmap string pendingCode;
  clock : Z;
  hist : list (event BSig)          (* every call made so far, with its answer *)
}.

Definition store_effect (σ : bstate) (c : bcall) : bresp c → gmap string pendingCode → Prop :=
  match c return bresp c → gmap string pendingCode → Prop with
  | BNow => λ r m, r = clock σ ∧ m = codes σ
  | BRand n => λ r m, String.length r = n ∧ m = codes σ
  | BTake k => λ r m, (r, m) = codes_take (codes σ) k
  | BPut k j u ttl => λ r m, (r, m) = codes_put (codes σ) (clock σ) k j u ttl
  | BGetenv _ | BReadFile _ | BHttp _ _ | BGenerateRSA => λ _ m, m = codes σ
  end.

Definition effect (σ : bstate) (c : call BSig) (r : resp BSig c) (σ' : bstate) : Prop :=
  store_effect σ c r (codes σ') ∧ clock σ' = clock σ ∧ hist σ' = hist σ ++ [Ev c r].

Inductive environment : bstate → bstate → Prop :=
| env_tick σ now :
    (clock σ ≤ now)%Z → environment σ (mkState (codes σ) now (hist σ))
| env_sweep σ now :      (* the sweeper reads the clock before it takes the lock *)
    (now ≤ clock σ)%Z →
    environment σ (mkState (sweep_codes now (codes σ)) (clock σ) (hist σ)).

Definition result : Type := request * (list (string * string) * response).

Definition serve (s : Server) (rq : request) : prog BSig result :=
  rs ← Handler s rq; mret (rq, rs).

Definition spawned (s : Server) (p : prog BSig result) : Prop := ∃ rq, p = serve s rq.

Definition start (now : Z) : bstate := mkState ∅ now [].

Definition bridge_reachable (s : Server) (now : Z)
    (c : bstate * list (prog BSig result) * list result) : Prop :=
  reachable effect environment (spawned s) (start now) c.

(** ** What a token and a pending code stand for *)

(** A token minted for an identity that the cluster vouches for and that the
    configuration admits. *)
Definition legit (s : Server) (t : list (event BSig)) (j : string) : Prop :=
  ∃ tok info now,
    vouched t tok [cfgUserGroup (config s); cfgAdminGroup (config s)] info ∧
    isAuthorized (config s) (Name info) (Groups info) = true ∧
    mint_for s now info = inr j.

Definition state_entry (s : Server) (σ : bstate) (p : pendingCode) : Prop :=
  jwt p = "" ∧ isAllowedRedirectURI (config s) (redirectURI p) = true ∧
  (expiresAt p ≤ clock σ + 5 * Minute)%Z.

Definition code_entry (s : Server) (σ : bstate) (p : pendingCode) : Prop :=
  jwt p ≠ "" ∧ legit s (hist σ) (jwt p) ∧ redirectURI p = "" ∧
  (expiresAt p ≤ clock σ + 60 * Second)%Z.

Definition entry_ok (s : Server) (σ : bstate) (p : pendingCode) : Prop :=
  state_entry s σ p ∨ code_entry s σ p.

(** Occurrences in the history of insertions and of successful removals of a
    code. *)
Definition inserts (k : string) (e : event BSig) : bool :=
  match e with
  | Ev c r =>
      match c return bresp c → bool with
      | BPut k' _ _ _ => λ r, (k' =s k) && r
      | _ => λ _, false
      end r
  end.

Definition redeems (k : string) (e : event BSig) : bool :=
  match e with
  | Ev c r =>
      match c return bresp c → bool with
      | BTake k' => λ r, (k' =s k) && bool_decide (is_Some r)
      | _ => λ _, false
      end r
  end.

Definition count (f : event BSig → bool) (t : list (event BSig)) : nat :=
  length (filter (λ e, f e = true) t).

Definition present (σ : bstate) (k : string) : nat :=
  if bool_decide (is_Some (codes σ !! k)) then 1 else 0.

(** The invariant of the code map. *)
Definition store_inv (s : Server) (σ : bstate) : Prop :=
  size (codes σ) ≤ maxPendingCodes ∧
  (∀ k p, codes σ !! k = Some p → entry_ok s σ p) ∧
  (∀ k, count (redeems k) (hist σ) + present σ k ≤ count (inserts k) (hist σ)).

(** What a thread guarantees when it inserts a code. *)
Definition put_guard (s : Server) (σ : bstate) (c : call BSig) : Prop :=
  match c with
  | BPut k j u ttl =>
      (j = "" ∧ isAllowedRedirectURI (config s) u = true ∧ ttl = 5 * Minute)%Z ∨
      (j ≠ "" ∧ legit s (hist σ) j ∧ u = "" ∧ ttl = 60 * Second)%Z
  | _ => True
  end.

Definition state_le (σ σ' : bstate) : Prop :=
  hist σ ⊆ hist σ' ∧ (clock σ ≤ clock σ')%Z.

(** The promise of a response. *)
Definition token_of (doc : json) : option string :=
  match doc with
  | JObj l => match assoc "access_token" l with Some (JStr j) => Some j | _ => None end
  | _ => None
  end.

Definition redirect_ok (s : Server) (loc : string) : Prop :=
  ∃ uri u code state, isAllowedRedirectURI (config s) uri = true ∧ url_Parse uri = inr u ∧
    loc = url_String (with_query u
            (Encode (VSet "state" state (VSet "code" code (Query u))))).

Definition response_ok (s : Server) (σ : bstate) (rq : request) (rs : response) : Prop :=
  match rs with
  | RJson doc => ∀ j, token_of doc = Some j → legit s (hist σ) j
  | RRedirect loc => URLPath rq = "/callback" → redirect_ok s loc
  | _ => True
  end.

Definition result_ok (s : Server) (σ : bstate) (x : result) : Prop :=
  x.2.1 = security_headers ∧ response_ok s σ x.1 x.2.2.

(** ** Preservation *)

#[local] Instance state_le_preorder : PreOrder state_le.
Proof.
  split.
  - intros σ. split; [done|lia].
  - intros σ1 σ2 σ3 [H1 H2] [H3 H4]. split; [by etrans|lia].
Qed.

Lemma legit_mono s t t' j : t ⊆ t' → legit s t j → legit s t' j.
Proof. intros Ht (tok & info & now & Hv & ?). exists tok, info, now. eauto using vouched_mono. Qed.

Lemma entry_ok_mono s σ σ' p : state_le σ σ' → entry_ok s σ p → entry_ok s σ' p.
Proof.
  intros [Ht Hc] [(? & ? & ?)|(? & ? & ? & ?)]; [left|right].
  - repeat split; [done..|lia].
  - repeat split; [done|by eapply legit_mono|done|lia].
Qed.

Lemma effect_le σ c r σ' : effect σ c r σ' → state_le σ σ'.
Proof. intros (_ & Hc & Hh). split; [rewrite Hh; apply hist_grow|lia]. Qed.

Lemma env_le σ σ' : environment σ σ' → state_le σ σ'.
Proof. intros [???|???]; split; cbn; try done; lia. Qed.

Lemma count_snoc f t e : count f (t ++ [e]) = count f t + if f e then 1 else 0.
Proof.
  unfold count. rewrite filter_app, length_app. f_equal.
  rewrite filter_cons, filter_nil. by destruct (f e).
Qed.

Lemma present_le σ k : present σ k ≤ 1.
Proof. unfold present. case_bool_decide; lia. Qed.

Lemma present_eq σ σ' k : codes σ !! k = codes σ' !! k → present σ k = present σ' k.
Proof. unfold present. by intros ->. Qed.

Lemma present_is σ k p : codes σ !! k = Some p → present σ k = 1.
Proof. unfold present. intros ->. by rewrite bool_decide_eq_true_2. Qed.

Lemma present_not σ k : codes σ !! k = None → present σ k = 0.
Proof. unfold present. intros ->. by rewrite bool_decide_eq_false_2 by by intros [? ?]. Qed.

Lemma store_inv_same s σ σ' e :
  store_inv s σ → codes σ' = codes σ → state_le σ σ' → hist σ' = hist σ ++ [e] →
  (∀ k, inserts k e = false ∧ redeems k e = false) → store_inv s σ'.
Proof.
  intros (Hs & He & Hn) Hc Hle Hh Hq. split; [by rewrite Hc|]. split.
  - intros k p. rewrite Hc. eauto using entry_ok_mono.
  - intros k. rewrite Hh, !count_snoc. destruct (Hq k) as [-> ->].
    rewrite (present_eq σ' σ) by by rewrite Hc. specialize (Hn k). lia.
Qed.

Lemma store_inv_take s σ k r σ' :
  store_inv s σ → effect σ (BTake k) r σ' → store_inv s σ'.
Proof.
  intros HI Heff. pose proof (effect_le _ _ _ _ Heff) as Hle.
  destruct Heff as (Hst & Hc & Hh). cbn in Hst. unfold codes_take in Hst.
  destruct (codes σ !! k) as [p|] eqn:Hk; injection Hst as -> Hm.
  2:{ eapply store_inv_same; [done..|]. intros k'. split; [done|]. cbn [redeems].
      rewrite (bool_decide_eq_false_2 (is_Some None)) by by intros []. by rewrite andb_false_r. }
  destruct HI as (Hs & He & Hn). split; [|split].
  - rewrite Hm, map_size_delete, Hk. lia.
  - intros k' p'. rewrite Hm, lookup_delete_Some. intros [_ ?]. eauto using entry_ok_mono.
  - intros k'. rewrite Hh, !count_snoc. specialize (Hn k'). cbn [inserts redeems].
    rewrite (bool_decide_eq_true_2 (is_Some (Some p))), andb_true_r by done.
    case_bool_decide as Hkk.
    + subst k'. rewrite (present_is σ k p Hk) in Hn.
      rewrite present_not by (rewrite Hm; apply lookup_delete_eq). lia.
    + rewrite (present_eq σ' σ) by (rewrite Hm; by apply lookup_delete_ne). lia.
Qed.

Lemma store_inv_put s σ k j u ttl r σ' :
  store_inv s σ → put_guard s σ (BPut k j u ttl) → effect σ (BPut k j u ttl) r σ' →
  store_inv s σ'.
Proof.
  intros HI HG Heff. pose proof (effect_le _ _ _ _ Heff) as Hle.
  destruct Heff as (Hst & Hc & Hh). cbn in Hst. unfold codes_put in Hst.
  destruct (Nat.leb_spec maxPendingCodes (size (codes σ))) as [Hfull|Hroom];
    injection Hst as -> Hm.
  { eapply store_inv_same; [done..|]. intros k'. cbn. by rewrite andb_false_r. }
  destruct HI as (Hs & He & Hn). split; [|split].
  - rewrite Hm, map_size_insert. destruct (codes σ !! k); unfold id; lia.
  - intros k' p'. rewrite Hm, lookup_insert. case_decide as Hk; [|eauto using entry_ok_mono].
    intros [= <-]. destruct Hle as [Ht _].
    destruct HG as [(-> & Hu & ->)|(Hj & Hl & -> & ->)]; [left|right].
    + repeat split; cbn; [done|lia].
    + repeat split; cbn; [done|by eapply legit_mono|lia].
  - intros k'. rewrite Hh, !count_snoc. specialize (Hn k'). cbn [inserts redeems].
    rewrite andb_true_r. pose proof (present_le σ' k').
    case_bool_decide as Hk; [lia|].
    rewrite (present_eq σ' σ) by (rewrite Hm; by apply lookup_insert_ne). lia.
Qed.

Lemma effect_inv s σ c r σ' :
  store_inv s σ → put_guard s σ c → effect σ c r σ' → store_inv s σ'.
Proof.
  intros HI HG Heff. pose proof (effect_le _ _ _ _ Heff) as Hle.
  destruct c; try (by eapply store_inv_take); try (by eapply store_inv_put);
    destruct Heff as (Hst & Hc & Hh); cbn in Hst;
    (eapply store_inv_same; [done|by try destruct Hst|done..]).
Qed.

Lemma env_inv s σ σ' : store_inv s σ → environment σ σ' → store_inv s σ'.
Proof.
  intros HI Henv. pose proof (env_le _ _ Henv) as Hle. destruct HI as (Hs & He & Hn).
  destruct Henv as [σ now Hnow|σ now Hnow].
  - split; [done|]. split; [|done]. intros k p Hk. eapply entry_ok_mono; [done|]. eauto.
  - split; [|split].
    + etrans; [apply map_size_filter|done].
    + intros k p [Hk _]%map_lookup_filter_Some. eapply entry_ok_mono; [done|]. eauto.
    + intros k. specialize (Hn k). cbn [hist].
      enough (present (mkState (sweep_codes now (codes σ)) (clock σ) (hist σ)) k ≤ present σ k) by lia.
      unfold present. cbn [codes]. case_bool_decide as Hp; [|lia].
      destruct Hp as [p [Hp _]%map_lookup_filter_Some].
      by rewrite bool_decide_eq_true_2 by by eexists.
Qed.

(** ** Every handler is safe *)

Definition bsafe (s : Server) {B} (Q : bstate → B → Prop) : bstate → prog BSig B → Prop :=
  safe effect state_le (store_inv s) (put_guard s) Q.

Lemma bsafe_call s {B} (Q : bstate → B → Prop) σ (c : bcall) (f : bresp c → prog BSig B) :
  (∀ σ', state_le σ σ' → store_inv s σ' → put_guard s σ' c ∧
     ∀ r σ'', effect σ' c r σ'' → store_inv s σ'' → bsafe s Q σ'' (f r)) →
  bsafe s Q σ (bdo c ≫= f).
Proof. done. Qed.

Lemma bsafe_cut s {B B'} (R : bstate → B → Prop) (Q : bstate → B' → Prop) σ p f :
  bsafe s R σ p → (∀ σ' b, R σ' b → bsafe s Q σ' (f b)) → bsafe s Q σ (p ≫= f).
Proof. apply safe_cut. apply _. Qed.

(** A specification proved for one thread alone, made of calls that insert
    nothing, holds under interference. *)
Lemma bsafe_lookup s c tok names σ :
  bsafe s (λ σ' r, ∀ info, r = inr info → vouched (hist σ') tok names info)
    σ (GetUserInfo c tok names).
Proof.
  eapply safe_mono; [|eapply (always_safe _ _ _ _ hist (lookup_guard c tok)
    (λ t' r, ∀ info, r = inr info → vouched t' tok names info))].
  - cbn. intros σ' r (t' & Ht & HR) info Hr. eapply vouched_mono; [exact Ht|]. by apply HR.
  - by intros ?? [? _].
  - intros σ0 c0 r0 σ1 (_ & _ & Hh). rewrite Hh. split; [apply hist_grow|].
    apply elem_of_snoc. auto.
  - by intros t σ0 [] _ _ Hg.
  - apply (GetUserInfo_spec c tok names []).
  - apply list_subseteq_nil.
Qed.

Lemma bsafe_exchange_code s c code uri σ :
  bsafe s (λ _ _, True) σ (ExchangeCode c code uri).
Proof.
  unfold ExchangeCode. destruct (NewRequest _); [done|].
  apply bsafe_call. intros σ1 _ _. split; [done|]. intros [e|rs] σ2 _ _; [done|].
  repeat split_match; done.
Qed.

Lemma bsafe_generateCode s σ : bsafe s (λ _ _, True) σ generateCode.
Proof. apply bsafe_call. intros σ1 _ _. split; [done|]. by intros r σ2 _ _. Qed.

Lemma bsafe_ret s {B} (Q : bstate → B → Prop) σ b :
  (∀ σ', state_le σ σ' → Q σ' b) → bsafe s Q σ (mret b).
Proof. done. Qed.

Section handlers.
Context (s : Server) (rq : request).
Let RQ := (λ σ rs, response_ok s σ rq rs).

Lemma bsafe_error m code σ : bsafe s RQ σ (mret (RError m code)).
Proof. done. Qed.

Lemma handleAuthorize_safe σ :
  URLPath rq ≠ "/callback" → bsafe s RQ σ (handleAuthorize s rq).
Proof.
  intros Hp. unfold handleAuthorize. destruct (isAllowedRedirectURI _ _) eqn:Ha; [|done].
  cbn [negb]. eapply bsafe_cut; [apply bsafe_generateCode|]. intros σ1 st _.
  apply bsafe_call. intros σ2 _ _. split; [left; done|].
  intros [] σ3 _ _; [|done]. apply bsafe_ret. by intros σ4 _ ?.
Qed.

(** The state entry a callback consumed names an allowed redirect URI. *)
Lemma callback_redirect_ok σ σ' p code st :
  entry_ok s σ p → response_ok s σ' rq (callback_redirect (redirectURI p) code st).
Proof.
  unfold callback_redirect. intros He. case_bool_decide as Hu; [done|].
  destruct He as [(_ & Ha & _)|(_ & _ & Hn & _)]; [|done].
  destruct (url_Parse (redirectURI p)) as [e|u] eqn:Hp; [done|].
  intros _. by exists (redirectURI p), u, code, st.
Qed.

Lemma mint_for_legit σ tok info now j :
  vouched (hist σ) tok [cfgUserGroup (config s); cfgAdminGroup (config s)] info →
  isAuthorized (config s) (Name info) (Groups info) = true →
  mint_for s now info = inr j → j ≠ "" ∧ ∀ σ', state_le σ σ' → legit s (hist σ') j.
Proof.
  intros Hv Ha Hm. split; [intros ->; by apply MintToken_nonempty in Hm|].
  intros σ' [Ht _]. eapply legit_mono; [done|]. by exists tok, info, now.
Qed.

Lemma take_entry σ k p σ' :
  store_inv s σ → effect σ (BTake k) (Some p) σ' → entry_ok s σ p.
Proof.
  intros (_ & He & _) (Hst & _). cbn in Hst. unfold codes_take in Hst.
  destruct (codes σ !! k) eqn:Hk; simplify_eq. eauto.
Qed.

Lemma handleCallback_safe σ : bsafe s RQ σ (handleCallback s rq).
Proof.
  unfold handleCallback. destruct (splitState _) as [bst cst].
  apply bsafe_call. intros σ1 _ HI1. split; [done|]. intros [p|] σ2 He2 _; [|done].
  assert (entry_ok s σ1 p) as Hp by by eapply take_entry.
  apply bsafe_call. intros σ3 _ _. split; [done|]. intros now σ4 _ _.
  destruct (expired _ _); [done|].
  eapply bsafe_cut; [apply bsafe_exchange_code|]. intros σ5 [e|tr] _; [done|].
  eapply bsafe_cut; [apply bsafe_lookup|]. intros σ6 [e|info] Hv; [done|].
  specialize (Hv info eq_refl). destruct (isAuthorized _ _ _) eqn:Ha; [|done]. cbn [negb].
  apply bsafe_call. intros σ7 Hl7 _. split; [done|]. intros now' σ8 He8 _.
  destruct (mint_for s now' info) as [e|j] eqn:Hm; [done|].
  destruct (mint_for_legit σ6 _ _ _ _ Hv Ha Hm) as [Hj Hlegit].
  eapply bsafe_cut with (R := λ σ' _, state_le σ6 σ').
  { apply bsafe_call. intros σ9 Hl9 _. split; [done|]. intros b σ10 He10 _.
    apply bsafe_ret. intros σ11 Hl11. apply effect_le in He8, He10.
    by transitivity σ7; [|transitivity σ8; [|transitivity σ9; [|transitivity σ10]]]. }
  intros σ9 code Hl9. apply bsafe_call. intros σ10 Hl10 _. split.
  { right. split; [done|]. split; [|done]. apply Hlegit. by transitivity σ9. }
  intros [] σ11 _ _; [|done]. apply bsafe_ret. intros σ12 _. by apply (callback_redirect_ok σ1).
Qed.

Lemma token_document_of cfg j : token_of (token_document cfg j) = Some j.
Proof. reflexivity. Qed.

Lemma handleToken_safe σ : bsafe s RQ σ (handleToken s rq).
Proof.
  unfold handleToken. case_bool_decide; [|done]. cbn [negb].
  destruct (Form rq) as [form|]; [|done]. case_bool_decide; [|done]. cbn [negb].
  apply bsafe_call. intros σ1 _ HI1. split; [done|]. intros [p|] σ2 He2 _; [|done].
  assert (entry_ok s σ1 p) as Hp by by eapply take_entry.
  apply effect_le in He2. apply bsafe_call. intros σ3 Hl3 _. split; [done|].
  intros now σ4 He4%effect_le _. case_bool_decide as Hj; [by rewrite orb_true_r|].
  rewrite orb_false_r. destruct (expired _ _); [done|].
  apply bsafe_ret. intros σ5 Hl5 j. rewrite token_document_of. intros [= <-].
  destruct Hp as [(? & _)|(_ & Hl & _)]; [done|].
  assert (state_le σ1 σ5) as [Ht _]
    by by transitivity σ2; [|transitivity σ3; [|transitivity σ4]].
  by eapply legit_mono.
Qed.

Lemma exchange_document_of cfg j now : token_of (exchange_document cfg j now) = Some j.
Proof. reflexivity. Qed.

Lemma handleTokenExchange_safe σ : bsafe s RQ σ (handleTokenExchange s rq).
Proof.
  unfold handleTokenExchange. case_bool_decide; [|done]. cbn [negb].
  destruct (HasPrefix _ _); [|done]. cbn [negb].
  eapply bsafe_cut; [apply bsafe_lookup|]. intros σ1 [e|info] Hv; [done|].
  specialize (Hv info eq_refl). destruct (isAuthorized _ _ _) eqn:Ha; [|done]. cbn [negb].
  apply bsafe_call. intros σ2 Hl2 _. split; [done|]. intros now σ3 He3%effect_le _.
  destruct (mint_for s now info) as [e|j] eqn:Hm; [done|].
  destruct (mint_for_legit σ1 _ _ _ _ Hv Ha Hm) as [Hj Hlegit].
  apply bsafe_call. intros σ4 Hl4 _. split; [done|]. intros now' σ5 He5%effect_le _.
  apply bsafe_ret. intros σ6 Hl6 j'. rewrite exchange_document_of. intros [= <-].
  apply Hlegit. by transitivity σ2; [|transitivity σ3; [|transitivity σ4; [|transitivity σ5]]].
Qed.

Lemma mux_safe σ : bsafe s RQ σ (mux s rq).
Proof.
  unfold mux. case_bool_decide; [done|]. case_bool_decide; [done|].
  case_bool_decide as Ha; [apply handleAuthorize_safe; congruence|].
  case_bool_decide; [apply handleCallback_safe|].
  case_bool_decide; [apply handleToken_safe|].
  case_bool_decide; [apply handleTokenExchange_safe|].
  case_bool_decide; done.
Qed.
End handlers.

Lemma response_ok_mono s σ σ' rq rs :
  state_le σ σ' → response_ok s σ rq rs → response_ok s σ' rq rs.
Proof. intros [Ht _]. destruct rs; try done. intros H j Hj. eauto using legit_mono. Qed.

Lemma serve_safe s σ rq : bsafe s (result_ok s) σ (serve s rq).
Proof.
  unfold serve, Handler, securityHeaders.
  eapply bsafe_cut with (R := λ σ' x, x.1 = security_headers ∧ response_ok s σ' rq x.2).
  - eapply bsafe_cut; [apply (mux_safe s rq)|]. intros σ' rs Hrs.
    apply bsafe_ret. intros σ'' Hl. split; [done|]. by eapply response_ok_mono.
  - intros σ' x [Hh Hx]. apply bsafe_ret. intros σ'' Hl. split; [done|].
    by eapply response_ok_mono.
Qed.

Lemma start_inv s now : store_inv s (start now).
Proof.
  split; [cbn; rewrite map_size_empty; lia|]. split; [by intros k p|].
  intros k. cbn. unfold present. cbn. by rewrite bool_decide_eq_false_2 by by intros [? ?].
Qed.

(** The whole system keeps the invariant of the store and the promise of every
    response. *)
Lemma bridge_ok s now c :
  bridge_reachable s now c →
  pool_ok effect state_le (store_inv s) (put_guard s) (result_ok s) c.
Proof.
  intros Hr. eapply (reachable_ok effect environment (spawned s)); try exact Hr.
  - apply _.
  - apply effect_le.
  - apply env_le.
  - apply effect_inv.
  - apply env_inv.
  - intros σ σ' [rq [hd rs]] Hl [Hh Hx]. split; [done|]. by eapply response_ok_mono.
  - intros σ p [rq ->]. apply serve_safe.
  - apply start_inv.
Qed.
End bridge.
