(* ===== verification/Concrete.v ===== *)
(** * Concrete instances of the parameters

    Executable stand-ins for the code outside the repository (cryptography,
    JSON bodies, URL parsing, the HTTP peers).  They show that what the
    theorems assume of that code can hold, and let the witnesses evaluate the
    handlers on concrete inputs. *)

From S2P Require Import Prelude Interaction GoStrings GoText GoErrors GoUrl Jwt BridgeSig.
From S2P Require Import OpenShiftClient BridgeServer BridgeProofs.
From Stdlib Require Import Ascii.

(** A signature is the key followed by the digest. *)
#[export] Instance toy_crypto : Crypto := {|
  rsa_key := string;
  pem_Decode := λ s, if s =s "" then None else Some s;
  ParsePKCS8PrivateKey := λ s, inr (Some s);
  MarshalPKCS1PublicKey := λ k, k;
  sha256_Sum256 := λ s, take_bytes 32 s;
  SignPKCS1v15 := λ k d, inr (k +:+ d);
  VerifyPKCS1v15 := λ k d g, g =s (k +:+ d);
  pub_N_Bytes := λ k, k;
  pub_E := λ _, 65537%N
|}.

#[export] Instance toy_crypto_laws : CryptoLaws toy_crypto.
Proof. split. intros k d g [= <-]. by apply bool_decide_eq_true_2. Qed.

#[export] Instance toy_unicode : Unicode := λ _, false.

(** [scheme://host/path?query], without userinfo and fragments. *)

Definition toy_parse (s : string) : err + URL :=
  match split_at ":"%char s with
  | None => inl (Err "missing protocol scheme")
  | Some (scheme, rest) =>
      let rest := TrimPrefix rest "//" in
      let '(before, q) := match split_at "?"%char rest with
                          | Some bq => bq
                          | None => (rest, "")
                          end in
      match split_at "/"%char before with
      | Some (h, p) => inr (mkURL scheme h (String "/"%char p) q "")
      | None => inr (mkURL scheme before "" q "")
      end
  end.

#[export] Instance toy_url : GoURL := {|
  url_Parse := toy_parse;
  url_String := λ u, Scheme u +:+ "://" +:+ UHost u +:+ Path u +:+
                     (if RawQuery u =s "" then "" else "?" +:+ RawQuery u)
|}.

(** Bodies are the user's name; alice has a uid, a ServiceAccount has none. *)
Definition sa_builder : string := "system:serviceaccount:ci:builder".

#[export] Instance toy_decode : BodyDecode := {|
  decode_TokenResponse := λ b, inr (mkTokenResponse b "Bearer" 3600 "");
  decode_User := λ b,
    if b =s "alice" then inr (mkUserInfo "alice" "uid-alice" ["devs"])
    else if b =s sa_builder then inr (mkUserInfo sa_builder "" [])
    else inl (Err "unexpected end of JSON input");
  decode_TokenReview := λ b, inr (mkTokenReview true b);
  decode_Group := λ b, inr [b]
|}.

Definition toy_api : string := "https://kubernetes.default.svc:443".

(** The cluster: token [t] belongs to the user named [t]; the group devs lists
    the builder account. *)
Definition toy_http (cl : http_client) (rq : http_request) : err + http_response :=
  if rq_url rq =s (toy_api +:+ "/apis/user.openshift.io/v1/users/~") then
    if existsb (λ h, bool_decide (h = bearer "alice")) (rq_headers rq)
    then inr (mkResp 200 "alice")
    else if existsb (λ h, bool_decide (h = bearer sa_builder)) (rq_headers rq)
    then inr (mkResp 200 sa_builder)
    else inr (mkResp 401 "Unauthorized")
  else if rq_url rq =s (toy_api +:+ "/apis/user.openshift.io/v1/groups/devs")
  then inr (mkResp 200 sa_builder)
  else if rq_url rq =s (toy_api +:+ "/apis/authentication.k8s.io/v1/tokenreviews")
  then inr (mkResp 201 "uid-builder")
  else if rq_url rq =s "https://oauth/oauth/token" then inr (mkResp 200 "alice")
  else inr (mkResp 404 "").

Fixpoint repeat_byte (n : nat) : string :=
  match n with 0 => "" | S n => String "r"%char (repeat_byte n) end.

Lemma repeat_byte_length n : String.length (repeat_byte n) = n.
Proof. induction n; cbn; congruence. Qed.

(** An executable environment of the bridge around its shared state. *)
Definition toy_handler : handler BSig bstate := λ c σ,
  let log r m := (r, mkState m (clock σ) (hist σ ++ [Ev (S := BSig) c r])) in
  match c return (bresp c → gmap string pendingCode → bresp c * bstate) → bresp c * bstate with
  | BNow => λ log, log (clock σ) (codes σ)
  | BRand n => λ log, log (repeat_byte n) (codes σ)
  | BGetenv _ => λ log, log None (codes σ)
  | BReadFile _ => λ log, log (inr "sa-token") (codes σ)
  | BHttp cl rq => λ log, log (toy_http cl rq) (codes σ)
  | BGenerateRSA => λ log, log (inr "key") (codes σ)
  | BTake k => λ log, let '(r, m) := codes_take (codes σ) k in log r m
  | BPut k j u ttl => λ log, let '(r, m) := codes_put (codes σ) (clock σ) k j u ttl in log r m
  end log.

Lemma toy_handler_effect c σ r σ' : toy_handler c σ = (r, σ') → effect σ c r σ'.
Proof.
  destruct c; cbn; try (intros [= <- <-]; repeat split; cbn; auto using repeat_byte_length; fail).
  - destruct (codes_take _ _) eqn:E. intros [= <- <-]. by repeat split.
  - destruct (codes_put _ _ _ _ _ _) eqn:E. intros [= <- <-]. by repeat split.
Qed.

(** A request served to completion by the executable environment is a sequence
    of steps of the concurrent system. *)
Lemma pool_run (spawn : prog BSig result → Prop) p σ ts rs :
  rtc (pool_step effect environment spawn)
    (σ, p :: ts, rs) ((run toy_handler p σ).2, ts, rs ++ [(run toy_handler p σ).1]).
Proof.
  revert σ. induction p as [a|c k IH]; intros σ.
  - apply rtc_once. apply (pool_return effect environment spawn σ [] a ts rs).
  - cbn [run]. destruct (toy_handler c σ) as [r σ'] eqn:E.
    eapply rtc_l; [|apply IH].
    apply (pool_call effect environment spawn σ [] c k ts rs r σ').
    by apply toy_handler_effect.
Qed.

Lemma serve_reachable s now σ ts rs rq :
  bridge_reachable s now (σ, ts, rs) →
  bridge_reachable s now
    ((run toy_handler (serve s rq) σ).2, ts, rs ++ [(run toy_handler (serve s rq) σ).1]).
Proof.
  unfold bridge_reachable, reachable. intros Hr. etransitivity; [exact Hr|].
  eapply rtc_l; [|apply pool_run]. apply pool_spawn. by exists rq.
Qed.

Definition toy_config : Config :=
  mkConfig "http://127.0.0.1:9090" "https://bridge" "openshell" ":9090" "https://oauth"
    "client" "secret" "devs" "admins" Hour.

Definition toy_server : Server :=
  mkServer toy_config (mkSigner (C := toy_crypto) "key" "kid1")
    (mkOSC "https://oauth" "client" "secret" defaultSATokenPath None).

(** Requests in sequence against a fresh bridge. *)
Fixpoint toy_run (rqs : list request) (σ : bstate) (rs : list result) : bstate * list result :=
  match rqs with
  | [] => (σ, rs)
  | rq :: rqs =>
      let out := run toy_handler (serve toy_server rq) σ in
      toy_run rqs out.2 (rs ++ [out.1])
  end.

Lemma toy_run_reachable now rqs σ rs :
  bridge_reachable toy_server now (σ, [], rs) →
  bridge_reachable toy_server now ((toy_run rqs σ rs).1, [], (toy_run rqs σ rs).2).
Proof.
  revert σ rs. induction rqs as [|rq rqs IH]; intros σ rs Hr; [done|].
  cbn [toy_run]. apply IH. by apply serve_reachable.
Qed.

Lemma toy_reachable now rqs :
  bridge_reachable toy_server now
    ((toy_run rqs (start now) []).1, [], (toy_run rqs (start now) []).2).
Proof. apply toy_run_reachable. apply rtc_refl. Qed.

(** The requests of a login through the browser, and of a direct exchange. *)
Definition authorize_rq : request :=
  mkRequest "GET" "/authorize" "bridge"
    {["redirect_uri" := ["http://localhost:8080/cb"]; "state" := ["xyz:1"]]} None "".
Definition callback_rq : request :=
  mkRequest "GET" "/callback" "bridge"
    {["code" := ["oc"]; "state" := [hex_EncodeToString (repeat_byte 16) +:+ ":xyz:1"]]} None "".
Definition token_rq : request :=
  mkRequest "POST" "/token" "bridge" ∅
    (Some {["grant_type" := ["authorization_code"];
            "code" := [hex_EncodeToString (repeat_byte 16)]]}) "".
Definition exchange_rq (token : string) : request :=
  mkRequest "POST" "/token/exchange" "bridge" ∅ None ("Bearer " +:+ token).

Definition login : list request := [authorize_rq; callback_rq; token_rq; token_rq].
