(* ===== verification/BridgeTheorems.v ===== *)
(** * What the auth-bridge guarantees

    The properties of internal/authbridge: which tokens leave the bridge, where
    it redirects, how often a code can be used, what the endpoints answer, and
    what the identity behind a token rests on. *)

From S2P Require Import Prelude Interaction GoStrings GoEncoding GoText GoErrors GoUrl Jwt BridgeSig.
From S2P Require Import OpenShiftClient BridgeServer BridgeProofs Concrete.
From Stdlib Require Import Ascii.

(** ** Definitions of the statements *)

(** An environment that serves one request alone, with the effects of the
    shared store. *)
Definition lawful {C : Crypto} (h : handler BSig bstate) : Prop :=
  ∀ c σ, effect σ c (h c σ).1 (h c σ).2.

(** Where a redirect URI may point. *)
Definition redirect_target_ok {L : GoURL} (cfg : Config) (u : URL) : Prop :=
  (Scheme u = "http" ∨ Scheme u = "https") ∧ UHost u ≠ "" ∧
  (UHost u = "localhost" ∨ UHost u = "127.0.0.1" ∨
   (∃ port, UHost u = "localhost:" +:+ port) ∨ (∃ port, UHost u = "127.0.0.1:" +:+ port) ∨
   ∃ allowed rest, cfgExternalIssuer cfg ≠ "" ∧ url_Parse (cfgExternalIssuer cfg) = inr allowed ∧
     UHost u = UHost allowed ∧ Path u = "/callback" +:+ rest).

(** ** Shared lemmas *)

(** The handler answers the call at the head of the program. *)
Ltac run_call :=
  rewrite run_bind; change (run ?h (bdo ?c) ?w) with (let '(r, w') := h c w in (r, w')).

Section lemmas.
Context {C : Crypto} {D : BodyDecode} {L : GoURL} {U : Unicode}.

Lemma lawful_now h σ : lawful h → h BNow σ =
  (clock σ, mkState (codes σ) (clock σ) (hist σ ++ [Ev (S := BSig) BNow (clock σ)])).
Proof.
  intros Hh. destruct (Hh BNow σ) as ((Hr & Hc) & Hk & Hl).
  destruct (h BNow σ) as [r [m n t]]. cbn in *. by subst.
Qed.

Lemma lawful_take h σ k : lawful h → h (BTake k) σ =
  ((codes_take (codes σ) k).1,
   mkState (codes_take (codes σ) k).2 (clock σ)
     (hist σ ++ [Ev (S := BSig) (BTake k) (codes_take (codes σ) k).1])).
Proof.
  intros Hh. destruct (Hh (BTake k) σ) as (Hst & Hk & Hl). cbn in Hst.
  destruct (h (BTake k) σ) as [r [m n t]], (codes_take (codes σ) k). cbn in *.
  by simplify_eq.
Qed.

(** [handleToken] after its guards, as one decision on the store. *)
Definition redeem (s : Server) (code : string) (σ : bstate) : response :=
  match codes σ !! code with
  | None => RError (error_doc "invalid_grant") 400
  | Some p => if expired (clock σ) p || (jwt p =s "")
              then RError (error_doc "invalid_grant") 400
              else RJson (token_document (config s) (jwt p))
  end.

Lemma handleToken_run h s rq form σ :
  lawful h → Method rq = "POST" → Form rq = Some form →
  Get form "grant_type" = grantAuthorizationCode →
  (run h (handleToken s rq) σ).1 = redeem s (Get form "code") σ ∧
  codes (run h (handleToken s rq) σ).2 = delete (Get form "code") (codes σ) ∧
  clock (run h (handleToken s rq) σ).2 = clock σ.
Proof.
  intros Hh Hm Hf Hg. unfold handleToken. rewrite Hm, Hf, Hg.
  rewrite !bool_decide_eq_true_2 by done. cbn [negb].
  run_call.
  rewrite lawful_take by done. unfold redeem, codes_take.
  destruct (codes σ !! Get form "code") as [p|] eqn:Hp; cbn [fst snd].
  - run_call.
    rewrite lawful_now by done. cbn [fst snd codes clock hist].
    by destruct (expired _ _ || _).
  - cbn. split; [done|]. split; [|done]. symmetry. by apply delete_id.
Qed.

Lemma HasPrefix_app s p : HasPrefix s p = true ↔ ∃ r, s = (p +:+ r).
Proof.
  unfold HasPrefix. revert s. induction p as [|a p IH]; intros s.
  - split; [intros _; by exists s|]. intros _. by destruct s.
  - destruct s as [|b s]; cbn; [split; [done|by intros [? ?]]|].
    destruct (ascii_dec a b) as [->|Hab].
    + rewrite IH. split; intros [r Hr]; exists r; rewrite ?string_app_cons in *; congruence.
    + split; [done|]. intros [r Hr]. rewrite string_app_cons in Hr. congruence.
Qed.

Lemma local_host_spec host : local_host host = true ↔
  host = "localhost" ∨ host = "127.0.0.1" ∨
  (∃ port, host = "localhost:" +:+ port) ∨ (∃ port, host = "127.0.0.1:" +:+ port).
Proof.
  unfold local_host. rewrite !orb_true_iff, !bool_decide_eq_true, !HasPrefix_app. tauto.
Qed.

Lemma assoc_or4 (P Q R S T : Prop) : P ∨ Q ∨ R ∨ S ∨ T ↔ (P ∨ Q ∨ R ∨ S) ∨ T.
Proof. tauto. Qed.

Lemma hex_lacks_colon b : lacks ":"%char (hex_EncodeToString b) = true.
Proof.
  eapply all_bytes_impl; [|apply hex_encode_is_hex]. intros a Ha.
  apply negb_true_iff, bool_decide_eq_false. intros ->. by vm_compute in Ha.
Qed.
End lemmas.

(** ** Safety under concurrency *)

Section safety.
Context {C : Crypto} {D : BodyDecode} {L : GoURL} {U : Unicode}.

(** C1. Every access token in any response of the bridge, whatever requests
    were sent, however their handlers interleaved and whatever the cluster
    answered, verifies under the bridge's key and carries exactly the claims of
    an identity that the cluster vouched for (users API, Group objects,
    TokenReview) and that the configuration authorizes. *)
Theorem released_tokens_are_backed `{!CryptoLaws C} s now σ ts rs rq hd doc j :
  bridge_reachable s now (σ, ts, rs) →
  (rq, (hd, RJson doc)) ∈ rs → token_of doc = Some j →
  ∃ tok info t0,
    vouched (hist σ) tok [cfgUserGroup (config s); cfgAdminGroup (config s)] info ∧
    isAuthorized (config s) (Name info) (Groups info) = true ∧
    verify_token (privateKey (signer s)) j =
      Some (json_render (header_json (signer s)),
            json_render (claims_json (mint_claims t0 (cfgIssuer (config s))
              (cfgAudience (config s)) (UID info) (Name info) ""
              (mapRoles (config s) (Groups info)) (cfgTokenTTL (config s))))).
Proof.
  intros Hr Hin Hj. apply bridge_ok in Hr as (_ & _ & Hrs).
  rewrite Forall_forall in Hrs. destruct (Hrs _ Hin) as [_ Hok]. cbn in Hok.
  destruct (Hok j Hj) as (tok & info & t0 & Hv & Ha & Hm).
  exists tok, info, t0. split; [done|]. split; [done|].
  unfold mint_for in Hm. by eapply MintToken_verifies.
Qed.

(** The allow-list of redirect URIs, exactly: http or https, to the local
    host on any port or to a path that starts with /callback on the issuer's own
    host. *)
Lemma isAllowedRedirectURI_exact cfg uri :
  isAllowedRedirectURI cfg uri = true ↔
  uri ≠ "" ∧ ∃ u, url_Parse uri = inr u ∧ redirect_target_ok cfg u.
Proof.
  unfold isAllowedRedirectURI.
  case_bool_decide as He; [split; [done|by intros [? _]]|].
  destruct (url_Parse uri) as [e|u]; [split; [done|by intros (_ & u & ? & _)]|].
  assert ((uri ≠ "" ∧ ∃ u0 : URL, inr u = (inr u0 : err + URL) ∧ redirect_target_ok cfg u0)
    ↔ redirect_target_ok cfg u) as ->.
  { split; [by intros (_ & u0 & [= <-] & ?)|eauto]. }
  unfold redirect_target_ok.
  case_bool_decide as Hh; [split; [done|by intros (_ & ? & _)]|].
  rewrite (assoc_or4 (UHost u = "localhost")), <-local_host_spec.
  destruct ((Scheme u <>s "http") && (Scheme u <>s "https")) eqn:Hs; bool_simpl;
    [split; [done|by intros ([?|?] & _)]|].
  apply andb_false_iff in Hs. rewrite !negb_false_iff, !bool_decide_eq_true in Hs.
  destruct (local_host (UHost u)); [split; [auto|done]|].
  case_bool_decide as Hx; cbn [negb];
    [split; [done|by intros (_ & _ & [?|(a & r & ? & _)])]|].
  destruct (url_Parse (cfgExternalIssuer cfg)) as [e|a];
    [split; [done|by intros (_ & _ & [?|(a & r & _ & ? & _)])]|].
  rewrite andb_true_iff, bool_decide_eq_true, HasPrefix_app. split.
  - intros [? [r ?]]. split; [done|]. split; [done|]. right. by exists a, r.
  - intros (_ & _ & [?|(a' & r & _ & [= <-] & ? & ?)]); [done|]. eauto.
Qed.
(** C2. The bridge is no open redirector.  A redirect URI is allowed exactly
    when it is http or https and leads to the local host, on any port, or to a
    path that starts with /callback on the issuer's own host; and in every
    interleaving of requests the browser is sent on from the callback only to an
    allowed URI, with nothing but its query changed. *)
Theorem callback_redirects_are_allowed s now σ ts rs rq hd loc :
  bridge_reachable s now (σ, ts, rs) →
  (rq, (hd, RRedirect loc)) ∈ rs → URLPath rq = "/callback" →
  (∀ uri, isAllowedRedirectURI (config s) uri = true ↔
     uri ≠ "" ∧ ∃ u, url_Parse uri = inr u ∧ redirect_target_ok (config s) u) ∧
  ∃ uri u code state, isAllowedRedirectURI (config s) uri = true ∧ url_Parse uri = inr u ∧
    loc = url_String (with_query u (Encode (VSet "state" state (VSet "code" code (Query u))))).
Proof.
  intros Hr Hin Hp. split; [intros uri; apply isAllowedRedirectURI_exact|].
  apply bridge_ok in Hr as (_ & _ & Hrs).
  rewrite Forall_forall in Hrs. destruct (Hrs _ Hin) as [_ Hok]. by apply Hok.
Qed.

(** C3. A code is redeemed at most as often as it was issued: no interleaving
    of requests, sweeps and clock ticks lets one code be used twice. *)
Theorem codes_are_single_use s now σ ts rs k :
  bridge_reachable s now (σ, ts, rs) →
  count (redeems k) (hist σ) + present σ k ≤ count (inserts k) (hist σ).
Proof. intros Hr. apply bridge_ok in Hr as ((_ & _ & Hn) & _). apply Hn. Qed.

(** C4. The store of pending codes stays within its capacity, and every entry
    is either a login state that carries no token and expires within five
    minutes or a code for a token that expires within one. *)
Theorem pending_codes_bounded s now σ ts rs :
  bridge_reachable s now (σ, ts, rs) →
  size (codes σ) ≤ maxPendingCodes ∧
  ∀ k p, codes σ !! k = Some p →
    (jwt p = "" ∧ (expiresAt p ≤ clock σ + 5 * Minute)%Z) ∨
    (jwt p ≠ "" ∧ redirectURI p = "" ∧ (expiresAt p ≤ clock σ + 60 * Second)%Z).
Proof.
  intros Hr. apply bridge_ok in Hr as ((Hs & He & _) & _). split; [done|].
  intros k p Hk. destruct (He k p Hk) as [(? & _ & ?)|(? & _ & ? & ?)]; auto.
Qed.

(** C5. Resolving a token, whatever the APIs answer: the user's token goes only
    to the users API and to the TokenReview API, the bridge's own token only to
    the client that follows no redirect, no code is touched; and an identity is
    returned only when the users API named it, its extra groups are backed by
    Group objects that list it, and a ServiceAccount has a uid. *)
Theorem GetUserInfo_is_sound c tok names :
  always (lookup_guard c tok) (λ t r, ∀ info, r = inr info → vouched t tok names info)
    [] (GetUserInfo c tok names).
Proof. apply GetUserInfo_spec. Qed.

End safety.

(** ** Functional behaviour *)

Section functional.
Context {C : Crypto} {D : BodyDecode} {L : GoURL} {U : Unicode}.

(** C6. The token endpoint answers a POST of an authorization code with the
    token stored for it, when it is stored, unexpired and not a login state,
    and with invalid_grant otherwise; in every case exactly this code is removed
    from the store, expired codes and login states included, so that the same
    request fails the second time. *)
Theorem handleToken_redeems_once h s rq form σ :
  lawful h → Method rq = "POST" → Form rq = Some form →
  Get form "grant_type" = grantAuthorizationCode →
  (run h (handleToken s rq) σ).1 =
    match codes σ !! Get form "code" with
    | None => RError (error_doc "invalid_grant") 400
    | Some p => if expired (clock σ) p || (jwt p =s "")
                then RError (error_doc "invalid_grant") 400
                else RJson (token_document (config s) (jwt p))
    end ∧
  codes (run h (handleToken s rq) σ).2 = delete (Get form "code") (codes σ) ∧
  (run h (handleToken s rq) (run h (handleToken s rq) σ).2).1 =
    RError (error_doc "invalid_grant") 400.
Proof.
  intros Hh Hm Hf Hg.
  destruct (handleToken_run h s rq form σ Hh Hm Hf Hg) as (Hr & Hc & _). split; [done|].
  split; [done|].
  destruct (handleToken_run h s rq form (run h (handleToken s rq) σ).2 Hh Hm Hf Hg) as (-> & _).
  unfold redeem. by rewrite Hc, lookup_delete_eq.
Qed.

(** C7. The sweeper is invisible: a code it removes would have been refused
    anyway, so the token endpoint answers the same with and without a sweep
    that read the clock no later than now. *)
Theorem sweep_is_unobservable h s rq form σ now :
  lawful h → Method rq = "POST" → Form rq = Some form →
  Get form "grant_type" = grantAuthorizationCode → (now ≤ clock σ)%Z →
  (run h (handleToken s rq) (mkState (sweep_codes now (codes σ)) (clock σ) (hist σ))).1 =
  (run h (handleToken s rq) σ).1.
Proof.
  intros Hh Hm Hf Hg Hn.
  destruct (handleToken_run h s rq form σ Hh Hm Hf Hg) as (-> & _).
  destruct (handleToken_run h s rq form
    (mkState (sweep_codes now (codes σ)) (clock σ) (hist σ)) Hh Hm Hf Hg) as (-> & _).
  unfold redeem. cbn [codes clock].
  destruct (codes σ !! Get form "code") as [p|] eqn:Hp.
  - destruct (expired now p) eqn:He.
    + assert (sweep_codes now (codes σ) !! Get form "code" = None) as ->.
      { apply map_lookup_filter_None. right. intros p' Hp'. rewrite Hp in Hp'.
        injection Hp' as <-. cbn. by rewrite He. }
      unfold expired in *. destruct (Z.ltb_spec (expiresAt p) now); [|done].
      destruct (Z.ltb_spec (expiresAt p) (clock σ)); [done|lia].
    + assert (sweep_codes now (codes σ) !! Get form "code" = Some p) as ->.
      { apply map_lookup_filter_Some. done. }
      done.
  - assert (sweep_codes now (codes σ) !! Get form "code" = None) as ->; [|done].
    apply map_lookup_filter_None. by left.
Qed.

(** C8. A login started at the authorization endpoint keeps its state: the
    state parameter that comes back with the OAuth redirect splits into the
    bridge's own state, under which the client's redirect URI is pending for
    five minutes, and the client's state, whatever characters it contains. *)
Theorem authorize_state_round_trip h s rq σ :
  lawful h → isAllowedRedirectURI (config s) (Get (RQuery rq) "redirect_uri") = true →
  size (codes σ) < maxPendingCodes →
  ∃ q bs, (run h (handleAuthorize s rq) σ).1 = RRedirect (AuthorizationURL (osc s) +:+ "?" +:+ q) ∧
    splitState (Get (ParseQuery q) "state") = (bs, Get (RQuery rq) "state") ∧
    codes (run h (handleAuthorize s rq) σ).2 =
      <[bs := mkPending "" (clock σ + 5 * Minute) (Get (RQuery rq) "redirect_uri")]> (codes σ).
Proof.
  intros Hh Ha Hroom. unfold handleAuthorize. rewrite Ha. cbn [negb].
  rewrite run_bind. unfold generateCode. run_call.
  destruct (Hh (BRand 16) σ) as ((_ & Hm) & Hk & _).
  destruct (h (BRand 16) σ) as [b σ1]. cbn [fst snd run mret prog_ret] in *.
  run_call.
  destruct (Hh (BPut (hex_EncodeToString b) "" (Get (RQuery rq) "redirect_uri") (5 * Minute)) σ1)
    as (Hst & _). destruct (h (BPut _ _ _ _) σ1) as [ok σ2]. cbn [fst snd store_effect] in Hst.
  unfold codes_put in Hst. rewrite Hm, Hk in Hst.
  destruct (Nat.leb_spec maxPendingCodes (size (codes σ))) as [?|_]; [lia|].
  injection Hst as -> Hc. cbn [negb run mret prog_ret fst snd].
  eexists _, (hex_EncodeToString b). split; [done|]. split; [|done].
  rewrite Get_ParseQuery_Encode. unfold authorize_params, Get at 1.
  rewrite !lookup_insert_ne, lookup_insert_eq by done. cbn [default option_map].
  unfold splitState. by rewrite split_at_app by apply hex_lacks_colon.
Qed.

(** The cluster's Group objects as a directory: an absent group is answered
    with 404, a present one with the list of its users. *)
Definition serves_groups {W} (h : handler BSig W) (apiURL saToken : string)
    (dir : string → option (list string)) : Prop :=
  ∀ g, NewRequest (group_request apiURL saToken g) = inr (group_request apiURL saToken g) ∧
    responds h (BHttp saHTTPClient (group_request apiURL saToken g)) (λ r, ∃ rs, r = inr rs ∧
      match dir g with
      | None => StatusCode rs = 404%Z
      | Some us => StatusCode rs = 200%Z ∧
                   decode_Group (LimitReader 1048576 (Body rs)) = inr us
      end).

(** The user is listed in the group, possibly base64-encoded. *)
Definition member_of (dir : string → option (list string)) (username g : string) : Prop :=
  g ≠ "" ∧ ∃ us u, dir g = Some us ∧ u ∈ us ∧ group_user u = Some username.

#[global] Instance member_of_dec dir username g : Decision (member_of dir username g).
Proof.
  destruct (decide (g = "")) as [He|He]; [right; by intros [? _]|].
  destruct (dir g) as [us|] eqn:Hd; [|right; intros (_ & us & u & ? & _); congruence].
  destruct (decide (Exists (λ u, group_user u = Some username) us)) as [Hx|Hx].
  - left. split; [done|]. apply Exists_exists in Hx as (u & ? & ?). eauto.
  - right. intros (_ & us' & u & ? & ? & ?). apply Hx, Exists_exists. simplify_eq. eauto.
Defined.

Lemma user_listed_spec username us :
  user_listed username us = true ↔ ∃ u, u ∈ us ∧ group_user u = Some username.
Proof.
  unfold user_listed. rewrite existsb_elem_of. setoid_rewrite bool_decide_eq_true. done.
Qed.

(** The part of the cluster that identifies a ServiceAccount: the bridge can
    read its own token, the Group objects are served, and the TokenReview of the
    presented token gives a uid. *)
Record identifies_sa {W} (h : handler BSig W) (c : OpenShiftClient) (apiURL tok sa_raw sa_token : string)
    (dir : string → option (list string)) (uid : string) : Prop := {
  sa_file : responds h (BReadFile (SATokenPath c)) (λ r, r = inr sa_raw);
  sa_trimmed : TrimSpace sa_raw = sa_token; sa_nonempty : sa_token ≠ "";
  sa_groups : serves_groups h apiURL sa_token dir;
  sa_review_url : NewRequest (review_request apiURL sa_token tok) = inr (review_request apiURL sa_token tok);
  sa_review : responds h (BHttp saHTTPClient (review_request apiURL sa_token tok)) (λ r, ∃ rs raw,
    r = inr rs ∧ (StatusCode rs = 200%Z ∨ StatusCode rs = 201%Z) ∧
    decode_TokenReview (LimitReader 65536 (Body rs)) = inr raw ∧
    Authenticated raw = true ∧ ReviewUID raw = uid);
  sa_uid : uid ≠ ""
}.

(** The API server as the bridge addresses it. *)
Definition api_url (env : option string) : string :=
  TrimRightByte slash (if default "" env =s "" then "https://kubernetes.default.svc:443" else default "" env).

(** A cluster that identifies the holder of [tok] as [raw]. *)
Record identifies {W} (h : handler BSig W) (c : OpenShiftClient) (env : option string)
    (tok sa_raw sa_token : string) (raw : UserInfo) (dir : string → option (list string)) (uid : string)
    : Prop := {
  id_env : responds h (BGetenv "KUBERNETES_API_URL") (λ r, r = env);
  id_url : NewRequest (users_request (api_url env) tok) = inr (users_request (api_url env) tok);
  id_user : responds h (BHttp httpClient (users_request (api_url env) tok)) (λ r, ∃ rs,
    r = inr rs ∧ StatusCode rs = 200%Z ∧ decode_User (Body rs) = inr raw);
  id_sa : HasPrefix (Name raw) saPrefix = true → identifies_sa h c (api_url env) tok sa_raw sa_token dir uid
}.

(** The identity: as the users API gives it, and for a ServiceAccount with the
    groups that list it and the reviewed uid. *)
Definition identity (raw : UserInfo) (dir : string → option (list string)) (uid : string)
    (names : list string) : UserInfo :=
  if HasPrefix (Name raw) saPrefix then
    mkUserInfo (Name raw) (if UID raw =s "" then uid else UID raw)
      (add_unseen (Groups raw) (filter (member_of dir (Name raw)) names))
  else raw.

Section identification.
Context {W : Type} (h : handler BSig W).

Lemma group_loop_yields apiURL saToken dir username names matched :
  serves_groups h apiURL saToken dir →
  yields h (group_loop apiURL saToken username names matched)
    (λ _ r, r = inr (matched ++ filter (member_of dir username) names)).
Proof.
  intros Hs. revert matched. induction names as [|g names IH]; intros matched.
  { apply yields_ret. by rewrite app_nil_r. }
  cbn [group_loop]. rewrite filter_cons. case_bool_decide as Hg.
  { rewrite decide_False by by intros []. apply IH. }
  destruct (Hs g) as (-> & Hr). eapply yields_call; [exact Hr|]. intros r (rs & -> & Hd).
  destruct (dir g) as [us|] eqn:Hdir.
  - destruct Hd as [-> ->]. cbn [Z.eqb Pos.eqb negb]. eapply yields_mono; [apply IH|].
    intros _ r ->. f_equal. destruct (user_listed username us) eqn:Hu.
    + apply user_listed_spec in Hu as (u & ? & ?).
      rewrite decide_True by (split; eauto). by rewrite <-app_assoc.
    + rewrite decide_False; [done|]. intros (_ & us' & u & ? & ? & ?). simplify_eq.
      assert (user_listed username us = true) by (apply user_listed_spec; eauto). congruence.
  - rewrite Hd. cbn [Z.eqb Pos.eqb]. rewrite decide_False; [apply IH|].
    intros (_ & us' & u & ? & _). congruence.
Qed.

Lemma kubeAPIURL_yields env :
  responds h (BGetenv "KUBERNETES_API_URL") (λ r, r = env) → yields h kubeAPIURL (λ _ r, r = api_url env).
Proof.
  intros He. unfold kubeAPIURL, Getenv. apply (yields_bind _ _ _ (λ _ r, r = default "" env)).
  - eapply yields_call; [exact He|]. intros r ->. by apply yields_ret.
  - intros t r ->. by apply yields_ret.
Qed.

Lemma readSAToken_yields c raw tok :
  responds h (BReadFile (SATokenPath c)) (λ r, r = inr raw) → TrimSpace raw = tok → tok ≠ "" →
  yields h (readSAToken c) (λ _ r, r = inr tok).
Proof.
  intros Hf Ht Hn. eapply yields_call; [exact Hf|]. intros r ->. cbn beta iota zeta.
  rewrite Ht, bool_decide_eq_false_2 by done. by apply yields_ret.
Qed.

(** Group resolution is complete as well as sound: against a cluster that
    answers, the result is exactly the requested groups, in order, whose Group
    object lists the user, verbatim or base64-encoded; empty names and absent
    groups are skipped. *)
Lemma checkGroupMemberships_yields c env raw tok dir username names :
  responds h (BGetenv "KUBERNETES_API_URL") (λ r, r = env) →
  responds h (BReadFile (SATokenPath c)) (λ r, r = inr raw) → TrimSpace raw = tok → tok ≠ "" →
  serves_groups h (api_url env) tok dir →
  yields h (checkGroupMemberships c username names)
    (λ _ r, r = inr (filter (member_of dir username) names)).
Proof.
  intros He Hf Ht Hn Hs. unfold checkGroupMemberships.
  eapply yields_bind; [by apply kubeAPIURL_yields|]. intros _ r ->.
  eapply yields_bind; [by eapply readSAToken_yields|]. intros _ r ->.
  exact (group_loop_yields _ _ _ username names [] Hs).
Qed.

Lemma tokenReviewUID_yields c env tok raw sa dir uid :
  responds h (BGetenv "KUBERNETES_API_URL") (λ r, r = env) →
  identifies_sa h c (api_url env) tok raw sa dir uid →
  yields h (tokenReviewUID c tok) (λ _ r, r = inr uid).
Proof.
  intros He [Hf Ht Hn _ Hurl Hrev Hu]. unfold tokenReviewUID.
  eapply yields_bind; [by eapply readSAToken_yields|]. intros _ r ->.
  eapply yields_bind; [by apply kubeAPIURL_yields|]. intros _ r ->.
  rewrite Hurl. eapply yields_call; [exact Hrev|]. intros r (rs & rv & -> & Hst & Hd & Ha & Huid).
  assert (negb (StatusCode rs =? 201)%Z && negb (StatusCode rs =? 200)%Z = false) as ->
    by (destruct Hst as [-> | ->]; done).
  rewrite Hd, Ha, Huid, bool_decide_eq_false_2 by done. by apply yields_ret.
Qed.

Lemma GetUserInfo_yields c env tok sa_raw sa raw dir uid names :
  identifies h c env tok sa_raw sa raw dir uid → names ≠ [] →
  yields h (GetUserInfo c tok names) (λ _ r, r = inr (identity raw dir uid names)).
Proof.
  intros [He Hurl Hu Hsa] Hns. unfold GetUserInfo, identity.
  eapply yields_bind; [by apply kubeAPIURL_yields|]. intros _ r ->.
  rewrite Hurl. eapply yields_call; [exact Hu|]. intros r (rs & -> & -> & ->). cbn [negb Z.eqb Pos.eqb].
  destruct (HasPrefix (Name raw) saPrefix); [|by apply yields_ret]. specialize (Hsa eq_refl).
  unfold complete_sa. eapply yields_bind.
  { destruct names; [done|]. pose proof Hsa as [Hf Ht Hn Hg _ _ _].
    by eapply checkGroupMemberships_yields. }
  intros _ r ->. cbn [UID Name Groups]. case_bool_decide; [|by apply yields_ret].
  eapply yields_bind; [by eapply tokenReviewUID_yields|]. intros _ r ->. by apply yields_ret.
Qed.
End identification.

(** C9. The token exchange succeeds for every user the cluster identifies and
    the configuration admits, ServiceAccounts included.  The cluster identifies
    the holder of the presented token when the users API, addressed by
    KUBERNETES_API_URL or its default, names them, and for a ServiceAccount when
    also the bridge's own token can be read, its Groups are served and the
    TokenReview gives a uid; the clock may move.  When that identity is
    authorized and the signing key can sign, the answer is the token document
    for exactly this identity, minted at a time the clock showed, with the
    issuer, audience and lifetime of the configuration. *)
Theorem token_exchange_succeeds {W} (h : handler BSig W) s rq env tok sa_raw sa_token raw dir uid :
  identifies h (osc s) env tok sa_raw sa_token raw dir uid →
  let info := identity raw dir uid [cfgUserGroup (config s); cfgAdminGroup (config s)] in
  isAuthorized (config s) (Name info) (Groups info) = true →
  (∀ digest, ∃ g, SignPKCS1v15 (privateKey (signer s)) digest = inr g) →
  Method rq = "POST" → Authorization rq = "Bearer " +:+ tok →
  yields h (handleTokenExchange s rq) (λ t r, ∃ t0 t1 j,
    r = RJson (exchange_document (config s) j t1) ∧ mint_for s t0 info = inr j ∧
    Ev (S := BSig) BNow t0 ∈ t ∧ Ev (S := BSig) BNow t1 ∈ t).
Proof.
  intros Hid info Ha Hkey Hm Hauth.
  unfold handleTokenExchange. rewrite Hm, Hauth, bool_decide_eq_true_2 by done. cbn [negb].
  assert (HasPrefix ("Bearer " +:+ tok) "Bearer " = true) as Hp by (apply HasPrefix_app; eauto).
  unfold TrimPrefix. rewrite Hp. cbn [negb]. change (drop_bytes _ _) with tok.
  eapply yields_bind; [by eapply GetUserInfo_yields|]. intros t r ->. fold info. rewrite Ha. cbn [negb].
  eapply yields_any. intros t0. destruct (mint_for s t0 info) as [e|j] eqn:Hj.
  { unfold mint_for, MintToken in Hj. destruct (Hkey (sha256_Sum256 (signing_input (signer s)
      (mint_claims t0 (cfgIssuer (config s)) (cfgAudience (config s)) (UID info) (Name info) ""
        (mapRoles (config s) (Groups info)) (cfgTokenTTL (config s)))))) as [g Hg].
    by rewrite Hg in Hj. }
  eapply yields_any. intros t1. apply yields_ret. exists t0, t1, j.
  split; [done|]. split; [done|]. split; apply elem_of_app; right; [by left|by right; left].
Qed.
End functional.

(** ** Witnesses *)

Definition toy_end : bstate := (toy_run login (start 1000) []).1.
Definition toy_results : list result := (toy_run login (start 1000) []).2.

Lemma toy_end_reachable : bridge_reachable toy_server 1000 (toy_end, [], toy_results).
Proof. apply toy_reachable. Qed.

Definition toy_response (i : nat) : response :=
  match toy_results !! i with Some x => x.2.2 | None => RNotFound end.

Definition toy_doc : json := match toy_response 2 with RJson d => d | _ => JStr "" end.
Definition toy_token : string := default "" (token_of toy_doc).

Lemma toy_result_in i x : toy_results !! i = Some x → x ∈ toy_results.
Proof. apply list_elem_of_lookup_2. Qed.

Lemma toy_handler_lawful : lawful toy_handler.
Proof. intros c σ. apply toy_handler_effect. by destruct (toy_handler c σ). Qed.

(** The third request of the login got a token. *)
Lemma released_tokens_are_backed_witness : ∃ tok info t0,
  vouched (hist toy_end) tok ["devs"; "admins"] info ∧
  isAuthorized toy_config (Name info) (Groups info) = true ∧
  verify_token ("key" : rsa_key) toy_token =
    Some (json_render (header_json (signer toy_server)),
          json_render (claims_json (mint_claims t0 "http://127.0.0.1:9090" "openshell"
            (UID info) (Name info) "" (mapRoles toy_config (Groups info)) Hour))).
Proof.
  refine (released_tokens_are_backed toy_server 1000 toy_end [] toy_results
    token_rq security_headers toy_doc toy_token toy_end_reachable _ _).
  - apply (toy_result_in 2). vm_compute. reflexivity.
  - vm_compute. reflexivity.
Defined.

Lemma callback_redirects_are_allowed_witness : ∃ uri u code state,
  isAllowedRedirectURI toy_config uri = true ∧ url_Parse uri = inr u ∧
  "http://localhost:8080/cb?code=72727272727272727272727272727272&state=xyz%3A1" =
    url_String (with_query u (Encode (VSet "state" state (VSet "code" code (Query u))))).
Proof.
  refine (proj2 (callback_redirects_are_allowed toy_server 1000 toy_end [] toy_results
    callback_rq security_headers _ toy_end_reachable _ eq_refl)).
  apply (toy_result_in 1). vm_compute. reflexivity.
Defined.

Lemma codes_are_single_use_witness :
  count (redeems "72727272727272727272727272727272") (hist toy_end) +
  present toy_end "72727272727272727272727272727272" ≤
  count (inserts "72727272727272727272727272727272") (hist toy_end).
Proof. exact (codes_are_single_use toy_server 1000 toy_end [] toy_results _ toy_end_reachable). Defined.

Lemma pending_codes_bounded_witness : size (codes toy_end) ≤ maxPendingCodes.
Proof. exact (proj1 (pending_codes_bounded toy_server 1000 toy_end [] toy_results toy_end_reachable)). Defined.

Definition toy_form : Values := default ∅ (Form token_rq).
Definition toy_pending : bstate :=
  (toy_run [authorize_rq; callback_rq] (start 1000) []).1.

Lemma handleToken_redeems_once_witness :
  (run toy_handler (handleToken toy_server token_rq) toy_pending).1 =
    RJson (token_document toy_config toy_token) ∧
  codes (run toy_handler (handleToken toy_server token_rq) toy_pending).2 =
    delete (Get toy_form "code") (codes toy_pending) ∧
  (run toy_handler (handleToken toy_server token_rq)
    (run toy_handler (handleToken toy_server token_rq) toy_pending).2).1 =
    RError (error_doc "invalid_grant") 400.
Proof.
  destruct (handleToken_redeems_once toy_handler toy_server token_rq toy_form toy_pending
    toy_handler_lawful eq_refl eq_refl eq_refl) as [Ha Hb].
  split; [rewrite Ha; vm_compute; reflexivity|exact Hb].
Defined.

Lemma sweep_is_unobservable_witness :
  (run toy_handler (handleToken toy_server token_rq)
    (mkState (sweep_codes 900 (codes toy_pending)) (clock toy_pending) (hist toy_pending))).1 =
  (run toy_handler (handleToken toy_server token_rq) toy_pending).1.
Proof.
  refine (sweep_is_unobservable toy_handler toy_server token_rq toy_form toy_pending 900
    toy_handler_lawful eq_refl eq_refl eq_refl _). vm_compute. discriminate.
Defined.

Lemma authorize_state_round_trip_witness : ∃ q bs,
  (run toy_handler (handleAuthorize toy_server authorize_rq) (start 1000)).1 =
    RRedirect (AuthorizationURL (osc toy_server) +:+ "?" +:+ q) ∧
  splitState (Get (ParseQuery q) "state") = (bs, Get (RQuery authorize_rq) "state") ∧
  codes (run toy_handler (handleAuthorize toy_server authorize_rq) (start 1000)).2 =
    <[bs := mkPending "" (1000 + 5 * Minute) (Get (RQuery authorize_rq) "redirect_uri")]> ∅.
Proof.
  refine (authorize_state_round_trip toy_handler toy_server authorize_rq (start 1000)
    toy_handler_lawful _ _).
  - vm_compute. reflexivity.
  - cbn [codes start]. rewrite map_size_empty. unfold maxPendingCodes. lia.
Defined.

(** One group, which lists the builder account. *)
Definition toy_groups : string → option (list string) :=
  λ g, if PathEscape g =s "devs" then Some [sa_builder] else None.

Lemma toy_url_parses r : ∃ u, url_Parse ("https://kubernetes.default.svc:443" +:+ r) = inr u.
Proof.
  unfold url_Parse, toy_url, toy_parse.
  change ("https://kubernetes.default.svc:443" +:+ r)
    with ("https" +:+ String ":"%char ("//kubernetes.default.svc:443" +:+ r)).
  rewrite split_at_app by reflexivity. repeat split_match; eauto.
Qed.

Lemma toy_serves_groups : serves_groups toy_handler toy_api "sa-token" toy_groups.
Proof.
  intros g. split.
  - unfold NewRequest, group_request. cbn [rq_url].
    unfold toy_api. by destruct (toy_url_parses ("/apis/user.openshift.io/v1/groups/" +:+ PathEscape g)) as [u ->].
  - intros σ. unfold toy_groups. cbn [toy_handler fst]. unfold toy_http. cbn [rq_url group_request].
    set (url := toy_api +:+ "/apis/user.openshift.io/v1/groups/" +:+ PathEscape g).
    rewrite (bool_decide_eq_false_2 (url = _)) by done.
    destruct (decide (PathEscape g = "devs")) as [Hg|Hg].
    + unfold url. rewrite (bool_decide_eq_true_2 _ Hg), Hg, bool_decide_eq_true_2 by done. by eexists.
    + rewrite (bool_decide_eq_false_2 _ Hg). unfold url.
      rewrite (bool_decide_eq_false_2 (_ = _ +:+ "/apis/user.openshift.io/v1/groups/devs")).
      2: { change "/apis/user.openshift.io/v1/groups/devs"
             with ("/apis/user.openshift.io/v1/groups/" +:+ "devs").
           intros H. by do 2 apply (inj (String.append _)) in H. }
      rewrite !bool_decide_eq_false_2 by done. by eexists.
Qed.

Definition toy_builder : UserInfo := mkUserInfo sa_builder "" [].

(** The builder account, which the users API knows without uid and groups. *)
Lemma toy_identifies :
  identifies toy_handler (osc toy_server) None sa_builder "sa-token" "sa-token" toy_builder toy_groups
    "uid-builder".
Proof.
  split; [done|done| |].
  - intros σ. by exists (mkResp 200 sa_builder).
  - intros _. split; [done|done|done|apply toy_serves_groups|done| |done].
    intros σ. exists (mkResp 201 "uid-builder"), (mkTokenReview true "uid-builder"). auto.
Qed.

Lemma token_exchange_succeeds_witness :
  ∃ t0 t1 j, (run toy_handler (handleTokenExchange toy_server (exchange_rq sa_builder)) (start 1000)).1 =
      RJson (exchange_document toy_config j t1) ∧
    mint_for toy_server t0 (mkUserInfo sa_builder "uid-builder" ["devs"]) = inr j.
Proof.
  destruct (token_exchange_succeeds toy_handler toy_server (exchange_rq sa_builder) None sa_builder
    "sa-token" "sa-token" toy_builder toy_groups "uid-builder" toy_identifies) with (start 1000)
    as (t0 & t1 & j & Hr & Hj & _).
  - vm_compute. reflexivity.
  - intros d. by eexists.
  - reflexivity.
  - reflexivity.
  - exists t0, t1, j. split; [exact Hr|]. exact Hj.
Defined.
