(* ===== verification/ApiTypes.v ===== *)
(** * api/v1alpha1: the custom resources

    Spec and status of OpenShellGateway, OpenShellProvider, OpenShellPolicy and
    OpenShellWorkspaceMember with the source's fields, one module per type.  A
    Go pointer is an [option]; a Go map is a finite map, nil and empty being the
    same. *)

From S2P Require Import Prelude.

(** [metav1.Condition]; the transition time is kept by the library. *)
Inductive ConditionStatus := ConditionTrue | ConditionFalse | ConditionUnknown.
Record Condition := mkCondition {
  CType : string; CStatus : ConditionStatus; CReason : string; CMessage : string
}.

#[export] Instance ConditionStatus_eq_dec : EqDecision ConditionStatus.
Proof. solve_decision. Defined.
#[export] Instance Condition_eq_dec : EqDecision Condition.
Proof. solve_decision. Defined.

(** [corev1.ResourceRequirements], quantities as their text. *)
Record ResourceRequirements := mkResources {
  Requests : gmap string string; Limits : gmap string string
}.

(** ** OpenShellGateway *)
Module Gateway.
Record EmbeddedDatabaseConfig := mkEmbedded { StorageSize : string; EImage : string }.

Record DatabaseSpec := mkDatabase {
  Embedded : bool; EmbeddedConfig : option EmbeddedDatabaseConfig; SecretName : string
}.

Record SandboxSpec := mkSandbox {
  SNamespace : string; DefaultImage : string; ImagePullPolicy : string;
  WorkspaceStorageSize : string; RuntimeClassName : string; AppArmorProfile : string
}.

Record CertManagerSpec := mkCertManager { CMEnabled : bool; IssuerName : string; IssuerKind : string }.

Record TLSSpec := mkTLS {
  TLSEnabled : option bool; CertManager : CertManagerSpec; ServerCertSecretName : string
}.

Record GatewayAPISpec := mkGatewayAPI {
  GAEnabled : option bool; GatewayClassName : string;
  InstallEnvoyGateway : option bool; GrantSCCs : option bool
}.

Record RouteSpec := mkRoute {
  RouteEnabled : option bool; Hostname : string; GatewayAPI : GatewayAPISpec
}.

Record OpenShiftAuth := mkOpenShiftAuth {
  OAEnabled : option bool; UserGroup : string; AdminGroup : string; TokenTTL : string;
  AutoCreateGroups : option bool
}.

Record AuthSpec := mkAuth { AllowUnauthenticated : bool; OpenShift : OpenShiftAuth }.

Record NetworkPolicySpec := mkNetworkPolicy { NPEnabled : option bool }.

Record Spec := mkSpec {
  GNamespace : string; Image : string; ImageTag : string; SupervisorImage : string;
  AuthBridgeImage : string; Replicas : option Z; Database : DatabaseSpec;
  Sandbox : SandboxSpec; TLS : TLSSpec; Route : RouteSpec; Auth : AuthSpec;
  LogLevel : string; Resources : ResourceRequirements; NetworkPolicy : NetworkPolicySpec
}.

Record Status := mkStatus {
  Phase : string; GatewayURL : string; ClientCertSecretName : string;
  ObservedGeneration : Z; Conditions : list Condition
}.
End Gateway.

(** Condition types and phases. *)
Definition ConditionAvailable : string := "Available".
Definition ConditionProgressing : string := "Progressing".
Definition ConditionDegraded : string := "Degraded".
Definition ConditionDatabaseReady : string := "DatabaseReady".
Definition ConditionEnvoyGatewayReady : string := "EnvoyGatewayReady".
Definition ConditionOpenShiftGroups : string := "OpenShiftGroupsReady".
Definition ConditionEnvoyProxySCCReady : string := "EnvoyProxySCCReady".
Definition ConditionEnvoyRouteReady : string := "EnvoyRouteReady".
Definition ConditionBrowserSSOReady : string := "BrowserSSOReady".
Definition ConditionImageConfigValid : string := "ImageConfigValid".
Definition PhaseCreating : string := "Creating".
Definition PhaseRunning : string := "Running".
Definition PhaseFailed : string := "Failed".

(** ** OpenShellProvider *)
Module Provider.
Record SecretKeyRef := mkRef { RefName : string; RefKey : string }.

Record Spec := mkSpec {
  ProviderType : string; Credentials : gmap string SecretKeyRef; Config : gmap string string
}.

Record Status := mkStatus {
  Phase : string; ObservedGeneration : Z; Conditions : list Condition;
  ReconciledCredentialKeys : list string; ReconciledConfigKeys : list string
}.
End Provider.

(** ** OpenShellPolicy *)
Module Policy.
Record FilesystemPolicy := mkFilesystem {
  IncludeWorkdir : bool; ReadOnly : list string; ReadWrite : list string
}.

Record NetworkEndpoint := mkEndpoint {
  Host : string; Port : Z; Protocol : string; Enforcement : string; Access : string
}.

Record NetworkBinary := mkBinary { BPath : string }.

Record NetworkPolicyRule := mkRule {
  RuleName : string; Endpoints : list NetworkEndpoint; Binaries : list NetworkBinary
}.

Record ProcessPolicy := mkProcess { RunAsUser : string; RunAsGroup : string }.

Record Spec := mkSpec {
  PolicyName : string; Filesystem : option FilesystemPolicy;
  Network : gmap string NetworkPolicyRule; Process : option ProcessPolicy
}.

Record Status := mkStatus {
  Phase : string; ObservedGeneration : Z; Conditions : list Condition; AppliedToGateway : bool
}.
End Policy.

(** ** OpenShellWorkspaceMember *)
Module Member.
Record Spec := mkSpec { Workspace : string; ServiceAccountRef : string; Role : string }.

Record Status := mkStatus {
  Phase : string; ObservedGeneration : Z; Conditions : list Condition; ReconciledSubject : string
}.
End Member.
