(* ===== verification/GoHeap.v ===== *)
(** * A store with pointers, slices and maps

    Most of the development treats API objects as values.  The generated deep
    copies (api/v1alpha1/zz_generated.deepcopy.go) are about what a value model
    cannot see: which parts of two objects are the same memory.  This file has
    the store they run on, a state monad that fails on a nil or dangling
    pointer, what it means that memory holds a value ([rep]), and what a copy
    is ([Copies]). *)

From S2P Require Import Prelude.

Abbreviation loc := positive.

(** Typed views of an untyped location: a Go pointer, slice header or map
    handle.  A slice is a window of its backing array. *)
Record ptr (T : Type) := Ptr { p_loc : option loc }.
Record window := Window { w_arr : loc; w_off : nat; w_len : nat }.
Record slice (T : Type) := Slice { s_win : option window }.
Record gomap (T : Type) := Gomap { m_loc : option loc }.
Arguments Ptr {T} p_loc.
Arguments p_loc {T} p.
Arguments Slice {T} s_win.
Arguments s_win {T} s.
Arguments Gomap {T} m_loc.
Arguments m_loc {T} g.

(** A cell can hold a [T]. *)
Class InCell (cell T : Type) := {
  inj : T → cell;
  prj : cell → option T;
  prj_inj : ∀ x, prj (inj x) = Some x
}.

(** The order in which [range] visits a map: unspecified, but every entry is
    visited once. *)
Class RangeOrder := {
  range : ∀ {T : Type}, gmap string T → list (string * T);
  range_perm : ∀ T (m : gmap string T), range m ≡ₚ map_to_list m
}.

Abbreviation gheap cell := (gmap loc cell).

Section heap.
Context {cell : Type}.
#[local] Abbreviation heap := (gheap cell).

Definition heapM (A : Type) : Type := heap → option (A * heap).

#[global] Instance heapM_ret : MRet heapM := λ A a h, Some (a, h).
#[global] Instance heapM_bind : MBind heapM := λ A B f p h,
  match p h with
  | Some (a, h') => f a h'
  | None => None
  end.

Definition load {T} `{InCell cell T} (l : loc) : heapM T := λ h,
  x ← h !! l ≫= prj; Some (x, h).

(** [new] and [make]: a cell nobody has. *)
Definition alloc {T} `{InCell cell T} (x : T) : heapM loc := λ h,
  let l := fresh (dom h) in Some (l, <[l := inj x]> h).

(** [for i := range s { f(s[i]) }], collecting. *)
Fixpoint each {A B} (f : A → heapM B) (l : list A) : heapM (list B) :=
  match l with
  | [] => mret []
  | x :: l => y ← f x; ys ← each f l; mret (y :: ys)
  end.

(** ** The three shapes of a generated copy

    [if in.F != nil { in, out := &in.F, &out.F; ... }].  The order of
    allocations cannot be observed; the copied parts are allocated before the
    cell that holds them. *)

(** [out = new(T)], and the pointee copied by [f]. *)
Definition copy_ptr {T} `{InCell cell T} (f : T → heapM T) (p : ptr T) : heapM (ptr T) :=
  match p_loc p with
  | None => mret (Ptr None)
  | Some l => x ← load l; y ← f x; l' ← alloc y; mret (Ptr (Some l'))
  end.

Definition elements {T} `{InCell cell (list T)} (w : window) : heapM (list T) :=
  xs ← load (T := list T) (w_arr w);
  mret (take (w_len w) (drop (w_off w) xs)).

(** [out = make([]T, len(in))], and every element copied by [f]. *)
Definition copy_slice {T} `{InCell cell (list T)} (f : T → heapM T) (s : slice T) : heapM (slice T) :=
  match s_win s with
  | None => mret (Slice None)
  | Some w =>
      xs ← elements w;
      ys ← each f xs;
      l ← alloc (T := list T) ys;
      mret (Slice (Some (Window l 0 (length ys))))
  end.

(** [out = make(map[string]T, len(in))], and [out[key] = f(val)] for every entry. *)
Definition copy_map {R : RangeOrder} {T} `{InCell cell (gmap string T)} (f : T → heapM T) (m : gomap T)
    : heapM (gomap T) :=
  match m_loc m with
  | None => mret (Gomap None)
  | Some l =>
      xs ← load (T := gmap string T) l;
      ys ← each (λ kv, v ← f kv.2; mret (kv.1, v)) (range xs);
      l' ← alloc (T := gmap string T) (list_to_map ys);
      mret (Gomap (Some l'))
  end.

(** [val.DeepCopy()] of a variable, and the value behind the result. *)
Definition copy_value {T} `{InCell cell T} (f : T → heapM T) (x : T) : heapM T :=
  v ← alloc x;
  q ← copy_ptr f (Ptr (Some v));
  match p_loc q with
  | None => λ _, None
  | Some l => load l
  end.

(** ** What memory holds

    [rep h P m v]: in the store [h] the memory value [m] holds the tree [v], and
    every location on the way satisfies [P].  Nil and empty are distinguished. *)
Class Rep (M V : Type) := rep : heap → (loc → Prop) → M → V → Prop.

Class RepLaws (M V : Type) `{Rep M V} : Prop := {
  rep_local : ∀ h h' (P P' : loc → Prop) m v,
    (∀ l, P l → P' l) → (∀ l, P l → l ∈ dom h → h' !! l = h !! l) → rep h P m v → rep h' P' m v;
  rep_dom : ∀ h P m v, rep h P m v → rep h (λ l, P l ∧ l ∈ dom h) m v
}.

(** Values without references. *)
Class Flat (M : Type) := {}.
#[global] Instance rep_flat {M} `{!Flat M} : Rep M M := λ _ _ m v, m = v.
#[global] Instance rep_prod {M1 V1 M2 V2} `{Rep M1 V1, Rep M2 V2} : Rep (M1 * M2) (V1 * V2) :=
  λ h P m v, rep h P m.1 v.1 ∧ rep h P m.2 v.2.

#[global] Instance rep_ptr {M V} `{InCell cell M, Rep M V} : Rep (ptr M) (option V) := λ h P p v,
  match p_loc p, v with
  | None, None => True
  | Some l, Some v => P l ∧ ∃ x, h !! l ≫= prj = Some x ∧ rep h P x v
  | _, _ => False
  end.

#[global] Instance rep_slice {M V} `{InCell cell (list M), Rep M V} : Rep (slice M) (option (list V)) :=
  λ h P s v,
  match s_win s, v with
  | None, None => True
  | Some w, Some vs => P (w_arr w) ∧ ∃ xs, h !! w_arr w ≫= prj = Some xs ∧
      Forall2 (rep h P) (take (w_len w) (drop (w_off w) xs)) vs
  | _, _ => False
  end.

#[global] Instance rep_map {M V} `{InCell cell (gmap string M), Rep M V}
    : Rep (gomap M) (option (gmap string V)) := λ h P m v,
  match m_loc m, v with
  | None, None => True
  | Some l, Some vs => P l ∧ ∃ xs : gmap string M, h !! l ≫= prj = Some xs ∧
      ∀ k, match xs !! k, vs !! k with
           | None, None => True
           | Some x, Some v => rep h P x v
           | _, _ => False
           end
  | _, _ => False
  end.

(** A struct is the tuple of its fields. *)
Definition rep_via {M N V} (f : M → N) `{Rep N V} : Rep M V := λ h P m v, rep h P (f m) v.

#[global] Instance rep_flat_laws {M} `{!Flat M} : RepLaws M M.
Proof. split; by unfold rep, rep_flat. Qed.

#[global] Instance rep_prod_laws {M1 V1 M2 V2} `{RepLaws M1 V1, RepLaws M2 V2} :
  RepLaws (M1 * M2) (V1 * V2).
Proof.
  split.
  - intros h h' P P' m v HP Hh [Ha Hb]. split; by eapply rep_local.
  - intros h P m v [Ha Hb]. split; by apply rep_dom.
Qed.

Lemma loaded_dom {T} `{InCell cell T} (h : heap) l x : h !! l ≫= prj = Some x → l ∈ dom h.
Proof. intros Hl. apply elem_of_dom. destruct (h !! l); [by eexists|done]. Qed.

Lemma Forall2_impl_l {A B} (R R' : A → B → Prop) l k :
  (∀ x y, R x y → R' x y) → Forall2 R l k → Forall2 R' l k.
Proof. intros HR HF. eapply Forall2_impl; eauto. Qed.

#[global] Instance rep_ptr_laws {M V} `{InCell cell M, RepLaws M V} : RepLaws (ptr M) (option V).
Proof.
  split.
  - intros h h' P P' [[l|]] [v|]; try done. intros HP Hh (Hl & x & Hx & Hr).
    split; [by apply HP|]. exists x. rewrite Hh by (done || by eapply loaded_dom).
    split; [done|]. by eapply rep_local.
  - intros h P [[l|]] [v|]; try done. intros (Hl & x & Hx & Hr).
    split; [split; [done|by eapply loaded_dom]|]. exists x. split; [done|]. by apply rep_dom.
Qed.

#[global] Instance rep_slice_laws {M V} `{InCell cell (list M), RepLaws M V} :
  RepLaws (slice M) (option (list V)).
Proof.
  split.
  - intros h h' P P' [[w|]] [v|]; try done. intros HP Hh (Hl & x & Hx & Hr).
    split; [by apply HP|]. exists x. rewrite Hh by (done || by eapply loaded_dom).
    split; [done|]. eapply Forall2_impl_l; [|exact Hr]. intros ???. by eapply rep_local.
  - intros h P [[w|]] [v|]; try done. intros (Hl & x & Hx & Hr).
    split; [split; [done|by eapply loaded_dom]|]. exists x. split; [done|].
    eapply Forall2_impl_l; [|exact Hr]. intros ???. by apply rep_dom.
Qed.

#[global] Instance rep_map_laws {M V} `{InCell cell (gmap string M), RepLaws M V} :
  RepLaws (gomap M) (option (gmap string V)).
Proof.
  split.
  - intros h h' P P' [[l|]] [v|]; try done. intros HP Hh (Hl & x & Hx & Hr).
    split; [by apply HP|]. exists x. rewrite Hh by (done || by eapply loaded_dom).
    split; [done|]. intros k. specialize (Hr k). repeat case_match; try done. by eapply rep_local.
  - intros h P [[l|]] [v|]; try done. intros (Hl & x & Hx & Hr).
    split; [split; [done|by eapply loaded_dom]|]. exists x. split; [done|].
    intros k. specialize (Hr k). repeat case_match; try done. by apply rep_dom.
Qed.

Lemma rep_via_laws {M N V} (f : M → N) `{RepLaws N V} : RepLaws M V (H := rep_via f).
Proof. split; unfold rep, rep_via; intros; [by eapply rep_local|by apply rep_dom]. Qed.

(** ** Running to a postcondition

    [ok h p Q]: from [h] the program returns (no nil or dangling pointer is
    followed), writes to no cell that existed, and ends in [Q]. *)
Definition ok {A} (h : heap) (p : heapM A) (Q : A → heap → Prop) : Prop :=
  ∃ a h', p h = Some (a, h') ∧ h ⊆ h' ∧ Q a h'.

Lemma ok_ret {A} h (a : A) (Q : A → heap → Prop) : Q a h → ok h (mret a) Q.
Proof. intros HQ. by exists a, h. Qed.

Lemma ok_mono {A} h p (Q Q' : A → heap → Prop) :
  ok h p Q → (∀ a h', h ⊆ h' → Q a h' → Q' a h') → ok h p Q'.
Proof. intros (a & h' & Hp & Hh & HQ) Himp. exists a, h'. eauto. Qed.

Lemma ok_bind {A B} h (p : heapM A) (f : A → heapM B) (R : A → heap → Prop) Q :
  ok h p R → (∀ a h', h ⊆ h' → R a h' → ok h' (f a) Q) → ok h (p ≫= f) Q.
Proof.
  intros (a & h' & Hp & Hh & HR) Hf. destruct (Hf a h' Hh HR) as (b & h'' & Hb & Hh' & HQ).
  exists b, h''. split; [|split; [by etrans|done]]. unfold mbind, heapM_bind. by rewrite Hp.
Qed.

Lemma ok_load {T} `{InCell cell T} h l x (Q : T → heap → Prop) :
  h !! l ≫= prj = Some x → Q x h → ok h (load l) Q.
Proof. intros Hl HQ. exists x, h. unfold load. by rewrite Hl. Qed.

Lemma ok_alloc {T} `{InCell cell T} h (x : T) (Q : loc → heap → Prop) :
  (∀ l, l ∉ dom h → Q l (<[l := inj x]> h)) → ok h (alloc x) Q.
Proof.
  intros HQ. exists (fresh (dom h)), (<[fresh (dom h) := inj x]> h).
  pose proof (is_fresh (dom h)) as Hf. split; [done|].
  split; [by apply insert_subseteq, not_elem_of_dom|by apply HQ].
Qed.

(** ** Copies *)

(** The new part of a store. *)
Definition new_in (h : heap) (l : loc) : Prop := l ∉ dom h.

Lemma rep_extend {M V} `{RepLaws M V} h h' (P P' : loc → Prop) m v :
  h ⊆ h' → (∀ l, P l → P' l) → rep h P m v → rep h' P' m v.
Proof.
  intros Hh HP. apply rep_local; [done|]. intros l _ [x Hx]%elem_of_dom.
  rewrite Hx. by eapply lookup_weaken.
Qed.

Lemma new_in_mono h h' l : h ⊆ h' → new_in h' l → new_in h l.
Proof. unfold new_in. intros Hh Hl Hd. by apply Hl, (subseteq_dom _ _ Hh). Qed.

(** [f] makes a copy: it returns, and what it returns holds the same tree in
    memory that was not there before. *)
Class Copies {M V} `{Rep M V} (f : M → heapM M) : Prop :=
  copies : ∀ h P m v, rep h P m v → ok h (f m) (λ m' h', rep h' (new_in h) m' v).

(** The rule for a copy in the middle of another: [h0] is the store at the
    start. *)
Lemma ok_copy {M V} `{RepLaws M V} (f : M → heapM M) `{!Copies f} h0 h P m v :
  h0 ⊆ h → rep h0 P m v → ok h (f m) (λ m' h', rep h' (new_in h0) m' v).
Proof.
  intros Hh Hr. apply (rep_extend h0 h P P) in Hr; [|done..].
  apply copies in Hr. eapply ok_mono; [exact Hr|]. cbn. intros m' h' Hh'.
  apply rep_extend; [done|]. intros l. by apply new_in_mono.
Qed.

#[global] Instance copies_flat {M} `{!Flat M} : Copies (M := M) mret.
Proof. intros h P m v Hr. by apply ok_ret. Qed.

Lemma lookup_new {T} `{InCell cell T} (h : heap) l x :
  <[l := inj x]> h !! l ≫= prj = Some (x : T).
Proof. rewrite lookup_insert_eq. cbn. by rewrite prj_inj. Qed.

#[global] Instance copies_ptr {M V} `{InCell cell M, RepLaws M V} (f : M → heapM M) `{!Copies f} :
  Copies (copy_ptr f).
Proof.
  intros h P [[l|]] [v|] Hr; try done; unfold copy_ptr; cbn [p_loc].
  - destruct Hr as (Hl & x & Hx & Hr).
    eapply ok_bind with (R := λ y h1, y = x ∧ h1 = h); [by eapply ok_load|]. intros _ h1 _ [-> ->].
    eapply ok_bind; [by eapply (ok_copy f h)|]. intros y h1 Hh1 Hy.
    eapply ok_bind with (R := λ l h2, new_in h l ∧ h1 ⊆ h2 ∧ h2 !! l ≫= prj = Some y).
    { apply ok_alloc. intros l' Hl'. split; [by eapply new_in_mono|].
      split; [by apply insert_subseteq, not_elem_of_dom|apply lookup_new]. }
    intros l' h2 _ (Hl' & Hh2 & Hl2). apply ok_ret. split; [done|]. exists y. split; [done|].
    by eapply rep_extend.
  - by apply ok_ret.
Qed.

Lemma ok_each {A B C} (f : A → heapM B) (R : heap → B → C → Prop) (S : A → C → Prop) h0 h l vs :
  h0 ⊆ h →
  (∀ h h' b v, h ⊆ h' → R h b v → R h' b v) →
  (∀ h a v, h0 ⊆ h → S a v → ok h (f a) (λ b h', R h' b v)) →
  Forall2 S l vs → ok h (each f l) (λ bs h', Forall2 (R h') bs vs).
Proof.
  intros Hh HR Hf HF. revert h Hh. induction HF as [|a v l vs Ha HF IH]; intros h Hh; cbn [each].
  - apply ok_ret. constructor.
  - eapply ok_bind; [by apply Hf|]. cbn. intros b h1 Hh1 Hb.
    eapply ok_bind; [apply IH; by etrans|]. cbn. intros bs h2 Hh2 Hbs. apply ok_ret.
    constructor; eauto.
Qed.

#[global] Instance copies_slice {M V} `{InCell cell (list M), RepLaws M V} (f : M → heapM M)
    `{!Copies f} : Copies (copy_slice f).
Proof.
  intros h P [[w|]] [vs|] Hr; try done; unfold copy_slice; cbn [s_win].
  - destruct Hr as (Hl & xs & Hx & Hr). set (es := take _ _) in Hr.
    eapply ok_bind with (R := λ y h1, y = es ∧ h1 = h).
    { eapply ok_bind with (R := λ y h1, y = xs ∧ h1 = h); [by eapply ok_load|].
      intros _ h1 _ [-> ->]. by apply ok_ret. }
    intros _ h1 _ [-> ->].
    eapply ok_bind.
    { apply (ok_each f (λ h' b v, rep h' (new_in h) b v) (rep h P) h); [done|..|exact Hr].
      - intros. by eapply rep_extend.
      - intros. by eapply ok_copy. }
    cbn. intros ys h1 Hh1 Hys.
    eapply ok_bind with (R := λ l h2, new_in h l ∧ h1 ⊆ h2 ∧ h2 !! l ≫= prj = Some ys).
    { apply ok_alloc. intros l' Hl'. split; [by eapply new_in_mono|].
      split; [by apply insert_subseteq, not_elem_of_dom|apply lookup_new]. }
    intros l' h2 _ (Hl' & Hh2 & Hl2). apply ok_ret. split; [done|]. exists ys. split; [done|].
    cbn [w_len w_off]. rewrite drop_0, take_ge by done.
    eapply Forall2_impl_l; [|exact Hys]. intros. by eapply rep_extend.
  - by apply ok_ret.
Qed.

(** [val.DeepCopy()] of a variable. *)
#[global] Instance copies_value {M V} `{InCell cell M, RepLaws M V} (f : M → heapM M) `{!Copies f} :
  Copies (copy_value f).
Proof.
  intros h P x v Hr. unfold copy_value.
  eapply ok_bind with (R := λ l h1, h ⊆ h1 ∧ new_in h l ∧ h1 !! l ≫= prj = Some x).
  { apply ok_alloc. intros l Hl. split; [by apply insert_subseteq, not_elem_of_dom|].
    split; [done|apply lookup_new]. }
  intros l h1 _ (Hh1 & Hl & Hx).
  eapply ok_bind.
  { apply (ok_copy (copy_ptr f) h1 h1 (λ _, True) (Ptr (Some l)) (Some v)); [done|].
    split; [done|]. exists x. split; [done|]. by eapply rep_extend; [..|exact Hr]. }
  cbn. intros [[l'|]] h2 Hh2 Hq; [|done]. destruct Hq as (Hl' & y & Hy & Hr'). cbn [p_loc].
  eapply ok_load; [done|]. apply (rep_extend h2 h2 (new_in h1)); [done| |done]. intros ?. by apply new_in_mono.
Qed.

(** An entry of a map, in memory and as a value of [vs]. *)
Definition entry {M V} `{Rep M V} (vs : gmap string V) (h : heap) (P : loc → Prop)
    (e : string * M) (e' : string * V) : Prop :=
  e.1 = e'.1 ∧ vs !! e'.1 = Some e'.2 ∧ rep h P e.2 e'.2.

Lemma entries_of {M V} `{Rep M V} (xs : gmap string M) (vs : gmap string V) h P l :
  (∀ k, match xs !! k, vs !! k with
        | None, None => True | Some x, Some v => rep h P x v | _, _ => False end) →
  (∀ k x, (k, x) ∈ l → xs !! k = Some x) → ∃ vl, Forall2 (entry vs h P) l vl.
Proof.
  intros Hr. induction l as [|[k x] l IH]; intros Hl; [by exists []|].
  destruct IH as [vl IH]; [intros; apply Hl; by right|].
  assert (xs !! k = Some x) as Hk by (apply Hl; by left).
  specialize (Hr k). rewrite Hk in Hr. destruct (vs !! k) as [v|] eqn:Hv; [|done].
  exists ((k, v) :: vl). by constructor.
Qed.

Lemma entries_map {M V} `{Rep M V} (vs : gmap string V) h P (es : list (string * M)) vl :
  NoDup es.*1 → Forall2 (entry vs h P) es vl →
  (∀ k, is_Some (vs !! k) → k ∈ es.*1) →
  ∀ k, match (list_to_map es : gmap string M) !! k, vs !! k with
       | None, None => True | Some x, Some v => rep h P x v | _, _ => False end.
Proof.
  intros Hnd HF Hall k. destruct (list_to_map es !! k) as [x|] eqn:Hx.
  - apply elem_of_list_to_map_2 in Hx.
    destruct (proj1 (list_elem_of_lookup _ _) Hx) as [i Hi].
    destruct (Forall2_lookup_l _ _ _ _ _ HF Hi) as ([k' v] & Hv & He & Hvs & Hr).
    cbn in *. subst k'. by rewrite Hvs.
  - apply not_elem_of_list_to_map_2 in Hx. destruct (vs !! k) eqn:Hv; [|done].
    apply Hx, Hall. by eexists.
Qed.

Lemma entry_keys {M V} `{Rep M V} (vs : gmap string V) h P (es : list (string * M)) vl :
  Forall2 (entry vs h P) es vl → es.*1 = vl.*1.
Proof. induction 1 as [|e e' es vl (He & _)]; [done|]. cbn. by rewrite He, IHForall2. Qed.

#[global] Instance copies_map {R : RangeOrder} {M V} `{InCell cell (gmap string M), RepLaws M V}
    (f : M → heapM M) `{!Copies f} : Copies (copy_map f).
Proof.
  intros h P [[l|]] [vs|] Hr; try done; unfold copy_map; cbn [m_loc]; [|by apply ok_ret].
  destruct Hr as (Hl & xs & Hx & Hr).
  eapply ok_bind with (R := λ y h1, y = xs ∧ h1 = h); [by eapply ok_load|]. intros _ h1 _ [-> ->].
  assert (∀ k x, (k, x) ∈ range xs ↔ xs !! k = Some x) as Hrange.
  { intros k x. by rewrite (range_perm _ xs), elem_of_map_to_list. }
  destruct (entries_of xs vs h P (range xs) Hr) as [vl Hvl]; [intros k x; by apply Hrange|].
  eapply ok_bind.
  { apply (ok_each _ (λ h' b v, entry vs h' (new_in h) b v) (entry vs h P) h); [done|..|exact Hvl].
    - intros h1 h2 b v Hh (E1 & E2 & E3). split; [done|]. split; [done|]. by eapply rep_extend.
    - intros h1 a v Hh (E1 & E2 & E3). eapply ok_bind; [by eapply ok_copy|].
      cbn. intros b h2 _ Hb. by apply ok_ret. }
  cbn. intros ys h1 Hh1 Hys.
  eapply ok_bind with (R := λ l h2, new_in h l ∧ h1 ⊆ h2 ∧ h2 !! l ≫= prj = Some (list_to_map ys)).
  { apply ok_alloc. intros l' Hl'. split; [by eapply new_in_mono|].
    split; [by apply insert_subseteq, not_elem_of_dom|apply lookup_new]. }
  intros l' h2 _ (Hl' & Hh2 & Hl2). apply ok_ret. split; [done|].
  exists (list_to_map ys). split; [done|].
  assert (ys.*1 = (range xs).*1) as Hkeys
    by (by rewrite (entry_keys _ _ _ _ _ Hys), (entry_keys _ _ _ _ _ Hvl)).
  apply (entries_map vs h2 (new_in h) ys vl).
  - rewrite Hkeys, (range_perm _ xs). apply NoDup_fst_map_to_list.
  - eapply Forall2_impl_l; [|exact Hys]. intros e e' (E1 & E2 & E3).
    split; [done|]. split; [done|]. by eapply rep_extend.
  - intros k [v Hv]. rewrite Hkeys. specialize (Hr k). rewrite Hv in Hr.
    destruct (xs !! k) as [x|] eqn:Hk; [|done]. apply list_elem_of_fmap.
    exists (k, x). split; [done|]. by apply Hrange.
Qed.

(** ** Independence

    After a copy, original and copy are separate: whatever is written later to
    one of them, the other holds what it held. *)
Definition independent {M V} `{Rep M V} (f : M → heapM M) : Prop :=
  ∀ h P m v, rep h P m v → ∃ m' h', f m h = Some (m', h') ∧
    rep h' (λ _, True) m' v ∧
    (∀ h2, (∀ l, l ∈ dom h → h2 !! l = h !! l) → rep h2 (λ _, True) m v) ∧
    (∀ h2, (∀ l, l ∉ dom h → h2 !! l = h' !! l) → rep h2 (λ _, True) m' v).

Lemma copies_independent {M V} `{RepLaws M V} (f : M → heapM M) `{!Copies f} : independent f.
Proof.
  intros h P m v Hr. destruct (copies h P m v Hr) as (m' & h' & Hf & Hh & Hr').
  exists m', h'. split; [done|]. split; [by eapply rep_extend; [..|exact Hr']|]. split.
  - intros h2 H2. eapply rep_local; [done| |exact Hr]. intros l _. apply H2.
  - intros h2 H2. eapply rep_local; [done| |exact Hr']. intros l Hl _. by apply H2.
Qed.
End heap.

Arguments heapM cell A : clear implicits.
