(* ===== verification/DeepCopyTypes.v ===== *)
(** * The API types as they lie in memory

    The structs of api/v1alpha1 for the deep copies: a struct is the record of
    its fields, where pointers, slices and maps are locations and everything
    else is inline.  The types of apimachinery and their own copies are
    parameters, with what is documented of them as laws. *)

From S2P Require Import Prelude GoHeap ApiTypes.

(** [metav1.ObjectMeta], [metav1.ListMeta], [corev1.ResourceRequirements] and
    [metav1.Condition] as they lie in memory, with the cells they use. *)
Class K8sTypes := {
  lib_cell : Type;
  k_ObjectMeta : Type;
  k_ListMeta : Type;
  k_ResourceRequirements : Type;
  k_Condition : Type
}.

(** [metav1.TypeMeta]. *)
Record TypeMeta := mkTypeMeta { Kind : string; APIVersion : string }.

Abbreviation EmbeddedDatabaseConfig := ApiTypes.Gateway.EmbeddedDatabaseConfig.
Abbreviation SandboxSpec := ApiTypes.Gateway.SandboxSpec.
Abbreviation CertManagerSpec := ApiTypes.Gateway.CertManagerSpec.
Abbreviation NetworkEndpoint := ApiTypes.Policy.NetworkEndpoint.
Abbreviation NetworkBinary := ApiTypes.Policy.NetworkBinary.
Abbreviation ProcessPolicy := ApiTypes.Policy.ProcessPolicy.
Abbreviation SecretKeyRef := ApiTypes.Provider.SecretKeyRef.

Section types.
Context {K : K8sTypes}.

(** ** The structs in memory

    Those without references are the value types of ApiTypes. *)

Record ServiceAccountReference := mkServiceAccountReference {
  ServiceAccountReference_Name : string }.
Record OpenShellWorkspaceMemberSpec := mkOpenShellWorkspaceMemberSpec {
  OpenShellWorkspaceMemberSpec_Workspace : string;
  OpenShellWorkspaceMemberSpec_ServiceAccountRef : ServiceAccountReference;
  OpenShellWorkspaceMemberSpec_Role : string }.
Record DatabaseSpec := mkDatabaseSpec { DatabaseSpec_Embedded : bool;
  DatabaseSpec_EmbeddedConfig : ptr EmbeddedDatabaseConfig; DatabaseSpec_SecretName : string }.
Record TLSSpec := mkTLSSpec { TLSSpec_Enabled : ptr bool; TLSSpec_CertManager : CertManagerSpec;
  TLSSpec_ServerCertSecretName : string }.
Record GatewayAPISpec := mkGatewayAPISpec { GatewayAPISpec_Enabled : ptr bool;
  GatewayAPISpec_GatewayClassName : string; GatewayAPISpec_InstallEnvoyGateway : ptr bool;
  GatewayAPISpec_GrantSCCs : ptr bool }.
Record RouteSpec := mkRouteSpec { RouteSpec_Enabled : ptr bool; RouteSpec_Hostname : string;
  RouteSpec_GatewayAPI : GatewayAPISpec }.
Record OpenShiftAuth := mkOpenShiftAuth { OpenShiftAuth_Enabled : ptr bool;
  OpenShiftAuth_UserGroup : string; OpenShiftAuth_AdminGroup : string;
  OpenShiftAuth_TokenTTL : string; OpenShiftAuth_AutoCreateGroups : ptr bool }.
Record AuthSpec := mkAuthSpec { AuthSpec_AllowUnauthenticated : bool;
  AuthSpec_OpenShift : OpenShiftAuth }.
Record NetworkPolicySpec := mkNetworkPolicySpec { NetworkPolicySpec_Enabled : ptr bool }.
Record OpenShellGatewaySpec := mkOpenShellGatewaySpec { OpenShellGatewaySpec_Namespace : string;
  OpenShellGatewaySpec_Image : string; OpenShellGatewaySpec_ImageTag : string;
  OpenShellGatewaySpec_SupervisorImage : string; OpenShellGatewaySpec_AuthBridgeImage : string;
  OpenShellGatewaySpec_Replicas : ptr Z; OpenShellGatewaySpec_Database : DatabaseSpec;
  OpenShellGatewaySpec_Sandbox : SandboxSpec; OpenShellGatewaySpec_TLS : TLSSpec;
  OpenShellGatewaySpec_Route : RouteSpec; OpenShellGatewaySpec_Auth : AuthSpec;
  OpenShellGatewaySpec_LogLevel : string; OpenShellGatewaySpec_Resources : k_ResourceRequirements;
  OpenShellGatewaySpec_NetworkPolicy : NetworkPolicySpec }.
Record OpenShellGatewayStatus := mkOpenShellGatewayStatus { OpenShellGatewayStatus_Phase : string;
  OpenShellGatewayStatus_GatewayURL : string;
  OpenShellGatewayStatus_ClientCertSecretName : string;
  OpenShellGatewayStatus_ObservedGeneration : Z;
  OpenShellGatewayStatus_Conditions : slice k_Condition }.
Record FilesystemPolicy := mkFilesystemPolicy { FilesystemPolicy_IncludeWorkdir : bool;
  FilesystemPolicy_ReadOnly : slice string; FilesystemPolicy_ReadWrite : slice string }.
Record NetworkPolicyRule := mkNetworkPolicyRule { NetworkPolicyRule_Name : string;
  NetworkPolicyRule_Endpoints : slice NetworkEndpoint;
  NetworkPolicyRule_Binaries : slice NetworkBinary }.
Record OpenShellPolicySpec := mkOpenShellPolicySpec { OpenShellPolicySpec_PolicyName : string;
  OpenShellPolicySpec_Filesystem : ptr FilesystemPolicy;
  OpenShellPolicySpec_Network : gomap NetworkPolicyRule;
  OpenShellPolicySpec_Process : ptr ProcessPolicy }.
Record OpenShellPolicyStatus := mkOpenShellPolicyStatus { OpenShellPolicyStatus_Phase : string;
  OpenShellPolicyStatus_ObservedGeneration : Z;
  OpenShellPolicyStatus_Conditions : slice k_Condition;
  OpenShellPolicyStatus_AppliedToGateway : bool }.
Record OpenShellProviderSpec := mkOpenShellProviderSpec {
  OpenShellProviderSpec_ProviderType : string;
  OpenShellProviderSpec_Credentials : gomap SecretKeyRef;
  OpenShellProviderSpec_Config : gomap string }.
Record OpenShellProviderStatus := mkOpenShellProviderStatus {
  OpenShellProviderStatus_Phase : string; OpenShellProviderStatus_ObservedGeneration : Z;
  OpenShellProviderStatus_Conditions : slice k_Condition;
  OpenShellProviderStatus_ReconciledCredentialKeys : slice string;
  OpenShellProviderStatus_ReconciledConfigKeys : slice string }.
Record OpenShellWorkspaceMemberStatus := mkOpenShellWorkspaceMemberStatus {
  OpenShellWorkspaceMemberStatus_Phase : string;
  OpenShellWorkspaceMemberStatus_ObservedGeneration : Z;
  OpenShellWorkspaceMemberStatus_Conditions : slice k_Condition;
  OpenShellWorkspaceMemberStatus_ReconciledSubject : string }.
Record OpenShellGateway := mkOpenShellGateway { OpenShellGateway_TypeMeta : TypeMeta;
  OpenShellGateway_ObjectMeta : k_ObjectMeta; OpenShellGateway_Spec : OpenShellGatewaySpec;
  OpenShellGateway_Status : OpenShellGatewayStatus }.
Record OpenShellGatewayList := mkOpenShellGatewayList { OpenShellGatewayList_TypeMeta : TypeMeta;
  OpenShellGatewayList_ListMeta : k_ListMeta;
  OpenShellGatewayList_Items : slice OpenShellGateway }.
Record OpenShellPolicy := mkOpenShellPolicy { OpenShellPolicy_TypeMeta : TypeMeta;
  OpenShellPolicy_ObjectMeta : k_ObjectMeta; OpenShellPolicy_Spec : OpenShellPolicySpec;
  OpenShellPolicy_Status : OpenShellPolicyStatus }.
Record OpenShellPolicyList := mkOpenShellPolicyList { OpenShellPolicyList_TypeMeta : TypeMeta;
  OpenShellPolicyList_ListMeta : k_ListMeta; OpenShellPolicyList_Items : slice OpenShellPolicy }.
Record OpenShellProvider := mkOpenShellProvider { OpenShellProvider_TypeMeta : TypeMeta;
  OpenShellProvider_ObjectMeta : k_ObjectMeta; OpenShellProvider_Spec : OpenShellProviderSpec;
  OpenShellProvider_Status : OpenShellProviderStatus }.
Record OpenShellProviderList := mkOpenShellProviderList {
  OpenShellProviderList_TypeMeta : TypeMeta; OpenShellProviderList_ListMeta : k_ListMeta;
  OpenShellProviderList_Items : slice OpenShellProvider }.
Record OpenShellWorkspaceMember := mkOpenShellWorkspaceMember {
  OpenShellWorkspaceMember_TypeMeta : TypeMeta;
  OpenShellWorkspaceMember_ObjectMeta : k_ObjectMeta;
  OpenShellWorkspaceMember_Spec : OpenShellWorkspaceMemberSpec;
  OpenShellWorkspaceMember_Status : OpenShellWorkspaceMemberStatus }.
Record OpenShellWorkspaceMemberList := mkOpenShellWorkspaceMemberList {
  OpenShellWorkspaceMemberList_TypeMeta : TypeMeta;
  OpenShellWorkspaceMemberList_ListMeta : k_ListMeta;
  OpenShellWorkspaceMemberList_Items : slice OpenShellWorkspaceMember }.

(** What a cell can hold: the struct behind a pointer, a backing array, the
    entries of a map. *)
Inductive cell :=
| CLib (x : lib_cell)
| CBool (x : bool)
| CInt32 (x : Z)
| CEmbeddedDatabaseConfig (x : EmbeddedDatabaseConfig)
| CSandboxSpec (x : SandboxSpec)
| CCertManagerSpec (x : CertManagerSpec)
| CNetworkEndpoint (x : NetworkEndpoint)
| CNetworkBinary (x : NetworkBinary)
| CProcessPolicy (x : ProcessPolicy)
| CSecretKeyRef (x : SecretKeyRef)
| CServiceAccountReference (x : ServiceAccountReference)
| COpenShellWorkspaceMemberSpec (x : OpenShellWorkspaceMemberSpec)
| CDatabaseSpec (x : DatabaseSpec)
| CTLSSpec (x : TLSSpec)
| CGatewayAPISpec (x : GatewayAPISpec)
| CRouteSpec (x : RouteSpec)
| COpenShiftAuth (x : OpenShiftAuth)
| CAuthSpec (x : AuthSpec)
| CNetworkPolicySpec (x : NetworkPolicySpec)
| COpenShellGatewaySpec (x : OpenShellGatewaySpec)
| COpenShellGatewayStatus (x : OpenShellGatewayStatus)
| CFilesystemPolicy (x : FilesystemPolicy)
| CNetworkPolicyRule (x : NetworkPolicyRule)
| COpenShellPolicySpec (x : OpenShellPolicySpec)
| COpenShellPolicyStatus (x : OpenShellPolicyStatus)
| COpenShellProviderSpec (x : OpenShellProviderSpec)
| COpenShellProviderStatus (x : OpenShellProviderStatus)
| COpenShellWorkspaceMemberStatus (x : OpenShellWorkspaceMemberStatus)
| COpenShellGateway (x : OpenShellGateway)
| COpenShellGatewayList (x : OpenShellGatewayList)
| COpenShellPolicy (x : OpenShellPolicy)
| COpenShellPolicyList (x : OpenShellPolicyList)
| COpenShellProvider (x : OpenShellProvider)
| COpenShellProviderList (x : OpenShellProviderList)
| COpenShellWorkspaceMember (x : OpenShellWorkspaceMember)
| COpenShellWorkspaceMemberList (x : OpenShellWorkspaceMemberList)
| CStrings (x : list string)
| CConditions (x : list k_Condition)
| CEndpoints (x : list NetworkEndpoint)
| CBinaries (x : list NetworkBinary)
| CGateways (x : list OpenShellGateway)
| CPolicies (x : list OpenShellPolicy)
| CProviders (x : list OpenShellProvider)
| CMembers (x : list OpenShellWorkspaceMember)
| CStringMap (x : gmap string string)
| CRefs (x : gmap string SecretKeyRef)
| CRules (x : gmap string NetworkPolicyRule).

#[global] Instance in_Bool : InCell cell bool :=
  {| inj := CBool; prj c := match c with CBool x => Some x | _ => None end; prj_inj x := eq_refl |}.
#[global] Instance in_Int32 : InCell cell Z :=
  {| inj := CInt32; prj c := match c with CInt32 x => Some x | _ => None end; prj_inj x := eq_refl |}.
#[global] Instance in_EmbeddedDatabaseConfig : InCell cell EmbeddedDatabaseConfig :=
  {| inj := CEmbeddedDatabaseConfig; prj c := match c with CEmbeddedDatabaseConfig x => Some x | _ => None end; prj_inj x := eq_refl |}.
#[global] Instance in_SandboxSpec : InCell cell SandboxSpec :=
  {| inj := CSandboxSpec; prj c := match c with CSandboxSpec x => Some x | _ => None end; prj_inj x := eq_refl |}.
#[global] Instance in_CertManagerSpec : InCell cell CertManagerSpec :=
  {| inj := CCertManagerSpec; prj c := match c with CCertManagerSpec x => Some x | _ => None end; prj_inj x := eq_refl |}.
#[global] Instance in_NetworkEndpoint : InCell cell NetworkEndpoint :=
  {| inj := CNetworkEndpoint; prj c := match c with CNetworkEndpoint x => Some x | _ => None end; prj_inj x := eq_refl |}.
#[global] Instance in_NetworkBinary : InCell cell NetworkBinary :=
  {| inj := CNetworkBinary; prj c := match c with CNetworkBinary x => Some x | _ => None end; prj_inj x := eq_refl |}.
#[global] Instance in_ProcessPolicy : InCell cell ProcessPolicy :=
  {| inj := CProcessPolicy; prj c := match c with CProcessPolicy x => Some x | _ => None end; prj_inj x := eq_refl |}.
#[global] Instance in_SecretKeyRef : InCell cell SecretKeyRef :=
  {| inj := CSecretKeyRef; prj c := match c with CSecretKeyRef x => Some x | _ => None end; prj_inj x := eq_refl |}.
#[global] Instance in_ServiceAccountReference : InCell cell ServiceAccountReference :=
  {| inj := CServiceAccountReference; prj c := match c with CServiceAccountReference x => Some x | _ => None end; prj_inj x := eq_refl |}.
#[global] Instance in_OpenShellWorkspaceMemberSpec : InCell cell OpenShellWorkspaceMemberSpec :=
  {| inj := COpenShellWorkspaceMemberSpec; prj c := match c with COpenShellWorkspaceMemberSpec x => Some x | _ => None end; prj_inj x := eq_refl |}.
#[global] Instance in_DatabaseSpec : InCell cell DatabaseSpec :=
  {| inj := CDatabaseSpec; prj c := match c with CDatabaseSpec x => Some x | _ => None end; prj_inj x := eq_refl |}.
#[global] Instance in_TLSSpec : InCell cell TLSSpec :=
  {| inj := CTLSSpec; prj c := match c with CTLSSpec x => Some x | _ => None end; prj_inj x := eq_refl |}.
#[global] Instance in_GatewayAPISpec : InCell cell GatewayAPISpec :=
  {| inj := CGatewayAPISpec; prj c := match c with CGatewayAPISpec x => Some x | _ => None end; prj_inj x := eq_refl |}.
#[global] Instance in_RouteSpec : InCell cell RouteSpec :=
  {| inj := CRouteSpec; prj c := match c with CRouteSpec x => Some x | _ => None end; prj_inj x := eq_refl |}.
#[global] Instance in_OpenShiftAuth : InCell cell OpenShiftAuth :=
  {| inj := COpenShiftAuth; prj c := match c with COpenShiftAuth x => Some x | _ => None end; prj_inj x := eq_refl |}.
#[global] Instance in_AuthSpec : InCell cell AuthSpec :=
  {| inj := CAuthSpec; prj c := match c with CAuthSpec x => Some x | _ => None end; prj_inj x := eq_refl |}.
#[global] Instance in_NetworkPolicySpec : InCell cell NetworkPolicySpec :=
  {| inj := CNetworkPolicySpec; prj c := match c with CNetworkPolicySpec x => Some x | _ => None end; prj_inj x := eq_refl |}.
#[global] Instance in_OpenShellGatewaySpec : InCell cell OpenShellGatewaySpec :=
  {| inj := COpenShellGatewaySpec; prj c := match c with COpenShellGatewaySpec x => Some x | _ => None end; prj_inj x := eq_refl |}.
#[global] Instance in_OpenShellGatewayStatus : InCell cell OpenShellGatewayStatus :=
  {| inj := COpenShellGatewayStatus; prj c := match c with COpenShellGatewayStatus x => Some x | _ => None end; prj_inj x := eq_refl |}.
#[global] Instance in_FilesystemPolicy : InCell cell FilesystemPolicy :=
  {| inj := CFilesystemPolicy; prj c := match c with CFilesystemPolicy x => Some x | _ => None end; prj_inj x := eq_refl |}.
#[global] Instance in_NetworkPolicyRule : InCell cell NetworkPolicyRule :=
  {| inj := CNetworkPolicyRule; prj c := match c with CNetworkPolicyRule x => Some x | _ => None end; prj_inj x := eq_refl |}.
#[global] Instance in_OpenShellPolicySpec : InCell cell OpenShellPolicySpec :=
  {| inj := COpenShellPolicySpec; prj c := match c with COpenShellPolicySpec x => Some x | _ => None end; prj_inj x := eq_refl |}.
#[global] Instance in_OpenShellPolicyStatus : InCell cell OpenShellPolicyStatus :=
  {| inj := COpenShellPolicyStatus; prj c := match c with COpenShellPolicyStatus x => Some x | _ => None end; prj_inj x := eq_refl |}.
#[global] Instance in_OpenShellProviderSpec : InCell cell OpenShellProviderSpec :=
  {| inj := COpenShellProviderSpec; prj c := match c with COpenShellProviderSpec x => Some x | _ => None end; prj_inj x := eq_refl |}.
#[global] Instance in_OpenShellProviderStatus : InCell cell OpenShellProviderStatus :=
  {| inj := COpenShellProviderStatus; prj c := match c with COpenShellProviderStatus x => Some x | _ => None end; prj_inj x := eq_refl |}.
#[global] Instance in_OpenShellWorkspaceMemberStatus : InCell cell OpenShellWorkspaceMemberStatus :=
  {| inj := COpenShellWorkspaceMemberStatus; prj c := match c with COpenShellWorkspaceMemberStatus x => Some x | _ => None end; prj_inj x := eq_refl |}.
#[global] Instance in_OpenShellGateway : InCell cell OpenShellGateway :=
  {| inj := COpenShellGateway; prj c := match c with COpenShellGateway x => Some x | _ => None end; prj_inj x := eq_refl |}.
#[global] Instance in_OpenShellGatewayList : InCell cell OpenShellGatewayList :=
  {| inj := COpenShellGatewayList; prj c := match c with COpenShellGatewayList x => Some x | _ => None end; prj_inj x := eq_refl |}.
#[global] Instance in_OpenShellPolicy : InCell cell OpenShellPolicy :=
  {| inj := COpenShellPolicy; prj c := match c with COpenShellPolicy x => Some x | _ => None end; prj_inj x := eq_refl |}.
#[global] Instance in_OpenShellPolicyList : InCell cell OpenShellPolicyList :=
  {| inj := COpenShellPolicyList; prj c := match c with COpenShellPolicyList x => Some x | _ => None end; prj_inj x := eq_refl |}.
#[global] Instance in_OpenShellProvider : InCell cell OpenShellProvider :=
  {| inj := COpenShellProvider; prj c := match c with COpenShellProvider x => Some x | _ => None end; prj_inj x := eq_refl |}.
#[global] Instance in_OpenShellProviderList : InCell cell OpenShellProviderList :=
  {| inj := COpenShellProviderList; prj c := match c with COpenShellProviderList x => Some x | _ => None end; prj_inj x := eq_refl |}.
#[global] Instance in_OpenShellWorkspaceMember : InCell cell OpenShellWorkspaceMember :=
  {| inj := COpenShellWorkspaceMember; prj c := match c with COpenShellWorkspaceMember x => Some x | _ => None end; prj_inj x := eq_refl |}.
#[global] Instance in_OpenShellWorkspaceMemberList : InCell cell OpenShellWorkspaceMemberList :=
  {| inj := COpenShellWorkspaceMemberList; prj c := match c with COpenShellWorkspaceMemberList x => Some x | _ => None end; prj_inj x := eq_refl |}.
#[global] Instance in_Strings : InCell cell (list string) :=
  {| inj := CStrings; prj c := match c with CStrings x => Some x | _ => None end; prj_inj x := eq_refl |}.
#[global] Instance in_Conditions : InCell cell (list k_Condition) :=
  {| inj := CConditions; prj c := match c with CConditions x => Some x | _ => None end; prj_inj x := eq_refl |}.
#[global] Instance in_Endpoints : InCell cell (list NetworkEndpoint) :=
  {| inj := CEndpoints; prj c := match c with CEndpoints x => Some x | _ => None end; prj_inj x := eq_refl |}.
#[global] Instance in_Binaries : InCell cell (list NetworkBinary) :=
  {| inj := CBinaries; prj c := match c with CBinaries x => Some x | _ => None end; prj_inj x := eq_refl |}.
#[global] Instance in_Gateways : InCell cell (list OpenShellGateway) :=
  {| inj := CGateways; prj c := match c with CGateways x => Some x | _ => None end; prj_inj x := eq_refl |}.
#[global] Instance in_Policies : InCell cell (list OpenShellPolicy) :=
  {| inj := CPolicies; prj c := match c with CPolicies x => Some x | _ => None end; prj_inj x := eq_refl |}.
#[global] Instance in_Providers : InCell cell (list OpenShellProvider) :=
  {| inj := CProviders; prj c := match c with CProviders x => Some x | _ => None end; prj_inj x := eq_refl |}.
#[global] Instance in_Members : InCell cell (list OpenShellWorkspaceMember) :=
  {| inj := CMembers; prj c := match c with CMembers x => Some x | _ => None end; prj_inj x := eq_refl |}.
#[global] Instance in_StringMap : InCell cell (gmap string string) :=
  {| inj := CStringMap; prj c := match c with CStringMap x => Some x | _ => None end; prj_inj x := eq_refl |}.
#[global] Instance in_Refs : InCell cell (gmap string SecretKeyRef) :=
  {| inj := CRefs; prj c := match c with CRefs x => Some x | _ => None end; prj_inj x := eq_refl |}.
#[global] Instance in_Rules : InCell cell (gmap string NetworkPolicyRule) :=
  {| inj := CRules; prj c := match c with CRules x => Some x | _ => None end; prj_inj x := eq_refl |}.

#[global] Instance flat_string : Flat string := {}.
#[global] Instance flat_bool : Flat bool := {}.
#[global] Instance flat_Z : Flat Z := {}.
#[global] Instance flat_TypeMeta : Flat TypeMeta := {}.
End types.

Arguments cell {K}.

(** The library's own copies, and that they are copies. *)
Class K8sCopies (K : K8sTypes) := {
  k_ObjectMeta_DeepCopyInto : k_ObjectMeta → heapM cell k_ObjectMeta;
  k_ListMeta_DeepCopyInto : k_ListMeta → heapM cell k_ListMeta;
  k_ResourceRequirements_DeepCopyInto : k_ResourceRequirements → heapM cell k_ResourceRequirements;
  k_Condition_DeepCopyInto : k_Condition → heapM cell k_Condition
}.

Class K8sValues (K : K8sTypes) := {
  v_ObjectMeta : Type;
  v_ListMeta : Type;
  v_ResourceRequirements : Type;
  v_Condition : Type;
  ObjectMeta_rep :: Rep (cell := cell) k_ObjectMeta v_ObjectMeta;
  ListMeta_rep :: Rep (cell := cell) k_ListMeta v_ListMeta;
  ResourceRequirements_rep :: Rep (cell := cell) k_ResourceRequirements v_ResourceRequirements;
  Condition_rep :: Rep (cell := cell) k_Condition v_Condition
}.

Class K8sLaws (K : K8sTypes) (KC : K8sCopies K) (KV : K8sValues K) : Prop := {
  ObjectMeta_laws :: RepLaws (cell := cell) k_ObjectMeta v_ObjectMeta;
  ListMeta_laws :: RepLaws (cell := cell) k_ListMeta v_ListMeta;
  ResourceRequirements_laws :: RepLaws (cell := cell) k_ResourceRequirements v_ResourceRequirements;
  Condition_laws :: RepLaws (cell := cell) k_Condition v_Condition;
  ObjectMeta_copies :: Copies k_ObjectMeta_DeepCopyInto;
  ListMeta_copies :: Copies k_ListMeta_DeepCopyInto;
  ResourceRequirements_copies :: Copies k_ResourceRequirements_DeepCopyInto;
  Condition_copies :: Copies k_Condition_DeepCopyInto
}.

