(* ===== verification/DeepCopy.v ===== *)
(** * api/v1alpha1/zz_generated.deepcopy.go

    The generated deep copies, on the store of GoHeap.  [DeepCopyInto] takes the
    struct that [in] points to and gives the one written to [out]: [*out = *in]
    copies the fields as they are, and each field with references of its own is
    copied after it. *)

From S2P Require Import Prelude GoHeap ApiTypes DeepCopyTypes.

(** ** The generated functions *)

Section functions.
Context {K : K8sTypes} {KC : K8sCopies K} {R : RangeOrder}.

Definition EmbeddedDatabaseConfig_DeepCopyInto (i : EmbeddedDatabaseConfig) : heapM cell EmbeddedDatabaseConfig := mret i.

Definition EmbeddedDatabaseConfig_DeepCopy : ptr EmbeddedDatabaseConfig → heapM cell (ptr EmbeddedDatabaseConfig) := copy_ptr EmbeddedDatabaseConfig_DeepCopyInto.

Definition SandboxSpec_DeepCopyInto (i : SandboxSpec) : heapM cell SandboxSpec := mret i.

Definition SandboxSpec_DeepCopy : ptr SandboxSpec → heapM cell (ptr SandboxSpec) := copy_ptr SandboxSpec_DeepCopyInto.

Definition CertManagerSpec_DeepCopyInto (i : CertManagerSpec) : heapM cell CertManagerSpec := mret i.

Definition CertManagerSpec_DeepCopy : ptr CertManagerSpec → heapM cell (ptr CertManagerSpec) := copy_ptr CertManagerSpec_DeepCopyInto.

Definition NetworkEndpoint_DeepCopyInto (i : NetworkEndpoint) : heapM cell NetworkEndpoint := mret i.

Definition NetworkEndpoint_DeepCopy : ptr NetworkEndpoint → heapM cell (ptr NetworkEndpoint) := copy_ptr NetworkEndpoint_DeepCopyInto.

Definition NetworkBinary_DeepCopyInto (i : NetworkBinary) : heapM cell NetworkBinary := mret i.

Definition NetworkBinary_DeepCopy : ptr NetworkBinary → heapM cell (ptr NetworkBinary) := copy_ptr NetworkBinary_DeepCopyInto.

Definition ProcessPolicy_DeepCopyInto (i : ProcessPolicy) : heapM cell ProcessPolicy := mret i.

Definition ProcessPolicy_DeepCopy : ptr ProcessPolicy → heapM cell (ptr ProcessPolicy) := copy_ptr ProcessPolicy_DeepCopyInto.

Definition SecretKeyRef_DeepCopyInto (i : SecretKeyRef) : heapM cell SecretKeyRef := mret i.

Definition SecretKeyRef_DeepCopy : ptr SecretKeyRef → heapM cell (ptr SecretKeyRef) := copy_ptr SecretKeyRef_DeepCopyInto.

Definition ServiceAccountReference_DeepCopyInto (i : ServiceAccountReference) : heapM cell ServiceAccountReference := mret i.

Definition ServiceAccountReference_DeepCopy : ptr ServiceAccountReference → heapM cell (ptr ServiceAccountReference) := copy_ptr ServiceAccountReference_DeepCopyInto.

Definition OpenShellWorkspaceMemberSpec_DeepCopyInto (i : OpenShellWorkspaceMemberSpec) : heapM cell OpenShellWorkspaceMemberSpec := mret i.

Definition OpenShellWorkspaceMemberSpec_DeepCopy : ptr OpenShellWorkspaceMemberSpec → heapM cell (ptr OpenShellWorkspaceMemberSpec) := copy_ptr OpenShellWorkspaceMemberSpec_DeepCopyInto.

Definition DatabaseSpec_DeepCopyInto (i : DatabaseSpec) : heapM cell DatabaseSpec :=
  embeddedConfig ← copy_ptr mret (DatabaseSpec_EmbeddedConfig i);
  mret (mkDatabaseSpec (DatabaseSpec_Embedded i) embeddedConfig (DatabaseSpec_SecretName i)).

Definition DatabaseSpec_DeepCopy : ptr DatabaseSpec → heapM cell (ptr DatabaseSpec) := copy_ptr DatabaseSpec_DeepCopyInto.

Definition TLSSpec_DeepCopyInto (i : TLSSpec) : heapM cell TLSSpec :=
  enabled ← copy_ptr mret (TLSSpec_Enabled i);
  mret (mkTLSSpec enabled (TLSSpec_CertManager i) (TLSSpec_ServerCertSecretName i)).

Definition TLSSpec_DeepCopy : ptr TLSSpec → heapM cell (ptr TLSSpec) := copy_ptr TLSSpec_DeepCopyInto.

Definition GatewayAPISpec_DeepCopyInto (i : GatewayAPISpec) : heapM cell GatewayAPISpec :=
  enabled ← copy_ptr mret (GatewayAPISpec_Enabled i);
  installEnvoyGateway ← copy_ptr mret (GatewayAPISpec_InstallEnvoyGateway i);
  grantSCCs ← copy_ptr mret (GatewayAPISpec_GrantSCCs i);
  mret (mkGatewayAPISpec enabled (GatewayAPISpec_GatewayClassName i) installEnvoyGateway
    grantSCCs).

Definition GatewayAPISpec_DeepCopy : ptr GatewayAPISpec → heapM cell (ptr GatewayAPISpec) := copy_ptr GatewayAPISpec_DeepCopyInto.

Definition RouteSpec_DeepCopyInto (i : RouteSpec) : heapM cell RouteSpec :=
  enabled ← copy_ptr mret (RouteSpec_Enabled i);
  gatewayAPI ← GatewayAPISpec_DeepCopyInto (RouteSpec_GatewayAPI i);
  mret (mkRouteSpec enabled (RouteSpec_Hostname i) gatewayAPI).

Definition RouteSpec_DeepCopy : ptr RouteSpec → heapM cell (ptr RouteSpec) := copy_ptr RouteSpec_DeepCopyInto.

Definition OpenShiftAuth_DeepCopyInto (i : OpenShiftAuth) : heapM cell OpenShiftAuth :=
  enabled ← copy_ptr mret (OpenShiftAuth_Enabled i);
  autoCreateGroups ← copy_ptr mret (OpenShiftAuth_AutoCreateGroups i);
  mret (mkOpenShiftAuth enabled (OpenShiftAuth_UserGroup i) (OpenShiftAuth_AdminGroup i)
    (OpenShiftAuth_TokenTTL i) autoCreateGroups).

Definition OpenShiftAuth_DeepCopy : ptr OpenShiftAuth → heapM cell (ptr OpenShiftAuth) := copy_ptr OpenShiftAuth_DeepCopyInto.

Definition AuthSpec_DeepCopyInto (i : AuthSpec) : heapM cell AuthSpec :=
  openShift ← OpenShiftAuth_DeepCopyInto (AuthSpec_OpenShift i);
  mret (mkAuthSpec (AuthSpec_AllowUnauthenticated i) openShift).

Definition AuthSpec_DeepCopy : ptr AuthSpec → heapM cell (ptr AuthSpec) := copy_ptr AuthSpec_DeepCopyInto.

Definition NetworkPolicySpec_DeepCopyInto (i : NetworkPolicySpec) : heapM cell NetworkPolicySpec :=
  enabled ← copy_ptr mret (NetworkPolicySpec_Enabled i);
  mret (mkNetworkPolicySpec enabled).

Definition NetworkPolicySpec_DeepCopy : ptr NetworkPolicySpec → heapM cell (ptr NetworkPolicySpec) := copy_ptr NetworkPolicySpec_DeepCopyInto.

Definition OpenShellGatewaySpec_DeepCopyInto (i : OpenShellGatewaySpec) : heapM cell OpenShellGatewaySpec :=
  replicas ← copy_ptr mret (OpenShellGatewaySpec_Replicas i);
  database ← DatabaseSpec_DeepCopyInto (OpenShellGatewaySpec_Database i);
  tls ← TLSSpec_DeepCopyInto (OpenShellGatewaySpec_TLS i);
  route ← RouteSpec_DeepCopyInto (OpenShellGatewaySpec_Route i);
  auth ← AuthSpec_DeepCopyInto (OpenShellGatewaySpec_Auth i);
  resources ← k_ResourceRequirements_DeepCopyInto (OpenShellGatewaySpec_Resources i);
  networkPolicy ← NetworkPolicySpec_DeepCopyInto (OpenShellGatewaySpec_NetworkPolicy i);
  mret (mkOpenShellGatewaySpec (OpenShellGatewaySpec_Namespace i) (OpenShellGatewaySpec_Image i)
    (OpenShellGatewaySpec_ImageTag i) (OpenShellGatewaySpec_SupervisorImage i)
    (OpenShellGatewaySpec_AuthBridgeImage i) replicas database (OpenShellGatewaySpec_Sandbox i)
    tls route auth (OpenShellGatewaySpec_LogLevel i) resources networkPolicy).

Definition OpenShellGatewaySpec_DeepCopy : ptr OpenShellGatewaySpec → heapM cell (ptr OpenShellGatewaySpec) := copy_ptr OpenShellGatewaySpec_DeepCopyInto.

Definition OpenShellGatewayStatus_DeepCopyInto (i : OpenShellGatewayStatus) : heapM cell OpenShellGatewayStatus :=
  conditions ← copy_slice k_Condition_DeepCopyInto (OpenShellGatewayStatus_Conditions i);
  mret (mkOpenShellGatewayStatus (OpenShellGatewayStatus_Phase i)
    (OpenShellGatewayStatus_GatewayURL i) (OpenShellGatewayStatus_ClientCertSecretName i)
    (OpenShellGatewayStatus_ObservedGeneration i) conditions).

Definition OpenShellGatewayStatus_DeepCopy : ptr OpenShellGatewayStatus → heapM cell (ptr OpenShellGatewayStatus) := copy_ptr OpenShellGatewayStatus_DeepCopyInto.

Definition FilesystemPolicy_DeepCopyInto (i : FilesystemPolicy) : heapM cell FilesystemPolicy :=
  readOnly ← copy_slice mret (FilesystemPolicy_ReadOnly i);
  readWrite ← copy_slice mret (FilesystemPolicy_ReadWrite i);
  mret (mkFilesystemPolicy (FilesystemPolicy_IncludeWorkdir i) readOnly readWrite).

Definition FilesystemPolicy_DeepCopy : ptr FilesystemPolicy → heapM cell (ptr FilesystemPolicy) := copy_ptr FilesystemPolicy_DeepCopyInto.

Definition NetworkPolicyRule_DeepCopyInto (i : NetworkPolicyRule) : heapM cell NetworkPolicyRule :=
  endpoints ← copy_slice mret (NetworkPolicyRule_Endpoints i);
  binaries ← copy_slice mret (NetworkPolicyRule_Binaries i);
  mret (mkNetworkPolicyRule (NetworkPolicyRule_Name i) endpoints binaries).

Definition NetworkPolicyRule_DeepCopy : ptr NetworkPolicyRule → heapM cell (ptr NetworkPolicyRule) := copy_ptr NetworkPolicyRule_DeepCopyInto.

Definition OpenShellPolicySpec_DeepCopyInto (i : OpenShellPolicySpec) : heapM cell OpenShellPolicySpec :=
  filesystem ← copy_ptr FilesystemPolicy_DeepCopyInto (OpenShellPolicySpec_Filesystem i);
  network ← copy_map (copy_value NetworkPolicyRule_DeepCopyInto) (OpenShellPolicySpec_Network i);
  process_ ← copy_ptr mret (OpenShellPolicySpec_Process i);
  mret (mkOpenShellPolicySpec (OpenShellPolicySpec_PolicyName i) filesystem network process_).

Definition OpenShellPolicySpec_DeepCopy : ptr OpenShellPolicySpec → heapM cell (ptr OpenShellPolicySpec) := copy_ptr OpenShellPolicySpec_DeepCopyInto.

Definition OpenShellPolicyStatus_DeepCopyInto (i : OpenShellPolicyStatus) : heapM cell OpenShellPolicyStatus :=
  conditions ← copy_slice k_Condition_DeepCopyInto (OpenShellPolicyStatus_Conditions i);
  mret (mkOpenShellPolicyStatus (OpenShellPolicyStatus_Phase i)
    (OpenShellPolicyStatus_ObservedGeneration i) conditions
    (OpenShellPolicyStatus_AppliedToGateway i)).

Definition OpenShellPolicyStatus_DeepCopy : ptr OpenShellPolicyStatus → heapM cell (ptr OpenShellPolicyStatus) := copy_ptr OpenShellPolicyStatus_DeepCopyInto.

Definition OpenShellProviderSpec_DeepCopyInto (i : OpenShellProviderSpec) : heapM cell OpenShellProviderSpec :=
  credentials ← copy_map mret (OpenShellProviderSpec_Credentials i);
  config ← copy_map mret (OpenShellProviderSpec_Config i);
  mret (mkOpenShellProviderSpec (OpenShellProviderSpec_ProviderType i) credentials config).

Definition OpenShellProviderSpec_DeepCopy : ptr OpenShellProviderSpec → heapM cell (ptr OpenShellProviderSpec) := copy_ptr OpenShellProviderSpec_DeepCopyInto.

Definition OpenShellProviderStatus_DeepCopyInto (i : OpenShellProviderStatus) : heapM cell OpenShellProviderStatus :=
  conditions ← copy_slice k_Condition_DeepCopyInto (OpenShellProviderStatus_Conditions i);
  reconciledCredentialKeys ← copy_slice mret (OpenShellProviderStatus_ReconciledCredentialKeys i);
  reconciledConfigKeys ← copy_slice mret (OpenShellProviderStatus_ReconciledConfigKeys i);
  mret (mkOpenShellProviderStatus (OpenShellProviderStatus_Phase i)
    (OpenShellProviderStatus_ObservedGeneration i) conditions reconciledCredentialKeys
    reconciledConfigKeys).

Definition OpenShellProviderStatus_DeepCopy : ptr OpenShellProviderStatus → heapM cell (ptr OpenShellProviderStatus) := copy_ptr OpenShellProviderStatus_DeepCopyInto.

Definition OpenShellWorkspaceMemberStatus_DeepCopyInto (i : OpenShellWorkspaceMemberStatus) : heapM cell OpenShellWorkspaceMemberStatus :=
  conditions ← copy_slice k_Condition_DeepCopyInto (OpenShellWorkspaceMemberStatus_Conditions i);
  mret (mkOpenShellWorkspaceMemberStatus (OpenShellWorkspaceMemberStatus_Phase i)
    (OpenShellWorkspaceMemberStatus_ObservedGeneration i) conditions
    (OpenShellWorkspaceMemberStatus_ReconciledSubject i)).

Definition OpenShellWorkspaceMemberStatus_DeepCopy : ptr OpenShellWorkspaceMemberStatus → heapM cell (ptr OpenShellWorkspaceMemberStatus) := copy_ptr OpenShellWorkspaceMemberStatus_DeepCopyInto.

Definition OpenShellGateway_DeepCopyInto (i : OpenShellGateway) : heapM cell OpenShellGateway :=
  objectMeta ← k_ObjectMeta_DeepCopyInto (OpenShellGateway_ObjectMeta i);
  spec ← OpenShellGatewaySpec_DeepCopyInto (OpenShellGateway_Spec i);
  status ← OpenShellGatewayStatus_DeepCopyInto (OpenShellGateway_Status i);
  mret (mkOpenShellGateway (OpenShellGateway_TypeMeta i) objectMeta spec status).

Definition OpenShellGateway_DeepCopy : ptr OpenShellGateway → heapM cell (ptr OpenShellGateway) := copy_ptr OpenShellGateway_DeepCopyInto.

Definition OpenShellGatewayList_DeepCopyInto (i : OpenShellGatewayList) : heapM cell OpenShellGatewayList :=
  listMeta ← k_ListMeta_DeepCopyInto (OpenShellGatewayList_ListMeta i);
  items ← copy_slice OpenShellGateway_DeepCopyInto (OpenShellGatewayList_Items i);
  mret (mkOpenShellGatewayList (OpenShellGatewayList_TypeMeta i) listMeta items).

Definition OpenShellGatewayList_DeepCopy : ptr OpenShellGatewayList → heapM cell (ptr OpenShellGatewayList) := copy_ptr OpenShellGatewayList_DeepCopyInto.

Definition OpenShellPolicy_DeepCopyInto (i : OpenShellPolicy) : heapM cell OpenShellPolicy :=
  objectMeta ← k_ObjectMeta_DeepCopyInto (OpenShellPolicy_ObjectMeta i);
  spec ← OpenShellPolicySpec_DeepCopyInto (OpenShellPolicy_Spec i);
  status ← OpenShellPolicyStatus_DeepCopyInto (OpenShellPolicy_Status i);
  mret (mkOpenShellPolicy (OpenShellPolicy_TypeMeta i) objectMeta spec status).

Definition OpenShellPolicy_DeepCopy : ptr OpenShellPolicy → heapM cell (ptr OpenShellPolicy) := copy_ptr OpenShellPolicy_DeepCopyInto.

Definition OpenShellPolicyList_DeepCopyInto (i : OpenShellPolicyList) : heapM cell OpenShellPolicyList :=
  listMeta ← k_ListMeta_DeepCopyInto (OpenShellPolicyList_ListMeta i);
  items ← copy_slice OpenShellPolicy_DeepCopyInto (OpenShellPolicyList_Items i);
  mret (mkOpenShellPolicyList (OpenShellPolicyList_TypeMeta i) listMeta items).

Definition OpenShellPolicyList_DeepCopy : ptr OpenShellPolicyList → heapM cell (ptr OpenShellPolicyList) := copy_ptr OpenShellPolicyList_DeepCopyInto.

Definition OpenShellProvider_DeepCopyInto (i : OpenShellProvider) : heapM cell OpenShellProvider :=
  objectMeta ← k_ObjectMeta_DeepCopyInto (OpenShellProvider_ObjectMeta i);
  spec ← OpenShellProviderSpec_DeepCopyInto (OpenShellProvider_Spec i);
  status ← OpenShellProviderStatus_DeepCopyInto (OpenShellProvider_Status i);
  mret (mkOpenShellProvider (OpenShellProvider_TypeMeta i) objectMeta spec status).

Definition OpenShellProvider_DeepCopy : ptr OpenShellProvider → heapM cell (ptr OpenShellProvider) := copy_ptr OpenShellProvider_DeepCopyInto.

Definition OpenShellProviderList_DeepCopyInto (i : OpenShellProviderList) : heapM cell OpenShellProviderList :=
  listMeta ← k_ListMeta_DeepCopyInto (OpenShellProviderList_ListMeta i);
  items ← copy_slice OpenShellProvider_DeepCopyInto (OpenShellProviderList_Items i);
  mret (mkOpenShellProviderList (OpenShellProviderList_TypeMeta i) listMeta items).

Definition OpenShellProviderList_DeepCopy : ptr OpenShellProviderList → heapM cell (ptr OpenShellProviderList) := copy_ptr OpenShellProviderList_DeepCopyInto.

Definition OpenShellWorkspaceMember_DeepCopyInto (i : OpenShellWorkspaceMember) : heapM cell OpenShellWorkspaceMember :=
  objectMeta ← k_ObjectMeta_DeepCopyInto (OpenShellWorkspaceMember_ObjectMeta i);
  status ← OpenShellWorkspaceMemberStatus_DeepCopyInto (OpenShellWorkspaceMember_Status i);
  mret (mkOpenShellWorkspaceMember (OpenShellWorkspaceMember_TypeMeta i) objectMeta
    (OpenShellWorkspaceMember_Spec i) status).

Definition OpenShellWorkspaceMember_DeepCopy : ptr OpenShellWorkspaceMember → heapM cell (ptr OpenShellWorkspaceMember) := copy_ptr OpenShellWorkspaceMember_DeepCopyInto.

Definition OpenShellWorkspaceMemberList_DeepCopyInto (i : OpenShellWorkspaceMemberList) : heapM cell OpenShellWorkspaceMemberList :=
  listMeta ← k_ListMeta_DeepCopyInto (OpenShellWorkspaceMemberList_ListMeta i);
  items ← copy_slice OpenShellWorkspaceMember_DeepCopyInto (OpenShellWorkspaceMemberList_Items i);
  mret (mkOpenShellWorkspaceMemberList (OpenShellWorkspaceMemberList_TypeMeta i) listMeta items).

Definition OpenShellWorkspaceMemberList_DeepCopy : ptr OpenShellWorkspaceMemberList → heapM cell (ptr OpenShellWorkspaceMemberList) := copy_ptr OpenShellWorkspaceMemberList_DeepCopyInto.

(** [runtime.Object], an interface: nil, or a typed pointer. *)
Inductive runtime_Object :=
| ObjOpenShellGateway (p : ptr OpenShellGateway)
| ObjOpenShellGatewayList (p : ptr OpenShellGatewayList)
| ObjOpenShellPolicy (p : ptr OpenShellPolicy)
| ObjOpenShellPolicyList (p : ptr OpenShellPolicyList)
| ObjOpenShellProvider (p : ptr OpenShellProvider)
| ObjOpenShellProviderList (p : ptr OpenShellProviderList)
| ObjOpenShellWorkspaceMember (p : ptr OpenShellWorkspaceMember)
| ObjOpenShellWorkspaceMemberList (p : ptr OpenShellWorkspaceMemberList).

(** [if c := in.DeepCopy(); c != nil { return c }; return nil]. *)
Definition as_object {T} (K : ptr T → runtime_Object) (c : ptr T) : option runtime_Object :=
  match p_loc c with None => None | Some _ => Some (K c) end.

Definition OpenShellGateway_DeepCopyObject (p : ptr OpenShellGateway) : heapM cell (option runtime_Object) :=
  c ← OpenShellGateway_DeepCopy p; mret (as_object ObjOpenShellGateway c).
Definition OpenShellGatewayList_DeepCopyObject (p : ptr OpenShellGatewayList) : heapM cell (option runtime_Object) :=
  c ← OpenShellGatewayList_DeepCopy p; mret (as_object ObjOpenShellGatewayList c).
Definition OpenShellPolicy_DeepCopyObject (p : ptr OpenShellPolicy) : heapM cell (option runtime_Object) :=
  c ← OpenShellPolicy_DeepCopy p; mret (as_object ObjOpenShellPolicy c).
Definition OpenShellPolicyList_DeepCopyObject (p : ptr OpenShellPolicyList) : heapM cell (option runtime_Object) :=
  c ← OpenShellPolicyList_DeepCopy p; mret (as_object ObjOpenShellPolicyList c).
Definition OpenShellProvider_DeepCopyObject (p : ptr OpenShellProvider) : heapM cell (option runtime_Object) :=
  c ← OpenShellProvider_DeepCopy p; mret (as_object ObjOpenShellProvider c).
Definition OpenShellProviderList_DeepCopyObject (p : ptr OpenShellProviderList) : heapM cell (option runtime_Object) :=
  c ← OpenShellProviderList_DeepCopy p; mret (as_object ObjOpenShellProviderList c).
Definition OpenShellWorkspaceMember_DeepCopyObject (p : ptr OpenShellWorkspaceMember) : heapM cell (option runtime_Object) :=
  c ← OpenShellWorkspaceMember_DeepCopy p; mret (as_object ObjOpenShellWorkspaceMember c).
Definition OpenShellWorkspaceMemberList_DeepCopyObject (p : ptr OpenShellWorkspaceMemberList) : heapM cell (option runtime_Object) :=
  c ← OpenShellWorkspaceMemberList_DeepCopy p; mret (as_object ObjOpenShellWorkspaceMemberList c).
End functions.

(** ** What the structs hold: the tuple of their fields *)

Section proofs.
Context {K : K8sTypes} {KC : K8sCopies K} {KV : K8sValues K} {KL : K8sLaws K KC KV} {R : RangeOrder}.

#[global] Instance EmbeddedDatabaseConfig_flat : Flat EmbeddedDatabaseConfig := {}.
#[global] Instance SandboxSpec_flat : Flat SandboxSpec := {}.
#[global] Instance CertManagerSpec_flat : Flat CertManagerSpec := {}.
#[global] Instance NetworkEndpoint_flat : Flat NetworkEndpoint := {}.
#[global] Instance NetworkBinary_flat : Flat NetworkBinary := {}.
#[global] Instance ProcessPolicy_flat : Flat ProcessPolicy := {}.
#[global] Instance SecretKeyRef_flat : Flat SecretKeyRef := {}.
#[global] Instance ServiceAccountReference_flat : Flat ServiceAccountReference := {}.
#[global] Instance OpenShellWorkspaceMemberSpec_flat : Flat OpenShellWorkspaceMemberSpec := {}.
#[global] Instance DatabaseSpec_rep : Rep (cell := cell) DatabaseSpec _ :=
  rep_via (λ i, (DatabaseSpec_Embedded i, DatabaseSpec_EmbeddedConfig i, DatabaseSpec_SecretName i)).
#[global] Instance DatabaseSpec_rep_laws : RepLaws (cell := cell) DatabaseSpec _ := rep_via_laws _.
#[global] Instance TLSSpec_rep : Rep (cell := cell) TLSSpec _ :=
  rep_via (λ i, (TLSSpec_Enabled i, TLSSpec_CertManager i, TLSSpec_ServerCertSecretName i)).
#[global] Instance TLSSpec_rep_laws : RepLaws (cell := cell) TLSSpec _ := rep_via_laws _.
#[global] Instance GatewayAPISpec_rep : Rep (cell := cell) GatewayAPISpec _ :=
  rep_via (λ i, (GatewayAPISpec_Enabled i, GatewayAPISpec_GatewayClassName i,
    GatewayAPISpec_InstallEnvoyGateway i, GatewayAPISpec_GrantSCCs i)).
#[global] Instance GatewayAPISpec_rep_laws : RepLaws (cell := cell) GatewayAPISpec _ := rep_via_laws _.
#[global] Instance RouteSpec_rep : Rep (cell := cell) RouteSpec _ :=
  rep_via (λ i, (RouteSpec_Enabled i, RouteSpec_Hostname i, RouteSpec_GatewayAPI i)).
#[global] Instance RouteSpec_rep_laws : RepLaws (cell := cell) RouteSpec _ := rep_via_laws _.
#[global] Instance OpenShiftAuth_rep : Rep (cell := cell) OpenShiftAuth _ :=
  rep_via (λ i, (OpenShiftAuth_Enabled i, OpenShiftAuth_UserGroup i, OpenShiftAuth_AdminGroup i,
    OpenShiftAuth_TokenTTL i, OpenShiftAuth_AutoCreateGroups i)).
#[global] Instance OpenShiftAuth_rep_laws : RepLaws (cell := cell) OpenShiftAuth _ := rep_via_laws _.
#[global] Instance AuthSpec_rep : Rep (cell := cell) AuthSpec _ :=
  rep_via (λ i, (AuthSpec_AllowUnauthenticated i, AuthSpec_OpenShift i)).
#[global] Instance AuthSpec_rep_laws : RepLaws (cell := cell) AuthSpec _ := rep_via_laws _.
#[global] Instance NetworkPolicySpec_rep : Rep (cell := cell) NetworkPolicySpec _ :=
  rep_via (λ i, NetworkPolicySpec_Enabled i).
#[global] Instance NetworkPolicySpec_rep_laws : RepLaws (cell := cell) NetworkPolicySpec _ := rep_via_laws _.
#[global] Instance OpenShellGatewaySpec_rep : Rep (cell := cell) OpenShellGatewaySpec _ :=
  rep_via (λ i, (OpenShellGatewaySpec_Namespace i, OpenShellGatewaySpec_Image i,
    OpenShellGatewaySpec_ImageTag i, OpenShellGatewaySpec_SupervisorImage i,
    OpenShellGatewaySpec_AuthBridgeImage i, OpenShellGatewaySpec_Replicas i,
    OpenShellGatewaySpec_Database i, OpenShellGatewaySpec_Sandbox i, OpenShellGatewaySpec_TLS i,
    OpenShellGatewaySpec_Route i, OpenShellGatewaySpec_Auth i, OpenShellGatewaySpec_LogLevel i,
    OpenShellGatewaySpec_Resources i, OpenShellGatewaySpec_NetworkPolicy i)).
#[global] Instance OpenShellGatewaySpec_rep_laws : RepLaws (cell := cell) OpenShellGatewaySpec _ := rep_via_laws _.
#[global] Instance OpenShellGatewayStatus_rep : Rep (cell := cell) OpenShellGatewayStatus _ :=
  rep_via (λ i, (OpenShellGatewayStatus_Phase i, OpenShellGatewayStatus_GatewayURL i,
    OpenShellGatewayStatus_ClientCertSecretName i, OpenShellGatewayStatus_ObservedGeneration i,
    OpenShellGatewayStatus_Conditions i)).
#[global] Instance OpenShellGatewayStatus_rep_laws : RepLaws (cell := cell) OpenShellGatewayStatus _ := rep_via_laws _.
#[global] Instance FilesystemPolicy_rep : Rep (cell := cell) FilesystemPolicy _ :=
  rep_via (λ i, (FilesystemPolicy_IncludeWorkdir i, FilesystemPolicy_ReadOnly i,
    FilesystemPolicy_ReadWrite i)).
#[global] Instance FilesystemPolicy_rep_laws : RepLaws (cell := cell) FilesystemPolicy _ := rep_via_laws _.
#[global] Instance NetworkPolicyRule_rep : Rep (cell := cell) NetworkPolicyRule _ :=
  rep_via (λ i, (NetworkPolicyRule_Name i, NetworkPolicyRule_Endpoints i,
    NetworkPolicyRule_Binaries i)).
#[global] Instance NetworkPolicyRule_rep_laws : RepLaws (cell := cell) NetworkPolicyRule _ := rep_via_laws _.
#[global] Instance OpenShellPolicySpec_rep : Rep (cell := cell) OpenShellPolicySpec _ :=
  rep_via (λ i, (OpenShellPolicySpec_PolicyName i, OpenShellPolicySpec_Filesystem i,
    OpenShellPolicySpec_Network i, OpenShellPolicySpec_Process i)).
#[global] Instance OpenShellPolicySpec_rep_laws : RepLaws (cell := cell) OpenShellPolicySpec _ := rep_via_laws _.
#[global] Instance OpenShellPolicyStatus_rep : Rep (cell := cell) OpenShellPolicyStatus _ :=
  rep_via (λ i, (OpenShellPolicyStatus_Phase i, OpenShellPolicyStatus_ObservedGeneration i,
    OpenShellPolicyStatus_Conditions i, OpenShellPolicyStatus_AppliedToGateway i)).
#[global] Instance OpenShellPolicyStatus_rep_laws : RepLaws (cell := cell) OpenShellPolicyStatus _ := rep_via_laws _.
#[global] Instance OpenShellProviderSpec_rep : Rep (cell := cell) OpenShellProviderSpec _ :=
  rep_via (λ i, (OpenShellProviderSpec_ProviderType i, OpenShellProviderSpec_Credentials i,
    OpenShellProviderSpec_Config i)).
#[global] Instance OpenShellProviderSpec_rep_laws : RepLaws (cell := cell) OpenShellProviderSpec _ := rep_via_laws _.
#[global] Instance OpenShellProviderStatus_rep : Rep (cell := cell) OpenShellProviderStatus _ :=
  rep_via (λ i, (OpenShellProviderStatus_Phase i, OpenShellProviderStatus_ObservedGeneration i,
    OpenShellProviderStatus_Conditions i, OpenShellProviderStatus_ReconciledCredentialKeys i,
    OpenShellProviderStatus_ReconciledConfigKeys i)).
#[global] Instance OpenShellProviderStatus_rep_laws : RepLaws (cell := cell) OpenShellProviderStatus _ := rep_via_laws _.
#[global] Instance OpenShellWorkspaceMemberStatus_rep : Rep (cell := cell) OpenShellWorkspaceMemberStatus _ :=
  rep_via (λ i, (OpenShellWorkspaceMemberStatus_Phase i,
    OpenShellWorkspaceMemberStatus_ObservedGeneration i,
    OpenShellWorkspaceMemberStatus_Conditions i,
    OpenShellWorkspaceMemberStatus_ReconciledSubject i)).
#[global] Instance OpenShellWorkspaceMemberStatus_rep_laws : RepLaws (cell := cell) OpenShellWorkspaceMemberStatus _ := rep_via_laws _.
#[global] Instance OpenShellGateway_rep : Rep (cell := cell) OpenShellGateway _ :=
  rep_via (λ i, (OpenShellGateway_TypeMeta i, OpenShellGateway_ObjectMeta i,
    OpenShellGateway_Spec i, OpenShellGateway_Status i)).
#[global] Instance OpenShellGateway_rep_laws : RepLaws (cell := cell) OpenShellGateway _ := rep_via_laws _.
#[global] Instance OpenShellGatewayList_rep : Rep (cell := cell) OpenShellGatewayList _ :=
  rep_via (λ i, (OpenShellGatewayList_TypeMeta i, OpenShellGatewayList_ListMeta i,
    OpenShellGatewayList_Items i)).
#[global] Instance OpenShellGatewayList_rep_laws : RepLaws (cell := cell) OpenShellGatewayList _ := rep_via_laws _.
#[global] Instance OpenShellPolicy_rep : Rep (cell := cell) OpenShellPolicy _ :=
  rep_via (λ i, (OpenShellPolicy_TypeMeta i, OpenShellPolicy_ObjectMeta i, OpenShellPolicy_Spec i,
    OpenShellPolicy_Status i)).
#[global] Instance OpenShellPolicy_rep_laws : RepLaws (cell := cell) OpenShellPolicy _ := rep_via_laws _.
#[global] Instance OpenShellPolicyList_rep : Rep (cell := cell) OpenShellPolicyList _ :=
  rep_via (λ i, (OpenShellPolicyList_TypeMeta i, OpenShellPolicyList_ListMeta i,
    OpenShellPolicyList_Items i)).
#[global] Instance OpenShellPolicyList_rep_laws : RepLaws (cell := cell) OpenShellPolicyList _ := rep_via_laws _.
#[global] Instance OpenShellProvider_rep : Rep (cell := cell) OpenShellProvider _ :=
  rep_via (λ i, (OpenShellProvider_TypeMeta i, OpenShellProvider_ObjectMeta i,
    OpenShellProvider_Spec i, OpenShellProvider_Status i)).
#[global] Instance OpenShellProvider_rep_laws : RepLaws (cell := cell) OpenShellProvider _ := rep_via_laws _.
#[global] Instance OpenShellProviderList_rep : Rep (cell := cell) OpenShellProviderList _ :=
  rep_via (λ i, (OpenShellProviderList_TypeMeta i, OpenShellProviderList_ListMeta i,
    OpenShellProviderList_Items i)).
#[global] Instance OpenShellProviderList_rep_laws : RepLaws (cell := cell) OpenShellProviderList _ := rep_via_laws _.
#[global] Instance OpenShellWorkspaceMember_rep : Rep (cell := cell) OpenShellWorkspaceMember _ :=
  rep_via (λ i, (OpenShellWorkspaceMember_TypeMeta i, OpenShellWorkspaceMember_ObjectMeta i,
    OpenShellWorkspaceMember_Spec i, OpenShellWorkspaceMember_Status i)).
#[global] Instance OpenShellWorkspaceMember_rep_laws : RepLaws (cell := cell) OpenShellWorkspaceMember _ := rep_via_laws _.
#[global] Instance OpenShellWorkspaceMemberList_rep : Rep (cell := cell) OpenShellWorkspaceMemberList _ :=
  rep_via (λ i, (OpenShellWorkspaceMemberList_TypeMeta i, OpenShellWorkspaceMemberList_ListMeta i,
    OpenShellWorkspaceMemberList_Items i)).
#[global] Instance OpenShellWorkspaceMemberList_rep_laws : RepLaws (cell := cell) OpenShellWorkspaceMemberList _ := rep_via_laws _.

Lemma rep_pair {M N V W} `{Rep cell M V, Rep cell N W} h P (m : M) (n : N) v :
  rep h P (m, n) v ↔ rep h P m v.1 ∧ rep h P n v.2.
Proof. done. Qed.
Lemma rep_pair_inv {M N V W} `{Rep cell M V, Rep cell N W} h P (m : M) (n : N) v :
  rep h P (m, n) v → rep h P m v.1 ∧ rep h P n v.2.
Proof. done. Qed.
Lemma rep_flat_any {M} `{!Flat M} (h h' : gheap cell) P P' (m v : M) : rep h P m v → rep h' P' m v.
Proof. done. Qed.

(** A struct: its fields are copied one after the other. *)
Ltac store_grows := solve [repeat first [reflexivity | eassumption | etrans; [eassumption|]]].
Ltac head t := lazymatch t with ?f _ => head f | _ => t end.
Ltac open_rep :=
  match goal with
  | H : @rep ?C ?M ?V ?I ?h ?P ?m ?v |- ?G =>
      lazymatch eval red in I with
      | @rep_via _ _ ?N _ ?f ?J => change (@rep C N V J h P (f m) v) in H; cbn beta in H
      end
  end.
Ltac close_rep :=
  match goal with
  | |- @rep ?C ?M ?V ?I ?h ?P ?m ?v =>
      lazymatch eval red in I with
      | @rep_via _ _ ?N _ ?f ?J => change (@rep C N V J h P (f m) v); cbn beta iota
      end
  end.
Ltac copy_struct :=
  intros h P m v Hr;
  match goal with |- ok _ (?f _) _ => let f := head f in unfold f end;
  open_rep;
  repeat match goal with
         | H : rep h P (?m, ?n) _ |- _ => destruct (rep_pair_inv h P m n _ H) as [? ?]; clear H end;
  repeat (eapply ok_bind; [eapply (ok_copy _ h); [store_grows|eassumption]|cbn beta; intros ????]);
  apply ok_ret; close_rep;
  repeat match goal with |- rep _ _ (_, _) _ => apply rep_pair; split end;
  first [by eapply rep_flat_any; eassumption
        |by eapply rep_extend; [| |eassumption]; [store_grows|done]].

#[global] Instance OpenShellWorkspaceMemberSpec_copies : Copies (V := OpenShellWorkspaceMemberSpec) OpenShellWorkspaceMemberSpec_DeepCopyInto := copies_flat.
#[global] Instance ServiceAccountReference_copies : Copies (V := ServiceAccountReference) ServiceAccountReference_DeepCopyInto := copies_flat.
#[global] Instance SecretKeyRef_copies : Copies (V := SecretKeyRef) SecretKeyRef_DeepCopyInto := copies_flat.
#[global] Instance ProcessPolicy_copies : Copies (V := ProcessPolicy) ProcessPolicy_DeepCopyInto := copies_flat.
#[global] Instance NetworkBinary_copies : Copies (V := NetworkBinary) NetworkBinary_DeepCopyInto := copies_flat.
#[global] Instance NetworkEndpoint_copies : Copies (V := NetworkEndpoint) NetworkEndpoint_DeepCopyInto := copies_flat.
#[global] Instance CertManagerSpec_copies : Copies (V := CertManagerSpec) CertManagerSpec_DeepCopyInto := copies_flat.
#[global] Instance SandboxSpec_copies : Copies (V := SandboxSpec) SandboxSpec_DeepCopyInto := copies_flat.
#[global] Instance EmbeddedDatabaseConfig_copies : Copies (V := EmbeddedDatabaseConfig) EmbeddedDatabaseConfig_DeepCopyInto := copies_flat.
#[global] Instance DatabaseSpec_copies : Copies DatabaseSpec_DeepCopyInto.
Proof. copy_struct. Qed.
#[global] Instance TLSSpec_copies : Copies TLSSpec_DeepCopyInto.
Proof. copy_struct. Qed.
#[global] Instance GatewayAPISpec_copies : Copies GatewayAPISpec_DeepCopyInto.
Proof. copy_struct. Qed.
#[global] Instance RouteSpec_copies : Copies RouteSpec_DeepCopyInto.
Proof. copy_struct. Qed.
#[global] Instance OpenShiftAuth_copies : Copies OpenShiftAuth_DeepCopyInto.
Proof. copy_struct. Qed.
#[global] Instance AuthSpec_copies : Copies AuthSpec_DeepCopyInto.
Proof. copy_struct. Qed.
#[global] Instance NetworkPolicySpec_copies : Copies NetworkPolicySpec_DeepCopyInto.
Proof. copy_struct. Qed.
#[global] Instance OpenShellGatewaySpec_copies : Copies OpenShellGatewaySpec_DeepCopyInto.
Proof. copy_struct. Qed.
#[global] Instance OpenShellGatewayStatus_copies : Copies OpenShellGatewayStatus_DeepCopyInto.
Proof. copy_struct. Qed.
#[global] Instance FilesystemPolicy_copies : Copies FilesystemPolicy_DeepCopyInto.
Proof. copy_struct. Qed.
#[global] Instance NetworkPolicyRule_copies : Copies NetworkPolicyRule_DeepCopyInto.
Proof. copy_struct. Qed.
#[global] Instance OpenShellPolicySpec_copies : Copies OpenShellPolicySpec_DeepCopyInto.
Proof. copy_struct. Qed.
#[global] Instance OpenShellPolicyStatus_copies : Copies OpenShellPolicyStatus_DeepCopyInto.
Proof. copy_struct. Qed.
#[global] Instance OpenShellProviderSpec_copies : Copies OpenShellProviderSpec_DeepCopyInto.
Proof. copy_struct. Qed.
#[global] Instance OpenShellProviderStatus_copies : Copies OpenShellProviderStatus_DeepCopyInto.
Proof. copy_struct. Qed.
#[global] Instance OpenShellWorkspaceMemberStatus_copies : Copies OpenShellWorkspaceMemberStatus_DeepCopyInto.
Proof. copy_struct. Qed.
#[global] Instance OpenShellGateway_copies : Copies OpenShellGateway_DeepCopyInto.
Proof. copy_struct. Qed.
#[global] Instance OpenShellGatewayList_copies : Copies OpenShellGatewayList_DeepCopyInto.
Proof. copy_struct. Qed.
#[global] Instance OpenShellPolicy_copies : Copies OpenShellPolicy_DeepCopyInto.
Proof. copy_struct. Qed.
#[global] Instance OpenShellPolicyList_copies : Copies OpenShellPolicyList_DeepCopyInto.
Proof. copy_struct. Qed.
#[global] Instance OpenShellProvider_copies : Copies OpenShellProvider_DeepCopyInto.
Proof. copy_struct. Qed.
#[global] Instance OpenShellProviderList_copies : Copies OpenShellProviderList_DeepCopyInto.
Proof. copy_struct. Qed.
#[global] Instance OpenShellWorkspaceMember_copies : Copies OpenShellWorkspaceMember_DeepCopyInto.
Proof. copy_struct. Qed.
#[global] Instance OpenShellWorkspaceMemberList_copies : Copies OpenShellWorkspaceMemberList_DeepCopyInto.
Proof. copy_struct. Qed.

(** ** Objects *)

(** What a controller needs of [DeepCopyObject]: nil gives the nil interface;
    otherwise the result is a pointer of the same type to the same tree, and
    from then on original and copy are separate, whatever is written to either
    of them ([h2] is any later store that differs only outside the original,
    respectively only outside the copy). *)
Definition copies_object {T V} `{Rep cell (ptr T) (option V)} (tag : ptr T → runtime_Object)
    (f : ptr T → heapM cell (option runtime_Object)) : Prop :=
  (∀ h, f (Ptr None) h = Some (None, h)) ∧
  ∀ h P p v, rep h P p (Some v) → ∃ q h', f p h = Some (Some (tag q), h') ∧
    rep h' (λ _, True) q (Some v) ∧
    (∀ h2, (∀ l, l ∈ dom h → h2 !! l = h !! l) → rep h2 (λ _, True) p (Some v)) ∧
    (∀ h2, (∀ l, l ∉ dom h → h2 !! l = h' !! l) → rep h2 (λ _, True) q (Some v)).

Lemma copies_object_intro {T V} `{InCell cell T, RepLaws cell T V} (f : T → heapM cell T) `{!Copies f}
    (tag : ptr T → runtime_Object) :
  copies_object tag (λ p, c ← copy_ptr f p; mret (as_object tag c)).
Proof.
  split; [done|]. intros h P p v Hr.
  destruct (copies_independent (copy_ptr f) h P p (Some v) Hr) as (q & h' & Hf & Hq & Hrest).
  exists q, h'. split; [|done]. unfold mbind, heapM_bind. rewrite Hf.
  by destruct q as [[l|]].
Qed.

(** C40. The generated deep copies are deep: for every kind of API object and
    every list of them, copying returns, keeps nil nil, gives a pointer to the
    same tree, and leaves original and copy without a shared cell, so that no
    later write to one can be seen through the other. *)
Theorem deep_copies_are_independent :
  copies_object ObjOpenShellGateway OpenShellGateway_DeepCopyObject ∧
  copies_object ObjOpenShellGatewayList OpenShellGatewayList_DeepCopyObject ∧
  copies_object ObjOpenShellPolicy OpenShellPolicy_DeepCopyObject ∧
  copies_object ObjOpenShellPolicyList OpenShellPolicyList_DeepCopyObject ∧
  copies_object ObjOpenShellProvider OpenShellProvider_DeepCopyObject ∧
  copies_object ObjOpenShellProviderList OpenShellProviderList_DeepCopyObject ∧
  copies_object ObjOpenShellWorkspaceMember OpenShellWorkspaceMember_DeepCopyObject ∧
  copies_object ObjOpenShellWorkspaceMemberList OpenShellWorkspaceMemberList_DeepCopyObject.
Proof. split_and!; apply copies_object_intro; apply _. Qed.
End proofs.

(** ** A concrete store *)

#[export] Instance plain_order : RangeOrder := {| range T m := map_to_list m; range_perm T m := reflexivity _ |}.

#[local] Instance flat_unit : Flat unit := {}.
#[local] Instance flat_Condition : Flat Condition := {}.
#[local] Instance plain_types : K8sTypes := {|
  lib_cell := unit; k_ObjectMeta := string * slice string; k_ListMeta := unit;
  k_ResourceRequirements := gomap string; k_Condition := Condition |}.
#[local] Instance plain_copies : K8sCopies plain_types := {|
  k_ObjectMeta_DeepCopyInto m := s ← copy_slice mret m.2; mret (m.1, s);
  k_ListMeta_DeepCopyInto := mret;
  k_ResourceRequirements_DeepCopyInto := copy_map mret;
  k_Condition_DeepCopyInto := mret |}.
#[local] Instance plain_values : K8sValues plain_types := {|
  v_ObjectMeta := string * option (list string); v_ListMeta := unit;
  v_ResourceRequirements := option (gmap string string); v_Condition := Condition;
  ObjectMeta_rep := rep_prod (M1 := string) (M2 := slice string); ListMeta_rep := rep_flat (M := unit);
  ResourceRequirements_rep := rep_map (M := string); Condition_rep := rep_flat (M := Condition) |}.
#[local] Instance plain_laws : K8sLaws plain_types plain_copies plain_values.
Proof.
  split.
  - exact (rep_prod_laws (M1 := string) (M2 := slice string)).
  - exact (rep_flat_laws (M := unit)).
  - exact (rep_map_laws (M := string)).
  - exact (rep_flat_laws (M := Condition)).
  - intros h P [n s] [vn vs] [Hn Hs]. eapply ok_bind; [apply (ok_copy (M := slice string) (copy_slice mret) h h P s vs); [done|exact Hs]|].
    cbn. intros s' h' _ Hr. by apply ok_ret.
  - exact (copies_flat (M := unit)).
  - exact (copies_map (M := string) mret).
  - exact (copies_flat (M := Condition)).
Qed.

(** A policy in memory: two filesystem lists that share one backing array, one
    network rule. *)
Definition plain_store : gheap cell :=
  {[1%positive := CStrings ["/usr"; "/etc"; "/tmp"];
    2%positive := CFilesystemPolicy (mkFilesystemPolicy true (Slice (Some (Window 1 0 2)))
                                       (Slice (Some (Window 1 2 1))));
    3%positive := CEndpoints [Policy.mkEndpoint "example.com" 443 "rest" "enforce" "full"];
    4%positive := CRules {["web" := mkNetworkPolicyRule "web" (Slice (Some (Window 3 0 1))) (Slice None)]};
    5%positive := COpenShellPolicy (mkOpenShellPolicy (mkTypeMeta "OpenShellPolicy" "v1alpha1") ("p", Slice None)
                    (mkOpenShellPolicySpec "strict" (Ptr (Some 2%positive)) (Gomap (Some 4%positive)) (Ptr None))
                    (mkOpenShellPolicyStatus "Synced" 1 (Slice None) true))]}.

(** The tree it holds. *)
Definition plain_policy :=
  ((mkTypeMeta "OpenShellPolicy" "v1alpha1", ("p", @None (list string))),
   ("strict", Some (true, Some ["/usr"; "/etc"], Some ["/tmp"]),
    Some ({["web" := ("web", Some [Policy.mkEndpoint "example.com" 443 "rest" "enforce" "full"],
                      @None (list Policy.NetworkBinary))]} : gmap string _),
    @None Policy.ProcessPolicy),
   ("Synced", 1%Z, @None (list Condition), true)).

Definition plain_ptr : ptr (OpenShellPolicy (K := plain_types)) := Ptr (Some 5%positive).

Lemma plain_policy_held :
  rep (Rep := rep_ptr (H0 := OpenShellPolicy_rep)) plain_store (λ _, True) plain_ptr (Some plain_policy).
Proof.
  split; [done|]. eexists. split; [reflexivity|]. repeat split; try done.
  - eexists. split; [reflexivity|]. repeat split; try done.
    + eexists. split; [reflexivity|]. cbn. by repeat constructor.
    + eexists. split; [reflexivity|]. cbn. by repeat constructor.
  - eexists. split; [reflexivity|]. intros k. cbn. destruct (decide (k = "web")) as [->|Hk].
    + repeat split; try done. eexists. split; [reflexivity|]. cbn. by repeat constructor.
    + by rewrite !lookup_singleton_ne by done.
Qed.

Lemma deep_copies_are_independent_witness :
  ∃ q h', OpenShellPolicy_DeepCopyObject plain_ptr plain_store = Some (Some (ObjOpenShellPolicy q), h') ∧
    rep (Rep := rep_ptr (H0 := OpenShellPolicy_rep)) h' (λ _, True) q (Some plain_policy) ∧
    (∀ x, rep (Rep := rep_ptr (H0 := OpenShellPolicy_rep))
            (<[8%positive := CStrings [x]]> plain_store) (λ _, True) plain_ptr (Some plain_policy)).
Proof.
  destruct deep_copies_are_independent as (_ & _ & [_ Hcopy] & _).
  destruct (Hcopy _ _ _ _ plain_policy_held) as (q & h' & Hf & Hq & Hold & _).
  exists q, h'. split; [exact Hf|]. split; [exact Hq|]. intros x. apply Hold. intros l Hl.
  apply lookup_insert_ne. intros <-. revert Hl. by vm_compute.
Defined.
