(* ===== verification/Kube.v ===== *)
(** * What the operator talks to: the API server and the gateway

    The Kubernetes objects the controllers read and write, the messages of the
    gateway's gRPC API, and the signature of the calls.  controller-runtime and
    apimachinery are outside the repository: their helpers on conditions,
    finalizers and unstructured objects are the class [ApiMachinery], and
    [controllerutil.CreateOrUpdate] is the pair of calls it makes around its
    callback. *)

From S2P Require Import Prelude Interaction GoText GoErrors ApiTypes.

(** ** Object metadata *)

Record ObjectMeta := mkMeta {
  Name : string; Namespace : string;
  Labels : gmap string string; Annotations : gmap string string;
  UID : string; ResourceVersion : string; Generation : Z;
  CreationTimestamp : option Z;          (* None: the zero time *)
  DeletionTimestamp : option Z;
  Finalizers : list string
}.

(** [metav1.ObjectMeta{Name: ..., Namespace: ...}]. *)
Definition named (name ns : string) : ObjectMeta := mkMeta name ns ∅ ∅ "" "" 0 None None [].
Definition with_labels (l : gmap string string) (m : ObjectMeta) : ObjectMeta :=
  mkMeta (Name m) (Namespace m) l (Annotations m) (UID m) (ResourceVersion m) (Generation m)
    (CreationTimestamp m) (DeletionTimestamp m) (Finalizers m).
Definition with_annotations (a : gmap string string) (m : ObjectMeta) : ObjectMeta :=
  mkMeta (Name m) (Namespace m) (Labels m) a (UID m) (ResourceVersion m) (Generation m)
    (CreationTimestamp m) (DeletionTimestamp m) (Finalizers m).
Definition with_finalizers (f : list string) (m : ObjectMeta) : ObjectMeta :=
  mkMeta (Name m) (Namespace m) (Labels m) (Annotations m) (UID m) (ResourceVersion m)
    (Generation m) (CreationTimestamp m) (DeletionTimestamp m) f.

(** [labels[k]] of a Go map. *)
Definition index (m : gmap string string) (k : string) : string := or_zero "" (m !! k).

(** ** The built-in objects *)

Record Secret := mkSecret { SecretType : string; SecretData : gmap string string }.
Record ConfigMap := mkConfigMap { CMData : gmap string string; BinaryData : gmap string string }.

Record PolicyRule := mkPolicyRule {
  APIGroups : list string; RResources : list string; Verbs : list string
}.
Record RoleRef := mkRoleRef { RefAPIGroup : string; RefKind : string; RefRole : string }.
Record Subject := mkSubject { SubjKind : string; SubjName : string; SubjNamespace : string }.
Record Binding := mkBinding { BRoleRef : RoleRef; Subjects : list Subject }.

(** A Service port's target: [intstr.FromString] or [intstr.FromInt32]. *)
Inductive IntOrString := FromString (s : string) | FromInt32 (n : Z).
Record ServicePort := mkServicePort {
  SPName : string; SPPort : Z; TargetPort : IntOrString; AppProtocol : option string
}.
Record Service := mkService {
  SvcType : string; SvcSelector : gmap string string; Ports : list ServicePort
}.

Record PVC := mkPVC { AccessModes : list string; StorageRequest : string }.

Inductive EnvSource := EnvValue (v : string) | EnvSecretKey (secret key : string).
Record EnvVar := mkEnv { EnvName : string; EnvFrom : EnvSource }.
Record ContainerPort := mkPort { PortName : string; PortNumber : Z }.
Record VolumeMount := mkMount { MountVolume : string; MountPath : string; MReadOnly : bool }.
Inductive ProbeHandler :=
| HTTPGet (path : string) (port : IntOrString) (scheme : string)
| TCPSocket (port : IntOrString).
Record Probe := mkProbe {
  Handler_ : ProbeHandler; InitialDelaySeconds : Z; PeriodSeconds : Z; FailureThreshold : Z
}.
Record SecurityContext := mkSecurityContext {
  AllowPrivilegeEscalation : option bool; RunAsNonRoot : option bool; DropCapabilities : list string
}.
Record Container := mkContainer {
  ContainerName : string; ContainerImage : string; Args : list string; Env : list EnvVar;
  ContainerPorts : list ContainerPort;
  StartupProbe : option Probe; LivenessProbe : option Probe; ReadinessProbe : option Probe;
  CResources : ResourceRequirements; VolumeMounts : list VolumeMount; CSecurity : SecurityContext
}.
Inductive VolumeSource :=
| VConfigMap (name : string)
| VSecret (name : string) (defaultMode : option Z) (items : list (string * string))
| VClaim (claim : string).
Record Volume := mkVolume { VolumeName : string; Source : VolumeSource }.
Record PodSecurityContext := mkPodSecurity { FSGroup : Z; PodRunAsUser : Z }.
Record PodSpec := mkPodSpec {
  ServiceAccountName : string; TerminationGracePeriodSeconds : option Z;
  Containers : list Container; Volumes : list Volume; PodSecurity : option PodSecurityContext
}.
Record PodTemplate := mkTemplate {
  TLabels : gmap string string; TAnnotations : gmap string string; TSpec : PodSpec
}.
Record Deployment := mkDeployment {
  DReplicas : option Z; Strategy : string; MatchLabels : gmap string string;
  Template : option PodTemplate; ReadyReplicas : Z
}.

Record NetworkPolicy := mkNetPol {
  PodSelector : gmap string string; PolicyTypes : list string;
  FromNamespace : gmap string string; FromPods : gmap string string;
  IngressPort : Z
}.

(** ** Kinds *)

Inductive kind :=
| KGateway | KProvider | KPolicy | KMember
| KSecret | KConfigMap | KServiceAccount | KNamespace | KClusterRole | KClusterRoleBinding
| KRole | KRoleBinding | KPVC | KDeployment | KService | KNetworkPolicy
| KUnstructured (group version knd : string).

#[export] Instance kind_eq_dec : EqDecision kind.
Proof. solve_decision. Defined.

(** The part of an object beside its metadata; of an unstructured one, its
    other top-level fields. *)
Definition body (k : kind) : Type :=
  match k with
  | KGateway => Gateway.Spec * Gateway.Status
  | KProvider => Provider.Spec * Provider.Status
  | KPolicy => Policy.Spec * Policy.Status
  | KMember => Member.Spec * Member.Status
  | KSecret => Secret
  | KConfigMap => ConfigMap
  | KServiceAccount | KNamespace => unit
  | KClusterRole | KRole => list PolicyRule
  | KClusterRoleBinding | KRoleBinding => option Binding
  | KPVC => option PVC
  | KDeployment => Deployment
  | KService => option Service
  | KNetworkPolicy => option NetworkPolicy
  | KUnstructured _ _ _ => list (string * json)
  end.

Record obj (k : kind) := mkObj { ometa : ObjectMeta; odata : body k }.
Arguments mkObj {k} ometa odata.
Arguments ometa {k} o.
Arguments odata {k} o.

Abbreviation OpenShellGateway := (obj KGateway).
Abbreviation OpenShellProvider := (obj KProvider).
Abbreviation OpenShellPolicy := (obj KPolicy).
Abbreviation OpenShellWorkspaceMember := (obj KMember).

Definition with_meta {k} (f : ObjectMeta → ObjectMeta) (o : obj k) : obj k :=
  mkObj (f (ometa o)) (odata o).

(** [&T{}] of each kind. *)
Definition zero_body (k : kind) : body k :=
  match k return body k with
  | KGateway => (Gateway.mkSpec "" "" "" "" "" None (Gateway.mkDatabase false None "")
      (Gateway.mkSandbox "" "" "" "" "" "")
      (Gateway.mkTLS None (Gateway.mkCertManager false "" "") "")
      (Gateway.mkRoute None "" (Gateway.mkGatewayAPI None "" None None))
      (Gateway.mkAuth false (Gateway.mkOpenShiftAuth None "" "" "" None)) ""
      (mkResources ∅ ∅) (Gateway.mkNetworkPolicy None), Gateway.mkStatus "" "" "" 0 [])
  | KProvider => (Provider.mkSpec "" ∅ ∅, Provider.mkStatus "" 0 [] [] [])
  | KPolicy => (Policy.mkSpec "" None ∅ None, Policy.mkStatus "" 0 [] false)
  | KMember => (Member.mkSpec "" "" "", Member.mkStatus "" 0 [] "")
  | KSecret => mkSecret "" ∅
  | KConfigMap => mkConfigMap ∅ ∅
  | KServiceAccount => ()
  | KNamespace => ()
  | KClusterRole => []
  | KRole => []
  | KClusterRoleBinding => None
  | KRoleBinding => None
  | KPVC => None
  | KDeployment => mkDeployment None "" ∅ None 0
  | KService => None
  | KNetworkPolicy => None
  | KUnstructured _ _ _ => []
  end.

Definition blank (k : kind) (name ns : string) : obj k := mkObj (named name ns) (zero_body k).

(** [secret.Data] and its index expression. *)
Definition secret_data (s : obj KSecret) : gmap string string := SecretData (odata s).
Definition secret_key (s : obj KSecret) (key : string) : string := index (secret_data s) key.

(** ** The gateway's gRPC API *)

Inductive WorkspaceRole := ROLE_UNSPECIFIED | ROLE_USER | ROLE_ADMIN.
#[export] Instance WorkspaceRole_eq_dec : EqDecision WorkspaceRole.
Proof. solve_decision. Defined.

Record RpcProvider := mkRpcProvider {
  PName : string; PType : string; PCredentials : gmap string string; PConfig : gmap string string
}.
Record RpcEndpoint := mkRpcEndpoint {
  EHost : string; EPort : Z; EProtocol : string; EEnforcement : string; EAccess : string
}.
Record RpcRule := mkRpcRule {
  RName : string; REndpoints : list RpcEndpoint; RBinaries : list string
}.
Record RpcFilesystem := mkRpcFilesystem {
  FIncludeWorkdir : bool; FReadOnly : list string; FReadWrite : list string
}.
Record RpcProcess := mkRpcProcess { PRunAsUser : string; PRunAsGroup : string }.
Record SandboxPolicy := mkSandboxPolicy {
  PFilesystem : option RpcFilesystem;
  PProcess : option RpcProcess;
  NetworkPolicies : gmap string RpcRule
}.
Record UpdateConfigRequest := mkUpdateConfig {
  UPolicy : option SandboxPolicy; SettingKey : string; DeleteSetting : bool;
  Global : bool; UWorkspace : string
}.

Inductive rpc :=
| AddWorkspaceMember (workspace subject : string) (role : WorkspaceRole)
| RemoveWorkspaceMember (workspace subject : string)
| ListWorkspaceMembers (workspace : string) (limit : Z)
| CreateProvider (p : RpcProvider) (workspace : string)
| UpdateProvider (p : RpcProvider) (workspace : string)
| DeleteProvider (name workspace : string)
| UpdateConfig (r : UpdateConfigRequest).

Definition rpc_result (r : rpc) : Type :=
  match r with
  | ListWorkspaceMembers _ _ => list (string * WorkspaceRole)
  | _ => unit
  end.

(** A failed call carries a gRPC status. *)
Record grpc_status := GrpcStatus { gcode : grpc_code; gmsg : string }.
Definition status_err (s : grpc_status) : err := EGrpc (gcode s) (gmsg s).

(** [cachedDetection] (internal/openshift/detect.go): a process-wide variable
    per API group.  Its mutex makes one check atomic; the variable itself is
    read and written by two calls of the signature. *)
Record cachedDetection := mkDetection { result : bool; expiry : Z }.

(** Transport credentials of a connection. *)
Inductive Credentials := Insecure | MutualTLS (cert key ca serverName : string).

(** ** The calls *)

Inductive kcall :=
| CGet (k : kind) (name ns : string)
| CList (k : kind) (ns : option string) (labels : gmap string string)
| CCreate (k : kind) (o : obj k)
| CUpdate (k : kind) (o : obj k)
| CStatusUpdate (k : kind) (o : obj k)
| CDelete (k : kind) (name ns : string)
| CUFetch (k : kind) (name ns : string)          (* CreateOrUpdate, before its callback *)
| CUCommit (k : kind) (o : obj k)                (* and after it *)
| CDiscover (groupVersion : string)              (* ServerResourcesForGroupVersion *)
| CDetectLoad (groupVersion : string)            (* the detection cache of the group *)
| CDetectStore (groupVersion : string) (c : cachedDetection)
| CNow
| CRand (n : nat)
| CEntropy                                       (* rand.Reader handed to a key generator *)
| CDial (target : string) (creds : Credentials)  (* grpc.NewClient *)
| CClose
| CRpc (token : string) (r : rpc).               (* with the bearer token of its context *)

Definition kresp (c : kcall) : Type :=
  match c with
  | CGet k _ _ => err + obj k
  | CList k _ _ => err + list (obj k)
  | CCreate k _ => err + obj k
  | CUpdate _ _ | CStatusUpdate _ _ | CDelete _ _ _ | CUCommit _ _ => option err
  | CUFetch k _ _ => err + obj k
  | CDiscover _ => bool
  | CDetectLoad _ => cachedDetection
  | CDetectStore _ _ => unit
  | CNow => Z
  | CRand _ => string
  | CEntropy => string
  | CDial _ _ => option err
  | CClose => unit
  | CRpc _ r => grpc_status + rpc_result r
  end%type.

Definition KSig : sig := Sig kcall kresp.

Definition kdo (c : kcall) : prog KSig (kresp c) := Call (S := KSig) c Ret.

(** [controllerutil.CreateOrUpdate]: the callback changes the object as it
    exists, or a fresh one with its name; an error of the callback is
    returned. *)
Definition CreateOrUpdate {A} (k : kind) (name ns : string) (st : A)
    (mutate : A → obj k → prog KSig ((err + obj k) * A)) : prog KSig (option err * A) :=
  f ← kdo (CUFetch k name ns);
  match f with
  | inl e => mret (Some e, st)
  | inr o =>
      m ← mutate st o;
      match m with
      | (inl e, st) => mret (Some e, st)
      | (inr o, st) => r ← kdo (CUCommit k o); mret (r, st)
      end
  end.

(** The callback of most call sites: no call, no error. *)
Definition CreateOrUpdate_pure (k : kind) (name ns : string) (mutate : obj k → obj k)
    : prog KSig (option err) :=
  r ← CreateOrUpdate k name ns () (λ _ o, mret (inr (mutate o), ()));
  mret r.1.

(** ** apimachinery and controllerutil *)

Class ApiMachinery := {
  SetStatusCondition : list Condition → Condition → list Condition;
  FindStatusCondition : list Condition → string → option Condition;
  RemoveStatusCondition : list Condition → string → list Condition;
  ContainsFinalizer : list string → string → bool;
  AddFinalizer : list string → string → list string;
  RemoveFinalizer : list string → string → list string;
  NestedString : list (string * json) → list string → err + string;
  NestedStringSlice : list (string * json) → list string → err + list string;
  NestedSlice : list (string * json) → list string → err + list json;
  NestedMap : list (string * json) → list string → err + list (string * json);
  SetNestedField : list (string * json) → json → list string → err + list (string * json);
  SetNestedStringSlice : list (string * json) → list string → list string →
    err + list (string * json);
  Semantic_DeepEqual : list (string * json) → list (string * json) → bool
}.

(** [v, _, _ := f(...)]: the zero value when the accessor fails. *)
Definition ignoring {A} (zero : A) (r : err + A) : A :=
  match r with inl _ => zero | inr a => a end.

(** Their documented behaviour. *)
Class ApiMachineryLaws (M : ApiMachinery) : Prop := {
  find_set : ∀ cs c t,
    FindStatusCondition (SetStatusCondition cs c) t =
      if decide (t = CType c) then Some c else FindStatusCondition cs t;
  find_type : ∀ cs t c, FindStatusCondition cs t = Some c → CType c = t;
  find_remove : ∀ cs t t',
    FindStatusCondition (RemoveStatusCondition cs t) t' =
      if decide (t' = t) then None else FindStatusCondition cs t';
  contains_spec : ∀ fs f, ContainsFinalizer fs f = true ↔ f ∈ fs;
  add_spec : ∀ fs f g, g ∈ AddFinalizer fs f ↔ g = f ∨ g ∈ fs;
  remove_spec : ∀ fs f g, g ∈ RemoveFinalizer fs f ↔ g ≠ f ∧ g ∈ fs
}.

(** ** Results of a reconcile *)

(** [ctrl.Result], durations in nanoseconds. *)
Record Result := mkResult { Requeue : bool; RequeueAfter : Z }.
Definition no_requeue : Result := mkResult false 0.
Definition requeue_after (d : Z) : Result := mkResult false d.

Definition outcome : Type := Result * option err.
