(* ===== verification/StatusSchema.v ===== *)
(** * The schema of the status subresources

    The API server checks a status update against the schema of its CRD, which
    is generated from the markers of the API types: the phase is one of an
    enumeration, conditions form a map keyed by their type, each with a type and
    a reason of a fixed shape, and the tracked keys of a provider form a set.
    An update that breaks the schema is refused, and the object would stay
    without a status.  The limit of 32768 bytes on a condition's message is left
    out: messages quote errors of the API server. *)

From S2P Require Import Prelude Interaction GoStrings GoText GoErrors GoUrl Jwt ApiTypes Kube.
From Stdlib Require Import Ascii.

(** ** Character classes of the patterns *)

Definition code_in (lo hi : N) (a : ascii) : bool := between lo hi (N_of_ascii a).
Definition is_lower (a : ascii) : bool := code_in 97 122 a.
Definition is_upper (a : ascii) : bool := code_in 65 90 a.
Definition is_digit (a : ascii) : bool := code_in 48 57 a.
Definition is_letter (a : ascii) : bool := is_lower a || is_upper a.
Definition is_alnum (a : ascii) : bool := is_letter a || is_digit a.
Definition one_of (s : string) (a : ascii) : bool :=
  bool_decide (a ∈ String.list_ascii_of_string s).

(** A non-empty word: first, inner and last byte each from a class. *)
Definition word (first inner last : ascii → bool) (l : list ascii) : bool :=
  match l with
  | [] => false
  | a :: l' => first a && forallb inner l' && last (List.last l' a)
  end.

(** A letter, then letters, digits, underscores, commas and colons, the last
    one no comma or colon; at most 1024 bytes. *)
Definition reason_pattern (s : string) : bool :=
  word is_letter (λ a, is_alnum a || one_of "_,:" a) (λ a, is_alnum a || one_of "_" a)
    (String.list_ascii_of_string s) && (String.length s <=? 1024)%nat.

(** The part of a condition type after its prefix: letters, digits, dashes,
    underscores and dots, with a letter or digit at both ends. *)
Definition type_name (s : string) : bool :=
  word is_alnum (λ a, is_alnum a || one_of "-_." a) is_alnum (String.list_ascii_of_string s).

(** A label of the prefix: lower-case letters, digits and dashes, no dash at
    either end. *)
Definition dns_label (s : string) : bool :=
  let c := λ a, is_lower a || is_digit a in
  word c (λ a, c a || one_of "-" a) c (String.list_ascii_of_string s).

(** Labels separated by dots. *)
Fixpoint dns_labels (fuel : nat) (s : string) : bool :=
  match fuel with
  | 0 => false
  | S fuel =>
      match split_at "."%char s with
      | Some (l, rest) => dns_label l && dns_labels fuel rest
      | None => dns_label s
      end
  end.

Definition type_pattern (s : string) : bool :=
  match split_at "/"%char s with
  | Some (prefix, n) => dns_labels (S (String.length prefix)) prefix && type_name n
  | None => type_name s
  end && (String.length s <=? 316)%nat.

(** ** Conditions and phases *)

Definition condition_admitted (c : Condition) : bool :=
  type_pattern (CType c) && reason_pattern (CReason c).

(** [listType=map], [listMapKey=type]. *)
Definition conditions_admitted (cs : list Condition) : bool :=
  bool_decide (NoDup (CType <$> cs)) && forallb condition_admitted cs.

(** An [Enum] of an optional string: absent, or one of the values. *)
Definition enum (values : list string) (s : string) : bool := (s =s "") || bool_decide (s ∈ values).

Definition gateway_phases : list string := ["Pending"; "Creating"; "Running"; "Failed"].
Definition provider_phases : list string := ["Pending"; "Synced"; "Failed"].
Definition policy_phases : list string := ["Pending"; "Synced"; "Failed"; "Superseded"].
Definition member_phases : list string := ["Pending"; "Synced"; "Failed"].

(** ** The four schemas *)

Definition gateway_status_schema (s : Gateway.Status) : bool :=
  enum gateway_phases (Gateway.Phase s) && conditions_admitted (Gateway.Conditions s).

Definition provider_status_schema (s : Provider.Status) : bool :=
  enum provider_phases (Provider.Phase s) && conditions_admitted (Provider.Conditions s) &&
  bool_decide (NoDup (Provider.ReconciledCredentialKeys s)) &&
  bool_decide (NoDup (Provider.ReconciledConfigKeys s)).

Definition policy_status_schema (s : Policy.Status) : bool :=
  enum policy_phases (Policy.Phase s) && conditions_admitted (Policy.Conditions s).

Definition member_status_schema (s : Member.Status) : bool :=
  enum member_phases (Member.Phase s) && conditions_admitted (Member.Conditions s).

Definition admitted (k : kind) : obj k → bool :=
  match k return obj k → bool with
  | KGateway => λ o, gateway_status_schema (odata o).2
  | KProvider => λ o, provider_status_schema (odata o).2
  | KPolicy => λ o, policy_status_schema (odata o).2
  | KMember => λ o, member_status_schema (odata o).2
  | _ => λ _, true
  end.

(** What the API server answered conforms: it never stores anything else. *)
Definition read_admitted (e : event KSig) : bool :=
  match e with
  | Ev c r =>
      match c return resp KSig c → bool with
      | CGet k _ _ => λ r, match r with inr o => admitted k o | inl _ => true end
      | _ => λ _, true
      end r
  end.
Definition reads_admitted (t : list (event KSig)) : bool := forallb read_admitted t.

Lemma read_was_admitted t k n ns o :
  reads_admitted t = true → Ev (S := KSig) (CGet k n ns) (inr o) ∈ t → admitted k o = true.
Proof.
  unfold reads_admitted. rewrite forallb_forall. intros H Ho.
  apply (H (Ev (S := KSig) (CGet k n ns) (inr o))), list_elem_of_In, Ho.
Qed.

Lemma sublist_fmap {A B} (f : A → B) l k : sublist l k → sublist (f <$> l) (f <$> k).
Proof. induction 1; cbn; by constructor. Qed.

(** ** The library's condition lists

    Their documented behaviour as lists: the set condition takes the place of
    the one with its type or is appended, a removed one is dropped. *)

Class ConditionLists (M : ApiMachinery) : Prop := {
  set_members : ∀ cs c x, x ∈ SetStatusCondition cs c → x = c ∨ x ∈ cs;
  set_keys : ∀ cs c, NoDup (CType <$> cs) → NoDup (CType <$> SetStatusCondition cs c);
  remove_sublist : ∀ cs t, sublist (RemoveStatusCondition cs t) cs;
  find_member : ∀ cs t c, FindStatusCondition cs t = Some c → c ∈ cs
}.

(** A status write sets one condition of an admissible shape. *)
Definition conditioned `{M : ApiMachinery} (cs cs' : list Condition) : Prop :=
  ∃ c, condition_admitted c = true ∧ cs' = SetStatusCondition cs c.

Lemma conditioned_set `{M : ApiMachinery} cs c :
  condition_admitted c = true → conditioned cs (SetStatusCondition cs c).
Proof. intros Hc. by exists c. Qed.

Section conditions.
Context {M : ApiMachinery} `{!ConditionLists M}.

Lemma conditions_spec cs :
  conditions_admitted cs = true ↔
  NoDup (CType <$> cs) ∧ ∀ c, c ∈ cs → condition_admitted c = true.
Proof.
  unfold conditions_admitted. rewrite andb_true_iff, bool_decide_eq_true, forallb_forall.
  split; intros [Hn H]; (split; [done|]); intros c Hc; apply H, list_elem_of_In, Hc.
Qed.

Lemma set_admitted cs c :
  condition_admitted c = true → conditions_admitted cs = true →
  conditions_admitted (SetStatusCondition cs c) = true.
Proof.
  rewrite !conditions_spec. intros Hc [Hn H]. split; [by apply set_keys|].
  intros x [->|Hx]%set_members; auto.
Qed.

Lemma remove_admitted cs t :
  conditions_admitted cs = true → conditions_admitted (RemoveStatusCondition cs t) = true.
Proof.
  rewrite !conditions_spec. intros [Hn H]. pose proof (remove_sublist cs t) as Hs. split.
  - eapply sublist_NoDup; [exact Hn|]. by apply sublist_fmap.
  - intros c Hc. apply H. by eapply elem_of_sublist.
Qed.

(** One admissible condition set, and an admitted list stays one. *)
Lemma conditioned_admitted cs cs' :
  conditioned cs cs' → conditions_admitted cs = true → conditions_admitted cs' = true.
Proof. intros (c & Hc & ->). by apply set_admitted. Qed.

Lemma found_admitted cs t c :
  FindStatusCondition cs t = Some c → conditions_admitted cs = true → condition_admitted c = true.
Proof. rewrite conditions_spec. intros Hf [_ H]. eapply H, find_member, Hf. Qed.
End conditions.
