(* ===== verification/Singleton.v ===== *)
(** * internal/controller/singleton.go: the oldest object wins

    The tie-break behind the gateway's cluster-wide singleton, the gateway
    lookup of the other controllers and the choice of the active policy. *)

From S2P Require Import Prelude Kube.

(** [ts.Before(&other)] of [metav1.Time]: the zero time is before every other
    one. *)
Definition Before (a b : option Z) : bool :=
  match a, b with
  | None, Some _ => true
  | Some x, Some y => (x <? y)%Z
  | _, None => false
  end.

Section singleton.
Context {k : kind}.

Definition GetCreationTimestamp (o : obj k) : option Z := CreationTimestamp (ometa o).

(** The loop over [items[1:]]. *)
Fixpoint oldest_from (oldest : obj k) (items : list (obj k)) : obj k :=
  match items with
  | [] => oldest
  | item :: items =>
      if Before (GetCreationTimestamp item) (GetCreationTimestamp oldest)
      then oldest_from item items
      else oldest_from oldest items
  end.

(** [oldestByCreationTimestamp]; [None] is the panic on an empty slice. *)
Definition oldestByCreationTimestamp (items : list (obj k)) : option (obj k) :=
  match items with
  | [] => None
  | o :: items => Some (oldest_from o items)
  end.

(** ** Lemmas *)

Lemma Before_irrefl a : Before a a = false.
Proof. destruct a; cbn; [apply Z.ltb_irrefl|done]. Qed.

Lemma Before_trans a b c : Before a b = true → Before b c = true → Before a c = true.
Proof. destruct a, b, c; cbn; rewrite ?Z.ltb_lt; try done; lia. Qed.

Lemma Before_total a b c : Before a b = false → Before b c = false → Before a c = false.
Proof. destruct a, b, c; cbn; rewrite ?Z.ltb_ge; try done; lia. Qed.

Lemma oldest_from_elem o items : oldest_from o items = o ∨ oldest_from o items ∈ items.
Proof.
  revert o. induction items as [|i items IH]; intros o; cbn [oldest_from]; [by left|].
  rewrite elem_of_cons. destruct (Before _ _).
  - destruct (IH i) as [->|?]; auto.
  - destruct (IH o) as [->|?]; auto.
Qed.

Lemma oldest_from_le o items :
  Before (GetCreationTimestamp o) (GetCreationTimestamp (oldest_from o items)) = false.
Proof.
  revert o. induction items as [|i items IH]; intros o; cbn [oldest_from]; [apply Before_irrefl|].
  destruct (Before (GetCreationTimestamp i) _) eqn:Hb; [|apply IH].
  destruct (Before (GetCreationTimestamp o) _) eqn:Hc; [|done].
  pose proof (Before_trans _ _ _ Hb Hc) as H. by rewrite IH in H.
Qed.

Lemma oldest_from_min o items x :
  x ∈ o :: items →
  Before (GetCreationTimestamp x) (GetCreationTimestamp (oldest_from o items)) = false.
Proof.
  revert o. induction items as [|i items IH]; intros o; rewrite elem_of_cons.
  { intros [->|[]%not_elem_of_nil]. apply Before_irrefl. }
  intros [->|Hx]; [apply oldest_from_le|]. cbn [oldest_from].
  destruct (Before (GetCreationTimestamp i) _) eqn:Hb; [by apply IH|].
  apply elem_of_cons in Hx as [->|Hx]; [|apply IH; by apply elem_of_cons; right].
  eapply Before_total; [exact Hb|apply oldest_from_le].
Qed.

(** The chosen object is one of the items and no item is older. *)
Lemma oldest_spec items o :
  oldestByCreationTimestamp items = Some o →
  o ∈ items ∧ ∀ x, x ∈ items →
    Before (GetCreationTimestamp x) (GetCreationTimestamp o) = false.
Proof.
  destruct items as [|i items]; [done|]. intros [= <-]. split.
  - apply elem_of_cons. by destruct (oldest_from_elem i items) as [->|?]; [left|right].
  - intros x. apply oldest_from_min.
Qed.

Lemma oldest_total items : items ≠ [] → is_Some (oldestByCreationTimestamp items).
Proof. destruct items; [done|]. by eexists. Qed.

(** With distinct ages the answer does not depend on the order of the list. *)
Lemma oldest_unique items items' o o' :
  (∀ x, x ∈ items ↔ x ∈ items') →
  (∀ x y, x ∈ items → y ∈ items →
     GetCreationTimestamp x = GetCreationTimestamp y → x = y) →
  oldestByCreationTimestamp items = Some o → oldestByCreationTimestamp items' = Some o' →
  o = o'.
Proof.
  intros Hs Hd [Ho Hm]%oldest_spec [Ho' Hm']%oldest_spec.
  apply Hd; [done|by apply Hs|].
  pose proof (Hm o' (proj2 (Hs _) Ho')) as H1. pose proof (Hm' o (proj1 (Hs _) Ho)) as H2.
  destruct (GetCreationTimestamp o), (GetCreationTimestamp o'); cbn in *;
    rewrite ?Z.ltb_ge in *; try done. f_equal. lia.
Qed.
End singleton.
