(* ===== verification/GatewayHelpers.v ===== *)
(** * Naming, switches and URLs of a gateway

    The helper functions at the end of openshellgateway_controller.go and the
    constants they share with the other controllers. *)

From S2P Require Import Prelude GoStrings GoErrors Jwt ApiTypes Kube.
From Stdlib Require Import Ascii.
Import ApiTypes.Gateway.

Definition labelManagedBy : string := "app.kubernetes.io/managed-by".
Definition labelInstance : string := "app.kubernetes.io/instance".
Definition labelName : string := "app.kubernetes.io/name".
Definition labelPartOf : string := "app.kubernetes.io/part-of".
Definition requeueInterval : Z := 60 * Second.
Definition managedByValue : string := "ogo".
Definition defaultNamespace : string := "ogo".
Definition phaseFailed : string := "Failed".
Definition phaseSuperseded : string := "Superseded".
Definition authCASuffix : string := "-auth-ca".
Definition gatewayCASuffix : string := "-gateway-ca".
Definition finalizerName : string := "ogo.aknochow.io/gateway-cleanup".
Definition reasonHostnameMissing : string := "HostnameMissing".
Definition staticGatewayClassName : string := "eg".
Definition envoyGatewaySystemNS : string := "envoy-gateway-system".

Section helpers.
Context (gw : OpenShellGateway).
Let spec : Spec := (odata gw).1.
Let name : string := Name (ometa gw).

(** [p == nil || *p]: on unless explicitly off. *)
Definition unless_false (p : option bool) : bool := default true p.

Definition tlsEnabled : bool := unless_false (TLSEnabled (TLS spec)).
Definition routeEnabled : bool := unless_false (RouteEnabled (Route spec)).

Definition gatewayNamespace : string :=
  if GNamespace spec <>s "" then GNamespace spec else defaultNamespace.

Definition sandboxNamespace : string :=
  if SNamespace (Sandbox spec) <>s "" then SNamespace (Sandbox spec) else gatewayNamespace.

Definition uniqueNamespaces : list string :=
  if gatewayNamespace =s sandboxNamespace then [gatewayNamespace]
  else [gatewayNamespace; sandboxNamespace].

Definition gatewayLabels : gmap string string :=
  {[labelName := "openshell"; labelInstance := name;
    labelManagedBy := managedByValue; labelPartOf := "openshell-gateway"]}.

Definition selectorLabels : gmap string string :=
  {[labelName := "openshell"; labelInstance := name]}.

Definition databaseSecretName : string :=
  if SecretName (Database spec) <>s "" then SecretName (Database spec)
  else if Embedded (Database spec) then name +:+ "-pg-uri"
  else "".

Definition gatewayAPIEnabled (hasGWAPI : bool) : bool :=
  match GAEnabled (GatewayAPI (Route spec)) with
  | Some b => b
  | None => hasGWAPI
  end.

Definition gatewayClassName : string :=
  if GatewayClassName (GatewayAPI (Route spec)) <>s ""
  then GatewayClassName (GatewayAPI (Route spec))
  else staticGatewayClassName.

Definition authBridgeEnabled (isOCP : bool) : bool :=
  match OAEnabled (OpenShift (Auth spec)) with
  | Some b => b
  | None => isOCP
  end.

Definition browserSSOMissingHostname (authEnabled : bool) : bool :=
  authEnabled && routeEnabled && (Hostname (Route spec) =s "").

Definition authBridgeImage : string :=
  if AuthBridgeImage spec <>s "" then AuthBridgeImage spec
  else "quay.io/aknochow/ogo-auth-bridge:latest".

Definition domainSuffix (hostname : string) : string :=
  match Cut hostname "."%char with
  | Some (_, after) => after
  | None => hostname
  end.

Definition authBridgeExternalURL : string :=
  if routeEnabled && (Hostname (Route spec) <>s "")
  then "https://openshell-auth." +:+ domainSuffix (Hostname (Route spec))
  else (if tlsEnabled then "https" else "http") +:+ "://" +:+ name +:+ "." +:+
       gatewayNamespace +:+ ".svc:8085".

Definition authBridgeInternalURL : string := "http://localhost:8085".

Definition tokenTTL : string :=
  if TokenTTL (OpenShift (Auth spec)) <>s "" then TokenTTL (OpenShift (Auth spec)) else "8h".

Definition clusterDomain : string :=
  if Hostname (Route spec) <>s "" then domainSuffix (Hostname (Route spec)) else "apps.example.com".

Definition computeServerSANs : list string :=
  [name; name +:+ "." +:+ gatewayNamespace +:+ ".svc";
   name +:+ "." +:+ gatewayNamespace +:+ ".svc.cluster.local"; "localhost";
   name +:+ ".localhost"; "*." +:+ name +:+ ".localhost"; "host.docker.internal"; "127.0.0.1"] ++
  (if Hostname (Route spec) <>s ""
   then [Hostname (Route spec); "openshell-auth." +:+ domainSuffix (Hostname (Route spec))]
   else []).

(** Whether an object carries the operator's marks for this gateway. *)
Definition managed_by_gateway (labels : gmap string string) : bool :=
  (index labels labelManagedBy =s managedByValue) && (index labels labelInstance =s name).
End helpers.

(** [computeConfigHash]. *)
Definition computeConfigHash {C : Crypto} (toml : string) : string :=
  hex_EncodeToString (take_bytes 16 (sha256_Sum256 toml)).

(** What the operator labels it recognises as its own. *)
Lemma gatewayLabels_managed gw : managed_by_gateway gw (gatewayLabels gw) = true.
Proof.
  unfold managed_by_gateway, gatewayLabels, index, or_zero.
  rewrite lookup_insert_ne, lookup_insert_ne, lookup_insert_eq by done.
  rewrite lookup_insert_ne, lookup_insert_eq by done. cbn.
  by rewrite !bool_decide_eq_true_2.
Qed.

(** The selector of the Service and the Deployment matches the pods' labels. *)
Lemma selector_matches gw : selectorLabels gw ⊆ gatewayLabels gw.
Proof.
  apply map_subseteq_spec. intros k v. unfold selectorLabels, gatewayLabels.
  rewrite !lookup_insert_Some, !lookup_singleton_Some. naive_solver.
Qed.

Lemma managed_by_gateway_inj gw gw' l :
  managed_by_gateway gw l = true → managed_by_gateway gw' l = true →
  Name (ometa gw) = Name (ometa gw').
Proof. unfold managed_by_gateway. intros H1 H2. bool_simpl. congruence. Qed.
