(* ===== verification/GatewayRpc.v ===== *)
(** * internal/controller/openshell_grpc.go: talking to the gateway

    Finding the gateway, minting the operator's admin token with the key the
    auth-bridge signs with, and connecting.  A controller that uses the
    connection is a program around [gatewayClient]; what the three of them may
    do is the guard [rpc_guard], proved here once for the shared steps. *)

From S2P Require Import Prelude Interaction GoStrings GoText GoErrors Jwt ApiTypes Kube Singleton.
From S2P Require Import GatewayHelpers.

Definition gatewayAdminRole : string := "openshell-admin".
Definition gatewayOIDCAudience : string := "openshell-cli".
Definition adminTokenTTL : Z := 60 * Second.
Definition gatewayGRPCPort : Z := 8080.
Definition gatewayRetryInterval : Z := 30 * Second.
Definition defaultOpenShellWorkspace : string := "default".

(** crypto/tls and crypto/x509 on the client secret. *)
Class TlsLib := {
  X509KeyPair : string → string → option err;     (* certificate, key *)
  AppendCertsFromPEM : string → bool
}.

Section rpc.
Context {C : Crypto} {T : TlsLib} {U : Unicode}.

Definition resolveGateway : prog KSig (err + OpenShellGateway) :=
  gwList ←? kdo (CList KGateway None ∅);
  mret (match oldestByCreationTimestamp gwList with
        | None => inl (Err "no OpenShellGateway found in the cluster")
        | Some gw => inr gw
        end).

Definition mintAdminToken (gw : OpenShellGateway) : prog KSig (err + string) :=
  s ← kdo (CGet KSecret (Name (ometa gw) +:+ "-auth-bridge-keys") (gatewayNamespace gw));
  match s with
  | inl e => mret (inl (Errorf_w "reading auth-bridge signing key: " e))
  | inr secret =>
      match NewJWTSignerFromPEM (secret_key secret "signing.pem") (secret_key secret "kid") with
      | inl e => mret (inl (Errorf_w "loading auth-bridge signing key: " e))
      | inr signer =>
          now ← kdo CNow;
          mret (MintToken signer now authBridgeInternalURL gatewayOIDCAudience
                  "ogo-controller" "ogo-controller" "" [gatewayAdminRole] adminTokenTTL)
      end
  end.

Definition gateway_host (gw : OpenShellGateway) : string :=
  Name (ometa gw) +:+ "." +:+ gatewayNamespace gw +:+ ".svc.cluster.local".

Definition dialCredentials (gw : OpenShellGateway) : prog KSig (err + Credentials) :=
  if negb (tlsEnabled gw) then mret (inr Insecure)
  else
    let name := Name (ometa gw) +:+ "-client-tls" in
    s ← kdo (CGet KSecret name (gatewayNamespace gw));
    match s with
    | inl e => mret (inl (Errorf_w "reading client TLS secret: " e))
    | inr secret =>
        match X509KeyPair (secret_key secret "tls.crt") (secret_key secret "tls.key") with
        | Some e => mret (inl (Errorf_w "parsing client TLS keypair: " e))
        | None =>
            if negb (AppendCertsFromPEM (secret_key secret "ca.crt"))
            then mret (inl (Err ("client TLS secret " +:+ Quote name +:+ " has no usable ca.crt")))
            else mret (inr (MutualTLS (secret_key secret "tls.crt") (secret_key secret "tls.key")
                              (secret_key secret "ca.crt") (gateway_host gw)))
        end
    end.

Definition dialConnectClient (gw : OpenShellGateway) : prog KSig (err + unit) :=
  c ← dialCredentials gw;
  match c with
  | inl e => mret (inl (Errorf_w "resolving gRPC credentials: " e))
  | inr creds =>
      let target := gateway_host gw +:+ ":" +:+ itoa gatewayGRPCPort in
      r ← kdo (CDial target creds);
      mret (match r with
            | Some e => inl (Errorf_w ("dialing gateway gRPC endpoint " +:+ target +:+ ": ") e)
            | None => inr ()
            end)
  end.

(** [gatewayClient]: the bearer token of the returned context stands for the
    connection; [connect] is nil outside the tests. *)
Definition gatewayClient (gw : OpenShellGateway) : prog KSig (err + string) :=
  t ← mintAdminToken gw;
  match t with
  | inl e => mret (inl (Errorf_w "minting admin token: " e))
  | inr token =>
      _ ←? dialConnectClient gw;
      mret (inr token)
  end.

(** [defer closeFn()] around the rest of the function. *)
Definition closing {A} (p : prog KSig A) : prog KSig A :=
  a ← p; _ ← kdo CClose; mret a.

(** ** What the calls rest on *)

(** The gateway was chosen among those the API server listed. *)
Definition resolved (t : list (event KSig)) (gw : OpenShellGateway) : Prop :=
  ∃ items, Ev (S := KSig) (CList KGateway None ∅) (inr items) ∈ t ∧
    oldestByCreationTimestamp items = Some gw.

(** The token was minted with the signing key of that gateway's auth-bridge. *)
Definition admin_token (t : list (event KSig)) (gw : OpenShellGateway) (tok : string) : Prop :=
  ∃ secret signer now,
    Ev (S := KSig) (CGet KSecret (Name (ometa gw) +:+ "-auth-bridge-keys") (gatewayNamespace gw))
      (inr secret) ∈ t ∧ Ev (S := KSig) CNow now ∈ t ∧
    NewJWTSignerFromPEM (secret_key secret "signing.pem") (secret_key secret "kid") = inr signer ∧
    MintToken signer now authBridgeInternalURL gatewayOIDCAudience
      "ogo-controller" "ogo-controller" "" [gatewayAdminRole] adminTokenTTL = inr tok.

(** A connection to that gateway was opened, in the clear only when its spec
    turns TLS off. *)
Definition dialed (t : list (event KSig)) (gw : OpenShellGateway) : Prop :=
  ∃ creds, Ev (S := KSig) (CDial (gateway_host gw +:+ ":" +:+ itoa gatewayGRPCPort) creds) None ∈ t ∧
    (creds = Insecure → tlsEnabled gw = false).

Definition connected (t : list (event KSig)) (tok : string) : Prop :=
  ∃ gw, resolved t gw ∧ admin_token t gw tok ∧ dialed t gw.

(** The two Secrets of a gateway that the operator's own calls need. *)
Definition gateway_secret (t : list (event KSig)) (n ns : string) : Prop :=
  ∃ gw, resolved t gw ∧ ns = gatewayNamespace gw ∧
    (n = Name (ometa gw) +:+ "-auth-bridge-keys" ∨ n = Name (ometa gw) +:+ "-client-tls").

(** A gateway call goes out only on a connection to the resolved gateway with a
    token minted from its key; the connection is in the clear only when the
    gateway's spec turns TLS off. *)
Definition rpc_guard (t : list (event KSig)) (c : call KSig) : Prop :=
  match c with
  | CRpc tok _ => connected t tok
  | CDial target creds =>
      ∃ gw, resolved t gw ∧ target = gateway_host gw +:+ ":" +:+ itoa gatewayGRPCPort ∧
        (creds = Insecure → tlsEnabled gw = false)
  | _ => True
  end.

Lemma resolved_mono t t' gw : t ⊆ t' → resolved t gw → resolved t' gw.
Proof. intros Ht (items & H & ?). exists items. eauto with ogo. Qed.

Lemma admin_token_mono t t' gw tok : t ⊆ t' → admin_token t gw tok → admin_token t' gw tok.
Proof. intros Ht (s & g & n & H & H' & ?). exists s, g, n. eauto with ogo. Qed.

Lemma dialed_mono t t' gw : t ⊆ t' → dialed t gw → dialed t' gw.
Proof. intros Ht (c & H & ?). exists c. eauto with ogo. Qed.

Lemma connected_mono t t' tok : t ⊆ t' → connected t tok → connected t' tok.
Proof.
  intros Ht (gw & ? & ? & ?). exists gw. split; [by eapply resolved_mono|].
  split; [by eapply admin_token_mono|by eapply dialed_mono].
Qed.

(** ** Specifications of the shared steps

    They hold for any guard that permits what these steps do. *)

Section specs.
Context (G : list (event KSig) → call KSig → Prop).
Context (G_list : ∀ t, G t (CList KGateway None ∅)).
Context (G_secret : ∀ t n ns, gateway_secret t n ns → G t (CGet KSecret n ns)).
Context (G_now : ∀ t, G t CNow).
Context (G_dial : ∀ t target creds, rpc_guard t (CDial target creds) → G t (CDial target creds)).

Lemma resolveGateway_spec t :
  always G (λ t' r, ∀ gw, r = inr gw → resolved t' gw) t resolveGateway.
Proof.
  unfold resolveGateway. always_step; [done|]. destruct r as [e|items]; [done|].
  apply always_ret. intros gw. destruct (oldestByCreationTimestamp items) eqn:Ho; [|done].
  intros [= <-]. exists items. split; [|done]. apply elem_of_snoc. auto.
Qed.

Lemma mintAdminToken_spec t gw :
  resolved t gw →
  always G (λ t' r, ∀ tok, r = inr tok → admin_token t' gw tok) t (mintAdminToken gw).
Proof.
  intros Hres. unfold mintAdminToken.
  always_step; [apply G_secret; exists gw; by eauto|]. destruct r as [e|secret]; [done|].
  destruct (NewJWTSignerFromPEM _ _) as [e|signer] eqn:Hs; [done|].
  always_step; [done|]. apply always_ret. intros tok Htok.
  exists secret, signer, r. split; [apply hist_grow, elem_of_snoc; auto|].
  split; [|done]. apply elem_of_snoc. auto.
Qed.

Lemma dialCredentials_spec t gw :
  resolved t gw →
  always G (λ _ r, ∀ creds, r = inr creds → creds = Insecure → tlsEnabled gw = false)
    t (dialCredentials gw).
Proof.
  intros Hres. unfold dialCredentials. destruct (tlsEnabled gw) eqn:Ht; cbn [negb].
  - always_step; [apply G_secret; exists gw; by eauto|]. destruct r as [e|secret]; [done|].
    repeat split_match; apply always_ret; congruence.
  - by apply always_ret.
Qed.

Lemma gatewayClient_spec t gw :
  resolved t gw →
  always G (λ t' r, ∀ tok, r = inr tok → connected t' tok) t (gatewayClient gw).
Proof.
  intros Hres. unfold gatewayClient.
  eapply always_cut_grow; [by apply mintAdminToken_spec|]. intros t1 [e|tok] Ht1 Htok; [done|].
  specialize (Htok tok eq_refl). unfold dialConnectClient.
  eapply always_cut_grow with (R := λ t2 r, r = inr () → t1 ⊆ t2 ∧ dialed t2 gw).
  { eapply always_cut_grow; [by apply dialCredentials_spec; eapply resolved_mono|].
    intros t2 [e|creds] Ht2 Hc; [by apply always_ret|].
    always_step.
    { apply G_dial. exists gw. split; [by eapply resolved_mono; [|exact Hres]; etrans|].
      split; [done|]. by apply Hc. }
    apply always_ret. destruct r as [e|]; [done|]. intros _.
    split; [etrans; [exact Ht2|apply hist_grow]|]. exists creds. split; [apply elem_of_snoc; auto|].
    by apply Hc. }
  intros t2 [e|[]] Ht2 Hd; [by apply always_ret|]. destruct (Hd eq_refl) as [Ht2' Hdl].
  apply always_ret. intros tok' [= <-]. exists gw.
  split; [by eapply resolved_mono; [|exact Hres]; etrans|].
  split; [by eapply admin_token_mono|done].
Qed.
End specs.

(** ** Quiet calls

    Before its first gateway call a controller only reads.  [quiet_hist] says so
    of a history. *)

Definition quiet (c : call KSig) : Prop :=
  match c with
  | CGet _ _ _ | CList _ _ _ | CNow | CClose | CDial _ _ => True
  | _ => False
  end.

Definition quiet_hist (t : list (event KSig)) : Prop := Forall (λ e, quiet (ev_call e)) t.

(** A replay that changes its state only at gateway calls ignores a quiet
    history. *)
Lemma foldl_quiet {St} (f : St → event KSig → St) s t :
  (∀ s c r, quiet c → f s (Ev c r) = s) → quiet_hist t → foldl f s t = s.
Proof.
  intros Hf. revert s. induction t as [|[c r] t IH]; intros s; [done|].
  intros [Hc Ht]%Forall_cons. cbn [foldl]. rewrite Hf by done. by apply IH.
Qed.

(** ** What a history did to the gateway

    The state of the gateway is not visible; a history of calls determines what
    it can be.  An answered call had its effect.  A call that failed may or may
    not have had it, as a deadline that passed or a connection that broke leaves
    open, when [unclear] says so of the call; otherwise it had none.  [sound]
    says what an answer reveals of the state. *)

Section replay.
Context {St : Type} (eff : rpc → St → St) (sound : St → event KSig → Prop) (unclear : rpc → Prop).

Definition replay_step (s : St) (e : event KSig) (s' : St) : Prop :=
  sound s e ∧
  match e with
  | Ev c r =>
      match c return kresp c → Prop with
      | CRpc _ q => λ r,
          match r with
          | inr _ => s' = eff q s
          | inl _ => s' = s ∨ unclear q ∧ s' = eff q s
          end
      | _ => λ _, s' = s
      end r
  end.

Fixpoint replay (s : St) (t : list (event KSig)) (s' : St) : Prop :=
  match t with
  | [] => s' = s
  | e :: t => ∃ s1, replay_step s e s1 ∧ replay s1 t s'
  end.

Lemma replay_app s t t' s' : replay s (t ++ t') s' ↔ ∃ s1, replay s t s1 ∧ replay s1 t' s'.
Proof.
  revert s. induction t as [|e t IH]; intros s; cbn [app replay].
  - split; [by exists s|]. by intros (s1 & -> & ?).
  - setoid_rewrite IH. split; [intros (s1 & ? & s2 & ? & ?)|intros (s2 & (s1 & ? & ?) & ?)]; eauto.
Qed.

Lemma replay_snoc s t e s' : replay s (t ++ [e]) s' ↔ ∃ s1, replay s t s1 ∧ replay_step s1 e s'.
Proof.
  rewrite replay_app. cbn [replay]. split.
  - by intros (s1 & ? & s2 & ? & ->); eauto.
  - intros (s1 & ? & ?). eauto.
Qed.

(** A quiet history changes nothing. *)
Lemma replay_quiet s t s' : quiet_hist t → replay s t s' → s' = s.
Proof.
  intros Hq. revert s. induction Hq as [|[c r] t Hc Hq IH]; intros s; [done|].
  intros (s1 & [_ He] & Hr). apply IH in Hr as ->. by destruct c.
Qed.
End replay.

Section shared.
Context (G : list (event KSig) → call KSig → Prop).

(** What the guard of a controller that talks to the gateway permits. *)
Class Connects : Prop := {
  may_list : ∀ t, G t (CList KGateway None ∅);
  may_read_keys : ∀ t n ns, gateway_secret t n ns → G t (CGet KSecret n ns);
  may_tell_time : ∀ t, G t CNow;
  may_dial : ∀ t target creds, rpc_guard t (CDial target creds) → G t (CDial target creds);
  may_close : ∀ t, G t CClose
}.

Context {HG : Connects}.

Definition quiet_guard (t : list (event KSig)) (c : call KSig) : Prop := G t c ∧ quiet c.

Lemma always_quiet {A} (Q : list (event KSig) → A → Prop) t p :
  quiet_hist t → always quiet_guard Q t p →
  always G (λ t' a, quiet_hist t' ∧ Q t' a) t p.
Proof.
  intros Ht H. eapply (always_weaken quiet_guard); [|eapply always_hist with (P := quiet)].
  - by intros ?? [? _].
  - by intros ?? [_ ?].
  - done.
  - done.
Qed.

Lemma resolveGateway_quiet t :
  quiet_hist t →
  always G (λ t' r, quiet_hist t' ∧ ∀ gw, r = inr gw → resolved t' gw) t resolveGateway.
Proof.
  intros Ht. apply always_quiet; [done|]. apply resolveGateway_spec.
  intros t'. split; [apply may_list|done].
Qed.

Lemma gatewayClient_quiet t gw :
  quiet_hist t → resolved t gw →
  always G (λ t' r, quiet_hist t' ∧ ∀ tok, r = inr tok → connected t' tok) t (gatewayClient gw).
Proof.
  intros Ht Hr. apply always_quiet; [done|]. apply gatewayClient_spec; [..|done];
    intros; (split; [|done]).
  - by apply may_read_keys.
  - apply may_tell_time.
  - by apply may_dial.
Qed.

Lemma closing_spec {A} (Q : list (event KSig) → A → Prop) t p :
  (∀ t' a, Q t' a → Q (t' ++ [Ev (S := KSig) CClose ()]) a) →
  always G Q t p → always G Q t (closing (A := A) p).
Proof.
  intros HQ H. unfold closing. eapply always_cut; [exact H|]. intros t' a Ha.
  always_step; [apply may_close|]. apply always_ret. destruct r. by apply HQ.
Qed.
End shared.
End rpc.
