(* ===== verification/ProviderController.v ===== *)
(** * internal/controller/openshellprovider_controller.go

    The reconciler of OpenShellProvider: it resolves the referenced Secrets,
    pushes credentials and configuration to the gateway, retracts the keys that
    are gone from the spec, and deletes the provider from the gateway before it
    lets the object go. *)

From S2P Require Import Prelude Interaction GoStrings GoText GoErrors GoUrl Jwt ApiTypes Kube.
From S2P Require Import Singleton GatewayHelpers GatewayRpc.
Import ApiTypes.Provider.

Definition providerFinalizer : string := "ogo.aknochow.io/provider-cleanup".

(** [gatewayProviderName]. *)
Definition gatewayProviderName (p : OpenShellProvider) : string :=
  Namespace (ometa p) +:+ "." +:+ Name (ometa p).

(** A reconcile that stops before the gateway is called: the condition is set,
    or the error is returned as it is. *)
Inductive stop := NotReady (reason : string) (cause : err) | Fail (e : err).

(** [maps.Clone(desired)] and the retraction of the keys tracked in status that
    are no longer desired. *)
Definition retract (desired : gmap string string) (tracked : list string) : gmap string string :=
  foldl (λ payload key, match desired !! key with
                        | Some _ => payload
                        | None => <[key := ""]> payload
                        end) desired tracked.

Section provider.
Context {C : Crypto} {T : TlsLib} {U : Unicode} {M : ApiMachinery}.

Definition with_status (p : OpenShellProvider) (s : Provider.Status) : OpenShellProvider :=
  mkObj (k := KProvider) (ometa p) ((odata p).1, s).

Definition set_not_ready_message (reason : string) (cause : err) : string :=
  if reason =s "GatewayUnreachable"
  then "failed to reach the OpenShell gateway; see operator logs for details"
  else if reason =s "InvalidProviderSpec"
  then "the gateway rejected this provider's spec; see operator logs for details"
  else Error cause.

Definition setNotReady (provider : OpenShellProvider) (reason : string) (cause : err)
    : prog KSig outcome :=
  let st := (odata provider).2 in
  let conditions := SetStatusCondition (Conditions st)
    (mkCondition "Synced" ConditionFalse reason (set_not_ready_message reason cause)) in
  r ← kdo (CStatusUpdate KProvider (with_status provider
        (mkStatus phaseFailed (Generation (ometa provider)) conditions
           (ReconciledCredentialKeys st) (ReconciledConfigKeys st))));
  match r with
  | Some e => mret (no_requeue, Some e)
  | None => mret (requeue_after gatewayRetryInterval, None)
  end.

(** The loop over [slices.Sorted(maps.Keys(provider.Spec.Credentials))]. *)
Fixpoint resolve_credentials (ns : string) (refs : gmap string SecretKeyRef)
    (envVars : list string) (desired : gmap string string) : prog KSig (stop + gmap string string) :=
  match envVars with
  | [] => mret (inr desired)
  | envVar :: envVars =>
      let secretRef := or_zero (mkRef "" "") (refs !! envVar) in
      s ← kdo (CGet KSecret (RefName secretRef) ns);
      match s with
      | inl e =>
          if IsNotFound e
          then mret (inl (NotReady "SecretNotFound"
                 (Err ("secret " +:+ Quote (RefName secretRef) +:+ " for credential " +:+
                       Quote envVar +:+ " not found"))))
          else mret (inl (Fail e))
      | inr secret =>
          match secret_data secret !! RefKey secretRef with
          | None => mret (inl (NotReady "KeyNotFound"
              (Err ("key " +:+ Quote (RefKey secretRef) +:+ " not found in Secret " +:+
                    Quote (RefName secretRef)))))
          | Some value => resolve_credentials ns refs envVars (<[envVar := value]> desired)
          end
      end
  end.

Definition desired_provider (provider : OpenShellProvider) (creds : gmap string string)
    : RpcProvider :=
  let '(spec, st) := odata provider in
  mkRpcProvider (gatewayProviderName provider) (ProviderType spec)
    (retract creds (ReconciledCredentialKeys st))
    (retract (Config spec) (ReconciledConfigKeys st)).

(** CreateProvider, and UpdateProvider when it already exists. *)
Definition push_provider (token : string) (desired : RpcProvider) : prog KSig (option (string * err)) :=
  r ← kdo (CRpc token (CreateProvider desired defaultOpenShellWorkspace));
  match r with
  | inr _ => mret None
  | inl st =>
      let e := status_err st in
      match Code e with
      | CodeAlreadyExists =>
          r ← kdo (CRpc token (UpdateProvider desired defaultOpenShellWorkspace));
          match r with
          | inr _ => mret None
          | inl st =>
              let e := status_err st in
              if bool_decide (Code e = CodeInvalidArgument)
              then mret (Some ("InvalidProviderSpec", e))
              else mret (Some ("GatewayUnreachable", Errorf_w "UpdateProvider: " e))
          end
      | CodeInvalidArgument => mret (Some ("InvalidProviderSpec", e))
      | _ => mret (Some ("GatewayUnreachable", Errorf_w "CreateProvider: " e))
      end
  end.

Definition synced_provider (provider : OpenShellProvider) (creds : gmap string string)
    : OpenShellProvider :=
  let '(spec, st) := odata provider in
  with_status provider
    (mkStatus "Synced" (Generation (ometa provider))
       (SetStatusCondition (Conditions st)
          (mkCondition "Synced" ConditionTrue "Ready"
             ("Provider " +:+ Quote (Name (ometa provider)) +:+ " of type " +:+
              Quote (ProviderType spec) +:+ " is synced to the gateway")))
       (sorted_keys creds) (sorted_keys (Config spec))).

Definition reconcileSync (provider : OpenShellProvider) : prog KSig outcome :=
  let spec := (odata provider).1 in
  g ← resolveGateway;
  match g with
  | inl e => setNotReady provider "GatewayNotFound" e
  | inr gw =>
      d ← resolve_credentials (Namespace (ometa provider)) (Credentials spec)
            (sorted_keys (Credentials spec)) ∅;
      match d with
      | inl (Fail e) => mret (no_requeue, Some e)
      | inl (NotReady reason cause) => setNotReady provider reason cause
      | inr desiredCredentials =>
          c ← gatewayClient gw;
          match c with
          | inl e => setNotReady provider "GatewayUnreachable" (Errorf_w "connecting to gateway: " e)
          | inr token => closing (
              r ← push_provider token (desired_provider provider desiredCredentials);
              match r with
              | Some (reason, cause) => setNotReady provider reason cause
              | None =>
                  u ← kdo (CStatusUpdate KProvider (synced_provider provider desiredCredentials));
                  mret (requeue_after requeueInterval, u)
              end)
          end
      end
  end.

Definition set_finalizers {k} (f : list string → list string) (o : obj k) : obj k :=
  with_meta (λ m, with_finalizers (f (Finalizers m)) m) o.

Definition deletion_blocked (provider : OpenShellProvider) : OpenShellProvider :=
  let st := (odata provider).2 in
  with_status provider
    (mkStatus phaseFailed (ObservedGeneration st)
       (SetStatusCondition (Conditions st)
          (mkCondition "Synced" ConditionFalse "DeletionBlocked"
             "provider cannot be deleted while still attached to one or more sandboxes; see operator logs for details"))
       (ReconciledCredentialKeys st) (ReconciledConfigKeys st)).

Definition reconcileDelete (provider : OpenShellProvider) : prog KSig outcome :=
  if negb (ContainsFinalizer (Finalizers (ometa provider)) providerFinalizer)
  then mret (no_requeue, None)
  else
    g ← resolveGateway;
    match g with
    | inl _ => mret (requeue_after gatewayRetryInterval, None)
    | inr gw =>
        c ← gatewayClient gw;
        match c with
        | inl _ => mret (requeue_after gatewayRetryInterval, None)
        | inr token => closing (
            r ← kdo (CRpc token (DeleteProvider (gatewayProviderName provider)
                                   defaultOpenShellWorkspace));
            match r with
            | inl st =>
                if bool_decide (Code (status_err st) = CodeFailedPrecondition) then
                  u ← kdo (CStatusUpdate KProvider (deletion_blocked provider));
                  match u with
                  | Some updErr => mret (no_requeue, Some updErr)
                  | None => mret (requeue_after gatewayRetryInterval, None)
                  end
                else mret (requeue_after gatewayRetryInterval, None)
            | inr _ =>
                u ← kdo (CUpdate KProvider
                      (set_finalizers (λ fs, RemoveFinalizer fs providerFinalizer) provider));
                mret (no_requeue, u)
            end)
        end
    end.

Definition Reconcile (name ns : string) : prog KSig outcome :=
  p ← kdo (CGet KProvider name ns);
  match p with
  | inl e => mret (no_requeue, IgnoreNotFound e)
  | inr provider =>
      if bool_decide (is_Some (DeletionTimestamp (ometa provider)))
      then reconcileDelete provider
      else if negb (ContainsFinalizer (Finalizers (ometa provider)) providerFinalizer) then
        u ← kdo (CUpdate KProvider
              (set_finalizers (λ fs, AddFinalizer fs providerFinalizer) provider));
        match u with
        | Some e => mret (no_requeue, Some e)
        | None => mret (mkResult true 0, None)
        end
      else reconcileSync provider
  end.

(** The watch handlers: which providers a changed Secret or Gateway concerns. *)
Definition request_of {k} (o : obj k) : string * string := (Name (ometa o), Namespace (ometa o)).

Definition refers_to (secretName : string) (p : OpenShellProvider) : bool :=
  existsb (λ kv, RefName kv.2 =s secretName) (map_to_list (Credentials (odata p).1)).

Definition findProvidersForSecret (secret : obj KSecret) : prog KSig (list (string * string)) :=
  l ← kdo (CList KProvider (Some (Namespace (ometa secret))) ∅);
  match l with
  | inl _ => mret []
  | inr providers =>
      mret (request_of <$> filter (λ p, refers_to (Name (ometa secret)) p = true) providers)
  end.

Definition findProvidersForGateway : prog KSig (list (string * string)) :=
  l ← kdo (CList KProvider None ∅);
  match l with
  | inl _ => mret []
  | inr providers => mret (request_of <$> providers)
  end.
End provider.
