(* ===== verification/ProviderProofs.v ===== *)
(** * Provider reconciliation: what reaches the gateway and the status

    The gateway is outside the repository; the comments of its protocol say
    what an update does to the stored maps: a non-empty value is set, an empty
    one deletes the key, an omitted key is left alone.  [gateway_after] replays
    the answered calls of a history under that reading. *)

From S2P Require Import Prelude Interaction GoStrings GoText GoErrors GoUrl Jwt ApiTypes Kube StatusSchema.
From S2P Require Import Singleton GatewayHelpers GatewayRpc ProviderController.
From Stdlib Require Import Ascii.
Import ApiTypes.Provider.

(** ** The gateway's provider store *)

Definition nonempty (m : gmap string string) : gmap string string :=
  filter (λ kv, kv.2 ≠ "") m.

Definition upsert (old payload : gmap string string) : gmap string string :=
  merge (λ p o, match p with
                | Some v => if v =s "" then None else Some v
                | None => o
                end) payload old.

Abbreviation store := (gmap string RpcProvider).

Definition rpc_effect (q : rpc) (s : store) : store :=
  match q with
  | CreateProvider p _ =>
      <[PName p := mkRpcProvider (PName p) (PType p)
          (upsert ∅ (PCredentials p)) (upsert ∅ (PConfig p))]> s
  | UpdateProvider p _ =>
      let old := default (mkRpcProvider (PName p) (PType p) ∅ ∅) (s !! PName p) in
      <[PName p := mkRpcProvider (PName p) (PType p)
          (upsert (PCredentials old) (PCredentials p)) (upsert (PConfig old) (PConfig p))]> s
  | DeleteProvider n _ => delete n s
  | _ => s
  end.

Definition event_effect (e : event KSig) (s : store) : store :=
  match e with
  | Ev c r =>
      match c return kresp c → store with
      | CRpc _ q => λ r, match r with inr _ => rpc_effect q s | inl _ => s end
      | _ => λ _, s
      end r
  end.

Definition gateway_after (s : store) (t : list (event KSig)) : store :=
  foldl (λ s e, event_effect e s) s t.

Lemma retract_lookup desired tracked k :
  retract desired tracked !! k =
    match desired !! k with
    | Some v => Some v
    | None => if decide (k ∈ tracked) then Some "" else None
    end.
Proof.
  unfold retract. revert k. induction tracked as [|k' l IH] using rev_ind; intros k.
  { cbn. destruct (desired !! k); [done|]. by rewrite decide_False by set_solver. }
  rewrite foldl_app. cbn [foldl].
  destruct (desired !! k') eqn:Hk'; [|destruct (decide (k = k')) as [->|Hne]].
  - rewrite IH. destruct (desired !! k) eqn:Hk; [done|].
    assert (k ≠ k') by congruence.
    destruct (decide (k ∈ l)); [rewrite decide_True by set_solver; done|].
    by rewrite decide_False by set_solver.
  - rewrite lookup_insert_eq, Hk'. by rewrite decide_True by set_solver.
  - rewrite lookup_insert_ne, IH by done. destruct (desired !! k); [done|].
    destruct (decide (k ∈ l)); [rewrite decide_True by set_solver; done|].
    by rewrite decide_False by set_solver.
Qed.

Lemma upsert_lookup old payload k :
  upsert old payload !! k =
    match payload !! k with
    | Some v => if v =s "" then None else Some v
    | None => old !! k
    end.
Proof. unfold upsert. rewrite lookup_merge. by destruct (payload !! k), (old !! k). Qed.

Lemma nonempty_lookup m k :
  nonempty m !! k = match m !! k with Some v => if v =s "" then None else Some v | None => None end.
Proof.
  unfold nonempty. rewrite map_lookup_filter. destruct (m !! k) as [v|]; [|done]. cbn.
  destruct (decide (v = "")) as [->|Hv].
  - by rewrite bool_decide_eq_true_2.
  - rewrite bool_decide_eq_false_2 by done. by case_guard.
Qed.

(** The payload leaves exactly the desired entries, when every live key was
    tracked. *)
Lemma upsert_retract old desired tracked :
  (∀ k, is_Some (old !! k) → k ∈ tracked) →
  upsert old (retract desired tracked) = nonempty desired.
Proof.
  intros Hold. apply map_eq. intros k.
  rewrite upsert_lookup, nonempty_lookup, retract_lookup.
  destruct (desired !! k) as [v|]; [done|]. destruct (decide (k ∈ tracked)) as [?|Hk].
  - by rewrite bool_decide_eq_true_2.
  - destruct (old !! k) eqn:Ho; [|done]. destruct Hk. apply Hold. by rewrite Ho.
Qed.

Lemma nonempty_tracked m k : is_Some (nonempty m !! k) → k ∈ sorted_keys m.
Proof.
  rewrite nonempty_lookup, sorted_keys_spec. destruct (m !! k); [by eexists|].
  by intros [? ?].
Qed.

(** ** What the controller guarantees *)

Section guarantees.
Context {C : Crypto} {T : TlsLib} {U : Unicode} {M : ApiMachinery} `{!ApiMachineryLaws M}.
Context (name ns : string).

(** The provider object as the reconcile read it. *)
Definition provider_read (t : list (event KSig)) (p : OpenShellProvider) : Prop :=
  Ev (S := KSig) (CGet KProvider name ns) (inr p) ∈ t.

Definition deleting {k} (o : obj k) : Prop := is_Some (DeletionTimestamp (ometa o)).

(** Calls about this provider only. *)
Definition own_rpc (p : OpenShellProvider) (q : rpc) : Prop :=
  match q with
  | CreateProvider r ws | UpdateProvider r ws =>
      PName r = gatewayProviderName p ∧ ws = defaultOpenShellWorkspace ∧ ¬ deleting p
  | DeleteProvider n ws =>
      n = gatewayProviderName p ∧ ws = defaultOpenShellWorkspace ∧ deleting p
  | _ => False
  end.

(** The gateway confirmed the deletion. *)
Definition delete_confirmed (t : list (event KSig)) (p : OpenShellProvider) : Prop :=
  ∃ tok, Ev (S := KSig) (CRpc tok (DeleteProvider (gatewayProviderName p) defaultOpenShellWorkspace))
    (inr ()) ∈ t.

(** Every key live on the gateway under this provider's name is tracked in its
    status. *)
Definition tracks (s : store) (p : OpenShellProvider) : Prop :=
  ∀ r, s !! gatewayProviderName p = Some r →
    (∀ k, is_Some (PCredentials r !! k) → k ∈ ReconciledCredentialKeys (odata p).2) ∧
    (∀ k, is_Some (PConfig r !! k) → k ∈ ReconciledConfigKeys (odata p).2).

(** The gateway holds exactly what the spec and the referenced Secrets say. *)
Definition serves (s : store) (t : list (event KSig)) (p : OpenShellProvider) : Prop :=
  ∃ creds,
    s !! gatewayProviderName p =
      Some (mkRpcProvider (gatewayProviderName p) (ProviderType (odata p).1)
              (nonempty creds) (nonempty (Config (odata p).1))) ∧
    (∀ envVar, is_Some (creds !! envVar) ↔ is_Some (Credentials (odata p).1 !! envVar)) ∧
    ∀ envVar ref v, Credentials (odata p).1 !! envVar = Some ref → creds !! envVar = Some v →
      ∃ secret, Ev (S := KSig) (CGet KSecret (RefName ref) (Namespace (ometa p))) (inr secret) ∈ t ∧
        secret_data secret !! RefKey ref = Some v.

Definition generic_messages : list string :=
  ["failed to reach the OpenShell gateway; see operator logs for details";
   "the gateway rejected this provider's spec; see operator logs for details"].

(** An answer of the gateway is never quoted in the status. *)
Definition discreet (p : OpenShellProvider) : Prop :=
  ∀ c, FindStatusCondition (Conditions (odata p).2) "Synced" = Some c →
    CReason c = "GatewayUnreachable" ∨ CReason c = "InvalidProviderSpec" →
    CMessage c ∈ generic_messages.

(** A written status has the shape its schema asks for. *)
Definition provider_shaped (p o : OpenShellProvider) : Prop :=
  Phase (odata o).2 ∈ provider_phases ∧ conditioned (Conditions (odata p).2) (Conditions (odata o).2) ∧
  (NoDup (ReconciledCredentialKeys (odata p).2) → NoDup (ReconciledCredentialKeys (odata o).2)) ∧
  (NoDup (ReconciledConfigKeys (odata p).2) → NoDup (ReconciledConfigKeys (odata o).2)).

Definition own_status (t : list (event KSig)) (o : OpenShellProvider) : Prop :=
  ∃ p, provider_read t p ∧ ometa o = ometa p ∧ (odata o).1 = (odata p).1 ∧
    (discreet o ∧ provider_shaped p o) ∧
    (Phase (odata o).2 = "Synced" → ∀ s, tracks s p →
       serves (gateway_after s t) t o ∧ tracks (gateway_after s t) o).

Definition own_update (t : list (event KSig)) (o : OpenShellProvider) : Prop :=
  ∃ p, provider_read t p ∧
    (¬ deleting p ∧ o = set_finalizers (λ fs, AddFinalizer fs providerFinalizer) p ∨
     deleting p ∧ delete_confirmed t p ∧
       o = set_finalizers (λ fs, RemoveFinalizer fs providerFinalizer) p).

Definition provider_guard (t : list (event KSig)) (c : call KSig) : Prop :=
  match c with
  | CGet k n n' => k = KSecret →
      gateway_secret t n n' ∨ ∃ p, provider_read t p ∧ n' = Namespace (ometa p)
  | CList k _ _ => k = KGateway
  | CNow | CClose => True
  | CDial target creds => rpc_guard t (CDial target creds)
  | CRpc tok q => connected t tok ∧ ∃ p, provider_read t p ∧ own_rpc p q
  | CUpdate k o =>
      match k return obj k → Prop with KProvider => own_update t | _ => λ _, False end o
  | CStatusUpdate k o =>
      match k return obj k → Prop with KProvider => own_status t | _ => λ _, False end o
  | _ => False
  end.

#[local] Instance provider_connects : Connects provider_guard.
Proof. split; try done. intros t n n' Hs _. by left. Qed.

Lemma gateway_after_quiet s t : quiet_hist t → gateway_after s t = s.
Proof. apply foldl_quiet. intros s' c r. by destruct c. Qed.

Lemma gateway_after_snoc s t e : gateway_after s (t ++ [e]) = event_effect e (gateway_after s t).
Proof. unfold gateway_after. by rewrite foldl_app. Qed.

Lemma provider_read_mono t t' p : t ⊆ t' → provider_read t p → provider_read t' p.
Proof. unfold provider_read. eauto with ogo. Qed.

Lemma discreet_set st reason cause obs ck fk m sp :
  discreet (mkObj (k := KProvider) m (sp, mkStatus phaseFailed obs
    (SetStatusCondition (Conditions st)
       (mkCondition "Synced" ConditionFalse reason (set_not_ready_message reason cause))) ck fk)).
Proof.
  intros c. cbn. rewrite find_set. cbn. intros [= <-]. cbn. unfold set_not_ready_message.
  intros [->| ->]; unfold generic_messages; cbn; repeat constructor.
Qed.

Lemma setNotReady_spec t p reason cause :
  reason_pattern reason = true → provider_read t p → always provider_guard (λ _ _, True) t (setNotReady p reason cause).
Proof.
  intros Hp Hr. unfold setNotReady. always_step.
  - exists p. split; [done|]. split; [done|]. split; [done|].
    split; [|done]. split; [apply discreet_set|]. split; [set_solver|]. split; [|done].
    by apply conditioned_set.
  - by destruct r.
Qed.

Lemma resolve_credentials_spec t p nsp refs envVars acc :
  provider_read t p → nsp = Namespace (ometa p) →
  always (quiet_guard provider_guard) (λ t' r,
      (∀ reason cause, r = inl (NotReady reason cause) → reason_pattern reason = true) ∧
      ∀ creds, r = inr creds →
      (∀ k, is_Some (creds !! k) ↔ k ∈ envVars ∨ is_Some (acc !! k)) ∧
      ∀ k v, creds !! k = Some v → acc !! k = Some v ∨
        ∃ secret, let ref := or_zero (mkRef "" "") (refs !! k) in
          Ev (S := KSig) (CGet KSecret (RefName ref) nsp) (inr secret) ∈ t' ∧
          secret_data secret !! RefKey ref = Some v)
    t (resolve_credentials nsp refs envVars acc).
Proof.
  intros Hr Hns. revert acc t Hr.
  induction envVars as [|k l IH]; intros acc t Hr; cbn [resolve_credentials].
  { apply always_ret. split; [done|]. intros creds [= <-]. split; [set_solver|eauto]. }
  always_step; [split; [intros _; right; by exists p|done]|].
  destruct r as [e|secret].
  { destruct (IsNotFound e); apply always_ret; (split; [by intros ?? [= <- <-]|done]). }
  destruct (secret_data secret !! _) as [v|] eqn:Hv;
    [|apply always_ret; split; [by intros ?? [= <- <-]|done]].
  eapply always_mono.
  { apply always_prefix, IH. eapply provider_read_mono; [apply hist_grow|done]. }
  intros t' r [[tl ->] [Hw Hres]]. split; [exact Hw|]. intros creds ->. destruct (Hres creds eq_refl) as [Hdom Hval]. split.
  - intros k'. rewrite Hdom, elem_of_cons, lookup_insert_is_Some. destruct (decide (k = k')); naive_solver.
  - intros k' v' Hk'. destruct (Hval k' v' Hk') as [Hi|?]; [|by right].
    apply lookup_insert_Some in Hi as [[<- <-]|[_ Hi]]; [right|by left].
    exists secret. split; [|done]. apply elem_of_app. left. apply elem_of_snoc. auto.
Qed.

(** A call that carries the desired payload leaves the gateway converged. *)
Definition pushed (t0 t : list (event KSig)) (desired : RpcProvider) : Prop :=
  ∀ s, gateway_after s t = rpc_effect (UpdateProvider desired defaultOpenShellWorkspace) s ∨
       gateway_after s t = rpc_effect (CreateProvider desired defaultOpenShellWorkspace) s.

Lemma push_provider_spec t tok p desired :
  quiet_hist t → connected t tok → provider_read t p →
  PName desired = gatewayProviderName p → ¬ deleting p →
  always provider_guard (λ t' r, match r with
    | None => pushed t t' desired
    | Some (reason, _) => reason_pattern reason = true end) t (push_provider tok desired).
Proof.
  intros Hq Hc Hr Hn Hd. unfold push_provider. always_step; [by split; [done|]; exists p|].
  destruct r as [st|[]]; [destruct (Code (status_err st))|]; try by apply always_ret.
  - always_step; [split; [by eapply connected_mono; [apply hist_grow|]|];
                  exists p; split; [by eapply provider_read_mono; [apply hist_grow|]|done]|].
    destruct r as [e'|[]]; [by case_bool_decide|]. apply always_ret. intros s. left.
    by rewrite !gateway_after_snoc, gateway_after_quiet.
  - apply always_ret. intros s. right. by rewrite gateway_after_snoc, gateway_after_quiet.
Qed.

Lemma pushed_converged t0 t s p creds :
  tracks s p → pushed t0 t (desired_provider p creds) →
  gateway_after s t !! gatewayProviderName p =
    Some (mkRpcProvider (gatewayProviderName p) (ProviderType (odata p).1)
            (nonempty creds) (nonempty (Config (odata p).1))).
Proof.
  intros Htr Hp. destruct p as [m [sp st]]. unfold desired_provider in Hp.
  cbn [odata] in Hp. unfold tracks in Htr.
  set (n := gatewayProviderName (mkObj (k := KProvider) m (sp, st))) in *. cbn [odata fst snd] in *.
  assert (∀ l : list string, ∀ k, is_Some ((∅ : gmap string string) !! k) → k ∈ l) as He.
  { intros l k. rewrite lookup_empty. by intros [? ?]. }
  destruct (Hp s) as [-> | ->]; cbn [rpc_effect PName PType PCredentials PConfig];
    rewrite lookup_insert_eq; f_equal; f_equal; apply upsert_retract; auto.
  all: destruct (s !! n) as [r|] eqn:Hs; [by destruct (Htr r eq_refl)|apply He].
Qed.

Lemma pushed_serves t0 t1 t s p creds :
  t1 ⊆ t → tracks s p → pushed t0 t (desired_provider p creds) →
  (∀ k, is_Some (creds !! k) ↔ k ∈ sorted_keys (Credentials (odata p).1)) →
  (∀ k v, creds !! k = Some v → ∃ secret,
      let ref := or_zero (mkRef "" "") (Credentials (odata p).1 !! k) in
      Ev (S := KSig) (CGet KSecret (RefName ref) (Namespace (ometa p))) (inr secret) ∈ t1 ∧
      secret_data secret !! RefKey ref = Some v) →
  serves (gateway_after s t) t (synced_provider p creds) ∧
  tracks (gateway_after s t) (synced_provider p creds).
Proof.
  intros Ht Htr Hp Hdom Hval. pose proof (pushed_converged _ _ _ _ _ Htr Hp) as Hg.
  destruct p as [m [sp st]]. split.
  - exists creds. split; [exact Hg|]. split.
    + intros k. rewrite Hdom. apply sorted_keys_spec.
    + intros k ref v Hk Hv. destruct (Hval k v Hv) as (secret & Hin & Hs).
      cbn in Hk, Hin, Hs. rewrite Hk in Hin, Hs. exists secret. eauto with ogo.
  - intros r Hr. change (gatewayProviderName (synced_provider _ _))
      with (gatewayProviderName (mkObj (k := KProvider) m (sp, st))) in Hr.
    rewrite Hg in Hr. injection Hr as <-. split; intros k; apply nonempty_tracked.
Qed.

Lemma discreet_synced p creds : discreet (synced_provider p creds).
Proof.
  destruct p as [m [sp st]]. intros c. cbn. rewrite find_set. cbn. intros [= <-]. by intros [?|?].
Qed.

Lemma synced_shaped p creds : provider_shaped p (synced_provider p creds).
Proof.
  destruct p as [m [sp st]]. split; [cbn; set_solver|]. split; [by apply conditioned_set|].
  split; intros _; apply sorted_keys_NoDup.
Qed.

Lemma reconcileSync_spec t p :
  quiet_hist t → provider_read t p → ¬ deleting p →
  always provider_guard (λ _ _, True) t (reconcileSync p).
Proof.
  intros Hq Hr Hd. unfold reconcileSync.
  eapply always_cut_grow; [by apply (resolveGateway_quiet provider_guard)|].
  intros t1 [e|gw] Ht1 [Hq1 Hres]; [by apply setNotReady_spec; [done|eapply provider_read_mono]|].
  specialize (Hres gw eq_refl).
  eapply always_cut_grow; [apply always_quiet; [done|]; apply (resolve_credentials_spec _ p);
    [by eapply provider_read_mono|done]|].
  intros t2 [[reason cause|e]|creds] Ht2 [Hq2 [Hwhy Hcreds]];
    [by apply setNotReady_spec; [by eapply Hwhy|eapply provider_read_mono; [|exact Hr]; etrans]|done|].
  destruct (Hcreds creds eq_refl) as [Hdom Hval]. clear Hcreds.
  eapply always_cut_grow; [apply (gatewayClient_quiet provider_guard); [done|by eapply resolved_mono]|].
  intros t3 [e|tok] Ht3 [Hq3 Hcon].
  { apply setNotReady_spec; [done|]. eapply provider_read_mono; [|exact Hr]. by do 2 (etrans; [done|]). }
  specialize (Hcon tok eq_refl).
  assert (provider_read t3 p) as Hr3.
  { eapply provider_read_mono; [|exact Hr]. by do 2 (etrans; [done|]). }
  apply closing_spec; [apply _|done|]. eapply always_cut_grow.
  { apply (push_provider_spec t3 tok p); [done..| |done]. by destruct p as [m [sp st]]. }
  intros t4 [[reason cause]|] Ht4 Hp; [by apply setNotReady_spec; [|eapply provider_read_mono]|].
  always_step; [|done].
  exists p. split; [by eapply provider_read_mono|].
  split; [by destruct p as [m [sp st]]|]. split; [by destruct p as [m [sp st]]|].
  split; [split; [apply discreet_synced|apply synced_shaped]|]. intros _ s Htr.
  apply (pushed_serves t3 t2); [by etrans|done|done| |].
  - intros k. rewrite Hdom, lookup_empty. split; [by intros [?|[? ?]]|auto].
  - intros k v Hk. destruct (Hval k v Hk) as [Hk'|?]; [by rewrite lookup_empty in Hk'|done].
Qed.

Lemma discreet_blocked p : discreet (deletion_blocked p).
Proof. intros c. cbn. rewrite find_set. cbn. intros [= <-]. by intros [?|?]. Qed.

Lemma reconcileDelete_spec t p :
  quiet_hist t → provider_read t p → deleting p →
  always provider_guard (λ _ _, True) t (reconcileDelete p).
Proof.
  intros Hq Hr Hd. unfold reconcileDelete. destruct (ContainsFinalizer _ _); [|done]. cbn [negb].
  eapply always_cut_grow; [by apply (resolveGateway_quiet provider_guard)|].
  intros t1 [e|gw] Ht1 [Hq1 Hres]; [done|]. specialize (Hres gw eq_refl).
  eapply always_cut_grow; [by apply (gatewayClient_quiet provider_guard)|].
  intros t2 [e|tok] Ht2 [Hq2 Hcon]; [done|]. specialize (Hcon tok eq_refl).
  assert (provider_read t2 p) as Hr2 by (eapply provider_read_mono; [|exact Hr]; by etrans).
  apply closing_spec; [apply _|done|]. always_step; [by split; [done|]; exists p|].
  destruct r as [e|[]].
  - case_bool_decide; [|done]. always_step; [|by destruct r].
    exists p. split; [by eapply provider_read_mono; [apply hist_grow|]|].
    split; [done|]. split; [done|]. split; [|done].
    split; [apply discreet_blocked|]. split; [cbn; set_solver|]. split; [by apply conditioned_set|done].
  - always_step; [|done]. exists p. split; [by eapply provider_read_mono; [apply hist_grow|]|].
    right. split; [done|]. split; [|done]. exists tok. apply elem_of_snoc. auto.
Qed.

(** Everything a reconcile of a provider may do. *)
Lemma Reconcile_spec : always provider_guard (λ _ _, True) [] (Reconcile name ns).
Proof.
  unfold Reconcile. always_step; [done|]. destruct r as [e|p]; [done|].
  assert (quiet_hist [Ev (S := KSig) (CGet KProvider name ns) (inr p)]) as Hq by by repeat constructor.
  assert (provider_read [Ev (S := KSig) (CGet KProvider name ns) (inr p)] p) as Hr
    by by apply list_elem_of_singleton.
  cbn [app]. case_bool_decide as Hd; [by apply reconcileDelete_spec|].
  destruct (ContainsFinalizer _ _); cbn [negb]; [by apply reconcileSync_spec|].
  always_step; [|by destruct r]. exists p. split; [done|]. left. done.
Qed.
End guarantees.
