(* ===== verification/MemberController.v ===== *)
(** * internal/controller/openshellworkspacemember_controller.go

    The reconciler of OpenShellWorkspaceMember: it keeps one workspace
    membership per object in step with the ServiceAccount the object names. *)

From S2P Require Import Prelude Interaction GoStrings GoText GoErrors Jwt ApiTypes Kube Singleton.
From S2P Require Import GatewayHelpers GatewayRpc ProviderController.
Import ApiTypes.Member.

Definition workspaceMemberFinalizer : string := "ogo.aknochow.io/workspace-member-cleanup".

Definition workspaceRoleFromSpec (role : string) : WorkspaceRole :=
  if role =s "admin" then ROLE_ADMIN else ROLE_USER.

Section member.
Context {C : Crypto} {T : TlsLib} {U : Unicode} {M : ApiMachinery}.

Definition member_with_status (wm : OpenShellWorkspaceMember) (s : Member.Status)
    : OpenShellWorkspaceMember :=
  mkObj (k := KMember) (ometa wm) ((odata wm).1, s).

(** [wm.Status.ReconciledSubject = s]. *)
Definition with_subject (wm : OpenShellWorkspaceMember) (s : string) : OpenShellWorkspaceMember :=
  let st := (odata wm).2 in
  member_with_status wm (mkStatus (Phase st) (ObservedGeneration st) (Conditions st) s).

Definition member_not_ready_message (reason : string) (cause : err) : string :=
  if reason =s "GatewayUnreachable"
  then "failed to reach the OpenShell gateway; see operator logs for details"
  else Error cause.

Definition member_setNotReady (wm : OpenShellWorkspaceMember) (reason : string) (cause : err)
    : prog KSig outcome :=
  let st := (odata wm).2 in
  r ← kdo (CStatusUpdate KMember (member_with_status wm
        (mkStatus "Failed" (Generation (ometa wm))
           (SetStatusCondition (Conditions st)
              (mkCondition "Ready" ConditionFalse reason (member_not_ready_message reason cause)))
           (ReconciledSubject st))));
  match r with
  | Some e => mret (no_requeue, Some e)
  | None => mret (requeue_after gatewayRetryInterval, None)
  end.

Definition removeMemberWithClient (token workspace subject : string) : prog KSig (option err) :=
  r ← kdo (CRpc token (RemoveWorkspaceMember workspace subject));
  match r with
  | inl st => mret (Some (Errorf_w "RemoveWorkspaceMember: " (status_err st)))
  | inr _ => mret None
  end.

Definition removeMember (gw : OpenShellGateway) (workspace subject : string)
    : prog KSig (option err) :=
  c ← gatewayClient gw;
  match c with
  | inl e => mret (Some e)
  | inr token => closing (removeMemberWithClient token workspace subject)
  end.

(** The scan of the listed members. *)
Definition find_role (members : list (string * WorkspaceRole)) (subject : string)
    : option WorkspaceRole :=
  snd <$> List.find (λ m, m.1 =s subject) members.

Definition findMemberRole (token workspace subject : string) : prog KSig (err + WorkspaceRole) :=
  r ← kdo (CRpc token (ListWorkspaceMembers workspace 1000));
  match r with
  | inl st => mret (inl (Errorf_w "ListWorkspaceMembers: " (status_err st)))
  | inr members =>
      match find_role members subject with
      | Some role => mret (inr role)
      | None => mret (inl (Err ("member " +:+ Quote subject +:+ " not found in workspace " +:+
                                Quote workspace +:+ " despite AlreadyExists")))
      end
  end.

(** [fmt.Errorf("%w: AddWorkspaceMember (role change): %v", errMembershipRemoved, err)]. *)
Definition membership_removed (e : err) : err :=
  EWrap (membershipRemovedText +:+ ": AddWorkspaceMember (role change): " +:+ Error e)
    EMembershipRemoved.

Definition addMemberWithClient (token workspace subject : string) (role : WorkspaceRole)
    : prog KSig (option err) :=
  r ← kdo (CRpc token (AddWorkspaceMember workspace subject role));
  match r with
  | inr _ => mret None
  | inl st =>
      if negb (bool_decide (Code (status_err st) = CodeAlreadyExists))
      then mret (Some (Errorf_w "AddWorkspaceMember: " (status_err st)))
      else
        x ← findMemberRole token workspace subject;
        match x with
        | inl e => mret (Some (Errorf_w "looking up existing member after AlreadyExists: " e))
        | inr existingRole =>
            if bool_decide (existingRole = role) then mret None
            else
              r ← kdo (CRpc token (RemoveWorkspaceMember workspace subject));
              match r with
              | inl st =>
                  mret (Some (Errorf_w "RemoveWorkspaceMember (role change): " (status_err st)))
              | inr _ =>
                  r ← kdo (CRpc token (AddWorkspaceMember workspace subject role));
                  match r with
                  | inl st => mret (Some (membership_removed (status_err st)))
                  | inr _ => mret None
                  end
              end
        end
  end.

Definition sa_name (wm : OpenShellWorkspaceMember) : string :=
  Namespace (ometa wm) +:+ "/" +:+ ServiceAccountRef (odata wm).1.

Definition synced_member (wm : OpenShellWorkspaceMember) (subject : string)
    : OpenShellWorkspaceMember :=
  let '(spec, st) := odata wm in
  member_with_status wm
    (mkStatus "Synced" (Generation (ometa wm))
       (SetStatusCondition (Conditions st)
          (mkCondition "Ready" ConditionTrue "Synced"
             (ServiceAccountRef spec +:+ " is a " +:+ Role spec +:+ " member of workspace " +:+
              Quote (Workspace spec))))
       subject).

(** The tail of [reconcileSync], on an open connection. *)
Definition member_sync_with_client (token : string) (wm : OpenShellWorkspaceMember)
    (currentSubject : string) : prog KSig outcome :=
  let spec := (odata wm).1 in
  let old := ReconciledSubject (odata wm).2 in
  s ← (if (old <>s "") && (old <>s currentSubject) then
         r ← removeMemberWithClient token (Workspace spec) old;
         match r with
         | Some e => mret (inl (Errorf_w "removing stale membership for recreated identity: " e))
         | None => mret (inr (with_subject wm ""))
         end
       else mret (inr wm));
  match s with
  | inl e => member_setNotReady wm "GatewayUnreachable" e
  | inr wm =>
      a ← addMemberWithClient token (Workspace spec) currentSubject
            (workspaceRoleFromSpec (Role spec));
      match a with
      | Some e =>
          member_setNotReady (if IsMembershipRemoved e then with_subject wm "" else wm)
            "GatewayUnreachable" e
      | None =>
          u ← kdo (CStatusUpdate KMember (synced_member wm currentSubject));
          mret (requeue_after requeueInterval, u)
      end
  end.

Definition member_reconcileSync (wm : OpenShellWorkspaceMember) : prog KSig outcome :=
  let spec := (odata wm).1 in
  g ← resolveGateway;
  match g with
  | inl e => member_setNotReady wm "GatewayNotFound" e
  | inr gw =>
      s ← kdo (CGet KServiceAccount (ServiceAccountRef spec) (Namespace (ometa wm)));
      match s with
      | inl e =>
          if negb (IsNotFound e) then mret (no_requeue, Some e)
          else
            let subject := ReconciledSubject (odata wm).2 in
            if subject <>s "" then
              r ← removeMember gw (Workspace spec) subject;
              match r with
              | Some rmErr => member_setNotReady wm "GatewayUnreachable"
                  (Errorf_w "removing stale membership for a deleted identity: " rmErr)
              | None => member_setNotReady (with_subject wm "") "IdentityNotFound"
                  (Err ("ServiceAccount " +:+ sa_name wm +:+ " not found"))
              end
            else member_setNotReady wm "IdentityNotFound"
                   (Err ("ServiceAccount " +:+ sa_name wm +:+ " not found"))
      | inr sa =>
          let currentSubject := UID (ometa sa) in
          if currentSubject =s "" then
            member_setNotReady wm "IdentityNotFound"
              (Err ("ServiceAccount " +:+ sa_name wm +:+ " has no uid"))
          else
            c ← gatewayClient gw;
            match c with
            | inl e => member_setNotReady wm "GatewayUnreachable"
                         (Errorf_w "connecting to gateway: " e)
            | inr token => closing (member_sync_with_client token wm currentSubject)
            end
      end
  end.

Definition member_reconcileDelete (wm : OpenShellWorkspaceMember) : prog KSig outcome :=
  if negb (ContainsFinalizer (Finalizers (ometa wm)) workspaceMemberFinalizer)
  then mret (no_requeue, None)
  else
    let drop :=
      u ← kdo (CUpdate KMember
            (set_finalizers (λ fs, RemoveFinalizer fs workspaceMemberFinalizer) wm));
      mret (no_requeue, u) in
    let subject := ReconciledSubject (odata wm).2 in
    if subject <>s "" then
      g ← resolveGateway;
      match g with
      | inl _ => mret (requeue_after gatewayRetryInterval, None)
      | inr gw =>
          r ← removeMember gw (Workspace (odata wm).1) subject;
          match r with
          | Some _ => mret (requeue_after gatewayRetryInterval, None)
          | None => drop
          end
      end
    else drop.

Definition member_Reconcile (name ns : string) : prog KSig outcome :=
  m ← kdo (CGet KMember name ns);
  match m with
  | inl e => mret (no_requeue, IgnoreNotFound e)
  | inr wm =>
      if bool_decide (is_Some (DeletionTimestamp (ometa wm))) then member_reconcileDelete wm
      else if negb (ContainsFinalizer (Finalizers (ometa wm)) workspaceMemberFinalizer) then
        u ← kdo (CUpdate KMember
              (set_finalizers (λ fs, AddFinalizer fs workspaceMemberFinalizer) wm));
        match u with
        | Some e => mret (no_requeue, Some e)
        | None => mret (requeue_after Second, None)
        end
      else member_reconcileSync wm
  end.
End member.
