(* ===== verification/MemberProofs.v ===== *)
(** * Workspace membership: grants, revocations and what the status remembers

    [members_may] replays the membership calls of a history: what the store of
    memberships can be after it.  Its first argument says what an
    answer reveals of the store ([listed_ok]: a listing is true of it), its second
    which failed calls may have had their effect all the same. *)

From S2P Require Import Prelude Interaction GoStrings GoText GoErrors Jwt ApiTypes Kube StatusSchema Singleton.
From S2P Require Import GatewayHelpers GatewayRpc ProviderController ProviderProofs MemberController.
Import ApiTypes.Member.

Create HintDb member.

Abbreviation members := (gmap (string * string) WorkspaceRole).

Definition member_rpc_effect (q : rpc) (s : members) : members :=
  match q with
  | AddWorkspaceMember ws u r => <[(ws, u) := r]> s
  | RemoveWorkspaceMember ws u => delete (ws, u) s
  | _ => s
  end.

(** A list of members lists only members. *)
Definition listed_ok (s : members) (e : event KSig) : Prop :=
  match e with
  | Ev c r =>
      match c return kresp c → Prop with
      | CRpc _ q => λ r,
          match r with
          | inl _ => True
          | inr a =>
              match q return rpc_result q → Prop with
              | ListWorkspaceMembers ws _ => λ l, ∀ u ro, (u, ro) ∈ l → s !! (ws, u) = Some ro
              | _ => λ _, True
              end a
          end
      | _ => λ _, True
      end r
  end.

(** No answer reveals anything. *)
Definition any_answer (s : members) (e : event KSig) : Prop := True.

Definition members_may (sound : members → event KSig → Prop) (unclear : rpc → Prop) :
    members → list (event KSig) → members → Prop :=
  replay member_rpc_effect sound unclear.

(** Any failed call may have had its effect. *)
Definition any_failure (q : rpc) : Prop := True.

(** Any but a failed AddWorkspaceMember: the comment on [errMembershipRemoved]
    says that after a failed re-add the subject has no membership at all. *)
Definition any_but_add (q : rpc) : Prop :=
  match q with AddWorkspaceMember _ _ _ => False | _ => True end.

(** [key] has the value [v] in every store the history allows. *)
Definition certainly (sound : members → event KSig → Prop) (unclear : rpc → Prop)
    (t : list (event KSig)) (key : string * string) (v : option WorkspaceRole) : Prop :=
  ∀ s s', members_may sound unclear s t s' → s' !! key = v.

Lemma certainly_snoc sound unclear t e key v :
  (∀ s1 s2, replay_step member_rpc_effect sound unclear s1 e s2 → s2 !! key = v) →
  certainly sound unclear (t ++ [e]) key v.
Proof. intros H s s' (s1 & _ & He)%replay_snoc. by eapply H. Qed.

Section member_guarantees.
Context {C : Crypto} {T : TlsLib} {U : Unicode} {M : ApiMachinery} `{!ApiMachineryLaws M}.
Context (name ns : string).

Definition member_read (t : list (event KSig)) (p : OpenShellWorkspaceMember) : Prop :=
  Ev (S := KSig) (CGet KMember name ns) (inr p) ∈ t.

(** The ServiceAccount the object names, in the object's own namespace. *)
Definition identity_read (t : list (event KSig)) (p : OpenShellWorkspaceMember) (uid : string) : Prop :=
  ∃ sa, Ev (S := KSig) (CGet KServiceAccount (ServiceAccountRef (odata p).1) (Namespace (ometa p)))
    (inr sa) ∈ t ∧ uid = UID (ometa sa) ∧ uid ≠ "".

Definition removal_confirmed (t : list (event KSig)) (p : OpenShellWorkspaceMember) : Prop :=
  ReconciledSubject (odata p).2 = "" ∨
  ∃ tok, Ev (S := KSig) (CRpc tok (RemoveWorkspaceMember (Workspace (odata p).1)
    (ReconciledSubject (odata p).2))) (inr ()) ∈ t.

(** A grant is for the identity that was just read, with the role of the spec,
    in the workspace of the spec, and comes after the removal of the identity it
    replaces. *)
Definition member_own_rpc (t : list (event KSig)) (p : OpenShellWorkspaceMember) (q : rpc) : Prop :=
  let old := ReconciledSubject (odata p).2 in
  match q with
  | AddWorkspaceMember ws u r =>
      ws = Workspace (odata p).1 ∧ identity_read t p u ∧
      r = workspaceRoleFromSpec (Role (odata p).1) ∧ (u = old ∨ removal_confirmed t p)
  | RemoveWorkspaceMember ws u =>
      ws = Workspace (odata p).1 ∧ (u = old ∨ identity_read t p u)
  | ListWorkspaceMembers ws _ => ws = Workspace (odata p).1
  | _ => False
  end.

Definition member_discreet (o : OpenShellWorkspaceMember) : Prop :=
  ∀ c, FindStatusCondition (Conditions (odata o).2) "Ready" = Some c →
    CReason c = "GatewayUnreachable" →
    CMessage c = "failed to reach the OpenShell gateway; see operator logs for details".

(** What a written status says of the gateway. *)
Definition member_honest (t : list (event KSig)) (p o : OpenShellWorkspaceMember) : Prop :=
  let ws := Workspace (odata p).1 in
  let old := ReconciledSubject (odata p).2 in
  let new := ReconciledSubject (odata o).2 in
  (Phase (odata o).2 = "Synced" →
     identity_read t p new ∧
     certainly listed_ok any_failure t (ws, new) (Some (workspaceRoleFromSpec (Role (odata p).1)))) ∧
  (old ≠ "" → new ≠ old → certainly any_answer any_but_add t (ws, old) None).

(** A written status has the shape its schema asks for. *)
Definition member_shaped (p o : OpenShellWorkspaceMember) : Prop :=
  Phase (odata o).2 ∈ member_phases ∧ conditioned (Conditions (odata p).2) (Conditions (odata o).2).

Definition member_own_status (t : list (event KSig)) (o : OpenShellWorkspaceMember) : Prop :=
  ∃ p, member_read t p ∧ ometa o = ometa p ∧ (odata o).1 = (odata p).1 ∧
    (member_discreet o ∧ member_shaped p o) ∧ member_honest t p o.

Definition member_own_update (t : list (event KSig)) (o : OpenShellWorkspaceMember) : Prop :=
  ∃ p, member_read t p ∧
    (¬ deleting p ∧ o = set_finalizers (λ fs, AddFinalizer fs workspaceMemberFinalizer) p ∨
     deleting p ∧ removal_confirmed t p ∧
       o = set_finalizers (λ fs, RemoveFinalizer fs workspaceMemberFinalizer) p).

Definition member_guard (t : list (event KSig)) (c : call KSig) : Prop :=
  match c with
  | CGet k n n' =>
      (k = KSecret → gateway_secret t n n') ∧
      (k = KServiceAccount → ∃ p, member_read t p ∧ n' = Namespace (ometa p))
  | CList _ _ _ | CNow | CClose => True
  | CDial target creds => rpc_guard t (CDial target creds)
  | CRpc tok q => connected t tok ∧ ∃ p, member_read t p ∧ member_own_rpc t p q
  | CUpdate k o =>
      match k return obj k → Prop with KMember => member_own_update t | _ => λ _, False end o
  | CStatusUpdate k o =>
      match k return obj k → Prop with KMember => member_own_status t | _ => λ _, False end o
  | _ => False
  end.

#[local] Instance member_connects : Connects member_guard.
Proof. split; try done. Qed.

Lemma member_read_mono t t' p : t ⊆ t' → member_read t p → member_read t' p.
Proof. unfold member_read. eauto with ogo. Qed.

Lemma identity_read_mono t t' p u : t ⊆ t' → identity_read t p u → identity_read t' p u.
Proof. intros Ht (sa & H & ?). exists sa. eauto with ogo. Qed.

Lemma removal_confirmed_mono t t' p : t ⊆ t' → removal_confirmed t p → removal_confirmed t' p.
Proof. intros Ht [?|[tok H]]; [by left|]. right. exists tok. eauto with ogo. Qed.

#[local] Hint Resolve member_read_mono identity_read_mono removal_confirmed_mono connected_mono
  hist_grow : member.

(** ** Writing the status *)

(** [p] is the object that was read, [wm] its in-memory copy. *)
Definition copy_of (p wm : OpenShellWorkspaceMember) : Prop :=
  ometa wm = ometa p ∧ (odata wm).1 = (odata p).1 ∧
  Conditions (odata wm).2 = Conditions (odata p).2.

(** The subject in memory is the one read, or the membership it named is
    gone. *)
Definition remembers (t : list (event KSig)) (p wm : OpenShellWorkspaceMember) : Prop :=
  let old := ReconciledSubject (odata p).2 in
  old ≠ "" → ReconciledSubject (odata wm).2 ≠ old →
  certainly any_answer any_but_add t (Workspace (odata p).1, old) None.

Lemma member_setNotReady_spec t p wm reason cause :
  reason_pattern reason = true → member_read t p → copy_of p wm → remembers t p wm →
  always member_guard (λ _ _, True) t (member_setNotReady wm reason cause).
Proof.
  intros Hp Hr (Hm & Hs & Hc) Hrem. unfold member_setNotReady. always_step; [|by destruct r].
  exists p. split; [done|]. split; [done|]. split; [done|]. split; [split|].
  2: { split; [set_solver|]. cbn. rewrite Hc. by apply conditioned_set. }
  - intros c. cbn. rewrite find_set. cbn. intros [= <-]. cbn. unfold member_not_ready_message.
    by intros ->.
  - by split.
Qed.

Lemma remembers_same t p : remembers t p p.
Proof. by intros _ ?. Qed.

(** ** Membership calls *)

Section calls.
Context (tok : string) (p : OpenShellWorkspaceMember) (u : string).
Let ws := Workspace (odata p).1.
Let role := workspaceRoleFromSpec (Role (odata p).1).

(** The membership of another identity is untouched between two points. *)
Definition others_kept (t t' : list (event KSig)) : Prop :=
  ∀ sound unclear key v, key ≠ (ws, u) →
    certainly sound unclear t key v → certainly sound unclear t' key v.

Lemma others_kept_trans t1 t2 t3 : others_kept t1 t2 → others_kept t2 t3 → others_kept t1 t3.
Proof. intros H1 H2 sound unclear key v Hk H. by apply H2, H1. Qed.

(** Calls about this membership keep the others, whatever the answer. *)
Definition about_member (q : rpc) : Prop :=
  match q with
  | AddWorkspaceMember ws' u' _ | RemoveWorkspaceMember ws' u' => ws' = ws ∧ u' = u
  | ListWorkspaceMembers _ _ => True
  | _ => False
  end.

Lemma about_member_effect q s key :
  about_member q → key ≠ (ws, u) → member_rpc_effect q s !! key = s !! key.
Proof.
  intros Hq Hk. destruct q; try done; destruct Hq as [-> ->]; cbn.
  - by apply lookup_insert_ne.
  - by apply lookup_delete_ne.
Qed.

Lemma others_kept_call t q r : about_member q → others_kept t (t ++ [Ev (S := KSig) (CRpc tok q) r]).
Proof.
  intros Hq sound unclear key v Hk H s s' (s1 & H1 & [_ He])%replay_snoc. rewrite <-(H _ _ H1).
  destruct r as [st|a]; [destruct He as [-> |[_ ->]]; [done|]|subst s']; by apply about_member_effect.
Qed.

Lemma remove_spec_at t :
  connected t tok → member_read t p → u = ReconciledSubject (odata p).2 ∨ identity_read t p u →
  always member_guard (λ t' r, t ⊆ t' ∧ others_kept t t' ∧ (r = None →
      (∀ sound unclear, certainly sound unclear t' (ws, u) None) ∧
      ∃ tok, Ev (S := KSig) (CRpc tok (RemoveWorkspaceMember ws u)) (inr ()) ∈ t'))
    t (removeMemberWithClient tok ws u).
Proof.
  intros Hc Hr Hu. unfold removeMemberWithClient. always_step.
  { split; [done|]. exists p. by split. }
  destruct r as [st|[]]; apply always_ret; (split; [apply hist_grow|]);
    (split; [by apply others_kept_call|]); [done|].
  intros _. split.
  - intros sound unclear. apply certainly_snoc. intros s1 s2 [_ ->]. apply lookup_delete_eq.
  - exists tok. apply elem_of_snoc. auto.
Qed.

Lemma find_role_elem l r : find_role l u = Some r → (u, r) ∈ l.
Proof.
  unfold find_role. intros H. apply fmap_Some in H as ([u' r'] & Hf & ->).
  apply List.find_some in Hf as [Hin He]. cbn in He. bool_simpl. subst u'.
  by apply list_elem_of_In.
Qed.

Lemma findMemberRole_spec t :
  connected t tok → member_read t p →
  always member_guard (λ t' r, t ⊆ t' ∧ others_kept t t' ∧
      (∀ ro, r = inr ro → certainly listed_ok any_failure t' (ws, u) (Some ro)) ∧
      (∀ e, r = inl e → IsMembershipRemoved e = false))
    t (findMemberRole tok ws u).
Proof.
  intros Hc Hr. unfold findMemberRole. always_step; [split; [done|]; by exists p|].
  destruct r as [st|l].
  { apply always_ret. split; [apply hist_grow|]. split; [by apply others_kept_call|].
    split; [done|]. by intros e [= <-]. }
  destruct (find_role l u) as [ro|] eqn:Hf; apply always_ret;
    (split; [apply hist_grow|]); (split; [by apply others_kept_call|]); split; try done.
  - intros ro' [= <-]. apply certainly_snoc. intros s1 s2 [Hok ->]. cbn in Hok |- *.
    by apply Hok, find_role_elem.
  - by intros e [= <-].
Qed.

Lemma add_guard t :
  connected t tok → member_read t p → identity_read t p u →
  u = ReconciledSubject (odata p).2 ∨ removal_confirmed t p →
  member_guard t (CRpc tok (AddWorkspaceMember ws u role)).
Proof. intros ????. split; [done|]. exists p. by split. Qed.

Lemma added t :
  certainly listed_ok any_failure
    (t ++ [Ev (S := KSig) (CRpc tok (AddWorkspaceMember ws u role)) (inr ())]) (ws, u) (Some role).
Proof. apply certainly_snoc. intros s1 s2 [_ ->]. apply lookup_insert_eq. Qed.

(** A failed re-add leaves no membership, as the source says. *)
Lemma not_readded t st :
  certainly any_answer any_but_add t (ws, u) None →
  certainly any_answer any_but_add
    (t ++ [Ev (S := KSig) (CRpc tok (AddWorkspaceMember ws u role)) (inl st)]) (ws, u) None.
Proof.
  intros H s s' (s1 & H1 & [_ He])%replay_snoc. destruct He as [->|[[] _]]. by eapply H.
Qed.

(** The removal in a change of role. *)
Lemma role_removed_spec t :
  connected t tok → member_read t p → identity_read t p u →
  always member_guard (λ t' r, t ⊆ t' ∧ others_kept t t' ∧
      (r = inr () → ∀ sound unclear, certainly sound unclear t' (ws, u) None))
    t (kdo (CRpc tok (RemoveWorkspaceMember ws u))).
Proof.
  intros Hc Hr Hi. split.
  { split; [done|]. exists p. split; [done|]. split; [done|]. by right. }
  intros r. apply always_ret. split; [apply hist_grow|]. split; [by apply others_kept_call|].
  intros -> sound unclear. apply certainly_snoc. intros s1 s2 [_ ->]. apply lookup_delete_eq.
Qed.

Lemma addMember_spec t :
  connected t tok → member_read t p → identity_read t p u →
  u = ReconciledSubject (odata p).2 ∨ removal_confirmed t p →
  always member_guard (λ t' r, t ⊆ t' ∧ others_kept t t' ∧
      (r = None → certainly listed_ok any_failure t' (ws, u) (Some role)) ∧
      (∀ e, r = Some e → IsMembershipRemoved e = true → certainly any_answer any_but_add t' (ws, u) None))
    t (addMemberWithClient tok ws u role).
Proof.
  intros Hc Hr Hi Hrm. unfold addMemberWithClient.
  always_step; [by apply add_guard|]. destruct r as [st|[]].
  2:{ apply always_ret. split; [apply hist_grow|]. split; [by apply others_kept_call|].
      split; [|done]. intros _. apply added. }
  set (t1 := t ++ _). assert (t ⊆ t1) as Ht1 by apply hist_grow.
  assert (others_kept t t1) as Hk1 by by apply others_kept_call.
  case_bool_decide; cbn [negb].
  2:{ apply always_ret. split; [done|]. split; [done|]. split; [done|]. by intros e [= <-]. }
  eapply always_cut; [apply findMemberRole_spec; eauto with member|].
  intros t2 r2 (Ht2 & Hk2 & Hro & Herr).
  assert (t ⊆ t2) as Ht02 by by etrans.
  assert (others_kept t t2) as Hk02 by by eapply others_kept_trans.
  destruct r2 as [e|ro].
  { apply always_ret. split; [done|]. split; [done|]. split; [done|].
    intros e' [= <-]. unfold IsMembershipRemoved. rewrite innermost_wrap.
    specialize (Herr e eq_refl). unfold IsMembershipRemoved in Herr. by rewrite Herr. }
  case_bool_decide as Heq.
  { apply always_ret. split; [done|]. split; [done|]. split; [|done].
    intros _. rewrite <-Heq. by apply Hro. }
  eapply always_cut; [apply (role_removed_spec t2); by eauto with member|].
  intros t3 r3 (Ht3 & Hk3 & Hgone).
  assert (others_kept t t3) as Hk03 by by eapply others_kept_trans.
  assert (t ⊆ t3) as Ht03 by by etrans.
  destruct r3 as [st'|[]].
  { apply always_ret. split; [done|]. split; [done|]. split; [done|]. by intros e [= <-]. }
  always_step; [apply add_guard; eauto with member; destruct Hrm; eauto with member|].
  destruct r as [st''|[]]; apply always_ret; (split; [by etrans; [|apply hist_grow]|]);
    (split; [eapply others_kept_trans; [exact Hk03|by apply others_kept_call]|]); (split; [|done || idtac]).
  - done.
  - intros e _ _. apply not_readded; by apply Hgone.
  - intros _. apply added.
Qed.
End calls.

(** The status written at the end of a sync. *)
Lemma synced_member_status t p wm u :
  member_read t p → copy_of p wm → identity_read t p u →
  certainly listed_ok any_failure t (Workspace (odata p).1, u)
    (Some (workspaceRoleFromSpec (Role (odata p).1))) →
  (ReconciledSubject (odata p).2 ≠ "" → u ≠ ReconciledSubject (odata p).2 →
   certainly any_answer any_but_add t (Workspace (odata p).1, ReconciledSubject (odata p).2) None) →
  member_own_status t (synced_member wm u).
Proof.
  intros Hr (Hm & Hs & Hc) Hi Hin Hold. destruct wm as [m [sp st]]. exists p.
  split; [done|]. split; [done|]. split; [done|]. split; [split|].
  2: { split; [set_solver|]. cbn in *. rewrite Hc. by apply conditioned_set. }
  - intros c. cbn. rewrite find_set. cbn. by intros [= <-].
  - split; [by intros _|done].
Qed.

(** Either nothing was stale, or the stale membership is gone. *)
Definition settled (t : list (event KSig)) (p wm : OpenShellWorkspaceMember) (u : string) : Prop :=
  let old := ReconciledSubject (odata p).2 in
  wm = p ∧ (u = old ∨ old = "") ∨
  u ≠ old ∧ copy_of p wm ∧ removal_confirmed t p ∧
    certainly any_answer any_but_add t (Workspace (odata p).1, old) None.

Lemma grant_spec t p wm tok u :
  connected t tok → member_read t p → identity_read t p u → settled t p wm u →
  always member_guard (λ _ _, True) t
    (a ← addMemberWithClient tok (Workspace (odata p).1) u
           (workspaceRoleFromSpec (Role (odata p).1));
     match a with
     | Some e => member_setNotReady (if IsMembershipRemoved e then with_subject wm "" else wm)
                   "GatewayUnreachable" e
     | None => r ← kdo (CStatusUpdate KMember (synced_member wm u));
               mret (requeue_after requeueInterval, r)
     end).
Proof.
  intros Hc Hr Hi Hset. set (old := ReconciledSubject (odata p).2) in *.
  assert (copy_of p wm) as Hcp by (destruct Hset as [[-> _]|(_ & ? & _)]; done).
  eapply always_cut.
  { apply (addMember_spec tok p u); [done..|].
    destruct Hset as [[_ [?|?]]|(_ & _ & ? & _)]; [by left|by right; left|by right]. }
  intros t' a (Ht & Hk & Hok & Hbad).
  assert (old ≠ "" → u ≠ old → certainly any_answer any_but_add t' (Workspace (odata p).1, old) None) as Hgone.
  { intros Ho Hu. apply Hk; [congruence|]. by destruct Hset as [[_ [?|?]]|(_ & _ & _ & ?)]. }
  destruct a as [e|].
  - apply (member_setNotReady_spec _ p); [done|by eauto with member|by destruct (IsMembershipRemoved e)|].
    intros Ho Hne. fold old in Ho, Hne |- *.
    destruct (decide (u = old)) as [Hu|Hu]; [|by apply Hgone].
    destruct (IsMembershipRemoved e) eqn:He; [rewrite <-Hu; by eapply Hbad|].
    by destruct Hset as [[-> _]|[? _]].
  - always_step; [|done]. apply (synced_member_status _ p); [by eauto with member|done|..].
    + by eauto with member.
    + by apply Hok.
    + auto.
Qed.

Lemma member_sync_spec t p tok u :
  connected t tok → member_read t p → identity_read t p u →
  always member_guard (λ _ _, True) t (member_sync_with_client tok p u).
Proof.
  intros Hc Hr Hi. unfold member_sync_with_client.
  set (old := ReconciledSubject (odata p).2).
  destruct (decide (old ≠ "" ∧ old ≠ u)) as [[Ho Hu]|Hn].
  - rewrite !bool_decide_eq_false_2 by done. cbn [negb andb].
    eapply always_cut with (R := λ t' r, t ⊆ t' ∧
      match r with inl _ => True | inr wm => settled t' p wm u end).
    { eapply always_cut; [apply (remove_spec_at tok p old); auto|].
      intros t1 [e|] (Ht1 & _ & Hrm); apply always_ret; (split; [done|]); [done|].
      destruct (Hrm eq_refl) as [Hgone Hev]. right. split; [done|]. split; [done|].
      split; [by right|done]. }
    intros t1 [e|wm] [Ht1 Hset].
    + apply (member_setNotReady_spec _ p); [done|by eauto with member|done|apply remembers_same].
    + apply grant_spec; by eauto with member.
  - assert (negb (old =s "") && negb (old =s u) = false) as ->.
    { apply andb_false_iff. rewrite !negb_false_iff, !bool_decide_eq_true.
      destruct (decide (old = "")); [by left|]. right. by apply dec_stable; intros ?; apply Hn. }
    apply grant_spec; [done..|]. left. split; [done|].
    destruct (decide (old = "")); [by right|]. left. symmetry.
    apply dec_stable. intros ?. by apply Hn.
Qed.

Lemma removeMember_spec t p gw u :
  quiet_hist t → resolved t gw → member_read t p → u = ReconciledSubject (odata p).2 →
  always member_guard (λ t' r, t ⊆ t' ∧ (r = None →
      removal_confirmed t' p ∧ certainly any_answer any_but_add t' (Workspace (odata p).1, u) None))
    t (removeMember gw (Workspace (odata p).1) u).
Proof.
  intros Hq Hres Hr Hu. unfold removeMember.
  eapply always_cut_grow; [by apply (gatewayClient_quiet member_guard)|].
  intros t1 [e|tok] Ht1 [Hq1 Hcon]; [by apply always_ret|]. specialize (Hcon tok eq_refl).
  apply closing_spec; [apply _| |].
  { intros t2 a [Ht2 Ha]. split; [etrans; [exact Ht2|apply hist_grow]|].
    intros ->. destruct (Ha eq_refl) as [Hrc Hg]. split; [by eauto with member|].
    intros s s' (s1 & H1 & [_ ->])%replay_snoc. by eapply Hg. }
  eapply always_mono; [apply (remove_spec_at tok p u); eauto with member|].
  intros t2 r (Ht2 & _ & Hrm). split; [by etrans|]. intros ->.
  destruct (Hrm eq_refl) as [Hg Hev]. split; [|apply Hg]. right. by rewrite <-Hu.
Qed.

Lemma member_reconcileSync_spec t p :
  quiet_hist t → member_read t p →
  always member_guard (λ _ _, True) t (member_reconcileSync p).
Proof.
  intros Hq Hr. unfold member_reconcileSync.
  eapply always_cut_grow; [by apply (resolveGateway_quiet member_guard)|].
  intros t1 [e|gw] Ht1 [Hq1 Hres].
  { apply (member_setNotReady_spec _ p); [done|by eauto with member|done|apply remembers_same]. }
  specialize (Hres gw eq_refl).
  always_step; [split; [done|]; intros _; exists p; by eauto with member|].
  set (t2 := t1 ++ _). assert (t1 ⊆ t2) as Ht2 by apply hist_grow.
  assert (member_read t2 p) as Hr2 by eauto with member.
  assert (quiet_hist t2) as Hq2 by (apply Forall_snoc_iff; done).
  assert (resolved t2 gw) as Hres2 by by eapply resolved_mono.
  assert (∀ reason cause, reason_pattern reason = true →
    always member_guard (λ _ _, True) t2 (member_setNotReady p reason cause)) as Hfail.
  { intros. by apply (member_setNotReady_spec _ p); [..|apply remembers_same]. }
  destruct r as [e|sa].
  - destruct (IsNotFound e); cbn [negb]; [|done]. case_bool_decide as Ho; cbn [negb]; [by apply Hfail|].
    eapply always_cut; [by apply removeMember_spec|]. intros t3 [rm|] [Ht3 Hrm].
    + apply (member_setNotReady_spec _ p); [done|by eauto with member|done|apply remembers_same].
    + destruct (Hrm eq_refl) as [_ Hg].
      apply (member_setNotReady_spec _ p); [done|by eauto with member|done|]. by intros _ _.
  - case_bool_decide as Hu; [by apply Hfail|].
    eapply always_cut_grow; [by apply (gatewayClient_quiet member_guard)|].
    intros t3 [e|tok] Ht3 [Hq3 Hcon].
    + apply (member_setNotReady_spec _ p); [done|by eauto with member|done|apply remembers_same].
    + apply closing_spec; [apply _|done|]. apply member_sync_spec; [by apply Hcon|by eauto with member|].
      exists sa. split; [|done]. apply Ht3, elem_of_snoc. auto.
Qed.

Lemma member_reconcileDelete_spec t p :
  quiet_hist t → member_read t p → deleting p →
  always member_guard (λ _ _, True) t (member_reconcileDelete p).
Proof.
  intros Hq Hr Hd. unfold member_reconcileDelete.
  destruct (ContainsFinalizer _ _); [|done]. cbn [negb].
  assert (∀ t', t ⊆ t' → removal_confirmed t' p → always member_guard (λ _ _, True) t'
    (u ← kdo (CUpdate KMember
        (set_finalizers (λ fs, RemoveFinalizer fs workspaceMemberFinalizer) p)); mret (no_requeue, u)))
    as Hdrop.
  { intros t' Ht' Hrc. always_step; [|done]. exists p. split; [by eauto with member|]. by right. }
  case_bool_decide as Ho; cbn [negb]; [by apply Hdrop; [done|left]|].
  eapply always_cut_grow; [by apply (resolveGateway_quiet member_guard)|].
  intros t1 [e|gw] Ht1 [Hq1 Hres]; [done|].
  eapply always_cut; [apply removeMember_spec; eauto with member|].
  intros t2 [e|] [Ht2 Hrm]; [done|]. apply Hdrop; [by etrans|]. by apply Hrm.
Qed.

(** Everything a reconcile of a workspace member may do. *)
Lemma member_Reconcile_spec : always member_guard (λ _ _, True) [] (member_Reconcile name ns).
Proof.
  unfold member_Reconcile. always_step; [done|]. destruct r as [e|p]; [done|].
  assert (quiet_hist [Ev (S := KSig) (CGet KMember name ns) (inr p)]) as Hq by by repeat constructor.
  assert (member_read [Ev (S := KSig) (CGet KMember name ns) (inr p)] p) as Hr
    by by apply list_elem_of_singleton.
  cbn [app]. case_bool_decide as Hd; [by apply member_reconcileDelete_spec|].
  destruct (ContainsFinalizer _ _); cbn [negb]; [by apply member_reconcileSync_spec|].
  always_step; [|by destruct r]. exists p. split; [done|]. left. done.
Qed.
End member_guarantees.
