(* ===== verification/PolicyController.v ===== *)
(** * internal/controller/openshellpolicy_controller.go

    The reconciler of OpenShellPolicy: the oldest object of the cluster is the
    gateway's global policy, the others are superseded. *)

From S2P Require Import Prelude Interaction GoStrings GoText GoErrors Jwt ApiTypes Kube Singleton.
From S2P Require Import GatewayHelpers GatewayRpc ProviderController.
Import ApiTypes.Policy.

Definition policyFinalizer : string := "ogo.aknochow.io/policy-cleanup".

(** [uint32(x)] of an int32. *)
Definition uint32 (x : Z) : Z := x `mod` 2 ^ 32.

Definition build_endpoint (ep : NetworkEndpoint) : RpcEndpoint :=
  mkRpcEndpoint (Host ep) (uint32 (Port ep)) (Protocol ep) (Enforcement ep) (Access ep).

Definition build_rule (rule : NetworkPolicyRule) : RpcRule :=
  mkRpcRule (RuleName rule) (map build_endpoint (Endpoints rule)) (map BPath (Binaries rule)).

Definition buildSandboxPolicy (spec : Policy.Spec) : SandboxPolicy :=
  mkSandboxPolicy
    ((λ f, mkRpcFilesystem (IncludeWorkdir f) (ReadOnly f) (ReadWrite f)) <$> Filesystem spec)
    ((λ p, mkRpcProcess (RunAsUser p) (RunAsGroup p)) <$> Process spec)
    (build_rule <$> Network spec).

(** The requests to the gateway: the full policy, and its retraction. *)
Definition push_request (spec : Policy.Spec) : UpdateConfigRequest :=
  mkUpdateConfig (Some (buildSandboxPolicy spec)) "" false true defaultOpenShellWorkspace.
Definition retract_request : UpdateConfigRequest :=
  mkUpdateConfig None "policy" true true defaultOpenShellWorkspace.

(** The self-watch reacts to deletions only. *)
Inductive watch_event := CreateEvent | UpdateEvent | DeleteEvent | GenericEvent.
Definition policySelfWatchPredicate (e : watch_event) : bool :=
  match e with DeleteEvent => true | _ => false end.

Section policy.
Context {C : Crypto} {T : TlsLib} {U : Unicode} {M : ApiMachinery}.

Definition policy_with_status (p : OpenShellPolicy) (s : Policy.Status) : OpenShellPolicy :=
  mkObj (k := KPolicy) (ometa p) ((odata p).1, s).

Definition resolveActivePolicy : prog KSig (err + OpenShellPolicy) :=
  policyList ←? kdo (CList KPolicy None ∅);
  mret (match oldestByCreationTimestamp policyList with
        | None => inl (Err "no OpenShellPolicy found in the cluster")
        | Some p => inr p
        end).

Definition policy_not_ready_message (reason : string) (cause : err) : string :=
  if reason =s "GatewayUnreachable"
  then "failed to reach the OpenShell gateway; see operator logs for details"
  else if reason =s "InvalidPolicySpec"
  then "the gateway rejected this policy's spec; see operator logs for details"
  else Error cause.

Definition policy_setNotReady (policy : OpenShellPolicy) (reason : string) (cause : err)
    : prog KSig outcome :=
  let st := (odata policy).2 in
  r ← kdo (CStatusUpdate KPolicy (policy_with_status policy
        (mkStatus phaseFailed (Generation (ometa policy))
           (SetStatusCondition (Conditions st)
              (mkCondition "Synced" ConditionFalse reason (policy_not_ready_message reason cause)))
           (AppliedToGateway st))));
  match r with
  | Some e => mret (no_requeue, Some e)
  | None => mret (requeue_after gatewayRetryInterval, None)
  end.

Definition superseded_policy (policy active : OpenShellPolicy) : OpenShellPolicy :=
  policy_with_status policy
    (mkStatus phaseSuperseded (Generation (ometa policy))
       (SetStatusCondition (Conditions (odata policy).2)
          (mkCondition "Synced" ConditionFalse "AnotherPolicyActive"
             ("OpenShellPolicy " +:+ Namespace (ometa active) +:+ "/" +:+ Name (ometa active) +:+
              " is the active gateway policy; this resource has no effect until it is deleted")))
       false).

Definition synced_policy (policy : OpenShellPolicy) : OpenShellPolicy :=
  policy_with_status policy
    (mkStatus "Synced" (Generation (ometa policy))
       (SetStatusCondition (Conditions (odata policy).2)
          (mkCondition "Synced" ConditionTrue "Ready"
             ("OpenShellPolicy " +:+ Quote (PolicyName (odata policy).1) +:+
              " is the active gateway-global policy")))
       true).

Definition policy_reconcileSync (policy : OpenShellPolicy) : prog KSig outcome :=
  a ← resolveActivePolicy;
  match a with
  | inl e => policy_setNotReady policy "PolicyListFailed" e
  | inr active =>
      if UID (ometa active) <>s UID (ometa policy) then
        u ← kdo (CStatusUpdate KPolicy (superseded_policy policy active));
        mret (requeue_after requeueInterval, u)
      else
        g ← resolveGateway;
        match g with
        | inl e => policy_setNotReady policy "GatewayNotFound" e
        | inr gw =>
            c ← gatewayClient gw;
            match c with
            | inl e => policy_setNotReady policy "GatewayUnreachable"
                         (Errorf_w "connecting to gateway: " e)
            | inr token => closing (
                r ← kdo (CRpc token (UpdateConfig (push_request (odata policy).1)));
                match r with
                | inl st =>
                    if bool_decide (Code (status_err st) = CodeInvalidArgument)
                    then policy_setNotReady policy "InvalidPolicySpec" (status_err st)
                    else policy_setNotReady policy "GatewayUnreachable"
                           (Errorf_w "UpdateConfig: " (status_err st))
                | inr _ =>
                    u ← kdo (CStatusUpdate KPolicy (synced_policy policy));
                    mret (requeue_after requeueInterval, u)
                end)
            end
        end
  end.

Definition hasSuccessorPolicy (excludeUID : string) : prog KSig (err + bool) :=
  policyList ←? kdo (CList KPolicy None ∅);
  mret (inr (existsb (λ p : OpenShellPolicy, UID (ometa p) <>s excludeUID) policyList)).

Definition policy_drop_finalizer (policy : OpenShellPolicy) : prog KSig outcome :=
  u ← kdo (CUpdate KPolicy (set_finalizers (λ fs, RemoveFinalizer fs policyFinalizer) policy));
  mret (no_requeue, u).

Definition policy_reconcileDelete (policy : OpenShellPolicy) : prog KSig outcome :=
  if negb (ContainsFinalizer (Finalizers (ometa policy)) policyFinalizer)
  then mret (no_requeue, None)
  else if AppliedToGateway (odata policy).2 then
    s ← hasSuccessorPolicy (UID (ometa policy));
    match s with
    | inl e => mret (no_requeue, Some e)
    | inr true => policy_drop_finalizer policy
    | inr false =>
        g ← resolveGateway;
        match g with
        | inl _ => mret (requeue_after gatewayRetryInterval, None)
        | inr gw =>
            c ← gatewayClient gw;
            match c with
            | inl _ => mret (requeue_after gatewayRetryInterval, None)
            | inr token => closing (
                r ← kdo (CRpc token (UpdateConfig retract_request));
                match r with
                | inl _ => mret (requeue_after gatewayRetryInterval, None)
                | inr _ => policy_drop_finalizer policy
                end)
            end
        end
    end
  else policy_drop_finalizer policy.

Definition policy_Reconcile (name ns : string) : prog KSig outcome :=
  p ← kdo (CGet KPolicy name ns);
  match p with
  | inl e => mret (no_requeue, IgnoreNotFound e)
  | inr policy =>
      if bool_decide (is_Some (DeletionTimestamp (ometa policy))) then policy_reconcileDelete policy
      else if negb (ContainsFinalizer (Finalizers (ometa policy)) policyFinalizer) then
        u ← kdo (CUpdate KPolicy (set_finalizers (λ fs, AddFinalizer fs policyFinalizer) policy));
        match u with
        | Some e => mret (no_requeue, Some e)
        | None => mret (mkResult true 0, None)
        end
      else policy_reconcileSync policy
  end.

Definition findAllPolicies : prog KSig (list (string * string)) :=
  l ← kdo (CList KPolicy None ∅);
  match l with
  | inl _ => mret []
  | inr policies => mret (request_of <$> policies)
  end.
End policy.
