(* ===== verification/PolicyProofs.v ===== *)
(** * The global policy: one owner, no gap, no premature retraction

    [policy_may] replays the UpdateConfig calls of a history: the gateway's
    global policy is replaced as a whole or deleted.  A failed call may have had
    its effect all the same. *)

From S2P Require Import Prelude Interaction GoStrings GoText GoErrors Jwt ApiTypes Kube StatusSchema Singleton.
From S2P Require Import GatewayHelpers GatewayRpc ProviderController ProviderProofs PolicyController.
Import ApiTypes.Policy.

Create HintDb policy.

Definition policy_rpc_effect (q : rpc) (g : option SandboxPolicy) : option SandboxPolicy :=
  match q with
  | UpdateConfig r =>
      if Global r then
        if DeleteSetting r then if SettingKey r =s "policy" then None else g
        else match UPolicy r with Some p => Some p | None => g end
      else g
  | _ => g
  end.

(** What the global policy can be after a history. *)
Definition policy_may : option SandboxPolicy → list (event KSig) → option SandboxPolicy → Prop :=
  replay policy_rpc_effect (λ _ _, True) (λ _, True).

(** The history leaves the global policy as it was. *)
Definition policy_kept (t : list (event KSig)) : Prop := ∀ g g', policy_may g t g' → g' = g.

Lemma policy_kept_quiet t : quiet_hist t → policy_kept t.
Proof. intros Hq g g' H. by eapply replay_quiet. Qed.

Section policy_guarantees.
Context {C : Crypto} {T : TlsLib} {U : Unicode} {M : ApiMachinery} `{!ApiMachineryLaws M}.
Context (name ns : string).

Definition policy_read (t : list (event KSig)) (p : OpenShellPolicy) : Prop :=
  Ev (S := KSig) (CGet KPolicy name ns) (inr p) ∈ t.

Definition policies_listed (t : list (event KSig)) (items : list OpenShellPolicy) : Prop :=
  Ev (S := KSig) (CList KPolicy None ∅) (inr items) ∈ t.

(** The object is the oldest of the listed policies. *)
Definition is_active (t : list (event KSig)) (p : OpenShellPolicy) : Prop :=
  ∃ items active, policies_listed t items ∧ oldestByCreationTimestamp items = Some active ∧
    UID (ometa active) = UID (ometa p).

(** No other policy is listed. *)
Definition is_last (t : list (event KSig)) (p : OpenShellPolicy) : Prop :=
  ∃ items, policies_listed t items ∧ ∀ x, x ∈ items → UID (ometa x) = UID (ometa p).

Definition has_successor (t : list (event KSig)) (p : OpenShellPolicy) : Prop :=
  ∃ items x, policies_listed t items ∧ x ∈ items ∧ UID (ometa x) ≠ UID (ometa p).

(** The global policy is pushed by the active object only, and retracted only
    by the last object, when it is deleted after it was applied. *)
Definition policy_own_rpc (t : list (event KSig)) (p : OpenShellPolicy) (q : rpc) : Prop :=
  match q with
  | UpdateConfig r =>
      r = push_request (odata p).1 ∧ ¬ deleting p ∧ is_active t p ∨
      r = retract_request ∧ deleting p ∧ AppliedToGateway (odata p).2 = true ∧ is_last t p
  | _ => False
  end.

Definition retraction_confirmed (t : list (event KSig)) : Prop :=
  ∃ tok, Ev (S := KSig) (CRpc tok (UpdateConfig retract_request)) (inr ()) ∈ t.

Definition policy_messages : list string :=
  ["failed to reach the OpenShell gateway; see operator logs for details";
   "the gateway rejected this policy's spec; see operator logs for details"].

Definition policy_discreet (o : OpenShellPolicy) : Prop :=
  ∀ c, FindStatusCondition (Conditions (odata o).2) "Synced" = Some c →
    CReason c = "GatewayUnreachable" ∨ CReason c = "InvalidPolicySpec" → CMessage c ∈ policy_messages.

(** This object's push was answered with an error. *)
Definition push_failed (t : list (event KSig)) (p : OpenShellPolicy) : Prop :=
  ∃ tok e, Ev (S := KSig) (CRpc tok (UpdateConfig (push_request (odata p).1))) (inl e) ∈ t.

(** What a written status says: Synced means this object's policy is the
    gateway's; a superseded object does not claim to be applied and touched
    nothing; a failed one keeps its claim, and changed the global policy at most
    by the push that failed. *)
Definition policy_honest (t : list (event KSig)) (p o : OpenShellPolicy) : Prop :=
  (Phase (odata o).2 = "Synced" → AppliedToGateway (odata o).2 = true ∧ is_active t p ∧
     ∀ g g', policy_may g t g' → g' = Some (buildSandboxPolicy (odata p).1)) ∧
  (Phase (odata o).2 = phaseSuperseded → AppliedToGateway (odata o).2 = false ∧ policy_kept t) ∧
  (Phase (odata o).2 = phaseFailed → AppliedToGateway (odata o).2 = AppliedToGateway (odata p).2 ∧
     ∀ g g', policy_may g t g' →
       g' = g ∨ push_failed t p ∧ g' = Some (buildSandboxPolicy (odata p).1)).

(** A written status has the shape its schema asks for. *)
Definition policy_shaped (p o : OpenShellPolicy) : Prop :=
  Phase (odata o).2 ∈ policy_phases ∧ conditioned (Conditions (odata p).2) (Conditions (odata o).2).

Definition policy_own_status (t : list (event KSig)) (o : OpenShellPolicy) : Prop :=
  ∃ p, policy_read t p ∧ ometa o = ometa p ∧ (odata o).1 = (odata p).1 ∧
    (policy_discreet o ∧ policy_shaped p o) ∧ policy_honest t p o.

Definition policy_own_update (t : list (event KSig)) (o : OpenShellPolicy) : Prop :=
  ∃ p, policy_read t p ∧
    (¬ deleting p ∧ o = set_finalizers (λ fs, AddFinalizer fs policyFinalizer) p ∨
     deleting p ∧ o = set_finalizers (λ fs, RemoveFinalizer fs policyFinalizer) p ∧
       (AppliedToGateway (odata p).2 = false ∨ has_successor t p ∨ retraction_confirmed t)).

Definition policy_guard (t : list (event KSig)) (c : call KSig) : Prop :=
  match c with
  | CGet k n n' => k = KSecret → gateway_secret t n n'
  | CList _ _ _ | CNow | CClose => True
  | CDial target creds => rpc_guard t (CDial target creds)
  | CRpc tok q => connected t tok ∧ ∃ p, policy_read t p ∧ policy_own_rpc t p q
  | CUpdate k o =>
      match k return obj k → Prop with KPolicy => policy_own_update t | _ => λ _, False end o
  | CStatusUpdate k o =>
      match k return obj k → Prop with KPolicy => policy_own_status t | _ => λ _, False end o
  | _ => False
  end.

#[local] Instance policy_connects : Connects policy_guard.
Proof. split; try done. by intros t n n' Hs _. Qed.

Lemma policy_read_mono t t' p : t ⊆ t' → policy_read t p → policy_read t' p.
Proof. unfold policy_read. eauto with ogo. Qed.

Lemma is_active_mono t t' p : t ⊆ t' → is_active t p → is_active t' p.
Proof. intros Ht (i & a & H & ?). exists i, a. unfold policies_listed in *. eauto with ogo. Qed.

Lemma is_last_mono t t' p : t ⊆ t' → is_last t p → is_last t' p.
Proof. intros Ht (i & H & ?). exists i. unfold policies_listed in *. eauto with ogo. Qed.

#[local] Hint Resolve policy_read_mono is_active_mono is_last_mono connected_mono resolved_mono
  hist_grow : policy.

Lemma policy_setNotReady_spec t p reason cause :
  reason_pattern reason = true → policy_read t p →
  (∀ g g', policy_may g t g' → g' = g ∨ push_failed t p ∧ g' = Some (buildSandboxPolicy (odata p).1)) →
  always policy_guard (λ _ _, True) t (policy_setNotReady p reason cause).
Proof.
  intros Hp Hr Hg. unfold policy_setNotReady. always_step; [|by destruct r].
  exists p. split; [done|]. split; [done|]. split; [done|]. split; [|by repeat split].
  split; [|split; [cbn; set_solver|]; by apply conditioned_set].
  intros c. cbn. rewrite find_set. cbn. intros [= <-]. cbn. unfold policy_not_ready_message.
  intros [->| ->]; unfold policy_messages; cbn; repeat constructor.
Qed.

Lemma resolveActivePolicy_spec t :
  quiet_hist t →
  always policy_guard (λ t' r, quiet_hist t' ∧ ∀ active, r = inr active →
      ∃ items, policies_listed t' items ∧ oldestByCreationTimestamp items = Some active)
    t resolveActivePolicy.
Proof.
  intros Hq. unfold resolveActivePolicy. always_step; [done|].
  destruct r as [e|items]; apply always_ret; (split; [by apply Forall_snoc_iff|]); [done|].
  intros active. destruct (oldestByCreationTimestamp items) eqn:Ho; [|done].
  intros [= <-]. exists items. split; [apply elem_of_snoc; auto|done].
Qed.

Lemma policy_reconcileSync_spec t p :
  quiet_hist t → policy_read t p → ¬ deleting p →
  always policy_guard (λ _ _, True) t (policy_reconcileSync p).
Proof.
  intros Hq Hr Hd. unfold policy_reconcileSync.
  eapply always_cut_grow; [by apply resolveActivePolicy_spec|].
  intros t1 [e|active] Ht1 [Hq1 Hact].
  { apply policy_setNotReady_spec; [done|by eauto with policy|]. intros g g' H. left. by eapply policy_kept_quiet. }
  destruct (Hact active eq_refl) as (items & Hl & Ho).
  case_bool_decide as Hu; cbn [negb].
  2:{ always_step; [|done]. exists p. split; [by eauto with policy|].
      split; [done|]. split; [done|]. split; [split|].
      2: { split; [cbn; set_solver|]. by apply conditioned_set. }
      - intros c. cbn. rewrite find_set. cbn. intros [= <-]. by intros [?|?].
      - split; [done|]. split; [|done]. split; [done|]. by apply policy_kept_quiet. }
  assert (is_active t1 p) as Hact1 by by exists items, active.
  eapply always_cut_grow; [by apply (resolveGateway_quiet policy_guard)|].
  intros t2 [e|gw] Ht2 [Hq2 Hres].
  { apply policy_setNotReady_spec; [done|by eauto with policy|]. intros g g' H. left. by eapply policy_kept_quiet. }
  specialize (Hres gw eq_refl).
  eapply always_cut_grow; [by apply (gatewayClient_quiet policy_guard)|].
  intros t3 [e|tok] Ht3 [Hq3 Hcon].
  { apply policy_setNotReady_spec; [done|by eauto 6 with policy|]. intros g g' H. left. by eapply policy_kept_quiet. }
  specialize (Hcon tok eq_refl). apply closing_spec; [apply _|done|].
  always_step; [split; [done|]; exists p; split; [by eauto 6 with policy|]; left;
                split; [done|]; by eauto 6 with policy|].
  destruct r as [st|[]].
  - set (t4 := t3 ++ _).
    assert (∀ g g', policy_may g t4 g' →
      g' = g ∨ push_failed t4 p ∧ g' = Some (buildSandboxPolicy (odata p).1)) as Hg.
    { intros g g' (g1 & H1 & [_ He])%replay_snoc. apply policy_kept_quiet in H1; [subst g1|done].
      destruct He as [-> |[_ ->]]; [by left|]. right. split; [|done].
      exists tok, st. apply elem_of_snoc. by right. }
    case_bool_decide; apply policy_setNotReady_spec; by eauto 8 with policy.
  - always_step; [|done]. exists p. split; [by eauto 8 with policy|].
    split; [done|]. split; [done|]. split; [split|].
    2: { split; [cbn; set_solver|]. by apply conditioned_set. }
    + intros c. cbn. rewrite find_set. cbn. intros [= <-]. by intros [?|?].
    + split; [|done]. intros _. split; [done|]. split; [by eauto 8 with policy|].
      by intros g g' (g1 & _ & [_ ->])%replay_snoc.
Qed.

Lemma policy_drop_spec t p :
  policy_read t p → deleting p →
  (AppliedToGateway (odata p).2 = false ∨ has_successor t p ∨ retraction_confirmed t) →
  always policy_guard (λ _ _, True) t (policy_drop_finalizer p).
Proof.
  intros Hr Hd Hc. unfold policy_drop_finalizer. always_step; [|done].
  exists p. split; [done|]. by right.
Qed.

Lemma policy_reconcileDelete_spec t p :
  quiet_hist t → policy_read t p → deleting p →
  always policy_guard (λ _ _, True) t (policy_reconcileDelete p).
Proof.
  intros Hq Hr Hd. unfold policy_reconcileDelete.
  destruct (ContainsFinalizer _ _); [|done]. cbn [negb].
  destruct (AppliedToGateway _) eqn:Ha; [|by apply policy_drop_spec; auto].
  unfold hasSuccessorPolicy.
  eapply always_cut_grow with (R := λ t' r, quiet_hist t' ∧ ∀ b, r = inr b →
    if b : bool then has_successor t' p else is_last t' p).
  { always_step; [done|]. destruct r as [e|items]; apply always_ret;
      (split; [by apply Forall_snoc_iff|]); [done|]. intros b [= <-].
    set (t' := t ++ _). assert (policies_listed t' items) as Hl by (apply elem_of_snoc; auto).
    destruct (existsb _ items) eqn:He.
    - apply existsb_elem_of in He as (x & Hx & Hu). bool_simpl. by exists items, x.
    - exists items. split; [done|]. intros x Hx.
      pose proof (proj1 (existsb_not_elem_of _ _) He x Hx) as Hu. cbn in Hu. by bool_simpl. }
  intros t1 [e|[]] Ht1 [Hq1 Hs]; [done| |].
  { apply policy_drop_spec; [by eauto with policy|done|]. right. left. by apply (Hs true). }
  specialize (Hs false eq_refl). cbn in Hs.
  eapply always_cut_grow; [by apply (resolveGateway_quiet policy_guard)|].
  intros t2 [e|gw] Ht2 [Hq2 Hres]; [done|]. specialize (Hres gw eq_refl).
  eapply always_cut_grow; [by apply (gatewayClient_quiet policy_guard)|].
  intros t3 [e|tok] Ht3 [Hq3 Hcon]; [done|]. specialize (Hcon tok eq_refl).
  apply closing_spec; [apply _|done|].
  always_step; [split; [done|]; exists p; split; [by eauto 6 with policy|]; right;
                split; [done|]; by eauto 6 with policy|].
  destruct r as [st|[]]; [done|]. apply policy_drop_spec; [by eauto 8 with policy|done|].
  right. right. exists tok. apply elem_of_snoc. auto.
Qed.

(** Everything a reconcile of a policy may do. *)
Lemma policy_Reconcile_spec : always policy_guard (λ _ _, True) [] (policy_Reconcile name ns).
Proof.
  unfold policy_Reconcile. always_step; [done|]. destruct r as [e|p]; [done|].
  assert (quiet_hist [Ev (S := KSig) (CGet KPolicy name ns) (inr p)]) as Hq by by repeat constructor.
  assert (policy_read [Ev (S := KSig) (CGet KPolicy name ns) (inr p)] p) as Hr
    by by apply list_elem_of_singleton.
  cbn [app]. case_bool_decide as Hd; [by apply policy_reconcileDelete_spec|].
  destruct (ContainsFinalizer _ _); cbn [negb]; [by apply policy_reconcileSync_spec|].
  always_step; [|by destruct r]. exists p. split; [done|]. left. done.
Qed.
End policy_guarantees.
