(* ===== verification/FakeCluster.v ===== *)
(** * A concrete cluster for the witnesses

    Executable instances of apimachinery and of the TLS library, and an API
    server with a handful of fixed objects and a scripted gateway. *)

From S2P Require Import Prelude Interaction GoStrings GoText GoErrors GoUrl Jwt ApiTypes Kube.
From S2P Require Import Singleton GatewayHelpers GatewayRpc ProviderController MemberController.
From S2P Require Import PolicyController Concrete.

(** Conditions and finalizers as lists. *)
Fixpoint set_condition (cs : list Condition) (c : Condition) : list Condition :=
  match cs with
  | [] => [c]
  | c' :: cs => if CType c' =s CType c then c :: cs else c' :: set_condition cs c
  end.

Definition find_condition (cs : list Condition) (t : string) : option Condition :=
  List.find (λ c, CType c =s t) cs.

Fixpoint nested (fields : list (string * json)) (path : list string) : option json :=
  match path with
  | [] => None
  | [k] => assoc k fields
  | k :: path => match assoc k fields with Some (JObj l) => nested l path | _ => None end
  end.

Fixpoint set_assoc {A} (k : string) (v : A) (l : list (string * A)) : list (string * A) :=
  match l with
  | [] => [(k, v)]
  | (k', v') :: l => if k' =s k then (k, v) :: l else (k', v') :: set_assoc k v l
  end.

Fixpoint set_nested (fields : list (string * json)) (v : json) (path : list string)
    : list (string * json) :=
  match path with
  | [] => fields
  | [k] => set_assoc k v fields
  | k :: path =>
      set_assoc k (JObj (set_nested (match assoc k fields with Some (JObj l) => l | _ => [] end) v path))
        fields
  end.

Definition strings_of (l : list json) : list string :=
  omap (λ j, match j with JStr s => Some s | _ => None end) l.

#[export] Instance toy_machinery : ApiMachinery := {|
  SetStatusCondition := set_condition;
  FindStatusCondition := find_condition;
  RemoveStatusCondition := λ cs t, filter (λ c, CType c ≠ t) cs;
  ContainsFinalizer := λ fs f, bool_decide (f ∈ fs);
  AddFinalizer := λ fs f, if bool_decide (f ∈ fs) then fs else fs ++ [f];
  RemoveFinalizer := λ fs f, filter (λ g, g ≠ f) fs;
  NestedString := λ o p, match nested o p with
    | Some (JStr s) => inr s | None => inr "" | _ => inl (Err "accessor error") end;
  NestedStringSlice := λ o p, match nested o p with
    | Some (JArr l) => inr (strings_of l) | None => inr [] | _ => inl (Err "accessor error") end;
  NestedSlice := λ o p, match nested o p with
    | Some (JArr l) => inr l | None => inr [] | _ => inl (Err "accessor error") end;
  NestedMap := λ o p, match nested o p with
    | Some (JObj l) => inr l | None => inr [] | _ => inl (Err "accessor error") end;
  SetNestedField := λ o v p, inr (set_nested o v p);
  SetNestedStringSlice := λ o l p, inr (set_nested o (JArr (map JStr l)) p);
  Semantic_DeepEqual := λ a b, json_render (JObj a) =s json_render (JObj b)
|}.

Lemma find_set_condition cs c t :
  find_condition (set_condition cs c) t =
    if decide (t = CType c) then Some c else find_condition cs t.
Proof.
  unfold find_condition. induction cs as [|c' cs IH]; cbn [set_condition List.find].
  - case_bool_decide; [by rewrite decide_True|]. by rewrite decide_False by congruence.
  - destruct (decide (CType c' = CType c)) as [He|He].
    + rewrite (bool_decide_eq_true_2 _ He). cbn [List.find]. rewrite He.
      case_bool_decide; [by rewrite decide_True|]. by rewrite decide_False by congruence.
    + rewrite (bool_decide_eq_false_2 _ He). cbn [List.find]. case_bool_decide as Ht; [|done].
      by rewrite decide_False by congruence.
Qed.

Lemma find_remove_condition cs t t' :
  find_condition (filter (λ c, CType c ≠ t) cs) t' =
    if decide (t' = t) then None else find_condition cs t'.
Proof.
  unfold find_condition. induction cs as [|c cs IH]; [by case_decide|].
  rewrite filter_cons. cbn [List.find]. destruct (decide (CType c = t)) as [He|He].
  - rewrite decide_False by by intros []. rewrite IH. destruct (decide (t' = t)); [done|].
    by rewrite bool_decide_eq_false_2 by congruence.
  - rewrite decide_True by done. cbn [List.find]. rewrite IH.
    destruct (decide (t' = t)) as [->|]; [|done]. by rewrite bool_decide_eq_false_2.
Qed.

#[export] Instance toy_machinery_laws : ApiMachineryLaws toy_machinery.
Proof.
  split; cbn.
  - apply find_set_condition.
  - intros cs t c H. apply find_some in H as [_ H]. by bool_simpl.
  - apply find_remove_condition.
  - intros fs f. apply bool_decide_eq_true.
  - intros fs f g. case_bool_decide; rewrite ?elem_of_snoc; naive_solver.
  - intros fs f g. by rewrite list_elem_of_filter.
Qed.

#[export] Instance toy_tls : TlsLib := {|
  X509KeyPair := λ cert key, if cert =s "" then Some (Err "no certificate") else None;
  AppendCertsFromPEM := λ ca, ca <>s ""
|}.

(** ** The objects *)

Definition meta_of (name ns uid : string) (created : Z) (fs : list string) (deleted : option Z)
    : ObjectMeta :=
  mkMeta name ns ∅ ∅ uid "1" 1 (Some created) deleted fs.

Definition toy_gateway : OpenShellGateway :=
  mkObj (k := KGateway) (meta_of "gw" "" "uid-gw" 10 [finalizerName] None) (zero_body KGateway).

Definition toy_secret (name ns : string) (d : gmap string string) : obj KSecret :=
  mkObj (k := KSecret) (meta_of name ns "uid-s" 5 [] None) (mkSecret "Opaque" d).

Definition toy_secrets : list (obj KSecret) :=
  [toy_secret "gw-auth-bridge-keys" "ogo" {["signing.pem" := "key"; "kid" := "kid1"]};
   toy_secret "gw-client-tls" "ogo" {["tls.crt" := "crt"; "tls.key" := "key"; "ca.crt" := "ca"]};
   toy_secret "creds" "team" {["token" := "s3cret"]}].

(** A provider whose status still tracks a key that its spec dropped. *)
Definition toy_provider (deleted : option Z) : OpenShellProvider :=
  mkObj (k := KProvider) (meta_of "p" "team" "uid-p" 20 [providerFinalizer] deleted)
    (Provider.mkSpec "github" {["GH_TOKEN" := Provider.mkRef "creds" "token"]} {["region" := "eu"]},
     Provider.mkStatus "" 0 [] ["OLD_TOKEN"] []).

(** A member whose ServiceAccount was recreated. *)
Definition toy_member (deleted : option Z) : OpenShellWorkspaceMember :=
  mkObj (k := KMember) (meta_of "m" "team" "uid-m" 20 [workspaceMemberFinalizer] deleted)
    (Member.mkSpec "ws" "bot" "admin", Member.mkStatus "Synced" 0 [] "uid-old").

Definition toy_sa : obj KServiceAccount :=
  mkObj (k := KServiceAccount) (meta_of "bot" "team" "uid-new" 30 [] None) ().

Definition toy_policy (name uid : string) (created : Z) (deleted : option Z) (applied : bool)
    : OpenShellPolicy :=
  mkObj (k := KPolicy) (meta_of name "team" uid created [policyFinalizer] deleted)
    (Policy.mkSpec "strict" None
       {["web" := Policy.mkRule "web" [Policy.mkEndpoint "example.com" 443 "rest" "enforce" "full"]
                    [Policy.mkBinary "/usr/bin/curl"]]} None,
     Policy.mkStatus "" 0 [] applied).

(** ** The server *)

Record cluster := mkCluster {
  cl_gateways : list OpenShellGateway; cl_secrets : list (obj KSecret);
  cl_providers : list OpenShellProvider; cl_members : list OpenShellWorkspaceMember;
  cl_policies : list OpenShellPolicy; cl_sas : list (obj KServiceAccount)
}.

Definition lookup_obj {k} (l : list (obj k)) (n ns : string) : err + obj k :=
  match List.find (λ o : obj k, (Name (ometa o) =s n) && (Namespace (ometa o) =s ns)) l with
  | Some o => inr o
  | None => inl (EApi NotFound "not found")
  end.

Definition objects (cl : cluster) (k : kind) : list (obj k) :=
  match k return list (obj k) with
  | KGateway => cl_gateways cl
  | KSecret => cl_secrets cl
  | KProvider => cl_providers cl
  | KMember => cl_members cl
  | KPolicy => cl_policies cl
  | KServiceAccount => cl_sas cl
  | _ => []
  end.

(** The gateway answers AlreadyExists to a creation and accepts the rest. *)
Definition toy_rpc (r : rpc) : grpc_status + rpc_result r :=
  match r return grpc_status + rpc_result r with
  | CreateProvider _ _ => inl (GrpcStatus CodeAlreadyExists "already exists")
  | UpdateProvider _ _ | DeleteProvider _ _ | UpdateConfig _ => inr ()
  | AddWorkspaceMember _ _ _ | RemoveWorkspaceMember _ _ => inr ()
  | ListWorkspaceMembers _ _ => inr []
  end.

Definition cluster_handler (cl : cluster) : handler KSig unit := λ c w,
  (match c return kresp c with
   | CGet k n ns => lookup_obj (objects cl k) n ns
   | CList k _ _ => inr (objects cl k)
   | CCreate k o => inr o
   | CUpdate _ _ | CStatusUpdate _ _ | CDelete _ _ _ | CUCommit _ _ => None
   | CUFetch k n ns => inr (blank k n ns)
   | CDiscover _ => false
   | CDetectLoad _ => mkDetection false 0
   | CDetectStore _ _ => ()
   | CNow => 1000%Z
   | CRand n => repeat_byte n
   | CEntropy => ""
   | CDial _ _ => None
   | CClose => ()
   | CRpc _ r => toy_rpc r
   end, w).

Definition toy_cluster (deleted : option Z) : cluster :=
  mkCluster [toy_gateway] toy_secrets [toy_provider deleted] [toy_member deleted]
    [toy_policy "old" "uid-1" 100 deleted true; toy_policy "new" "uid-2" 200 None false] [toy_sa].
