(* ===== verification/ControllerTheorems.v ===== *)
(** * What the controllers of the custom resources guarantee

    Providers, workspace members and policies.  Each theorem speaks of one call
    in the trace of a reconcile, for every behaviour of the API server and of
    the gateway; [take i] of the trace is what happened before the call. *)

From S2P Require Import Prelude Interaction GoStrings GoText GoErrors GoUrl Jwt ApiTypes Kube.
From S2P Require Import Singleton GatewayHelpers GatewayRpc ProviderController ProviderProofs.
From S2P Require Import MemberController MemberProofs PolicyController PolicyProofs Concrete.
From S2P Require Import FakeCluster.
From Stdlib Require Import Ascii.

Section claims.
Context {C : Crypto} {T : TlsLib} {U : Unicode} {M : ApiMachinery} `{!ApiMachineryLaws M}.
Context {W : Type} (h : handler KSig W) (w : W) (name ns : string).

(** ** Providers *)

(** C10. A provider is reported Synced only when the gateway holds exactly the
    credentials and the configuration of the spec, with the values read from
    the referenced Secrets and the keys dropped from the spec retracted,
    provided the status tracked the keys that were live; and then the new
    status again tracks every live key. *)
Theorem synced_provider_is_converged i o r :
  let tr := trace h (Reconcile name ns) w in
  tr !! i = Some (Ev (S := KSig) (CStatusUpdate KProvider o) r) →
  Provider.Phase (odata o).2 = "Synced" →
  ∃ p, provider_read name ns (take i tr) p ∧ ∀ s, tracks s p →
    serves (gateway_after s (take i tr)) (take i tr) o ∧ tracks (gateway_after s (take i tr)) o.
Proof.
  intros tr Hi Hs. pose proof (always_event _ _ _ _ _ _ _ _ (Reconcile_spec name ns) Hi) as HG.
  destruct HG as (p & Hr & _ & _ & _ & Hc). exists p. split; [done|]. intros s. by apply Hc.
Qed.

(** The finalizer of a provider goes only after the gateway confirmed the
    deletion of that provider: no error, timeout or missing gateway makes the
    operator forget a provider that is still on the gateway. *)
Lemma provider_finalizer_waits i o r :
  let tr := trace h (Reconcile name ns) w in
  tr !! i = Some (Ev (S := KSig) (CUpdate KProvider o) r) →
  providerFinalizer ∉ Finalizers (ometa o) →
  ∃ p, provider_read name ns (take i tr) p ∧ deleting p ∧ delete_confirmed (take i tr) p ∧
    gatewayProviderName o = gatewayProviderName p.
Proof.
  intros tr Hi Hf. pose proof (always_event _ _ _ _ _ _ _ _ (Reconcile_spec name ns) Hi) as HG.
  destruct HG as (p & Hr & [[_ ->]|(Hd & Hc & ->)]); [|by exists p].
  destruct Hf. cbn. apply add_spec. by left.
Qed.

(** C12. What a provider can reach: gateway calls carry an admin token minted
    for the resolved gateway, name this provider in the default workspace and
    nothing else; and the only Secrets read are those of the provider's own
    namespace and the gateway's two, one by one: only gateways are listed. *)
Theorem provider_calls_are_confined i c r :
  let tr := trace h (Reconcile name ns) w in
  tr !! i = Some (Ev (S := KSig) c r) →
  match c with
  | CRpc tok q => connected (take i tr) tok ∧
      ∃ p, provider_read name ns (take i tr) p ∧ own_rpc p q
  | CGet KSecret n n' => gateway_secret (take i tr) n n' ∨
      ∃ p, provider_read name ns (take i tr) p ∧ n' = Namespace (ometa p)
  | CList k _ _ => k = KGateway
  | CCreate _ _ | CDelete _ _ _ | CUFetch _ _ _ | CUCommit _ _ => False
  | _ => True
  end.
Proof.
  intros tr Hi. pose proof (always_event _ _ _ _ _ _ _ _ (Reconcile_spec name ns) Hi) as HG.
  destruct c as [[]| | | | | | | | | | | | | | | |]; try done. by apply HG.
Qed.

(** ** Workspace members *)

(** C13. A member is reported Synced only when the ServiceAccount of its own
    namespace, with the uid it has now, is a member of the workspace with
    exactly the role of the spec, in whatever state the gateway was and whether
    or not its failed calls took effect, provided its listings are true. *)
Theorem synced_member_is_granted i o r :
  let tr := trace h (member_Reconcile name ns) w in
  tr !! i = Some (Ev (S := KSig) (CStatusUpdate KMember o) r) →
  Member.Phase (odata o).2 = "Synced" →
  ∃ p, member_read name ns (take i tr) p ∧
    identity_read (take i tr) p (Member.ReconciledSubject (odata o).2) ∧
    certainly listed_ok any_failure (take i tr)
      (Member.Workspace (odata p).1, Member.ReconciledSubject (odata o).2)
      (Some (workspaceRoleFromSpec (Member.Role (odata p).1))).
Proof.
  intros tr Hi Hs. pose proof (always_event _ _ _ _ _ _ _ _ (member_Reconcile_spec name ns) Hi) as HG.
  destruct HG as (p & Hr & _ & _ & _ & Hc & _). exists p. split; [done|]. by apply Hc.
Qed.

(** C14. A recreated identity never inherits access next to the old one: a
    grant is made only to the identity that was just read, and when the status
    names another one, only after the gateway confirmed its removal. *)
Theorem grants_follow_revocations i tok ws u role r :
  let tr := trace h (member_Reconcile name ns) w in
  tr !! i = Some (Ev (S := KSig) (CRpc tok (AddWorkspaceMember ws u role)) r) →
  ∃ p, member_read name ns (take i tr) p ∧ identity_read (take i tr) p u ∧
    ws = Member.Workspace (odata p).1 ∧
    role = workspaceRoleFromSpec (Member.Role (odata p).1) ∧
    (u = Member.ReconciledSubject (odata p).2 ∨ removal_confirmed (take i tr) p).
Proof.
  intros tr Hi. pose proof (always_event _ _ _ _ _ _ _ _ (member_Reconcile_spec name ns) Hi) as HG.
  destruct HG as (_ & p & Hr & -> & Hid & -> & Hc). by exists p.
Qed.

(** C15. The status never forgets a live membership: it stops naming a subject
    only when that subject is no longer a member of the workspace, also on the
    failure paths of a role change.  Failed calls may have taken effect, except
    for a failed re-add, after which the source takes the membership for gone. *)
Theorem status_forgets_no_membership i o r :
  let tr := trace h (member_Reconcile name ns) w in
  tr !! i = Some (Ev (S := KSig) (CStatusUpdate KMember o) r) →
  ∃ p, member_read name ns (take i tr) p ∧
    (Member.ReconciledSubject (odata p).2 ≠ "" →
     Member.ReconciledSubject (odata o).2 ≠ Member.ReconciledSubject (odata p).2 →
     certainly any_answer any_but_add (take i tr)
       (Member.Workspace (odata p).1, Member.ReconciledSubject (odata p).2) None).
Proof.
  intros tr Hi. pose proof (always_event _ _ _ _ _ _ _ _ (member_Reconcile_spec name ns) Hi) as HG.
  destruct HG as (p & Hr & _ & _ & _ & _ & Hc). by exists p.
Qed.

(** The finalizer of a member goes only when no membership is recorded or
    the gateway confirmed its removal. *)
Lemma member_finalizer_waits i o r :
  let tr := trace h (member_Reconcile name ns) w in
  tr !! i = Some (Ev (S := KSig) (CUpdate KMember o) r) →
  workspaceMemberFinalizer ∉ Finalizers (ometa o) →
  ∃ p, member_read name ns (take i tr) p ∧ deleting p ∧ removal_confirmed (take i tr) p.
Proof.
  intros tr Hi Hf. pose proof (always_event _ _ _ _ _ _ _ _ (member_Reconcile_spec name ns) Hi) as HG.
  destruct HG as (p & Hr & [[_ ->]|(Hd & Hc & ->)]); [|by exists p].
  destruct Hf. cbn. apply add_spec. by left.
Qed.

(** ** Policies *)

(** C16. One owner of the global policy: it is pushed only for the oldest
    listed policy object, and retracted only by an object that was applied, is
    being deleted and is the last one listed. *)
Theorem global_policy_has_one_owner i tok q r :
  let tr := trace h (policy_Reconcile name ns) w in
  tr !! i = Some (Ev (S := KSig) (CRpc tok q) r) →
  connected (take i tr) tok ∧ ∃ p, policy_read name ns (take i tr) p ∧
    (q = UpdateConfig (push_request (odata p).1) ∧ ¬ deleting p ∧ is_active (take i tr) p ∨
     q = UpdateConfig retract_request ∧ deleting p ∧
       Policy.AppliedToGateway (odata p).2 = true ∧ is_last (take i tr) p).
Proof.
  intros tr Hi. pose proof (always_event _ _ _ _ _ _ _ _ (policy_Reconcile_spec name ns) Hi) as HG.
  destruct HG as (Hc & p & Hr & Hq). split; [done|]. exists p. split; [done|].
  destruct q; try done. destruct Hq as [(-> & ?)|(-> & ?)]; [by left|by right].
Qed.

(** C17. The status of a policy is true of the gateway, where a call answered
    with an error may have taken effect all the same: Synced means that this
    object's rules are the global policy and that it says so; Superseded means
    that this reconcile left the global policy as it was and that the object does
    not claim to be applied; Failed keeps the object's claim, and the global
    policy is as it was, or this object's own push was answered with an error and
    its rules are in force. *)
Theorem policy_status_is_honest i o r :
  let tr := trace h (policy_Reconcile name ns) w in
  tr !! i = Some (Ev (S := KSig) (CStatusUpdate KPolicy o) r) →
  ∃ p, policy_read name ns (take i tr) p ∧ policy_honest (take i tr) p o.
Proof.
  intros tr Hi. pose proof (always_event _ _ _ _ _ _ _ _ (policy_Reconcile_spec name ns) Hi) as HG.
  destruct HG as (p & Hr & _ & _ & _ & Hc). by exists p.
Qed.

(** The finalizer of a policy goes only when the object never was applied,
    another policy object takes over, or the gateway confirmed the
    retraction. *)
Lemma policy_finalizer_waits i o r :
  let tr := trace h (policy_Reconcile name ns) w in
  tr !! i = Some (Ev (S := KSig) (CUpdate KPolicy o) r) →
  policyFinalizer ∉ Finalizers (ometa o) →
  ∃ p, policy_read name ns (take i tr) p ∧ deleting p ∧
    (Policy.AppliedToGateway (odata p).2 = false ∨ has_successor (take i tr) p ∨
     retraction_confirmed (take i tr)).
Proof.
  intros tr Hi Hf. pose proof (always_event _ _ _ _ _ _ _ _ (policy_Reconcile_spec name ns) Hi) as HG.
  destruct HG as (p & Hr & [[_ ->]|(Hd & -> & Hc)]); [|by exists p].
  destruct Hf. cbn. apply add_spec. by left.
Qed.

(** C11. An Update without the finalizer is sent only for an object that was
    read as being deleted, and only when, in this reconcile: for a provider, the
    gateway confirmed the deletion of its provider; for a member, the status read
    records no subject, or the gateway confirmed the removal of the recorded
    subject from the spec's workspace; for a policy, the status read does not say
    applied, or a listing shows a policy object with another uid (possibly one
    that is being deleted too), or the gateway confirmed the retraction.  So a
    failed, timed out or impossible gateway call keeps the finalizer of a
    provider, of a member with a recorded subject and of a last applied policy. *)
Theorem finalizers_wait i r :
  (∀ o, let tr := trace h (Reconcile name ns) w in
   tr !! i = Some (Ev (S := KSig) (CUpdate KProvider o) r) →
   providerFinalizer ∉ Finalizers (ometa o) →
   ∃ p, provider_read name ns (take i tr) p ∧ deleting p ∧ delete_confirmed (take i tr) p ∧
     gatewayProviderName o = gatewayProviderName p) ∧
  (∀ o, let tr := trace h (member_Reconcile name ns) w in
   tr !! i = Some (Ev (S := KSig) (CUpdate KMember o) r) →
   workspaceMemberFinalizer ∉ Finalizers (ometa o) →
   ∃ p, member_read name ns (take i tr) p ∧ deleting p ∧ removal_confirmed (take i tr) p) ∧
  (∀ o, let tr := trace h (policy_Reconcile name ns) w in
   tr !! i = Some (Ev (S := KSig) (CUpdate KPolicy o) r) →
   policyFinalizer ∉ Finalizers (ometa o) →
   ∃ p, policy_read name ns (take i tr) p ∧ deleting p ∧
     (Policy.AppliedToGateway (odata p).2 = false ∨ has_successor (take i tr) p ∨
      retraction_confirmed (take i tr))).
Proof.
  split; [|split]; intros o.
  - apply provider_finalizer_waits.
  - apply member_finalizer_waits.
  - apply policy_finalizer_waits.
Qed.

(** C18. What the gateway answers stays in the operator's log: a status that
    reports an unreachable gateway or a rejected spec carries one of the fixed
    messages, for all three controllers. *)
Theorem gateway_errors_stay_in_the_log i c r :
  trace h (Reconcile name ns) w !! i = Some (Ev (S := KSig) c r) ∨
  trace h (member_Reconcile name ns) w !! i = Some (Ev (S := KSig) c r) ∨
  trace h (policy_Reconcile name ns) w !! i = Some (Ev (S := KSig) c r) →
  match c with
  | CStatusUpdate KProvider o => discreet o
  | CStatusUpdate KMember o => member_discreet o
  | CStatusUpdate KPolicy o => policy_discreet o
  | _ => True
  end.
Proof.
  intros [Hi|[Hi|Hi]].
  - pose proof (always_event _ _ _ _ _ _ _ _ (Reconcile_spec name ns) Hi) as HG.
    destruct c as [| | | |[]| | | | | | | | | | | |]; try done. by destruct HG as (p & _ & _ & _ & [? _] & _).
  - pose proof (always_event _ _ _ _ _ _ _ _ (member_Reconcile_spec name ns) Hi) as HG.
    destruct c as [| | | |[]| | | | | | | | | | | |]; try done. by destruct HG as (p & _ & _ & _ & [? _] & _).
  - pose proof (always_event _ _ _ _ _ _ _ _ (policy_Reconcile_spec name ns) Hi) as HG.
    destruct c as [| | | |[]| | | | | | | | | | | |]; try done. by destruct HG as (p & _ & _ & _ & [? _] & _).
Qed.
End claims.

(** ** Pure properties *)

(** Two provider objects never share a name on the gateway: namespaces are
    DNS labels and contain no dot, so namespace and name can be read back from
    the gateway's name. *)
Theorem provider_names_do_not_collide (p q : OpenShellProvider) :
  lacks "."%char (Namespace (ometa p)) = true → lacks "."%char (Namespace (ometa q)) = true →
  gatewayProviderName p = gatewayProviderName q →
  Namespace (ometa p) = Namespace (ometa q) ∧ Name (ometa p) = Name (ometa q).
Proof. intros Hp Hq E. by apply (join_inj "."%char). Qed.

(** Ports as the CRD schema admits them. *)
Definition ports_valid (spec : Policy.Spec) : Prop :=
  ∀ k rule ep, Policy.Network spec !! k = Some rule → ep ∈ Policy.Endpoints rule →
    (1 ≤ Policy.Port ep ≤ 65535)%Z.

Lemma uint32_valid x : (1 ≤ x ≤ 65535)%Z → uint32 x = x.
Proof. intros H. unfold uint32. apply Z.mod_small. lia. Qed.

(** What a message of the gateway's API says, in the terms of the spec. *)
Definition endpoint_of (e : RpcEndpoint) : Policy.NetworkEndpoint :=
  {| Policy.Host := EHost e; Policy.Port := EPort e; Policy.Protocol := EProtocol e;
     Policy.Enforcement := EEnforcement e; Policy.Access := EAccess e |}.
Definition rule_of (r : RpcRule) : Policy.NetworkPolicyRule :=
  {| Policy.RuleName := RName r; Policy.Endpoints := map endpoint_of (REndpoints r);
     Policy.Binaries := map Policy.mkBinary (RBinaries r) |}.
Definition filesystem_of (f : RpcFilesystem) : Policy.FilesystemPolicy :=
  {| Policy.IncludeWorkdir := FIncludeWorkdir f; Policy.ReadOnly := FReadOnly f;
     Policy.ReadWrite := FReadWrite f |}.
Definition process_of (p : RpcProcess) : Policy.ProcessPolicy :=
  {| Policy.RunAsUser := PRunAsUser p; Policy.RunAsGroup := PRunAsGroup p |}.
Definition spec_of (name : string) (m : SandboxPolicy) : Policy.Spec :=
  {| Policy.PolicyName := name; Policy.Filesystem := filesystem_of <$> PFilesystem m;
     Policy.Process := process_of <$> PProcess m;
     Policy.Network := rule_of <$> NetworkPolicies m |}.

Lemma rule_of_build r :
  (∀ e, e ∈ Policy.Endpoints r → (1 ≤ Policy.Port e ≤ 65535)%Z) → rule_of (build_rule r) = r.
Proof.
  destruct r as [n es bs]. cbn. intros He. unfold rule_of. cbn. f_equal.
  - induction es as [|e es IH]; [done|]. cbn. rewrite IH by (intros; apply He; by right). f_equal.
    unfold endpoint_of. cbn. rewrite uint32_valid by (apply He; by left). by destruct e.
  - induction bs as [|[b] bs IH]; [done|]. cbn. by rewrite IH.
Qed.

(** C21. The policy sent to the gateway says what the spec says: reading the
    fields of the message back, each under its own name, gives the spec up to
    its policy name, which is not sent, for ports in the range of the CRD. *)
Theorem buildSandboxPolicy_is_faithful s :
  ports_valid s → spec_of (Policy.PolicyName s) (buildSandboxPolicy s) = s.
Proof.
  intros Hv. destruct s as [nm f n p]. unfold spec_of, buildSandboxPolicy. cbn. f_equal.
  - by destruct f as [[]|].
  - rewrite <-map_fmap_compose. rewrite <-(map_fmap_id n) at 2. apply map_fmap_ext.
    intros k r Hr. apply rule_of_build. intros e. by apply (Hv k).
  - by destruct p as [[]|].
Qed.

(** ** The operator's token *)

Section tokens.
Context {C : Crypto} `{!CryptoLaws C} {T : TlsLib} {U : Unicode} {M : ApiMachinery} `{!ApiMachineryLaws M}.
Context {W : Type} (h : handler KSig W) (w : W) (name ns : string).

Lemma rpcs_are_connected tr i tok q r :
  tr ∈ [trace h (Reconcile name ns) w; trace h (member_Reconcile name ns) w;
        trace h (policy_Reconcile name ns) w] →
  tr !! i = Some (Ev (S := KSig) (CRpc tok q) r) → connected (take i tr) tok.
Proof.
  intros Htr Hi. rewrite !elem_of_cons, elem_of_nil in Htr.
  destruct Htr as [->|[->|[->|[]]]].
  - by apply (always_event _ _ _ _ _ _ _ _ (Reconcile_spec name ns) Hi).
  - by apply (always_event _ _ _ _ _ _ _ _ (member_Reconcile_spec name ns) Hi).
  - by apply (always_event _ _ _ _ _ _ _ _ (policy_Reconcile_spec name ns) Hi).
Qed.

(** C22. Every gateway call of the three controllers carries a token that
    verifies under the key of the auth-bridge of the gateway it is sent to: the
    reconcile listed the gateways and chose the oldest, read the Secret
    <gateway>-auth-bridge-keys of its namespace, took the time, and connected to
    port 8080 of its Service, in the clear only when the gateway's spec turns TLS
    off; and the token says that the auth-bridge issued it at that time, for one
    minute, for the gateway's audience, to the operator as an admin. *)
Theorem operator_tokens_verify tr i tok q r :
  tr ∈ [trace h (Reconcile name ns) w; trace h (member_Reconcile name ns) w;
        trace h (policy_Reconcile name ns) w] →
  tr !! i = Some (Ev (S := KSig) (CRpc tok q) r) →
  ∃ gws gw secret creds signer now,
    Ev (S := KSig) (CList KGateway None ∅) (inr gws) ∈ take i tr ∧
    oldestByCreationTimestamp gws = Some gw ∧
    Ev (S := KSig) (CGet KSecret (Name (ometa gw) +:+ "-auth-bridge-keys") (gatewayNamespace gw))
      (inr secret) ∈ take i tr ∧
    Ev (S := KSig) CNow now ∈ take i tr ∧
    Ev (S := KSig) (CDial (Name (ometa gw) +:+ "." +:+ gatewayNamespace gw +:+
      ".svc.cluster.local:8080") creds) None ∈ take i tr ∧
    (creds = Insecure → tlsEnabled gw = false) ∧
    NewJWTSignerFromPEM (secret_key secret "signing.pem") (secret_key secret "kid") = inr signer ∧
    verify_token (privateKey signer) tok =
      Some (json_render (header_json signer),
            json_render (claims_json (mkClaims "http://localhost:8085" "ogo-controller"
              "openshell-cli" (Unix (now + 60 * Second)) (Unix now) "ogo-controller" ""
              ["openshell-admin"]))).
Proof.
  intros Htr Hi. destruct (rpcs_are_connected _ _ _ _ _ Htr Hi) as
    (gw & (gws & Hl & Ho) & (secret & signer & now & Hg & Hn & Hs & Hm) & (creds & Hd & Hc)).
  exists gws, gw, secret, creds, signer, now. do 4 (split; [done|]).
  split; [unfold gateway_host in Hd; by rewrite !string_app_assoc in Hd|].
  do 2 (split; [done|]). by apply (MintToken_verifies _ _ _ _ _ _ _ _ _ _ Hm).
Qed.
End tokens.


(** The singleton rule: the chosen object is one of the list, nothing in
    the list is older, and when ages are distinct every order of the list gives
    the same answer. *)
Theorem oldest_is_canonical {k} (items items' : list (obj k)) o o' :
  oldestByCreationTimestamp items = Some o → oldestByCreationTimestamp items' = Some o' →
  (o ∈ items ∧ ∀ x, x ∈ items →
     Before (GetCreationTimestamp x) (GetCreationTimestamp o) = false) ∧
  ((∀ x, x ∈ items ↔ x ∈ items') →
   (∀ x y, x ∈ items → y ∈ items → GetCreationTimestamp x = GetCreationTimestamp y → x = y) →
   o = o').
Proof.
  intros Ho Ho'. split; [by apply oldest_spec|]. intros Hs Hd. by eapply oldest_unique.
Qed.

(** When two applied policies are deleted together, each sees the other as
    its successor: the reconcile drops the finalizer and leaves the global
    policy as it is, so the policy stays on the gateway without an owner. *)
Theorem joint_deletion_leaves_the_policy {C : Crypto} {T : TlsLib} {M : ApiMachinery} {W}
    (h : handler KSig W) (w : W) (a b : OpenShellPolicy) :
  deleting a → deleting b → UID (ometa a) ≠ UID (ometa b) →
  ContainsFinalizer (Finalizers (ometa a)) policyFinalizer = true →
  Policy.AppliedToGateway (odata a).2 = true →
  ((h (CList KPolicy None ∅) w).1 : err + list OpenShellPolicy) = inr [a; b] →
  let tr := trace h (policy_reconcileDelete a) w in
  policy_kept tr ∧
  ∃ r, Ev (S := KSig) (CUpdate KPolicy
         (set_finalizers (λ fs, RemoveFinalizer fs policyFinalizer) a)) r ∈ tr.
Proof.
  intros _ _ Hu Hf Ha Hl tr. subst tr. unfold policy_reconcileDelete, hasSuccessorPolicy.
  rewrite Hf, Ha. cbn [negb]. cbn. destruct (h (CList KPolicy None ∅) w) as [l w1] eqn:E.
  cbn in Hl. subst l. cbn. rewrite (bool_decide_eq_false_2 (UID (ometa b) = _)) by congruence.
  rewrite orb_true_r. cbn. destruct (h (CUpdate KPolicy _) w1) as [r w2]. cbn.
  split; [|exists r; right; by left]. intros g g' (g1 & [_ ->] & g2 & [_ ->] & ->). done.
Qed.

(** ** Witnesses *)

Definition toy_world (deleted : option Z) : handler KSig unit := cluster_handler (toy_cluster deleted).
Definition provider_trace (d : option Z) : list (event KSig) := trace (toy_world d) (Reconcile "p" "team") ().
Definition member_trace (d : option Z) : list (event KSig) := trace (toy_world d) (member_Reconcile "m" "team") ().
Definition policy_trace (d : option Z) (n : string) : list (event KSig) :=
  trace (toy_world d) (policy_Reconcile n "team") ().

(** What the provider's Synced status looks like in the concrete cluster. *)
Definition toy_synced_provider : OpenShellProvider :=
  synced_provider (toy_provider None) {["GH_TOKEN" := "s3cret"]}.

Lemma synced_provider_is_converged_witness :
  ∃ p, provider_read "p" "team" (take 9 (provider_trace None)) p ∧ ∀ s, tracks s p →
    serves (gateway_after s (take 9 (provider_trace None))) (take 9 (provider_trace None))
      toy_synced_provider ∧
    tracks (gateway_after s (take 9 (provider_trace None))) toy_synced_provider.
Proof.
  refine (synced_provider_is_converged (toy_world None) () "p" "team" 9 toy_synced_provider None _ _).
  - vm_compute. reflexivity.
  - reflexivity.
Defined.

Definition toy_dropped_provider : OpenShellProvider :=
  set_finalizers (λ fs, RemoveFinalizer fs providerFinalizer) (toy_provider (Some 1%Z)).

(** The operator's token in the concrete cluster. *)
Definition toy_admin_token : string :=
  match MintToken (mkSigner (C := toy_crypto) "key" "kid1") 1000 authBridgeInternalURL
          gatewayOIDCAudience "ogo-controller" "ogo-controller" "" [gatewayAdminRole] adminTokenTTL with
  | inr t => t
  | inl _ => ""
  end.

Lemma provider_calls_are_confined_witness :
  connected (take 8 (provider_trace None)) toy_admin_token ∧
  ∃ p, provider_read "p" "team" (take 8 (provider_trace None)) p ∧
    own_rpc p (UpdateProvider (desired_provider (toy_provider None) {["GH_TOKEN" := "s3cret"]})
                 defaultOpenShellWorkspace).
Proof.
  refine (provider_calls_are_confined (toy_world None) () "p" "team" 8
    (CRpc toy_admin_token (UpdateProvider
       (desired_provider (toy_provider None) {["GH_TOKEN" := "s3cret"]}) defaultOpenShellWorkspace))
    (inr ()) _).
  vm_compute. reflexivity.
Defined.

Definition toy_synced_member : OpenShellWorkspaceMember :=
  synced_member (with_subject (toy_member None) "") "uid-new".

Lemma synced_member_is_granted_witness :
  ∃ p, member_read "m" "team" (take 9 (member_trace None)) p ∧
    identity_read (take 9 (member_trace None)) p "uid-new" ∧
    certainly listed_ok any_failure (take 9 (member_trace None))
      (Member.Workspace (odata p).1, "uid-new")
      (Some (workspaceRoleFromSpec (Member.Role (odata p).1))).
Proof.
  refine (synced_member_is_granted (toy_world None) () "m" "team" 9 toy_synced_member None _ _).
  - vm_compute. reflexivity.
  - reflexivity.
Defined.

Lemma grants_follow_revocations_witness :
  ∃ p, member_read "m" "team" (take 8 (member_trace None)) p ∧
    identity_read (take 8 (member_trace None)) p "uid-new" ∧
    "ws" = Member.Workspace (odata p).1 ∧
    ROLE_ADMIN = workspaceRoleFromSpec (Member.Role (odata p).1) ∧
    ("uid-new" = Member.ReconciledSubject (odata p).2 ∨
     removal_confirmed (take 8 (member_trace None)) p).
Proof.
  refine (grants_follow_revocations (toy_world None) () "m" "team" 8 toy_admin_token
    "ws" "uid-new" ROLE_ADMIN (inr ()) _). vm_compute. reflexivity.
Defined.

Lemma status_forgets_no_membership_witness :
  ∃ p, member_read "m" "team" (take 9 (member_trace None)) p ∧
    (Member.ReconciledSubject (odata p).2 ≠ "" →
     "uid-new" ≠ Member.ReconciledSubject (odata p).2 →
     certainly any_answer any_but_add (take 9 (member_trace None))
       (Member.Workspace (odata p).1, Member.ReconciledSubject (odata p).2) None).
Proof.
  refine (status_forgets_no_membership (toy_world None) () "m" "team" 9 toy_synced_member None _).
  vm_compute. reflexivity.
Defined.

Definition toy_dropped_member : OpenShellWorkspaceMember :=
  set_finalizers (λ fs, RemoveFinalizer fs workspaceMemberFinalizer) (toy_member (Some 1%Z)).

Definition toy_old_policy (d : option Z) : OpenShellPolicy := toy_policy "old" "uid-1" 100 d true.

Lemma global_policy_has_one_owner_witness :
  connected (take 7 (policy_trace None "old")) toy_admin_token ∧
  ∃ p, policy_read "old" "team" (take 7 (policy_trace None "old")) p ∧
    (UpdateConfig (push_request (odata (toy_old_policy None)).1) =
       UpdateConfig (push_request (odata p).1) ∧ ¬ deleting p ∧
       is_active (take 7 (policy_trace None "old")) p ∨
     UpdateConfig (push_request (odata (toy_old_policy None)).1) = UpdateConfig retract_request ∧
       deleting p ∧ Policy.AppliedToGateway (odata p).2 = true ∧
       is_last (take 7 (policy_trace None "old")) p).
Proof.
  refine (global_policy_has_one_owner (toy_world None) () "old" "team" 7 toy_admin_token
    (UpdateConfig (push_request (odata (toy_old_policy None)).1)) (inr ()) _).
  vm_compute. reflexivity.
Defined.

Lemma policy_status_is_honest_witness :
  ∃ p, policy_read "old" "team" (take 8 (policy_trace None "old")) p ∧
    policy_honest (take 8 (policy_trace None "old")) p (synced_policy (toy_old_policy None)).
Proof.
  refine (policy_status_is_honest (toy_world None) () "old" "team" 8
    (synced_policy (toy_old_policy None)) None _). vm_compute. reflexivity.
Defined.

Definition toy_dropped_policy : OpenShellPolicy :=
  set_finalizers (λ fs, RemoveFinalizer fs policyFinalizer) (toy_old_policy (Some 1%Z)).

Lemma finalizers_wait_witness :
  (∃ p, provider_read "p" "team" (take 7 (provider_trace (Some 1%Z))) p ∧ deleting p ∧
     delete_confirmed (take 7 (provider_trace (Some 1%Z))) p ∧ "team.p" = gatewayProviderName p) ∧
  (∃ p, member_read "m" "team" (take 8 (member_trace (Some 1%Z))) p ∧ deleting p ∧
     removal_confirmed (take 8 (member_trace (Some 1%Z))) p) ∧
  ∃ p, policy_read "old" "team" (take 2 (policy_trace (Some 1%Z) "old")) p ∧ deleting p ∧
    (Policy.AppliedToGateway (odata p).2 = false ∨
     has_successor (take 2 (policy_trace (Some 1%Z) "old")) p ∨
     retraction_confirmed (take 2 (policy_trace (Some 1%Z) "old"))).
Proof.
  pose (waits n := finalizers_wait (toy_world (Some 1%Z)) () n "team").
  split; [|split].
  - refine (proj1 (waits "p" 7 None) toy_dropped_provider _ _);
      [vm_compute; reflexivity|vm_compute; intros H; inversion H].
  - refine (proj1 (proj2 (waits "m" 8 None)) toy_dropped_member _ _);
      [vm_compute; reflexivity|vm_compute; intros H; inversion H].
  - refine (proj2 (proj2 (waits "old" 2 None)) toy_dropped_policy _ _);
      [vm_compute; reflexivity|vm_compute; intros H; inversion H].
Defined.

(** A cluster without the signing key: the status says only that the gateway
    cannot be reached. *)
Definition keyless_world : handler KSig unit :=
  cluster_handler (mkCluster [toy_gateway] [toy_secret "creds" "team" {["token" := "s3cret"]}]
    [toy_provider None] [] [] []).

Definition toy_unreachable : OpenShellProvider :=
  let p := toy_provider None in
  with_status p (Provider.mkStatus phaseFailed 1
    (SetStatusCondition [] (mkCondition "Synced" ConditionFalse "GatewayUnreachable"
       "failed to reach the OpenShell gateway; see operator logs for details"))
    ["OLD_TOKEN"] []).

Lemma gateway_errors_stay_in_the_log_witness : discreet toy_unreachable.
Proof.
  refine (gateway_errors_stay_in_the_log keyless_world () "p" "team" 4
    (CStatusUpdate KProvider toy_unreachable) None _). left. vm_compute. reflexivity.
Defined.

Lemma provider_names_do_not_collide_witness :
  Namespace (ometa (toy_provider None)) = "team" ∧ Name (ometa (toy_provider None)) = "p".
Proof.
  refine (provider_names_do_not_collide (toy_provider None) (toy_provider (Some 1%Z)) _ _ _);
    vm_compute; reflexivity.
Defined.

Lemma toy_ports_valid d : ports_valid (odata (toy_old_policy d)).1.
Proof.
  intros k rule ep Hk He.
  assert (Policy.Network (odata (toy_old_policy d)).1 !! k = Some rule) as Hn by exact Hk.
  cbn [toy_old_policy toy_policy odata fst Policy.Network] in Hn.
  apply lookup_singleton_Some in Hn as [_ <-]. cbn in He.
  apply list_elem_of_singleton in He as ->. cbn. lia.
Qed.

Lemma buildSandboxPolicy_is_faithful_witness :
  spec_of "strict" (buildSandboxPolicy (odata (toy_old_policy None)).1) = (odata (toy_old_policy None)).1.
Proof.
  exact (buildSandboxPolicy_is_faithful (odata (toy_old_policy None)).1 (toy_ports_valid None)).
Defined.

Lemma operator_tokens_verify_witness :
  ∃ gws gw secret creds signer now,
    Ev (S := KSig) (CList KGateway None ∅) (inr gws) ∈ take 8 (provider_trace None) ∧
    oldestByCreationTimestamp gws = Some gw ∧
    Ev (S := KSig) (CGet KSecret (Name (ometa gw) +:+ "-auth-bridge-keys") (gatewayNamespace gw))
      (inr secret) ∈ take 8 (provider_trace None) ∧
    Ev (S := KSig) CNow now ∈ take 8 (provider_trace None) ∧
    Ev (S := KSig) (CDial (Name (ometa gw) +:+ "." +:+ gatewayNamespace gw +:+
      ".svc.cluster.local:8080") creds) None ∈ take 8 (provider_trace None) ∧
    (creds = Insecure → tlsEnabled gw = false) ∧
    NewJWTSignerFromPEM (secret_key secret "signing.pem") (secret_key secret "kid") = inr signer ∧
    verify_token (privateKey signer) toy_admin_token =
      Some (json_render (header_json signer),
            json_render (claims_json (mkClaims "http://localhost:8085" "ogo-controller"
              "openshell-cli" (Unix (now + 60 * Second)) (Unix now) "ogo-controller" ""
              ["openshell-admin"]))).
Proof.
  refine (operator_tokens_verify (toy_world None) () "p" "team" (provider_trace None) 8 toy_admin_token
    (UpdateProvider (desired_provider (toy_provider None) {["GH_TOKEN" := "s3cret"]})
       defaultOpenShellWorkspace) (inr ()) _ _); [by left|vm_compute; reflexivity].
Defined.

Definition toy_pair : list OpenShellPolicy :=
  [toy_policy "old" "uid-1" 100 None true; toy_policy "new" "uid-2" 200 None false].

Lemma oldest_is_canonical_witness :
  toy_policy "old" "uid-1" 100 None true ∈ toy_pair ∧ ∀ x, x ∈ toy_pair →
    Before (GetCreationTimestamp x)
      (GetCreationTimestamp (toy_policy "old" "uid-1" 100 None true)) = false.
Proof.
  refine (proj1 (oldest_is_canonical toy_pair (reverse toy_pair)
    (toy_policy "old" "uid-1" 100 None true) (toy_policy "old" "uid-1" 100 None true) _ _));
    vm_compute; reflexivity.
Defined.

(** Two policies deleted together. *)
Definition toy_a : OpenShellPolicy := toy_policy "a" "uid-1" 100 (Some 1%Z) true.
Definition toy_b : OpenShellPolicy := toy_policy "b" "uid-2" 200 (Some 1%Z) true.
Definition pair_world : handler KSig unit :=
  cluster_handler (mkCluster [toy_gateway] toy_secrets [] [] [toy_a; toy_b] []).

Lemma joint_deletion_leaves_the_policy_witness :
  policy_kept (trace pair_world (policy_reconcileDelete toy_a) ()) ∧
  ∃ r, Ev (S := KSig) (CUpdate KPolicy
         (set_finalizers (λ fs, RemoveFinalizer fs policyFinalizer) toy_a)) r
       ∈ trace pair_world (policy_reconcileDelete toy_a) ().
Proof.
  refine (joint_deletion_leaves_the_policy pair_world () toy_a toy_b _ _ _ _ _ _);
    try (by eexists); try reflexivity. vm_compute. discriminate.
Defined.
