(* ===== verification/Detect.v ===== *)
(** * internal/openshift/detect.go: which API groups the cluster serves

    A detection is cached for five minutes when positive and for thirty seconds
    when negative.  [mem_handler] gives the process its variables, so that the
    freshness of an answer can be stated over any sequence of checks. *)

From S2P Require Import Prelude Interaction Jwt ApiTypes Kube.

Definition positiveTTL : Z := 5 * Minute.
Definition negativeTTL : Z := 30 * Second.
Definition detection_ttl (found : bool) : Z := if found then positiveTTL else negativeTTL.

(** [cachedDetection.check]. *)
Definition check (groupVersion : string) : prog KSig bool :=
  c ← kdo (CDetectLoad groupVersion);
  now ← kdo CNow;
  if (now <? expiry c)%Z then mret (result c)
  else
    found ← kdo (CDiscover groupVersion);
    now ← kdo CNow;
    _ ← kdo (CDetectStore groupVersion (mkDetection found (now + detection_ttl found)));
    mret found.

Definition routeGroupVersion : string := "route.openshift.io/v1".
Definition gatewayGroupVersion : string := "gateway.networking.k8s.io/v1".
Definition userGroupVersion : string := "user.openshift.io/v1".

Definition IsOpenShift : prog KSig bool := check routeGroupVersion.
Definition HasGatewayAPI : prog KSig bool := check gatewayGroupVersion.
Definition HasGroupsAPI : prog KSig bool := check userGroupVersion.

(** ** The process-wide variables *)

(** The zero value of a cache: an answer that has expired. *)
Definition no_detection : cachedDetection := mkDetection false 0.

Section memory.
Context {W : Type} (h : handler KSig W).

Definition mem_handler : handler KSig (gmap string cachedDetection * W) := λ c s,
  match c return kresp c * (gmap string cachedDetection * W) with
  | CDetectLoad gv => (default no_detection (s.1 !! gv), s)
  | CDetectStore gv d => ((), (<[gv := d]> s.1, s.2))
  | c => let '(r, w) := h c s.2 in (r, (s.1, w))
  end.

(** The API server was asked about the group at position [i] of the history and
    the clock read right after it. *)
Definition probe_at (t : list (event KSig)) (i : nat) (gv : string) (found : bool) (at_ : Z) : Prop :=
  t !! i = Some (Ev (S := KSig) (CDiscover gv) found) ∧ t !! S i = Some (Ev (S := KSig) CNow at_).

Definition cache_ok (t : list (event KSig)) (m : gmap string cachedDetection) : Prop :=
  ∀ gv d, m !! gv = Some d → ∃ i at_, probe_at t i gv (result d) at_ ∧
    expiry d = (at_ + detection_ttl (result d))%Z.

Lemma probe_at_app t t' i gv b at_ : probe_at t i gv b at_ → probe_at (t ++ t') i gv b at_.
Proof. intros [H1 H2]. split; by apply lookup_app_l_Some. Qed.

Lemma cache_ok_app t t' m : cache_ok t m → cache_ok (t ++ t') m.
Proof. intros H gv d Hd. destruct (H gv d Hd) as (i & a & Hp & He). eauto using probe_at_app. Qed.

(** What one check answers, after a history [t] that justifies the caches. *)
Definition answered (t : list (event KSig)) (s : gmap string cachedDetection * W) (gv : string)
    : Prop :=
  let tr := trace mem_handler (check gv) s in
  let b := (run mem_handler (check gv) s).1 in
  (∃ at_, probe_at tr 2 gv b at_) ∨
  ∃ i at_ now, probe_at t i gv b at_ ∧ last tr = Some (Ev (S := KSig) CNow now) ∧
    (now < at_ + detection_ttl b)%Z.

Context (clock : ∀ w, (0 ≤ (h CNow w).1)%Z).

Lemma check_step t s gv :
  cache_ok t s.1 →
  answered t s gv ∧
  cache_ok (t ++ trace mem_handler (check gv) s) (run mem_handler (check gv) s).2.1.
Proof.
  destruct s as [m w]. intros Hok. cbn [fst] in Hok. unfold answered.
  pose proof (clock w) as Hw. unfold check. cbn [mbind prog_bind bind kdo trace run mem_handler].
  cbn [fst snd mbind prog_bind bind]. destruct (h CNow w) as [now w'] eqn:En. cbn [fst] in Hw.
  cbn [fst snd mbind prog_bind bind trace run]. destruct (Z.ltb_spec now (expiry (default no_detection (m !! gv)))) as [Hlt|].
  - cbn [trace run mret prog_ret fst snd]. destruct (m !! gv) as [d|] eqn:Ed; cbn [default] in *.
    + destruct (Hok gv d Ed) as (i & a & Hp & He). split; [|by apply cache_ok_app].
      right. exists i, a, now. split; [done|]. split; [done|]. change (now < a + detection_ttl (result d))%Z.
      rewrite <-He. exact Hlt.
    + change (now < 0)%Z in Hlt. lia.
  - cbn [trace run]. destruct (h (CDiscover gv) w') as [found w''] eqn:Ed.
    destruct (h CNow w'') as [now' w3] eqn:En'.
    assert (mem_handler (CDiscover gv) (m, w') = (found, (m, w''))) as -> by (cbn; by rewrite Ed).
    cbn [fst snd mbind prog_bind bind trace run].
    assert (mem_handler CNow (m, w'') = (now', (m, w3))) as -> by (cbn; by rewrite En').
    cbn [fst snd mbind prog_bind bind trace run mret prog_ret mem_handler].
    split; [left; exists now'; split; reflexivity|].
    intros gv' d. rewrite lookup_insert_Some. intros [[<- <-]|[_ Hd]].
    + exists (length t + 2), now'. split; [|done]. unfold probe_at.
      rewrite !lookup_app_r by lia.
      replace (S (length t + 2) - length t) with 3 by lia.
      replace (length t + 2 - length t) with 2 by lia. split; reflexivity.
    + destruct (Hok gv' d Hd) as (i & a & Hp & He). eauto using probe_at_app.
Qed.

(** Any sequence of checks. *)
Fixpoint checks (gvs : list string) : prog KSig unit :=
  match gvs with
  | [] => mret ()
  | gv :: gvs => _ ← check gv; checks gvs
  end.

Lemma checks_step t s gvs :
  cache_ok t s.1 →
  cache_ok (t ++ trace mem_handler (checks gvs) s) (run mem_handler (checks gvs) s).2.1.
Proof.
  revert t s. induction gvs as [|gv gvs IH]; intros t s Hok.
  - cbn. by rewrite app_nil_r.
  - cbn [checks]. rewrite trace_bind, run_bind.
    pose proof (proj2 (check_step t s gv Hok)) as Hok'.
    destruct (run mem_handler (check gv) s) as [b s'] eqn:E. cbn [fst snd] in Hok'.
    rewrite app_assoc. by apply IH.
Qed.
End memory.

(** C37. Detections are fresh: after any sequence of checks by a fresh process,
    the answer about an API group is that of a probe of the API server, made by
    this very check or no longer ago than five minutes for a positive answer
    and thirty seconds for a negative one. *)
Theorem detection_is_fresh {W} (h : handler KSig W) w gvs gv :
  (∀ w, (0 ≤ (h CNow w).1)%Z) →
  let s := (run (mem_handler h) (checks gvs) (∅, w)).2 in
  answered h (trace (mem_handler h) (checks gvs) (∅, w)) s gv.
Proof.
  intros Hc s. apply check_step; [done|].
  apply (checks_step h Hc [] (∅, w) gvs). cbn [fst].
  by intros gv' d Hd%lookup_empty_Some.
Qed.
