(* ===== verification/GatewayConfig.v ===== *)
(** * internal/gateway/config.go: the gateway's configuration file *)

From S2P Require Import Prelude GoStrings GoText ApiTypes Kube GatewayHelpers.
From Stdlib Require Import Ascii.
Import ApiTypes.Gateway.

Definition newline : ascii := "010"%char.

Section config.
Context {U : Unicode} (gw : OpenShellGateway).
Let spec : Spec := (odata gw).1.

Definition logLevel : string := if LogLevel spec <>s "" then LogLevel spec else "info".

Definition defaultImage : string :=
  if DefaultImage (Sandbox spec) <>s "" then DefaultImage (Sandbox spec)
  else "ghcr.io/nvidia/openshell-community/sandboxes/base:latest".

Definition supervisorImage : string :=
  let img := SupervisorImage spec in
  let img := if img =s "" then "ghcr.io/nvidia/openshell/supervisor" else img in
  if (ImageTag spec <>s "") && negb (Contains img ":") then img +:+ ":" +:+ ImageTag spec else img.

(** [b.WriteString(s + "\n")] and [fmt.Fprintf(&b, s + "%q\n", v)]. *)
Definition line (s : string) : string := s +:+ String newline "".
(** A quoted literal of the source. *)
Definition line_s (s v : string) : string := line (s +:+ String dquote (v +:+ String dquote "")).
Definition line_q (s v : string) : string := line (s +:+ Quote v).

Definition grpc_endpoint : string :=
  let gwNS := if GNamespace spec =s "" then "ogo" else GNamespace spec in
  (if tlsEnabled gw then "https" else "http") +:+ "://" +:+ Name (ometa gw) +:+ "." +:+ gwNS +:+
  ".svc.cluster.local:8080".

(** [fmt.Fprintf(&b, s + "%q\n", v)] under [if v != ""]. *)
Definition line_q_if (s v : string) : string := if v <>s "" then line_q s v else "".

(** The section written when the auth-bridge is on. *)
Definition oidc_table (issuer : string) : string :=
  line "" +:+ line "[openshell.gateway.oidc]" +:+
  line_q "issuer        = " issuer +:+
  line_s "audience      = " "openshell-cli" +:+
  line "jwks_ttl_secs = 300" +:+
  line_s "roles_claim   = " "realm_access.roles" +:+
  line_s "admin_role    = " "openshell-admin" +:+
  line_s "user_role     = " "openshell-user".

Definition RenderGatewayTOML (sandboxNS : string) (oidcIssuer : list string) : string :=
  line "[openshell]" +:+ line "version = 1" +:+ line "" +:+
  line "[openshell.gateway]" +:+
  line_s "bind_address          = " "0.0.0.0:8080" +:+
  line_s "health_bind_address   = " "0.0.0.0:8081" +:+
  line_s "metrics_bind_address  = " "0.0.0.0:9090" +:+
  line_q "log_level             = " logLevel +:+
  line_q "sandbox_namespace     = " sandboxNS +:+
  line_q "default_image         = " defaultImage +:+
  line_q "supervisor_image      = " supervisorImage +:+
  line "enable_loopback_service_http = true" +:+
  (if negb (tlsEnabled gw) then line "disable_tls            = true"
   else line_q "client_tls_secret_name = " (Name (ometa gw) +:+ "-client-tls")) +:+
  (if tlsEnabled gw then
     line "" +:+ line "[openshell.gateway.tls]" +:+
     line_s "cert_path             = " "/etc/openshell-tls/server/tls.crt" +:+
     line_s "key_path              = " "/etc/openshell-tls/server/tls.key" +:+
     line_s "client_ca_path        = " "/etc/openshell-tls/client-ca/ca.crt"
   else "") +:+
  (if AllowUnauthenticated (Auth spec) then
     line "" +:+ line "[openshell.gateway.auth]" +:+ line "allow_unauthenticated_users = true"
   else "") +:+
  (match oidcIssuer with
   | issuer :: _ =>
       if issuer <>s "" then oidc_table issuer else ""
   | [] => ""
   end) +:+
  line "" +:+ line "[openshell.gateway.gateway_jwt]" +:+
  line_s "signing_key_path = " "/etc/openshell-jwt/signing.pem" +:+
  line_s "public_key_path  = " "/etc/openshell-jwt/public.pem" +:+
  line_s "kid_path         = " "/etc/openshell-jwt/kid" +:+
  line_q "gateway_id       = " (Name (ometa gw)) +:+
  line "ttl_secs         = 3600" +:+
  line "" +:+ line "[openshell.drivers.kubernetes]" +:+
  line_q "grpc_endpoint                = " grpc_endpoint +:+
  line_q "service_account_name         = " (Name (ometa gw) +:+ "-sandbox") +:+
  line_s "supervisor_sideload_method   = " "init-container" +:+
  line "sa_token_ttl_secs            = 3600" +:+
  line_q_if "image_pull_policy            = " (ImagePullPolicy (Sandbox spec)) +:+
  line_q_if "workspace_default_storage_size = " (WorkspaceStorageSize (Sandbox spec)) +:+
  line_q_if "default_runtime_class_name   = " (RuntimeClassName (Sandbox spec)) +:+
  line_q_if "app_armor_profile            = " (AppArmorProfile (Sandbox spec)).
End config.
