(* ===== verification/Toml.v ===== *)
(** * Reading the configuration file back

    A reader for the fragment of TOML the operator writes (tables, basic
    strings, integers, booleans) and the proof that it finds exactly the
    settings of the spec: no value of printable ASCII, newlines, tabs, quotes
    and backslashes included, adds a line, closes its quotes or changes another
    setting. *)

From S2P Require Import Prelude GoStrings GoText ApiTypes Kube GatewayHelpers GatewayConfig.
From Stdlib Require Import Ascii.
Import ApiTypes.Gateway.

Create HintDb toml.

Inductive toml_val := TStr (s : string) | TInt (z : Z) | TBool (b : bool).
Inductive toml_line := Blank | Table (name : string) | KeyVal (key : string) (v : toml_val).

(** The character an escape stands for. *)
Definition unescape (b : ascii) : option ascii :=
  if bool_decide (b = dquote) then Some dquote
  else if bool_decide (b = backslash) then Some backslash
  else if bool_decide (b = "b"%char) then Some "008"%char
  else if bool_decide (b = "t"%char) then Some "009"%char
  else if bool_decide (b = "n"%char) then Some "010"%char
  else if bool_decide (b = "f"%char) then Some "012"%char
  else if bool_decide (b = "r"%char) then Some "013"%char
  else None.

Definition control (a : ascii) : bool :=
  let n := N_of_ascii a in (n <? 32)%N || (n =? 127)%N.

(** A basic string after its opening quote: the value and what follows the
    closing quote. *)
Fixpoint read_basic (s : string) : option (string * string) :=
  match s with
  | EmptyString => None
  | String a r =>
      if bool_decide (a = dquote) then Some ("", r)
      else if bool_decide (a = backslash) then
        match r with
        | EmptyString => None
        | String b r =>
            match unescape b, read_basic r with
            | Some c, Some (v, r) => Some (String c v, r)
            | _, _ => None
            end
        end
      else if control a then None
      else match read_basic r with
           | Some (v, r) => Some (String a v, r)
           | None => None
           end
  end.

Fixpoint read_digits (acc : Z) (s : string) : option Z :=
  match s with
  | EmptyString => Some acc
  | String a r =>
      let n := Z.of_N (N_of_ascii a) in
      if ((48 <=? n) && (n <=? 57))%Z then read_digits (acc * 10 + (n - 48)) r else None
  end.

Definition read_value (s : string) : option toml_val :=
  match s with
  | EmptyString => None
  | String a r =>
      if bool_decide (a = dquote) then
        match read_basic r with
        | Some (v, EmptyString) => Some (TStr v)
        | _ => None
        end
      else if s =s "true" then Some (TBool true)
      else if s =s "false" then Some (TBool false)
      else TInt <$> read_digits 0 s
  end.

Fixpoint skip_spaces (s : string) : string :=
  match s with
  | String a r => if bool_decide (a = " "%char) then skip_spaces r else s
  | EmptyString => s
  end.

Definition read_line (s : string) : option toml_line :=
  match s with
  | EmptyString => Some Blank
  | String a r =>
      if bool_decide (a = "["%char) then
        match split_at "]"%char r with
        | Some (name, EmptyString) => Some (Table name)
        | _ => None
        end
      else match split_at "="%char s with
           | Some (k, v) => KeyVal (TrimRightByte " "%char k) <$> read_value (skip_spaces v)
           | None => None
           end
  end.

Definition setting : Type := string * string * toml_val.

(** The settings of a document, [table] being the current one; [cur] is the
    text of the line read so far. *)
Fixpoint read_doc (table : string) (lines : list string) : option (list setting) :=
  match lines with
  | [] => Some []
  | l :: lines =>
      match read_line l with
      | None => None
      | Some Blank => read_doc table lines
      | Some (Table t) => read_doc t lines
      | Some (KeyVal k v) => cons (table, k, v) <$> read_doc table lines
      end
  end.

Fixpoint split_lines (s : string) : list string :=
  match s with
  | EmptyString => []
  | String a r =>
      if bool_decide (a = newline) then "" :: split_lines r
      else match split_lines r with
           | [] => [String a ""]
           | l :: ls => String a l :: ls
           end
  end.

Definition parse_toml (s : string) : option (list setting) := read_doc "" (split_lines s).

(** ** The settings a gateway asks for *)

Section settings.
Context (gw : OpenShellGateway) (sandboxNS : string) (oidcIssuer : list string).
Let spec : Spec := (odata gw).1.
Let name : string := Name (ometa gw).

Definition in_table (t : string) : list (string * toml_val) → list setting :=
  map (λ '(k, v), (t, k, v)).

Definition if_set (k v : string) : list (string * toml_val) :=
  if v <>s "" then [(k, TStr v)] else [].

Definition issuer_of : string := match oidcIssuer with i :: _ => i | [] => "" end.

Definition gateway_settings : list setting :=
  in_table "openshell" [("version", TInt 1)] ++
  in_table "openshell.gateway"
    [("bind_address", TStr "0.0.0.0:8080"); ("health_bind_address", TStr "0.0.0.0:8081");
     ("metrics_bind_address", TStr "0.0.0.0:9090"); ("log_level", TStr (logLevel gw));
     ("sandbox_namespace", TStr sandboxNS); ("default_image", TStr (defaultImage gw));
     ("supervisor_image", TStr (supervisorImage gw)); ("enable_loopback_service_http", TBool true)] ++
  (if negb (tlsEnabled gw) then in_table "openshell.gateway" [("disable_tls", TBool true)]
   else in_table "openshell.gateway" [("client_tls_secret_name", TStr (name +:+ "-client-tls"))]) ++
  (if tlsEnabled gw then in_table "openshell.gateway.tls"
     [("cert_path", TStr "/etc/openshell-tls/server/tls.crt");
      ("key_path", TStr "/etc/openshell-tls/server/tls.key");
      ("client_ca_path", TStr "/etc/openshell-tls/client-ca/ca.crt")] else []) ++
  (if AllowUnauthenticated (Auth spec)
   then in_table "openshell.gateway.auth" [("allow_unauthenticated_users", TBool true)] else []) ++
  (if issuer_of <>s "" then in_table "openshell.gateway.oidc"
     [("issuer", TStr issuer_of); ("audience", TStr "openshell-cli"); ("jwks_ttl_secs", TInt 300);
      ("roles_claim", TStr "realm_access.roles"); ("admin_role", TStr "openshell-admin");
      ("user_role", TStr "openshell-user")] else []) ++
  in_table "openshell.gateway.gateway_jwt"
    [("signing_key_path", TStr "/etc/openshell-jwt/signing.pem");
     ("public_key_path", TStr "/etc/openshell-jwt/public.pem");
     ("kid_path", TStr "/etc/openshell-jwt/kid"); ("gateway_id", TStr name); ("ttl_secs", TInt 3600)] ++
  in_table "openshell.drivers.kubernetes"
    [("grpc_endpoint", TStr (grpc_endpoint gw)); ("service_account_name", TStr (name +:+ "-sandbox"));
     ("supervisor_sideload_method", TStr "init-container"); ("sa_token_ttl_secs", TInt 3600)] ++
  in_table "openshell.drivers.kubernetes" (if_set "image_pull_policy" (ImagePullPolicy (Sandbox spec))) ++
  in_table "openshell.drivers.kubernetes"
    (if_set "workspace_default_storage_size" (WorkspaceStorageSize (Sandbox spec))) ++
  in_table "openshell.drivers.kubernetes"
    (if_set "default_runtime_class_name" (RuntimeClassName (Sandbox spec))) ++
  in_table "openshell.drivers.kubernetes" (if_set "app_armor_profile" (AppArmorProfile (Sandbox spec))).

(** The values the spec contributes. *)
Definition config_values : list string :=
  [name; GNamespace spec; sandboxNS; issuer_of; LogLevel spec; DefaultImage (Sandbox spec);
   SupervisorImage spec; ImageTag spec; ImagePullPolicy (Sandbox spec);
   WorkspaceStorageSize (Sandbox spec); RuntimeClassName (Sandbox spec);
   AppArmorProfile (Sandbox spec)].
End settings.

(** ** Reading what [%q] writes *)

(** Characters a value may contain: printable ASCII and the controls that TOML
    has an escape for. *)
Definition toml_safe (a : ascii) : bool :=
  let n := N_of_ascii a in
  between 32 126 n || (n =? 8)%N || (n =? 9)%N || (n =? 10)%N || (n =? 12)%N || (n =? 13)%N.
Definition safe (s : string) : bool := all_bytes toml_safe s.

Section reading.
Context {U : Unicode}.

(** One character: copied, or escaped by a pair the reader undoes. *)
Lemma escape_safe a s :
  toml_safe a = true →
  (escape_rune (N_of_ascii a) 1 (String a s) = String a "" ∧
     bool_decide (a = dquote) = false ∧ bool_decide (a = backslash) = false ∧ control a = false) ∨
  ∃ b, escape_rune (N_of_ascii a) 1 (String a s) = String backslash (String b "") ∧
    unescape b = Some a.
Proof.
  destruct a as [[] [] [] [] [] [] [] []]; vm_compute; intros H; try discriminate H;
    solve [left; by repeat split | right; eexists; split; reflexivity].
Qed.

Lemma toml_safe_ascii a : toml_safe a = true → (N_of_ascii a <? 128)%N = true.
Proof. by destruct a as [[] [] [] [] [] [] [] []]. Qed.

Lemma read_basic_quote s r :
  safe s = true → read_basic (quote_go 0 s +:+ String dquote r) = Some (s, r).
Proof.
  induction s as [|a s IH]; [done|]. unfold safe. cbn [all_bytes]. intros [Ha Hs]%andb_true_iff.
  cbn [quote_go]. rewrite DecodeRune_ascii by by apply toml_safe_ascii. cbn [Nat.sub].
  destruct (escape_safe a s Ha) as [(-> & H1 & H2 & H3)|(b & -> & Hb)]; rewrite !string_app_cons.
  - cbn [read_basic]. rewrite H1, H2, H3. change ("" +:+ quote_go 0 s) with (quote_go 0 s).
    by rewrite (IH Hs).
  - cbn [read_basic]. change ("" +:+ quote_go 0 s) with (quote_go 0 s). by rewrite Hb, (IH Hs).
Qed.

Lemma read_value_quote v : safe v = true → read_value (Quote v) = Some (TStr v).
Proof. intros Hv. unfold Quote. cbn [read_value]. by rewrite read_basic_quote. Qed.

(** The quoted form has no line break. *)
Lemma quote_go_one_line v : safe v = true → lacks newline (quote_go 0 v) = true.
Proof.
  induction v as [|a v IH]; [done|]. unfold safe. cbn [all_bytes]. intros [Ha Hv]%andb_true_iff.
  cbn [quote_go]. rewrite DecodeRune_ascii by by apply toml_safe_ascii. cbn [Nat.sub].
  unfold lacks in *. rewrite all_bytes_app, (IH Hv), andb_true_r.
  destruct (escape_safe a v Ha) as [(-> & H1 & H2 & H3)|(b & -> & Hb)]; cbn [all_bytes].
  - rewrite andb_true_r. by destruct a as [[] [] [] [] [] [] [] []].
  - rewrite andb_true_r. by destruct b as [[] [] [] [] [] [] [] []].
Qed.

Lemma quote_one_line v : safe v = true → lacks newline (Quote v) = true.
Proof.
  intros Hv. unfold Quote. pose proof (quote_go_one_line v Hv) as H. unfold lacks in *.
  cbn [all_bytes]. by rewrite all_bytes_app, H.
Qed.

(** ** Composing lines *)

Lemma split_lines_line l r :
  lacks newline l = true → split_lines (line l +:+ r) = l :: split_lines r.
Proof.
  unfold line, lacks. rewrite string_app_assoc. induction l as [|a l IH]; [done|].
  cbn [all_bytes]. intros [Ha Hl]%andb_true_iff. rewrite string_app_cons. cbn [split_lines].
  apply negb_true_iff in Ha. rewrite Ha, (IH Hl). done.
Qed.

(** The text [x] leads from table [t] to table [t'] and contributes [es]. *)
Definition reads (t x t' : string) (es : list setting) : Prop :=
  ∀ r, read_doc t (split_lines (x +:+ r)) = app es <$> read_doc t' (split_lines r).

Lemma reads_nil t : reads t "" t [].
Proof. intros r. change ("" +:+ r) with r. by destruct (read_doc t (split_lines r)). Qed.

Lemma reads_app t1 x t2 y t3 e1 e2 :
  reads t1 x t2 e1 → reads t2 y t3 e2 → reads t1 (x +:+ y) t3 (e1 ++ e2).
Proof.
  intros Hx Hy r. rewrite string_app_assoc, Hx, Hy. destruct (read_doc t3 (split_lines r)); [|done].
  cbn. by rewrite app_assoc.
Qed.

Lemma reads_key t l k v :
  lacks newline l = true → read_line l = Some (KeyVal k v) → reads t (line l) t [(t, k, v)].
Proof. intros Hl Hr r. rewrite split_lines_line by done. cbn [read_doc]. by rewrite Hr. Qed.

Lemma reads_table t l t' :
  lacks newline l = true → read_line l = Some (Table t') → reads t (line l) t' [].
Proof.
  intros Hl Hr r. rewrite split_lines_line by done. cbn [read_doc]. rewrite Hr.
  by destruct (read_doc t' (split_lines r)).
Qed.

Lemma reads_blank t : reads t (line "") t [].
Proof.
  intros r. rewrite split_lines_line by done. cbn [read_doc read_line].
  by destruct (read_doc t (split_lines r)).
Qed.

Lemma lacks_app c x y : lacks c (x +:+ y) = lacks c x && lacks c y.
Proof. apply all_bytes_app. Qed.

Lemma split_at_prefix c x y b r :
  split_at c x = Some (b, r) → split_at c (x +:+ y) = Some (b, r +:+ y).
Proof.
  intros [-> Hb]%split_at_Some. rewrite string_app_assoc, string_app_cons. by apply split_at_app.
Qed.

Lemma skip_spaces_quote s v : skip_spaces s = "" → skip_spaces (s +:+ Quote v) = Quote v.
Proof.
  induction s as [|a s IH]; [done|]. rewrite string_app_cons. cbn [skip_spaces].
  by case_bool_decide.
Qed.

(** The text before a quoted value: a key, an equals sign and spaces. *)
Definition key_of (pre : string) : option string :=
  match pre, split_at "="%char pre with
  | String a _, Some (k, sp) =>
      if bool_decide (a ≠ "["%char) && (skip_spaces sp =s "") && lacks newline pre
      then Some (TrimRightByte " "%char k) else None
  | _, _ => None
  end.

Lemma reads_quoted t pre k v :
  safe v = true → key_of pre = Some k → reads t (line_q pre v) t [(t, k, TStr v)].
Proof.
  intros Hv Hk. unfold key_of in Hk. destruct pre as [|a pre]; [done|].
  destruct (split_at "="%char (String a pre)) as [[k' sp]|] eqn:Es; [|done].
  destruct (bool_decide (a ≠ "["%char) && (skip_spaces sp =s "") && lacks newline (String a pre))
    eqn:Eb; [|done]. injection Hk as <-. bool_simpl. apply reads_key.
  - by rewrite lacks_app, H0, quote_one_line.
  - apply (split_at_prefix _ _ (Quote v)) in Es. unfold read_line. rewrite string_app_cons in *.
    rewrite bool_decide_eq_false_2, Es, skip_spaces_quote, read_value_quote by done. done.
Qed.

Lemma reads_optional t pre k v :
  safe v = true → key_of pre = Some k → reads t (line_q_if pre v) t (in_table t (if_set k v)).
Proof.
  intros Hv Hk. unfold line_q_if, if_set. case_bool_decide; cbn [negb]; [apply reads_nil|].
  by apply reads_quoted.
Qed.

Lemma reads_if (b : bool) t x y t1 t2 e1 e2 :
  reads t x t1 e1 → reads t y t2 e2 →
  reads t (if b then x else y) (if b then t1 else t2) (if b then e1 else e2).
Proof. by destruct b. Qed.

Lemma reads_eq t x t' es es' : reads t x t' es → es = es' → reads t x t' es'.
Proof. by intros ? <-. Qed.

Lemma reads_parse x t es : reads "" x t es → parse_toml x = Some es.
Proof.
  intros H. specialize (H ""). unfold parse_toml. rewrite string_app_nil_r in H. rewrite H.
  cbn. by rewrite app_nil_r.
Qed.

(** ** What the derived values are made of *)

Lemma safe_app x y : safe (x +:+ y) = safe x && safe y.
Proof. apply all_bytes_app. Qed.

Lemma safe_if (b : bool) x y : safe x = true → safe y = true → safe (if b then x else y) = true.
Proof. by destruct b. Qed.

Context (gw : OpenShellGateway) (sandboxNS : string) (oidcIssuer : list string).
Context (Hsafe : Forall (λ v, safe v = true) (config_values gw sandboxNS oidcIssuer)).

Lemma config_value_safe v : v ∈ config_values gw sandboxNS oidcIssuer → safe v = true.
Proof. intros Hv. rewrite Forall_forall in Hsafe. by apply Hsafe. Qed.

Ltac in_values := apply config_value_safe; unfold config_values;
  repeat first [apply list_elem_of_here | apply list_elem_of_further].
Ltac derived := repeat first
  [ rewrite safe_app, andb_true_iff; split | apply safe_if | reflexivity | in_values ].

Lemma logLevel_safe : safe (logLevel gw) = true.
Proof. unfold logLevel. derived. Qed.
Lemma defaultImage_safe : safe (defaultImage gw) = true.
Proof. unfold defaultImage. derived. Qed.
Lemma supervisorImage_safe : safe (supervisorImage gw) = true.
Proof. unfold supervisorImage. derived. Qed.
Lemma grpc_endpoint_safe : safe (grpc_endpoint gw) = true.
Proof. unfold grpc_endpoint. derived. Qed.

Ltac value_safe := solve [ apply logLevel_safe | apply defaultImage_safe | apply supervisorImage_safe
  | apply grpc_endpoint_safe | derived ].
(** One line of the document. *)
Ltac one_line := solve
  [ apply reads_blank | apply reads_nil
  | eapply reads_table; reflexivity
  | eapply reads_quoted; [value_safe | reflexivity]
  | eapply reads_optional; [value_safe | reflexivity]
  | eapply reads_key; reflexivity ].
Ltac document := repeat first
  [ one_line | eapply reads_app | eapply reads_if ].

Lemma with_issuer (f : string → string) :
  match oidcIssuer with i :: _ => if i <>s "" then f i else "" | [] => "" end =
  if issuer_of oidcIssuer <>s "" then f (issuer_of oidcIssuer) else "".
Proof. by destruct oidcIssuer. Qed.

Lemma reads_config :
  ∃ t, reads "" (RenderGatewayTOML gw sandboxNS oidcIssuer) t (gateway_settings gw sandboxNS oidcIssuer).
Proof.
  eexists. unfold RenderGatewayTOML. rewrite (with_issuer oidc_table).
  unfold oidc_table, gateway_settings, line_s. eapply reads_eq; [document|reflexivity].
Qed.
End reading.
