(* ===== verification/Pki.v ===== *)
(** * internal/pki/pki.go: the self-signed PKI and the signing keys

    Key generation and the encodings of crypto/x509 and encoding/pem are
    parameters ([X509]); which certificates are issued, by whom and for which
    names is the code's own. *)

From S2P Require Import Prelude Interaction GoStrings GoText GoErrors Jwt ApiTypes Kube.
From Stdlib Require Import Ascii.

(** [x509.Certificate] as the code fills it. *)
Record Certificate := mkCertificate {
  SerialNumber : string; CommonName : string; NotBefore : Z; NotAfter : Z;
  KeyUsage : list string; ExtKeyUsage : list string; IsCA : bool;
  DNSNames : list string; IPAddresses : list string
}.

Class X509 (C : Crypto) := {
  ec_key : Type;
  ec_GenerateKey : string → err + ec_key;               (* of the entropy *)
  (* CreateCertificate(rand, template, parent, public half of the key, signer) *)
  CreateCertificate : string → Certificate → Certificate → ec_key → ec_key → err + string;
  ParseCertificate : string → err + Certificate;
  MarshalECPrivateKey : ec_key → err + string;
  pem_EncodeToMemory : string → string → string;        (* block type, bytes *)
  ParseIP : string → option string;
  rsa_GenerateKey : string → err + rsa_key;
  MarshalPKCS8_rsa : rsa_key → err + string;
  ed_key : Type;
  ed_GenerateKey : string → err + ed_key;
  MarshalPKCS8_ed : ed_key → err + string;
  MarshalPKIXPublicKey_ed : ed_key → err + string
}.

(** Documented round trips of the encodings. *)
Class X509Laws (C : Crypto) (X : X509 C) : Prop := {
  pem_round_trip : ∀ ty bytes, pem_Decode (pem_EncodeToMemory ty bytes) = Some bytes;
  pkcs8_round_trip : ∀ k der, MarshalPKCS8_rsa k = inr der → ParsePKCS8PrivateKey der = inr (Some k)
}.

Record Bundle := mkBundle {
  CACert : string; CAKey : string; ServerCert : string; ServerKey : string;
  ClientCert : string; ClientKey : string
}.

Record JWTKeys := mkJWTKeys { SigningKey : string; PublicKey : string; KID : string }.

Section pki.
Context {C : Crypto} {X : X509 C}.

(** [newSerial]: a random 128-bit number. *)
Definition newSerial : prog KSig string := kdo (CRand 16).

Definition pemEncodeCert (der : string) : string := pem_EncodeToMemory "CERTIFICATE" der.

Definition marshalECPrivateKey (key : ec_key) : err + string :=
  match MarshalECPrivateKey key with
  | inl e => inl (Errorf_w "marshaling EC private key: " e)
  | inr der => inr (pem_EncodeToMemory "EC PRIVATE KEY" der)
  end.

(** The names of the certificate: addresses and host names apart, in order. *)
Definition san_ips (sans : list string) : list string := omap ParseIP sans.
Definition san_names (sans : list string) : list string :=
  List.filter (λ s, match ParseIP s with None => true | Some _ => false end) sans.

Definition ca_template (serial : string) (from to : Z) : Certificate :=
  mkCertificate serial "openshell-ca" (from - 1 * Hour) (to + 10 * 365 * 24 * Hour)
    ["CertSign"; "CRLSign"] [] true [] [].

Definition leaf_template (serial cn : string) (from to : Z) (sans : list string) (usage : string)
    : Certificate :=
  mkCertificate serial cn (from - 1 * Hour) (to + 365 * 24 * Hour)
    ["DigitalSignature"; "KeyEncipherment"] [usage] false (san_names sans) (san_ips sans).

Definition issueCert (caCert : Certificate) (caKey : ec_key) (cn : string) (sans : list string)
    (usage : string) : prog KSig (err + (string * string)) :=
  seed ← kdo CEntropy;
  match ec_GenerateKey seed with
  | inl e => mret (inl e)
  | inr key =>
      serial ← newSerial;
      from ← kdo CNow;
      to ← kdo CNow;
      seed ← kdo CEntropy;
      match CreateCertificate seed (leaf_template serial cn from to sans usage) caCert key caKey with
      | inl e => mret (inl e)
      | inr certDER =>
          mret (match marshalECPrivateKey key with
                | inl e => inl e
                | inr keyBytes => inr (pemEncodeCert certDER, keyBytes)
                end)
      end
  end.

(** [GeneratePKI] after the CA certificate is made. *)
Definition issue_pair (caCert : Certificate) (caKey : ec_key) (caCertDER : string)
    (sans : list string) : prog KSig (err + Bundle) :=
  s ← issueCert caCert caKey "openshell-server" sans "ServerAuth";
  match s with
  | inl e => mret (inl (Errorf_w "issuing server certificate: " e))
  | inr (serverCert, serverKey) =>
      c ← issueCert caCert caKey "openshell-client" [] "ClientAuth";
      match c with
      | inl e => mret (inl (Errorf_w "issuing client certificate: " e))
      | inr (clientCert, clientKey) =>
          mret (match marshalECPrivateKey caKey with
                | inl e => inl e
                | inr caKeyBytes =>
                    let caCertPEM := pemEncodeCert caCertDER in
                    inr (mkBundle caCertPEM caKeyBytes (serverCert +:+ caCertPEM) serverKey
                           clientCert clientKey)
                end)
      end
  end.

Definition GeneratePKI (sans : list string) : prog KSig (err + Bundle) :=
  seed ← kdo CEntropy;
  match ec_GenerateKey seed with
  | inl e => mret (inl (Errorf_w "generating CA key: " e))
  | inr caKey =>
      serial ← newSerial;
      from ← kdo CNow;
      to ← kdo CNow;
      let caTemplate := ca_template serial from to in
      seed ← kdo CEntropy;
      match CreateCertificate seed caTemplate caTemplate caKey caKey with
      | inl e => mret (inl (Errorf_w "creating CA certificate: " e))
      | inr caCertDER =>
          match ParseCertificate caCertDER with
          | inl e => mret (inl (Errorf_w "parsing CA certificate: " e))
          | inr caCert => issue_pair caCert caKey caCertDER sans
          end
      end
  end.

Definition GenerateRSAKeys : prog KSig (err + JWTKeys) :=
  seed ← kdo CEntropy;
  mret (match rsa_GenerateKey seed with
        | inl e => inl (Errorf_w "generating RSA key: " e)
        | inr key =>
            match MarshalPKCS8_rsa key with
            | inl e => inl (Errorf_w "marshaling RSA private key: " e)
            | inr privBytes =>
                let pubBytes := MarshalPKCS1PublicKey key in
                inr (mkJWTKeys (pem_EncodeToMemory "PRIVATE KEY" privBytes)
                       (pem_EncodeToMemory "RSA PUBLIC KEY" pubBytes)
                       (hex_EncodeToString (take_bytes 16 (sha256_Sum256 pubBytes))))
            end
        end).

Definition GenerateJWTKeys : prog KSig (err + JWTKeys) :=
  seed ← kdo CEntropy;
  mret (match ed_GenerateKey seed with
        | inl e => inl (Errorf_w "generating Ed25519 key: " e)
        | inr key =>
            match MarshalPKCS8_ed key with
            | inl e => inl (Errorf_w "marshaling private key: " e)
            | inr privBytes =>
                match MarshalPKIXPublicKey_ed key with
                | inl e => inl (Errorf_w "marshaling public key: " e)
                | inr pubBytes =>
                    inr (mkJWTKeys (pem_EncodeToMemory "PRIVATE KEY" privBytes)
                           (pem_EncodeToMemory "PUBLIC KEY" pubBytes)
                           (hex_EncodeToString (take_bytes 16 (sha256_Sum256 pubBytes))))
                end
            end
        end).

(** The bytes [HashSANs] feeds to the hash: each name and a zero byte. *)
Fixpoint sans_digest_input (sans : list string) : string :=
  match sans with
  | [] => ""
  | s :: sans => s +:+ String "000"%char (sans_digest_input sans)
  end.

Definition HashSANs (sans : list string) : string :=
  hex_EncodeToString (take_bytes 16 (sha256_Sum256 (sans_digest_input sans))).

(** ** Facts *)

(** The digest input determines the list: names hold no zero byte. *)
Lemma sans_digest_input_inj l l' :
  Forall (λ s, lacks "000"%char s = true) l → Forall (λ s, lacks "000"%char s = true) l' →
  sans_digest_input l = sans_digest_input l' → l = l'.
Proof.
  revert l'. induction l as [|s l IH]; intros [|s' l']; cbn [sans_digest_input];
    rewrite ?Forall_cons; [done| | |].
  - intros _ _ H. by destruct s'.
  - intros _ _ H. by destruct s.
  - intros [Hs Hl] [Hs' Hl'] H. apply join_inj in H as [-> H]; [|done..]. f_equal. by apply IH.
Qed.

(** What is known of a bundle: one CA signed both leaves, the server's with the
    requested names, and the chain the server presents is leaf and CA. *)
Definition issued_by (caT : Certificate) (caKey : ec_key) (cn : string) (sans : list string)
    (usage certPEM keyPEM : string) : Prop :=
  ∃ key seed serial from to der,
    CreateCertificate seed (leaf_template serial cn from to sans usage) caT key caKey = inr der ∧
    certPEM = pemEncodeCert der ∧ marshalECPrivateKey key = inr keyPEM.

Definition bundle_ok (sans : list string) (b : Bundle) : Prop :=
  ∃ caT caKey caDER serverPEM,
    CACert b = pemEncodeCert caDER ∧ ParseCertificate caDER = inr caT ∧
    ServerCert b = serverPEM +:+ CACert b ∧
    issued_by caT caKey "openshell-server" sans "ServerAuth" serverPEM (ServerKey b) ∧
    issued_by caT caKey "openshell-client" [] "ClientAuth" (ClientCert b) (ClientKey b).

Context (G : list (event KSig) → call KSig → Prop).
Context (G_local : ∀ t c, match c with CEntropy | CRand _ | CNow => True | _ => False end → G t c).

Lemma issueCert_spec t caT caKey cn sans usage :
  always G (λ t' r, match r with
    | inr (cert, key) => issued_by caT caKey cn sans usage cert key
    | inl _ => True end) t (issueCert caT caKey cn sans usage).
Proof.
  unfold issueCert. always_step; [by apply G_local|]. destruct (ec_GenerateKey r) as [|key]; [done|].
  do 4 (always_step; [by apply G_local|]).
  destruct (CreateCertificate _ _ _ _ _) as [|der] eqn:Ec; [done|]. apply always_ret.
  destruct (marshalECPrivateKey key) as [|kb] eqn:Ek; [done|]. by exists key, r3, r0, r1, r2, der.
Qed.

Lemma GeneratePKI_spec t sans :
  always G (λ t' r, match r with inr b => bundle_ok sans b | inl _ => True end) t (GeneratePKI sans).
Proof.
  unfold GeneratePKI. always_step; [by apply G_local|].
  destruct (ec_GenerateKey r) as [|caKey]; [done|].
  do 4 (always_step; [by apply G_local|]).
  destruct (CreateCertificate _ _ _ _ _) as [|caDER]; [done|].
  destruct (ParseCertificate caDER) as [|caT] eqn:Ep; [done|].
  unfold issue_pair. eapply always_cut; [apply issueCert_spec|]. intros t1 [|[sc sk]] Hs; [done|].
  eapply always_cut; [apply issueCert_spec|]. intros t2 [|[cc ck]] Hc; [done|]. apply always_ret.
  destruct (marshalECPrivateKey caKey); [done|]. by exists caT, caKey, caDER, sc.
Qed.
End pki.

(** ** A generated signing key is the one that is loaded *)

Lemma hex_no_space s sp :
  all_bytes is_hex s = true → sp ∈ space_runes → HasPrefix s sp = false ∧ has_suffix s sp = false.
Proof.
  intros Hs Hsp.
  assert (all_bytes is_hex sp = false) as Hn.
  { assert (Forall (λ sp, all_bytes is_hex sp = false) space_runes) as HF
      by (repeat constructor). rewrite Forall_forall in HF. by apply HF. }
  split; apply not_true_iff_false; intros H; apply not_true_iff_false in Hn; apply Hn.
  - unfold HasPrefix in H. clear Hsp Hn. revert s Hs H.
    induction sp as [|b sp IH]; intros [|a s]; cbn [String.prefix]; [done..|].
    cbn [all_bytes]. intros [Ha Hs]%andb_true_iff. destruct (ascii_dec b a) as [->|]; [|done].
    intros H. by rewrite Ha, (IH s).
  - unfold has_suffix in H. apply andb_true_iff in H as [_ H]. apply bool_decide_eq_true in H.
    rewrite <-H. clear H Hn Hsp. generalize (String.length s - String.length sp). intros n.
    revert n Hs. induction s as [|a s IH]; intros [|n]; cbn [drop_bytes all_bytes]; try done.
    intros [_ Hs]%andb_true_iff. by apply IH.
Qed.

Lemma no_space_found (f : string → bool) l :
  (∀ sp, sp ∈ l → f sp = false) →
  fold_right (λ sp acc, if f sp then Some (String.length sp) else acc) None l = None.
Proof.
  induction l as [|sp l IH]; intros H; [done|]. cbn. rewrite (H sp) by apply list_elem_of_here.
  apply IH. intros sp' Hl. apply H. by apply list_elem_of_further.
Qed.

Lemma TrimSpace_hex s : all_bytes is_hex s = true → TrimSpace s = s.
Proof.
  intros Hs. assert (∀ n, trim_left_go n s = s) as Hl.
  { intros [|n]; [done|]. cbn [trim_left_go]. unfold first_space.
    rewrite no_space_found; [done|]. intros sp Hsp. by apply hex_no_space. }
  unfold TrimSpace. rewrite Hl. destruct (String.length s) as [|n]; [done|]. cbn [trim_right_go].
  unfold last_space. rewrite no_space_found; [done|]. intros sp Hsp. by apply hex_no_space.
Qed.

Lemma generated_signer_loads {C : Crypto} {X : X509 C} `{!X509Laws C X} key der :
  MarshalPKCS8_rsa key = inr der →
  NewJWTSignerFromPEM (pem_EncodeToMemory "PRIVATE KEY" der) (derive_kid key) =
    inr (mkSigner key (derive_kid key)).
Proof.
  intros Hd. unfold NewJWTSignerFromPEM.
  rewrite TrimSpace_hex by apply hex_encode_is_hex. rewrite pem_round_trip, (pkcs8_round_trip _ _ Hd).
  by case_bool_decide as He.
Qed.
