(* ===== verification/GatewayTls.v ===== *)
(** * Certificates, trust bundles and signing keys of a gateway

    The TLS, CA and key steps of openshellgateway_controller.go. *)

From S2P Require Import Prelude Interaction GoStrings GoText GoErrors Jwt ApiTypes Kube Detect Pki.
From S2P Require Import GatewayHelpers.
Import ApiTypes.Gateway.

(** ** Shared shapes *)

Definition certificateKind : kind := KUnstructured "cert-manager.io" "v1" "Certificate".

(** An unstructured object with the operator's labels. *)
Definition new_unstructured (g v kd name ns : string) (labels : gmap string string)
    (fields : list (string * json)) : obj (KUnstructured g v kd) :=
  mkObj (k := KUnstructured g v kd) (with_labels labels (named name ns)) fields.

Definition set_fields {g v kd} (o : obj (KUnstructured g v kd)) (fields : list (string * json))
    : obj (KUnstructured g v kd) :=
  mkObj (k := KUnstructured g v kd) (ometa o) fields.

Definition fields_of {g v kd} (o : obj (KUnstructured g v kd)) : list (string * json) := odata o.

(** [r.Create(ctx, o)] when only its error is used. *)
Definition create (k : kind) (o : obj k) : prog KSig (option err) :=
  r ← kdo (CCreate k o);
  mret (match r with inl e => Some e | inr _ => None end).

(** [if err := p; err != nil { return fmt.Errorf(pre, err) }]. *)
Definition wrapping (pre : string) (e : option err) : option err := Errorf_w pre <$> e.

(** [if err := p; err != nil { return err }; q]. *)
Notation "p ;;? q" :=
  (mbind (λ r_, match r_ with Some e_ => mret (Some e_) | None => q end) p)
  (at level 100, q at level 200, right associativity, only parsing) : ogo_scope.

Section tls.
Context {C : Crypto} {X : X509 C} {U : Unicode} {M : ApiMachinery}.

(** ** The public certificate of the Gateway API listener *)

Section certificate.
Context (gw : OpenShellGateway) (secretName hostname : string).
Let spec : Spec := (odata gw).1.

Definition issuerName : string :=
  if IssuerName (CertManager (TLS spec)) =s "" then "letsencrypt"
  else IssuerName (CertManager (TLS spec)).
Definition issuerKind : string :=
  if IssuerKind (CertManager (TLS spec)) =s "" then "ClusterIssuer"
  else IssuerKind (CertManager (TLS spec)).

Definition certificate_spec : json :=
  JObj [("secretName", JStr secretName); ("dnsNames", JArr [JStr hostname]);
        ("issuerRef", JObj [("name", JStr issuerName); ("kind", JStr issuerKind)])].

(** The synchronisation of an existing Certificate. *)
Definition sync_certificate (existing : obj certificateKind) : prog KSig (option err) :=
  let o := fields_of existing in
  match NestedStringSlice o ["spec"; "dnsNames"] with
  | inl e => mret (Some (Errorf_w "reading existing Certificate dnsNames: " e))
  | inr existingDNSNames =>
  match NestedString o ["spec"; "issuerRef"; "name"] with
  | inl e => mret (Some (Errorf_w "reading existing Certificate issuerRef.name: " e))
  | inr existingIssuerName =>
  match NestedString o ["spec"; "issuerRef"; "kind"] with
  | inl e => mret (Some (Errorf_w "reading existing Certificate issuerRef.kind: " e))
  | inr existingIssuerKind =>
      if bool_decide (existingDNSNames = [hostname]) && (existingIssuerName =s issuerName) &&
         (existingIssuerKind =s issuerKind) then mret None
      else
        match SetNestedStringSlice o [hostname] ["spec"; "dnsNames"] with
        | inl e => mret (Some (Errorf_w "updating Certificate dnsNames: " e))
        | inr o =>
        match SetNestedField o (JStr issuerName) ["spec"; "issuerRef"; "name"] with
        | inl e => mret (Some (Errorf_w "updating Certificate issuerRef.name: " e))
        | inr o =>
        match SetNestedField o (JStr issuerKind) ["spec"; "issuerRef"; "kind"] with
        | inl e => mret (Some (Errorf_w "updating Certificate issuerRef.kind: " e))
        | inr o => kdo (CUpdate certificateKind (set_fields existing o))
        end end end
  end end end.

Definition reconcileGatewayTLSCert : prog KSig (option err) :=
  let ns := gatewayNamespace gw in
  r ← kdo (CGet certificateKind secretName ns);
  match r with
  | inr existing => sync_certificate existing
  | inl e =>
      if negb (IsNotFound e) then
        ok ← kdo (CDiscover "cert-manager.io/v1");
        mret (Some (if negb ok
                    then Err "cert-manager CRDs not installed — required for Gateway API TLS"
                    else e))
      else create certificateKind
             (new_unstructured _ _ _ secretName ns (gatewayLabels gw) [("spec", certificate_spec)])
  end.
End certificate.

(** ** The self-signed PKI *)

Definition sansHashAnnotation : string := "ogo.aknochow.io/pki-sans-hash".

Definition server_tls_secret (gw : OpenShellGateway) (b : Bundle) (sansHash : string)
    (o : obj KSecret) : obj KSecret :=
  mkObj (k := KSecret)
    (with_annotations (<[sansHashAnnotation := sansHash]> (Annotations (ometa o)))
       (with_labels (gatewayLabels gw) (ometa o)))
    (mkSecret "kubernetes.io/tls"
       {["tls.crt" := ServerCert b; "tls.key" := ServerKey b; "ca.crt" := CACert b]}).

Definition client_tls_secret (gw : OpenShellGateway) (b : Bundle) (o : obj KSecret) : obj KSecret :=
  mkObj (k := KSecret) (with_labels (gatewayLabels gw) (ometa o))
    (mkSecret "kubernetes.io/tls"
       {["tls.crt" := ClientCert b; "tls.key" := ClientKey b; "ca.crt" := CACert b]}).

(** The server certificate covers the names the gateway has now; the hash is
    never empty, so nil annotations never match. *)
Definition sans_current (server : obj KSecret) (sansHash : string) : bool :=
  index (Annotations (ometa server)) sansHashAnnotation =s sansHash.

Definition write_pki (gw : OpenShellGateway) (sansHash : string) (b : Bundle)
    : prog KSig (option err) :=
  let ns := gatewayNamespace gw in
  s ← CreateOrUpdate_pure KSecret (Name (ometa gw) +:+ "-server-tls") ns (server_tls_secret gw b sansHash);
  match s with
  | Some e => mret (Some (Errorf_w "creating server TLS secret: " e))
  | None =>
      c ← CreateOrUpdate_pure KSecret (Name (ometa gw) +:+ "-client-tls") ns (client_tls_secret gw b);
      mret (wrapping "creating client TLS secret: " c)
  end.

Definition reconcileSelfSignedTLS (gw : OpenShellGateway) : prog KSig (option err) :=
  let ns := gatewayNamespace gw in
  let sans := computeServerSANs gw in
  let sansHash := HashSANs sans in
  server ← kdo (CGet KSecret (Name (ometa gw) +:+ "-server-tls") ns);
  let generate :=
    b ← GeneratePKI sans;
    match b with
    | inl e => mret (Some (Errorf_w "generating PKI: " e))
    | inr bundle => write_pki gw sansHash bundle
    end in
  match server with
  | inl e =>
      if negb (IsNotFound e) then mret (Some (Errorf_w "checking server TLS secret: " e))
      else
        client ← kdo (CGet KSecret (Name (ometa gw) +:+ "-client-tls") ns);
        match client with
        | inl e => if negb (IsNotFound e) then mret (Some (Errorf_w "checking client TLS secret: " e))
                   else generate
        | inr _ => generate
        end
  | inr serverSecret =>
      client ← kdo (CGet KSecret (Name (ometa gw) +:+ "-client-tls") ns);
      match client with
      | inl e => if negb (IsNotFound e) then mret (Some (Errorf_w "checking client TLS secret: " e))
                 else generate
      | inr _ => if sans_current serverSecret sansHash then mret None else generate
      end
  end.

Definition reconcileTLS (gw : OpenShellGateway) : prog KSig (option err) :=
  let tls := TLS (odata gw).1 in
  let hostname := Hostname (Route (odata gw).1) in
  if negb (tlsEnabled gw) then mret None
  else if ServerCertSecretName tls <>s "" then mret None
  else
    reconcileSelfSignedTLS gw ;;?
    (if CMEnabled (CertManager tls) && (hostname <>s "") then
       e ← reconcileGatewayTLSCert gw (Name (ometa gw) +:+ "-gateway-tls") hostname;
       mret (wrapping "reconciling cert-manager TLS certificate: " e)
     else mret None).

(** ** The CA-only ConfigMaps *)

Definition serverTLSCA (gw : OpenShellGateway) : prog KSig (err + string) :=
  let custom := ServerCertSecretName (TLS (odata gw).1) in
  let external := custom <>s "" in
  let secretName := if external then custom else Name (ometa gw) +:+ "-server-tls" in
  r ← kdo (CGet KSecret secretName (gatewayNamespace gw));
  match r with
  | inl e => mret (inl (Errorf_w "reading server TLS CA: " e))
  | inr secret =>
      let ca := secret_key secret "ca.crt" in
      if (ca =s "") && external then
        mret (inl (Err ("server TLS secret " +:+ Quote secretName +:+
          " (spec.tls.serverCertSecretName) has no ca.crt; " +:+
          "external server certificates must include the issuing CA under the ca.crt key — " +:+
          "a rotating leaf tls.crt certificate cannot be published as stable trust material")))
      else
        let ca := if ca =s "" then secret_key secret "tls.crt" else ca in
        if ca =s "" then
          mret (inl (Err ("server TLS secret " +:+ Quote secretName +:+
                          " has neither ca.crt nor tls.crt")))
        else mret (inr ca)
  end.

Definition reconcileCAConfigMap (gw : OpenShellGateway) (name : string) (enabled : bool)
    : prog KSig (option err) :=
  let namespace := gatewayNamespace gw in
  if negb enabled then
    r ← kdo (CGet KConfigMap name namespace);
    match r with
    | inl e => mret (if IsNotFound e then None else Some e)
    | inr configMap =>
        if managed_by_gateway gw (Labels (ometa configMap))
        then kdo (CDelete KConfigMap (Name (ometa configMap)) (Namespace (ometa configMap)))
        else mret None
    end
  else
    r ← serverTLSCA gw;
    match r with
    | inl e => mret (Some e)
    | inr destinationCA =>
        w ← CreateOrUpdate KConfigMap name namespace () (λ _ o, mret
          (if bool_decide (CreationTimestamp (ometa o) ≠ None) &&
              negb (managed_by_gateway gw (Labels (ometa o)))
           then inl (Err ("existing ConfigMap " +:+ namespace +:+ "/" +:+ name +:+
                          " is not managed by OGO"))
           else inr (mkObj (k := KConfigMap) (with_labels (gatewayLabels gw) (ometa o))
                       (mkConfigMap {["ca.crt" := destinationCA]} ∅)), ()));
        mret w.1
    end.

Definition reconcileAuthBridgeCA (gw : OpenShellGateway) : prog KSig (option err) :=
  isOCP ← (if tlsEnabled gw then IsOpenShift else mret false);
  reconcileCAConfigMap gw (Name (ometa gw) +:+ authCASuffix)
    (tlsEnabled gw && authBridgeEnabled gw isOCP).

Definition reconcileGatewayCA (gw : OpenShellGateway) : prog KSig (option err) :=
  reconcileCAConfigMap gw (Name (ometa gw) +:+ gatewayCASuffix) (tlsEnabled gw).

(** ** Signing keys *)

Definition key_secret (gw : OpenShellGateway) (name : string) (keys : JWTKeys) : obj KSecret :=
  mkObj (k := KSecret) (with_labels (gatewayLabels gw) (named name (gatewayNamespace gw)))
    (mkSecret "Opaque"
       {["signing.pem" := SigningKey keys; "public.pem" := PublicKey keys; "kid" := KID keys]}).

Definition reconcileAuthBridgeKeys (gw : OpenShellGateway) : prog KSig (option err) :=
  let secretName := Name (ometa gw) +:+ "-auth-bridge-keys" in
  r ← kdo (CGet KSecret secretName (gatewayNamespace gw));
  match r with
  | inr _ => mret None
  | inl e =>
      if negb (IsNotFound e) then mret (Some (Errorf_w "checking auth-bridge keys: " e))
      else
        keys ← GenerateRSAKeys;
        match keys with
        | inl e => mret (Some (Errorf_w "generating auth-bridge RSA keys: " e))
        | inr keys => create KSecret (key_secret gw secretName keys)
        end
  end.

Definition ensureEd25519KeySecret (gw : OpenShellGateway) (secretName : string)
    : prog KSig (option err) :=
  r ← kdo (CGet KSecret secretName (gatewayNamespace gw));
  match r with
  | inr _ => mret None
  | inl e =>
      if negb (IsNotFound e)
      then mret (Some (Errorf_w ("checking key secret " +:+ secretName +:+ ": ") e))
      else
        keys ← GenerateJWTKeys;
        match keys with
        | inl e => mret (Some (Errorf_w ("generating keys for " +:+ secretName +:+ ": ") e))
        | inr keys => create KSecret (key_secret gw secretName keys)
        end
  end.

Definition reconcileJWTKeys (gw : OpenShellGateway) : prog KSig (option err) :=
  ensureEd25519KeySecret gw (Name (ometa gw) +:+ "-jwt-keys").
End tls.
