(* ===== verification/GatewayResources.v ===== *)
(** * The core resources of a gateway

    Namespace, ServiceAccounts, RBAC, ConfigMap, state volume, Service and
    NetworkPolicy (openshellgateway_controller.go). *)

From S2P Require Import Prelude Interaction GoStrings GoText GoErrors Jwt ApiTypes Kube Detect.
From S2P Require Import GatewayHelpers GatewayConfig GatewayTls.
Import ApiTypes.Gateway.

Section resources.
Context {U : Unicode} (gw : OpenShellGateway).
Let spec : Spec := (odata gw).1.
Let name : string := Name (ometa gw).

Definition validateDatabaseSecret : prog KSig (option err) :=
  let ns := gatewayNamespace gw in
  let secretName := databaseSecretName gw in
  if secretName =s "" then
    mret (Some (Err "either spec.database.secretName or spec.database.embedded must be set"))
  else
    r ← kdo (CGet KSecret secretName ns);
    mret (match r with
          | inl e =>
              if IsNotFound e
              then Some (Err ("database secret " +:+ Quote secretName +:+
                              " not found in namespace " +:+ Quote ns))
              else Some (Errorf_w "checking database secret: " e)
          | inr secret =>
              match secret_data secret !! "uri" with
              | None => Some (Err ("database secret " +:+ Quote secretName +:+
                                   " missing required key " +:+ String dquote ("uri" +:+ String dquote "")))
              | Some _ => None
              end
          end).

(** [for _, nsName := range uniqueNamespaces(gw)]. *)
Fixpoint ensure_namespaces (nss : list string) : prog KSig (option err) :=
  match nss with
  | [] => mret None
  | nsName :: nss =>
      e ← CreateOrUpdate_pure KNamespace nsName "" (λ o,
            mkObj (k := KNamespace)
              (with_labels (<[labelManagedBy := managedByValue]> (Labels (ometa o))) (ometa o)) ());
      match e with
      | Some e => mret (Some (Errorf_w ("ensuring namespace " +:+ nsName +:+ ": ") e))
      | None => ensure_namespaces nss
      end
  end.

Definition reconcileNamespace : prog KSig (option err) := ensure_namespaces (uniqueNamespaces gw).

(** The object as it is, with the operator's labels and a new body. *)
Definition labelled (k : kind) (b : body k) (o : obj k) : obj k :=
  mkObj (with_labels (gatewayLabels gw) (ometa o)) b.

Definition reconcileGatewayServiceAccount : prog KSig (option err) :=
  CreateOrUpdate_pure KServiceAccount name (gatewayNamespace gw) (labelled KServiceAccount ()).

Definition reconcileSandboxServiceAccount : prog KSig (option err) :=
  CreateOrUpdate_pure KServiceAccount (name +:+ "-sandbox") (sandboxNamespace gw)
    (labelled KServiceAccount ()).

Definition node_reader_rules : list PolicyRule :=
  [mkPolicyRule ["authentication.k8s.io"] ["tokenreviews"] ["create"];
   mkPolicyRule [""] ["nodes"] ["get"; "list"; "watch"];
   mkPolicyRule ["user.openshift.io"] ["groups"] ["get"]].

Definition reconcileClusterRole : prog KSig (option err) :=
  CreateOrUpdate_pure KClusterRole (name +:+ "-node-reader") "" (labelled KClusterRole node_reader_rules).

(** A binding of a role to the gateway's own ServiceAccount. *)
Definition rbacGroup : string := "rbac.authorization.k8s.io".
Definition gateway_subject : Subject := mkSubject "ServiceAccount" name (gatewayNamespace gw).

Definition reconcileClusterRoleBinding : prog KSig (option err) :=
  CreateOrUpdate_pure KClusterRoleBinding (name +:+ "-node-reader") ""
    (labelled KClusterRoleBinding
       (Some (mkBinding (mkRoleRef rbacGroup "ClusterRole" (name +:+ "-node-reader")) [gateway_subject]))).

Definition sandbox_rules : list PolicyRule :=
  [mkPolicyRule ["agents.x-k8s.io"] ["sandboxes"; "sandboxes/status"]
     ["create"; "delete"; "get"; "list"; "patch"; "update"; "watch"];
   mkPolicyRule [""] ["events"] ["get"; "list"; "watch"];
   mkPolicyRule [""] ["pods"] ["get"]].

Definition reconcileRole : prog KSig (option err) :=
  CreateOrUpdate_pure KRole (name +:+ "-sandbox") (sandboxNamespace gw) (labelled KRole sandbox_rules).

Definition reconcileRoleBinding : prog KSig (option err) :=
  CreateOrUpdate_pure KRoleBinding (name +:+ "-sandbox") (sandboxNamespace gw)
    (labelled KRoleBinding
       (Some (mkBinding (mkRoleRef rbacGroup "Role" (name +:+ "-sandbox")) [gateway_subject]))).

Definition reconcileSCCBinding : prog KSig (option err) :=
  CreateOrUpdate_pure KClusterRoleBinding (name +:+ "-sandbox-scc-privileged") ""
    (labelled KClusterRoleBinding
       (Some (mkBinding (mkRoleRef rbacGroup "ClusterRole" "system:openshift:scc:privileged")
                [mkSubject "ServiceAccount" (name +:+ "-sandbox") (sandboxNamespace gw)]))).

(** The issuer passed to [RenderGatewayTOML]: empty unless the bridge runs. *)
Definition oidc_issuer (isOCP : bool) : string :=
  if authBridgeEnabled gw isOCP then authBridgeInternalURL else "".

Definition gateway_toml (isOCP : bool) : string :=
  RenderGatewayTOML gw (sandboxNamespace gw) [oidc_issuer isOCP].

Definition reconcileConfigMap : prog KSig (option err) :=
  isOCP ← IsOpenShift;
  CreateOrUpdate_pure KConfigMap (name +:+ "-config") (gatewayNamespace gw) (λ o,
    mkObj (k := KConfigMap) (with_labels (gatewayLabels gw) (ometa o))
      (mkConfigMap {["gateway.toml" := gateway_toml isOCP]} (BinaryData (odata o)))).

(** A claim is filled in only when it is created: its spec is immutable. *)
Definition fresh_pvc (labels : gmap string string) (size : string) (o : obj KPVC) : obj KPVC :=
  if bool_decide (CreationTimestamp (ometa o) = None)
  then mkObj (k := KPVC) (with_labels labels (ometa o)) (Some (mkPVC ["ReadWriteOnce"] size))
  else o.

Definition ensureGatewayStatePVC (ns : string) : prog KSig (option err) :=
  CreateOrUpdate_pure KPVC (name +:+ "-state") ns (fresh_pvc (gatewayLabels gw) "1Gi").

Definition auth_target_port : string := if tlsEnabled gw then "auth-tls" else "auth".

Definition service_ports (isOCP : bool) : list ServicePort :=
  [mkServicePort "grpc" 8080 (FromString "grpc") (Some "grpc");
   mkServicePort "metrics" 9090 (FromString "metrics") None] ++
  (if authBridgeEnabled gw isOCP
   then [mkServicePort "auth" 8085 (FromString auth_target_port) None] else []).

Definition gateway_service (isOCP : bool) : Service :=
  mkService "ClusterIP" (selectorLabels gw) (service_ports isOCP).

Definition reconcileService : prog KSig (option err) :=
  r ← CreateOrUpdate KService name (gatewayNamespace gw) () (λ _ o,
        isOCP ← IsOpenShift;
        mret (inr (labelled KService (Some (gateway_service isOCP)) o), ()));
  mret r.1.

Definition sandbox_netpol : Kube.NetworkPolicy :=
  mkNetPol {["openshell.ai/managed-by" := "openshell"]} ["Ingress"]
    {["kubernetes.io/metadata.name" := gatewayNamespace gw]} (selectorLabels gw) 2222.

Definition reconcileNetworkPolicy : prog KSig (option err) :=
  let n := name +:+ "-sandbox-ssh" in
  let ns := sandboxNamespace gw in
  if negb (unless_false (NPEnabled (Gateway.NetworkPolicy spec))) then
    r ← kdo (CGet KNetworkPolicy n ns);
    match r with
    | inl _ => mret None
    | inr existing =>
        d ← kdo (CDelete KNetworkPolicy (Name (ometa existing)) (Namespace (ometa existing)));
        mret (match d with
              | Some e => if IsNotFound e then None
                          else Some (Errorf_w "cleaning up disabled NetworkPolicy: " e)
              | None => None
              end)
    end
  else CreateOrUpdate_pure KNetworkPolicy n ns (labelled KNetworkPolicy (Some sandbox_netpol)).
End resources.
