(* ===== verification/GatewayDeployment.v ===== *)
(** * The gateway's Deployment

    [reconcileDeployment] and what it renders: the gateway container, the
    auth-bridge sidecar, their volumes and probes
    (openshellgateway_controller.go). *)

From S2P Require Import Prelude Interaction GoStrings GoText GoErrors Jwt ApiTypes Kube Detect.
From S2P Require Import GatewayHelpers GatewayConfig GatewayTls GatewayResources.
Import ApiTypes.Gateway.

(** ** Rendering *)

Section render.
Context {C : Crypto} {U : Unicode} (gw : OpenShellGateway) (isOCP : bool).
Let spec : Spec := (odata gw).1.
Let name : string := Name (ometa gw).

Definition replicas : Z := default 1%Z (Replicas spec).

(** The image, and the condition that says whether the tag was used. *)
Definition image_config : string * Condition :=
  let image := if Image spec =s "" then "ghcr.io/nvidia/openshell/gateway" else Image spec in
  let ok := mkCondition ConditionImageConfigValid ConditionTrue "OK" "" in
  if ImageTag spec <>s "" then
    if Contains image "@" then
      (image, mkCondition ConditionImageConfigValid ConditionFalse "ImageTagIgnored"
         ("spec.imageTag " +:+ Quote (ImageTag spec) +:+
          " is ignored because spec.image is already digest-pinned (" +:+ image +:+ ")"))
    else (image +:+ ":" +:+ ImageTag spec, ok)
  else (image, ok).

Definition config_hash (databaseSecretRevision : string) : string :=
  computeConfigHash (gateway_toml gw isOCP +:+ String newline "" +:+
    "database_secret_revision=" +:+ databaseSecretRevision).

Definition http_probe (path port scheme : string) (delay period failures : Z) : option Probe :=
  Some (mkProbe (HTTPGet path (FromString port) scheme) delay period failures).

Definition gateway_container : Container :=
  mkContainer "openshell-gateway" image_config.1 ["--config"; "/etc/openshell/gateway.toml"]
    [mkEnv "OPENSHELL_DB_URL" (EnvSecretKey (databaseSecretName gw) "uri");
     mkEnv "HOME" (EnvValue "/home/openshell")]
    [mkPort "grpc" 8080; mkPort "health" 8081; mkPort "metrics" 9090]
    (http_probe "/healthz" "health" "" 0 2 30)
    (http_probe "/healthz" "health" "" 2 5 3)
    (http_probe "/readyz" "health" "" 1 2 3)
    (Resources spec)
    ([mkMount "gateway-config" "/etc/openshell" true;
      mkMount "sandbox-jwt" "/etc/openshell-jwt" true;
      mkMount "gateway-state" "/home/openshell" false] ++
     (if tlsEnabled gw
      then [mkMount "tls-cert" "/etc/openshell-tls/server" true;
            mkMount "tls-client-ca" "/etc/openshell-tls/client-ca" true]
      else []))
    (mkSecurityContext (Some false) (if negb isOCP then Some true else None) ["ALL"]).

(** 0400 octal. *)
Definition key_mode : Z := 256.

Definition volumes : list Volume :=
  [mkVolume "gateway-config" (VConfigMap (name +:+ "-config"));
   mkVolume "sandbox-jwt" (VSecret (name +:+ "-jwt-keys") (Some key_mode) []);
   mkVolume "auth-bridge-keys" (VSecret (name +:+ "-auth-bridge-keys") (Some key_mode) []);
   mkVolume "gateway-state" (VClaim (name +:+ "-state"))] ++
  (if tlsEnabled gw then
     let serverSecretName := if ServerCertSecretName (TLS spec) <>s ""
                             then ServerCertSecretName (TLS spec) else name +:+ "-server-tls" in
     [mkVolume "tls-cert" (VSecret serverSecretName None []);
      mkVolume "tls-client-ca" (VSecret (name +:+ "-client-tls") None [("ca.crt", "ca.crt")])]
   else []).

Definition auth_env : list EnvVar :=
  [mkEnv "AUTH_BRIDGE_ISSUER" (EnvValue authBridgeInternalURL);
   mkEnv "AUTH_BRIDGE_EXTERNAL_ISSUER" (EnvValue (authBridgeExternalURL gw));
   mkEnv "AUTH_BRIDGE_OPENSHIFT_ISSUER" (EnvValue ("https://oauth-openshift." +:+ clusterDomain gw));
   mkEnv "AUTH_BRIDGE_CLIENT_ID" (EnvValue "openshell");
   mkEnv "AUTH_BRIDGE_CLIENT_SECRET" (EnvSecretKey (name +:+ "-oauth-client") "secret");
   mkEnv "AUTH_BRIDGE_USER_GROUP" (EnvValue (UserGroup (OpenShift (Auth spec))));
   mkEnv "AUTH_BRIDGE_ADMIN_GROUP" (EnvValue (AdminGroup (OpenShift (Auth spec))));
   mkEnv "AUTH_BRIDGE_TOKEN_TTL" (EnvValue (tokenTTL gw));
   mkEnv "AUTH_BRIDGE_SIGNING_KEY" (EnvValue "/etc/auth-bridge-keys/signing.pem");
   mkEnv "AUTH_BRIDGE_PUBLIC_KEY" (EnvValue "/etc/auth-bridge-keys/public.pem");
   mkEnv "AUTH_BRIDGE_KID" (EnvValue "/etc/auth-bridge-keys/kid")] ++
  (if tlsEnabled gw then
     [mkEnv "AUTH_BRIDGE_LISTEN" (EnvValue "127.0.0.1:8085");
      mkEnv "AUTH_BRIDGE_TLS_LISTEN" (EnvValue ":8443");
      mkEnv "AUTH_BRIDGE_TLS_CERT" (EnvValue "/etc/auth-bridge-tls/tls.crt");
      mkEnv "AUTH_BRIDGE_TLS_KEY" (EnvValue "/etc/auth-bridge-tls/tls.key")]
   else []).

Definition auth_container : Container :=
  let portName := auth_target_port gw in
  let port := if tlsEnabled gw then 8443%Z else 8085%Z in
  let scheme := if tlsEnabled gw then "HTTPS" else "HTTP" in
  mkContainer "auth-bridge" (authBridgeImage gw) [] auth_env
    [mkPort portName port]
    (http_probe "/healthz" portName scheme 0 2 15)
    (http_probe "/healthz" portName scheme 0 10 0)
    (http_probe "/healthz" portName scheme 1 5 0)
    (mkResources {["cpu" := "10m"; "memory" := "32Mi"]} {["cpu" := "100m"; "memory" := "128Mi"]})
    ([mkMount "auth-bridge-keys" "/etc/auth-bridge-keys" true] ++
     (if tlsEnabled gw then [mkMount "tls-cert" "/etc/auth-bridge-tls" true] else []))
    (mkSecurityContext (Some false) None ["ALL"]).

Definition containers : list Container :=
  gateway_container :: (if authBridgeEnabled gw isOCP then [auth_container] else []).

Definition pod_spec : PodSpec :=
  mkPodSpec name (Some 5%Z) containers volumes
    (if negb isOCP then Some (mkPodSecurity 1000 1000) else None).

Definition pod_template (databaseSecretRevision : string) : PodTemplate :=
  mkTemplate (gatewayLabels gw)
    {["ogo.aknochow.io/config-hash" := config_hash databaseSecretRevision]} pod_spec.

(** The fields the operator sets; the rest of an existing object stays. *)
Definition gateway_deployment (databaseSecretRevision : string) (o : obj KDeployment)
    : obj KDeployment :=
  mkObj (k := KDeployment) (with_labels (gatewayLabels gw) (ometa o))
    (mkDeployment (Some replicas) (Strategy (odata o)) (selectorLabels gw)
       (Some (pod_template databaseSecretRevision)) (ReadyReplicas (odata o))).
End render.

(** ** The step *)

(** [meta.SetStatusCondition(&gw.Status.Conditions, c)]. *)
Definition gw_status (gw : OpenShellGateway) : Status := (odata gw).2.
Definition with_gw_status (gw : OpenShellGateway) (s : Status) : OpenShellGateway :=
  mkObj (k := KGateway) (ometa gw) ((odata gw).1, s).
Definition set_conditions (s : Status) (cs : list Condition) : Status :=
  mkStatus (Phase s) (GatewayURL s) (ClientCertSecretName s) (ObservedGeneration s) cs.

Section step.
Context {C : Crypto} {U : Unicode} {M : ApiMachinery}.

Definition add_condition (c : Condition) (s : Status) : Status :=
  set_conditions s (SetStatusCondition (Conditions s) c).
Definition gw_condition (gw : OpenShellGateway) (c : Condition) : OpenShellGateway :=
  with_gw_status gw (add_condition c (gw_status gw)).

Definition databaseSecretRevision (gw : OpenShellGateway) : prog KSig (err + string) :=
  let secretName := databaseSecretName gw in
  if secretName =s "" then mret (inr "")
  else
    r ← kdo (CGet KSecret secretName (gatewayNamespace gw));
    mret (match r with
          | inl e => inl e
          | inr secret => inr (UID (ometa secret) +:+ "/" +:+ ResourceVersion (ometa secret))
          end).

Definition reconcileDeployment (gw : OpenShellGateway) : prog KSig (option err * OpenShellGateway) :=
  isOCP ← IsOpenShift;
  e ← ensureGatewayStatePVC gw (gatewayNamespace gw);
  match e with
  | Some e => mret (Some (Errorf_w "ensure gateway state PVC: " e), gw)
  | None =>
      CreateOrUpdate KDeployment (Name (ometa gw)) (gatewayNamespace gw) gw (λ gw o,
        rev ← databaseSecretRevision gw;
        mret (match rev with
              | inl e => (inl (Errorf_w "get database secret revision: " e), gw)
              | inr rev =>
                  (inr (gateway_deployment gw isOCP rev o), gw_condition gw (image_config gw).2)
              end))
  end.
End step.
