(* ===== verification/GatewayRouting.v ===== *)
(** * How a gateway is reached: Routes, Gateway API, OAuth client

    The routing steps of openshellgateway_controller.go.  Steps that record a
    condition on the gateway return the changed gateway. *)

From S2P Require Import Prelude Interaction GoStrings GoText GoErrors Jwt ApiTypes Kube Detect.
From S2P Require Import GatewayHelpers GatewayTls GatewayResources GatewayDeployment Pki.
Import ApiTypes.Gateway.

Definition routeKind : kind := KUnstructured "route.openshift.io" "v1" "Route".
Definition gatewayKind : kind := KUnstructured "gateway.networking.k8s.io" "v1" "Gateway".
Definition grpcRouteKind : kind := KUnstructured "gateway.networking.k8s.io" "v1" "GRPCRoute".
Definition btpKind : kind := KUnstructured "gateway.envoyproxy.io" "v1alpha1" "BackendTrafficPolicy".
Definition oauthClientKind : kind := KUnstructured "oauth.openshift.io" "v1" "OAuthClient".

(** [sort.Slice] by name; the names in a namespace are distinct. *)
Fixpoint insert_by_name {k} (o : obj k) (l : list (obj k)) : list (obj k) :=
  match l with
  | [] => [o]
  | o' :: l => if String.ltb (Name (ometa o')) (Name (ometa o)) then o' :: insert_by_name o l
               else o :: o' :: l
  end.
Fixpoint sort_by_name {k} (l : list (obj k)) : list (obj k) :=
  match l with
  | [] => []
  | o :: l => insert_by_name o (sort_by_name l)
  end.

Section routing.
Context {C : Crypto} {X : X509 C} {U : Unicode} {M : ApiMachinery}.

Definition routeManagedByGateway (gw : OpenShellGateway) (route : obj routeKind) : bool :=
  managed_by_gateway gw (Labels (ometa route)).

Definition managed_route_selector (gw : OpenShellGateway) : gmap string string :=
  {[labelManagedBy := managedByValue; labelInstance := Name (ometa gw)]}.

(** ** Routes the spec no longer asks for *)

(** [desired[key]] and [managedNames[name]]. *)
Definition route_desired (gw : OpenShellGateway) (useGWAPI authEnabled : bool) (n ns : string) : bool :=
  let enabled := routeEnabled gw in
  let name := Name (ometa gw) in
  if (n =s name) && (ns =s gatewayNamespace gw) then enabled && negb useGWAPI
  else if (n =s name +:+ "-gw") && (ns =s envoyGatewaySystemNS) then enabled && useGWAPI
  else if (n =s name +:+ "-auth") && (ns =s gatewayNamespace gw) then enabled && authEnabled
  else false.

Definition managed_route_name (gw : OpenShellGateway) (n : string) : bool :=
  let name := Name (ometa gw) in
  (n =s name) || (n =s name +:+ "-gw") || (n =s name +:+ "-auth").

Fixpoint delete_routes (what : string) (keep : obj routeKind → bool) (routes : list (obj routeKind))
    : prog KSig (option err) :=
  match routes with
  | [] => mret None
  | route :: routes =>
      if keep route then delete_routes what keep routes
      else
        d ← kdo (CDelete routeKind (Name (ometa route)) (Namespace (ometa route)));
        match d with
        | Some e =>
            if IsNotFound e then delete_routes what keep routes
            else mret (Some (Errorf_w ("deleting " +:+ what +:+ " Route " +:+ Namespace (ometa route) +:+
                                       "/" +:+ Name (ometa route) +:+ ": ") e))
        | None => delete_routes what keep routes
        end
  end.

Definition reconcileObsoleteRoutes (gw : OpenShellGateway) (useGWAPI authEnabled : bool)
    : prog KSig (option err) :=
  r ← kdo (CList routeKind None (managed_route_selector gw));
  match r with
  | inl e => mret (Some (Errorf_w "listing managed Routes: " e))
  | inr routes =>
      delete_routes "obsolete" (λ route,
        let n := Name (ometa route) in
        negb (managed_route_name gw n) ||
        route_desired gw useGWAPI authEnabled n (Namespace (ometa route))) routes
  end.

Definition deleteManagedRoutes (gw : OpenShellGateway) : prog KSig (option err) :=
  r ← kdo (CList routeKind None (managed_route_selector gw));
  match r with
  | inl e => mret (Some (Errorf_w "listing managed Routes: " e))
  | inr routes => delete_routes "managed" (λ _, false) routes
  end.

(** ** The passthrough Route *)

Definition new_route (gw : OpenShellGateway) (name ns : string) (spec : json) : obj routeKind :=
  new_unstructured _ _ _ name ns (gatewayLabels gw) [("spec", spec)].

Definition not_managed (ns name : string) : err :=
  Err ("route " +:+ ns +:+ "/" +:+ name +:+ " exists but is not managed by OGO").

Definition tls_termination (gw : OpenShellGateway) : string :=
  if tlsEnabled gw then "passthrough" else "edge".

Definition route_spec (gw : OpenShellGateway) : json :=
  JObj ([("to", JObj [("kind", JStr "Service"); ("name", JStr (Name (ometa gw)))]);
         ("port", JObj [("targetPort", JStr "grpc")]);
         ("tls", JObj (("termination", JStr (tls_termination gw)) ::
            (if negb (tlsEnabled gw) then [("insecureEdgeTerminationPolicy", JStr "Redirect")] else [])))] ++
        (if Hostname (Route (odata gw).1) <>s ""
         then [("host", JStr (Hostname (Route (odata gw).1)))] else [])).

Definition reconcileRoute (gw : OpenShellGateway) : prog KSig (option err) :=
  if negb (routeEnabled gw) then mret None
  else
    let ns := gatewayNamespace gw in
    let name := Name (ometa gw) in
    let hostname := Hostname (Route (odata gw).1) in
    let route := new_route gw name ns (route_spec gw) in
    r ← kdo (CGet routeKind name ns);
    match r with
    | inl e => if IsNotFound e then create routeKind route else mret (Some e)
    | inr existing =>
        if negb (routeManagedByGateway gw existing) then mret (Some (not_managed ns name))
        else
          let existingHost := ignoring "" (NestedString (fields_of existing) ["spec"; "host"]) in
          let existingTLS :=
            ignoring "" (NestedString (fields_of existing) ["spec"; "tls"; "termination"]) in
          if (hostname <>s "") && (existingHost <>s hostname) || (existingTLS <>s tls_termination gw) then
            d ← kdo (CDelete routeKind (Name (ometa existing)) (Namespace (ometa existing)));
            match d with
            | Some e => mret (Some (Errorf_w "deleting route for spec change: " e))
            | None => create routeKind route
            end
          else mret None
    end.

(** ** Gateway API *)

Definition hostname_missing : Condition :=
  mkCondition ConditionEnvoyRouteReady ConditionFalse reasonHostnameMissing
    "route.hostname is required when using Gateway API".

Definition gateway_cr (gw : OpenShellGateway) (tlsSecretName hostname : string) : obj gatewayKind :=
  new_unstructured _ _ _ (Name (ometa gw)) (gatewayNamespace gw) (gatewayLabels gw)
    [("spec", JObj
       [("gatewayClassName", JStr (gatewayClassName gw));
        ("listeners", JArr [JObj
          [("name", JStr "https"); ("port", JInt 443); ("protocol", JStr "HTTPS");
           ("hostname", JStr hostname);
           ("tls", JObj [("mode", JStr "Terminate");
              ("certificateRefs", JArr [JObj [("name", JStr tlsSecretName)]])]);
           ("allowedRoutes", JObj [("namespaces", JObj [("from", JStr "Same")])])]])])].

Definition grpc_route (gw : OpenShellGateway) (hostname : string) : obj grpcRouteKind :=
  new_unstructured _ _ _ (Name (ometa gw)) (gatewayNamespace gw) (gatewayLabels gw)
    [("spec", JObj
       [("parentRefs", JArr [JObj [("name", JStr (Name (ometa gw)))]]);
        ("hostnames", JArr [JStr hostname]);
        ("rules", JArr [JObj [("backendRefs", JArr [JObj
           [("name", JStr (Name (ometa gw))); ("port", JInt 8080)]])]])])].

Definition traffic_policy (gw : OpenShellGateway) : obj btpKind :=
  new_unstructured _ _ _ (Name (ometa gw) +:+ "-timeout") (gatewayNamespace gw) (gatewayLabels gw)
    [("spec", JObj
       [("targetRefs", JArr [JObj [("group", JStr "gateway.networking.k8s.io");
           ("kind", JStr "GRPCRoute"); ("name", JStr (Name (ometa gw)))]]);
        ("timeout", JObj [("http", JObj [("requestTimeout", JStr "0s")])])])].

(** The host name of the first listener of an existing Gateway. *)
Definition listener_hostname (existing : obj gatewayKind) : string :=
  match ignoring [] (NestedSlice (fields_of existing) ["spec"; "listeners"]) with
  | JObj l :: _ => match assoc "hostname" l with Some (JStr h) => h | _ => "" end
  | _ => ""
  end.

Definition gateway_drifted (gw : OpenShellGateway) (hostname : string) (existing : obj gatewayKind)
    : bool :=
  (listener_hostname existing <>s hostname) ||
  (ignoring "" (NestedString (fields_of existing) ["spec"; "gatewayClassName"]) <>s gatewayClassName gw).

Definition ensure_traffic_policy (gw : OpenShellGateway) : prog KSig (option err) :=
  r ← kdo (CGet btpKind (Name (ometa gw) +:+ "-timeout") (gatewayNamespace gw));
  match r with
  | inr _ => mret None
  | inl e =>
      if IsNotFound e then _ ← create btpKind (traffic_policy gw); mret None    (* logged *)
      else mret None
  end.

Definition ensure_grpc_route (gw : OpenShellGateway) (hostname : string) : prog KSig (option err) :=
  r ← kdo (CGet grpcRouteKind (Name (ometa gw)) (gatewayNamespace gw));
  match r with
  | inr _ => mret None
  | inl e =>
      if IsNotFound e
      then c ← create grpcRouteKind (grpc_route gw hostname); mret (wrapping "creating GRPCRoute: " c)
      else mret (Some (Errorf_w "getting GRPCRoute: " e))
  end.

Definition reconcileGatewayAPI (gw : OpenShellGateway) : prog KSig (option err * OpenShellGateway) :=
  let ns := gatewayNamespace gw in
  let hostname := Hostname (Route (odata gw).1) in
  if hostname =s "" then mret (None, gw_condition gw hostname_missing)
  else
    let tlsSecretName := Name (ometa gw) +:+ "-gateway-tls" in
    t ← reconcileGatewayTLSCert gw tlsSecretName hostname;
    match t with
    | Some e => mret (Some (Errorf_w "reconciling gateway TLS certificate: " e), gw)
    | None =>
        r ← kdo (CGet gatewayKind (Name (ometa gw)) ns);
        let rest :=
          e ← (ensure_grpc_route gw hostname ;;? ensure_traffic_policy gw); mret (e, gw) in
        match r with
        | inl e =>
            if IsNotFound e then
              c ← create gatewayKind (gateway_cr gw tlsSecretName hostname);
              match c with
              | Some e => mret (Some (Errorf_w "creating Gateway: " e), gw)
              | None => rest
              end
            else mret (Some (Errorf_w "getting Gateway: " e), gw)
        | inr existing =>
            if gateway_drifted gw hostname existing then
              d ← kdo (CDelete gatewayKind (Name (ometa existing)) (Namespace (ometa existing)));
              mret (match d with
                    | Some e => if IsNotFound e then None else Some (Errorf_w "deleting drifted Gateway: " e)
                    | None => None
                    end, gw)
            else rest
        end
    end.

(** ** The Route in front of the Envoy proxy *)

Definition envoy_condition (s : ConditionStatus) (reason message : string) : Condition :=
  mkCondition ConditionEnvoyRouteReady s reason message.

Definition envoy_route (gw : OpenShellGateway) (hostname : string) (svc : obj KService) : obj routeKind :=
  new_route gw (Name (ometa gw) +:+ "-gw") (Namespace (ometa svc))
    (JObj [("host", JStr hostname);
           ("to", JObj [("kind", JStr "Service"); ("name", JStr (Name (ometa svc)))]);
           ("port", JObj [("targetPort", JInt 10443)]);
           ("tls", JObj [("termination", JStr "passthrough")])]).

Definition proxy_selector (gw : OpenShellGateway) : gmap string string :=
  {["gateway.envoyproxy.io/owning-gateway-name" := Name (ometa gw);
    "gateway.envoyproxy.io/owning-gateway-namespace" := gatewayNamespace gw]}.

(** The Route of the proxy Service [envoySvc]. *)
Definition sync_envoy_route (gw : OpenShellGateway) (hostname : string) (envoySvc : obj KService)
    : prog KSig (Condition * option err) :=
  let routeName := Name (ometa gw) +:+ "-gw" in
  let route := envoy_route gw hostname envoySvc in
  r ← kdo (CGet routeKind routeName (Namespace (ometa envoySvc)));
  match r with
  | inl e =>
      if IsNotFound e then
        c ← create routeKind route;
        mret (match c with
              | Some e => (envoy_condition ConditionFalse "CreateFailed"
                  "Failed to create Route - see operator logs for details",
                  Some (Errorf_w "creating envoy route: " e))
              | None => (envoy_condition ConditionTrue "Created"
                  ("Route " +:+ routeName +:+ " created for host " +:+ hostname), None)
              end)
      else mret (envoy_condition ConditionFalse "GetFailed"
             "Failed to get existing Route - see operator logs for details",
             Some (Errorf_w "getting envoy route: " e))
  | inr existing =>
      if negb (routeManagedByGateway gw existing) then
        mret (envoy_condition ConditionFalse "OwnershipConflict" "Route exists but is not managed by OGO",
              Some (not_managed (Namespace (ometa existing)) (Name (ometa existing))))
      else
        let existingHost := ignoring "" (NestedString (fields_of existing) ["spec"; "host"]) in
        let existingToName := ignoring "" (NestedString (fields_of existing) ["spec"; "to"; "name"]) in
        if (existingHost <>s hostname) || (existingToName <>s Name (ometa envoySvc)) then
          d ← kdo (CDelete routeKind (Name (ometa existing)) (Namespace (ometa existing)));
          match d with
          | Some e => mret (envoy_condition ConditionFalse "UpdateFailed"
              "Failed to delete drifted Route - see operator logs for details",
              Some (Errorf_w "deleting drifted envoy route: " e))
          | None =>
              c ← create routeKind route;
              mret (match c with
                    | Some e => (envoy_condition ConditionFalse "RecreateFailed"
                        ("Deleted the drifted Route but failed to recreate it - no Route exists until " +:+
                         "the next reconcile retries this; see operator logs for details"),
                        Some (Errorf_w "recreating drifted envoy route: " e))
                    | None => (envoy_condition ConditionTrue "Created"
                        ("Route " +:+ routeName +:+ " recreated for host " +:+ hostname), None)
                    end)
          end
        else mret (envoy_condition ConditionTrue "Exists"
               ("Route " +:+ routeName +:+ " exists for host " +:+ hostname), None)
  end.

(** [None] is the zero condition: nothing to report. *)
Definition reconcileEnvoyRoute (gw : OpenShellGateway) : prog KSig (option Condition * option err) :=
  if negb (routeEnabled gw) then mret (None, None)
  else
    let hostname := Hostname (Route (odata gw).1) in
    if hostname =s "" then mret (Some hostname_missing, None)
    else
      r ← kdo (CList KService (Some envoyGatewaySystemNS) (proxy_selector gw));
      match r with
      | inl e => mret (Some (envoy_condition ConditionFalse "ListFailed"
          "Failed to list Envoy proxy services - see operator logs for details"),
          Some (Errorf_w "listing Envoy proxy services: " e))
      | inr svcs =>
          match (if (1 <? length svcs)%nat then sort_by_name svcs else svcs) with
          | [] => mret (Some (envoy_condition ConditionFalse "ProxyServiceNotFound"
              ("Waiting for Envoy Gateway to provision the proxy Service " +:+
               "(labeled gateway.envoyproxy.io/owning-gateway-name/-namespace) before the Route can be created")),
              None)
          | envoySvc :: _ =>
              r ← sync_envoy_route gw hostname envoySvc;
              mret (Some r.1, r.2)
          end
      end.

(** ** The auth-bridge's Route and OAuth client *)

Definition configmap_key (c : obj KConfigMap) (key : string) : string := index (CMData (odata c)) key.

Definition authBridgeRouteTLS (gw : OpenShellGateway) : prog KSig (err + json) :=
  if negb (tlsEnabled gw) then
    mret (inr (JObj [("termination", JStr "edge"); ("insecureEdgeTerminationPolicy", JStr "Redirect")]))
  else
    let configMapName := Name (ometa gw) +:+ authCASuffix in
    r ← kdo (CGet KConfigMap configMapName (gatewayNamespace gw));
    mret (match r with
          | inl e => inl (Errorf_w "reading auth-bridge CA ConfigMap: " e)
          | inr configMap =>
              let destinationCA := configmap_key configMap "ca.crt" in
              if destinationCA =s "" then
                inl (Err ("auth-bridge CA ConfigMap " +:+ Quote configMapName +:+ " is missing ca.crt"))
              else inr (JObj [("termination", JStr "reencrypt");
                              ("insecureEdgeTerminationPolicy", JStr "Redirect");
                              ("destinationCACertificate", JStr destinationCA)])
          end).

Definition auth_route_spec (gw : OpenShellGateway) (tlsConfig : json) (hostname : string)
    : list (string * json) :=
  [("to", JObj [("kind", JStr "Service"); ("name", JStr (Name (ometa gw))); ("weight", JInt 100)]);
   ("port", JObj [("targetPort", JStr "auth")]); ("tls", tlsConfig); ("wildcardPolicy", JStr "None")] ++
  (if hostname <>s "" then [("host", JStr hostname)] else []).

(** [existing.Object["spec"] = spec]. *)
Fixpoint set_field (k : string) (v : json) (l : list (string * json)) : list (string * json) :=
  match l with
  | [] => [(k, v)]
  | (k', v') :: l => if k' =s k then (k, v) :: l else (k', v') :: set_field k v l
  end.

Definition auth_hostname (gw : OpenShellGateway) : string :=
  let h := Hostname (Route (odata gw).1) in
  if h <>s "" then "openshell-auth." +:+ domainSuffix h else "".

Definition reconcileAuthBridgeRoute (gw : OpenShellGateway) : prog KSig (option err) :=
  if negb (routeEnabled gw) then mret None
  else
    let ns := gatewayNamespace gw in
    let routeName := Name (ometa gw) +:+ "-auth" in
    let hostname := auth_hostname gw in
    r ← kdo (CGet routeKind routeName ns);
    match r with
    | inl e =>
        if negb (IsNotFound e) then mret (Some e)
        else
          t ← authBridgeRouteTLS gw;
          match t with
          | inl e => mret (Some e)
          | inr tlsConfig =>
              create routeKind (new_route gw routeName ns (JObj (auth_route_spec gw tlsConfig hostname)))
          end
    | inr existing =>
        if negb (routeManagedByGateway gw existing) then mret (Some (not_managed ns routeName))
        else
          t ← authBridgeRouteTLS gw;
          match t with
          | inl e => mret (Some e)
          | inr tlsConfig =>
              match NestedMap (fields_of existing) ["spec"] with
              | inl e => mret (Some (Errorf_w "reading auth-bridge Route spec: " e))
              | inr existingSpec =>
                  let host :=
                    if hostname =s "" then
                      ignoring "" (NestedString (fields_of existing) ["spec"; "host"])
                    else hostname in
                  let spec := auth_route_spec gw tlsConfig host in
                  if Semantic_DeepEqual existingSpec spec then mret None
                  else kdo (CUpdate routeKind
                         (set_fields existing (set_field "spec" (JObj spec) (fields_of existing))))
              end
          end
    end.

Definition generateOAuthSecret : prog KSig string :=
  b ← kdo (CRand 24); mret (hex_EncodeToString b).

Definition oauth_secret (gw : OpenShellGateway) (clientSecret : string) : obj KSecret :=
  mkObj (k := KSecret)
    (with_labels (gatewayLabels gw) (named (Name (ometa gw) +:+ "-oauth-client") (gatewayNamespace gw)))
    (mkSecret "Opaque" {["secret" := clientSecret]}).

Definition callback_url (gw : OpenShellGateway) : string := authBridgeExternalURL gw +:+ "/callback".

Definition oauth_client (gw : OpenShellGateway) (clientSecret : string) : obj oauthClientKind :=
  new_unstructured _ _ _ "openshell" "" (gatewayLabels gw)
    [("secret", JStr clientSecret); ("grantMethod", JStr "auto");
     ("redirectURIs", JArr [JStr (callback_url gw)])].

(** The OAuthClient follows the Secret [secret]. *)
Definition sync_oauth_client (gw : OpenShellGateway) (clientSecret : string) : prog KSig (option err) :=
  r ← kdo (CGet oauthClientKind "openshell" "");
  match r with
  | inl e => if IsNotFound e then create oauthClientKind (oauth_client gw clientSecret)
             else mret (Some e)
  | inr existing =>
      let o := fields_of existing in
      match NestedString o ["secret"] with
      | inl e => mret (Some (Errorf_w "reading existing OAuthClient secret: " e))
      | inr existingSecret =>
      match NestedStringSlice o ["redirectURIs"] with
      | inl e => mret (Some (Errorf_w "reading existing OAuthClient redirectURIs: " e))
      | inr existingRedirectURIs =>
      match NestedString o ["grantMethod"] with
      | inl e => mret (Some (Errorf_w "reading existing OAuthClient grantMethod: " e))
      | inr existingGrantMethod =>
          if (existingSecret =s clientSecret) && bool_decide (existingRedirectURIs = [callback_url gw]) &&
             (existingGrantMethod =s "auto") then mret None
          else kdo (CUpdate oauthClientKind (set_fields existing
                 (set_field "grantMethod" (JStr "auto")
                    (set_field "redirectURIs" (JArr [JStr (callback_url gw)])
                       (set_field "secret" (JStr clientSecret) o)))))
      end end end
  end.

Definition reconcileOAuthClient (gw : OpenShellGateway) : prog KSig (option err) :=
  r ← kdo (CGet KSecret (Name (ometa gw) +:+ "-oauth-client") (gatewayNamespace gw));
  match r with
  | inr secret => sync_oauth_client gw (secret_key secret "secret")
  | inl e =>
      if IsNotFound e then
        clientSecret ← generateOAuthSecret;
        c ← kdo (CCreate KSecret (oauth_secret gw clientSecret));
        match c with
        | inl e => mret (Some (Errorf_w "creating OAuth client secret: " e))
        | inr secret => sync_oauth_client gw (secret_key secret "secret")
        end
      else mret (Some e)
  end.

(** ** All of it, on OpenShift *)

Definition sso_missing : Condition :=
  mkCondition ConditionBrowserSSOReady ConditionFalse reasonHostnameMissing
    ("spec.route.hostname is required when OpenShift browser SSO (spec.auth.openshift.enabled) and routing are both enabled; " +:+
     "set it explicitly, or disable browser SSO for headless-only (mTLS/ServiceAccount) access").
Definition sso_ready : Condition :=
  mkCondition ConditionBrowserSSOReady ConditionTrue "Ready" "Browser SSO hostname configured".

(** The failed step's name and error, or [None]. *)
Definition named_step (step : string) (e : option err) : option (string * err) := pair step <$> e.

Definition reconcile_browser_sso (gw : OpenShellGateway) (authEnabled : bool)
    : prog KSig (option (string * err) * OpenShellGateway) :=
  if negb authEnabled then mret (None, gw)
  else if browserSSOMissingHostname gw authEnabled then mret (None, gw_condition gw sso_missing)
  else
    let gw := gw_condition gw sso_ready in
    r ← reconcileAuthBridgeRoute gw;
    match r with
    | Some e => mret (Some ("AuthBridgeRoute", e), gw)
    | None => o ← reconcileOAuthClient gw; mret (named_step "OAuthClient" o, gw)
    end.

Definition reconcile_entry (gw : OpenShellGateway) (useGWAPI : bool)
    : prog KSig (option (string * err) * OpenShellGateway) :=
  if useGWAPI then
    r ← reconcileEnvoyRoute gw;
    let gw := match r.1 with Some c => gw_condition gw c | None => gw end in
    mret (named_step "EnvoyRoute" r.2, gw)
  else
    r ← reconcileRoute gw;
    mret (named_step "Route" r, gw).

Definition reconcileOpenShiftRouting (gw : OpenShellGateway) (useGWAPI authEnabled : bool)
    : prog KSig (option (string * err) * OpenShellGateway) :=
  o ← reconcileObsoleteRoutes gw useGWAPI authEnabled;
  match o with
  | Some e => mret (Some ("RouteCleanup", e), gw)
  | None =>
      r ← reconcile_entry gw useGWAPI;
      match r with
      | (Some e, gw) => mret (Some e, gw)
      | (None, gw) =>
          s ← reconcileSCCBinding gw;
          match s with
          | Some e => mret (Some ("SCCBinding", e), gw)
          | None => reconcile_browser_sso gw authEnabled
          end
      end
  end.
End routing.
