(* ===== verification/Dependencies.v ===== *)
(** * Dependencies of a gateway

    dependency.go, dep_envoygateway.go, dep_envoyproxyscc.go, dep_postgres.go
    and dep_groups.go.  The interface [DependencyReconciler] is a record of
    operations; YAML decoding of the embedded manifests is a parameter. *)

From S2P Require Import Prelude Interaction GoStrings GoText GoErrors Jwt ApiTypes Kube Detect.
From S2P Require Import GatewayHelpers GatewayTls GatewayResources.
Import ApiTypes.Gateway.

Definition labelProvisionedBy : string := "ogo.aknochow.io/provisioned-by".
Definition labelComponent : string := "ogo.aknochow.io/component".
Definition labelGatewayName : string := "ogo.aknochow.io/gateway-name".
Definition provisionedByOGO : string := "ogo".

Record DependencyReconciler := mkDependency {
  dep_name : string;
  dep_Enabled : OpenShellGateway → prog KSig bool;
  dep_Reconcile : OpenShellGateway → prog KSig (Condition * option err);
  dep_Cleanup : OpenShellGateway → prog KSig (option err)
}.

Definition ownershipLabels (component : string) (gw : OpenShellGateway) : gmap string string :=
  {[labelProvisionedBy := provisionedByOGO; labelComponent := component;
    labelGatewayName := Name (ometa gw); labelManagedBy := managedByValue]}.

Definition isOwnedByOGO (labels : gmap string string) : bool :=
  index labels labelProvisionedBy =s provisionedByOGO.

Definition gatewayClassKind : kind := KUnstructured "gateway.networking.k8s.io" "v1" "GatewayClass".
Definition crbKind : kind := KUnstructured "rbac.authorization.k8s.io" "v1" "ClusterRoleBinding".
Definition groupKind : kind := KUnstructured "user.openshift.io" "v1" "Group".

(** Get the object; delete it when it is OGO's.  Errors are only logged. *)
Definition delete_owned (k : kind) (name ns : string) : prog KSig unit :=
  r ← kdo (CGet k name ns);
  match r with
  | inl _ => mret ()
  | inr existing =>
      if isOwnedByOGO (Labels (ometa existing))
      then _ ← kdo (CDelete k (Name (ometa existing)) (Namespace (ometa existing))); mret ()
      else mret ()
  end.

Fixpoint for_each {A} (f : A → prog KSig unit) (l : list A) : prog KSig unit :=
  match l with
  | [] => mret ()
  | x :: l => _ ← f x; for_each f l
  end.

(** A binding of an SCC role to one ServiceAccount, as an unstructured object. *)
Definition scc_binding (name : string) (labels : gmap string string) (scc sa ns : string) : obj crbKind :=
  new_unstructured _ _ _ name "" labels
    [("roleRef", JObj [("apiGroup", JStr rbacGroup); ("kind", JStr "ClusterRole");
        ("name", JStr ("system:openshift:scc:" +:+ scc))]);
     ("subjects", JArr [JObj [("kind", JStr "ServiceAccount"); ("name", JStr sa);
        ("namespace", JStr ns)]])].

(** ** Envoy Gateway *)

Definition componentEnvoyGateway : string := "envoy-gateway".
Definition envoyGatewayVersion : string := "v1.3.2".

(** A document of an embedded manifest. *)
Record manifest := mkManifest {
  m_group : string; m_version : string; m_kind : string;
  m_obj : obj (KUnstructured m_group m_version m_kind)
}.

(** The embedded files and the YAML library: the documents of a stream up to
    its end or the error that stops it, and the decoding of one of them. *)
Class ManifestLib := {
  Manifests_ReadFile : string → err + string;
  yaml_documents : string → list string * option err;
  yaml_Decode : string → err + manifest
}.

Section envoygateway.
Context {ML : ManifestLib} {U : Unicode}.

Definition envoygateway_Enabled (gw : OpenShellGateway) : prog KSig bool :=
  let ga := GatewayAPI (Route (odata gw).1) in
  match GAEnabled ga with
  | Some false => mret false
  | enabled =>
      if negb (unless_false (InstallEnvoyGateway ga)) then mret false
      else match enabled with
           | Some _ => mret true
           | None => HasGatewayAPI
           end
  end.

Definition with_resource_version (rv : string) (m : ObjectMeta) : ObjectMeta :=
  mkMeta (Name m) (Namespace m) (Labels m) (Annotations m) (UID m) rv (Generation m)
    (CreationTimestamp m) (DeletionTimestamp m) (Finalizers m).

(** Kinds that are created once and never updated. *)
Definition create_once (kd : string) : bool := (kd =s "CustomResourceDefinition") || (kd =s "Job").

(** One document, already decoded; [Some] stops the loop. *)
Definition apply_object (labels : gmap string string) (m : manifest) : prog KSig (option err) :=
  if m_kind m =s "" then mret None
  else
    let k := KUnstructured (m_group m) (m_version m) (m_kind m) in
    let o : obj k := with_meta (λ mt, with_labels (labels ∪ Labels mt) mt) (m_obj m) in
    r ← kdo (CGet k (Name (ometa o)) (Namespace (ometa o)));
    match r with
    | inr existing =>
        if create_once (m_kind m) then mret None
        else if negb (isOwnedByOGO (Labels (ometa existing))) then mret None
        else
          u ← kdo (CUpdate k (with_meta (with_resource_version (ResourceVersion (ometa existing))) o));
          mret (wrapping ("updating " +:+ m_kind m +:+ "/" +:+ Name (ometa o) +:+ ": ") u)
    | inl _ =>
        c ← create k o;
        mret (match c with
              | Some e => if IsAlreadyExists e then None
                          else Some (Errorf_w ("creating " +:+ m_kind m +:+ "/" +:+ Name (ometa o) +:+ ": ") e)
              | None => None
              end)
    end.

Fixpoint apply_documents (labels : gmap string string) (docs : list string) (eof : option err)
    : prog KSig (option err) :=
  match docs with
  | [] => mret (wrapping "reading YAML document: " eof)
  | doc :: docs =>
      let doc := TrimSpace doc in
      if (doc =s "") || (doc =s "---") then apply_documents labels docs eof
      else
        match yaml_Decode doc with
        | inl e =>
            if Contains (Error e) "Object 'Kind' is missing" then apply_documents labels docs eof
            else mret (Some (Errorf_w "decoding manifest: " e))
        | inr m => apply_object labels m ;;? apply_documents labels docs eof
        end
  end.

Definition applyManifests (data : string) (gw : OpenShellGateway) : prog KSig (option err) :=
  let '(docs, eof) := yaml_documents data in
  apply_documents (ownershipLabels componentEnvoyGateway gw) docs eof.

Definition applyManifestFile (filename : string) (gw : OpenShellGateway) : prog KSig (option err) :=
  match Manifests_ReadFile filename with
  | inl e => mret (Some (Errorf_w ("reading embedded manifest " +:+ filename +:+ ": ") e))
  | inr data => applyManifests data gw
  end.

Definition shouldGrantSCCs (gw : OpenShellGateway) : bool :=
  unless_false (GrantSCCs (GatewayAPI (Route (odata gw).1))).

(** Name, ServiceAccount and SCC of each binding. *)
Definition scc_bindings : list (string * string * string) :=
  [("eg-gateway-helm-certgen-anyuid", "eg-gateway-helm-certgen", "anyuid");
   ("envoy-gateway-anyuid", "envoy-gateway", "anyuid")].

Fixpoint grant_sccs (labels : gmap string string) (l : list (string * string * string))
    : prog KSig (option err) :=
  match l with
  | [] => mret None
  | (name, sa, scc) :: l =>
      r ← kdo (CGet crbKind name "");
      match r with
      | inr _ => grant_sccs labels l
      | inl _ =>
          c ← create crbKind (scc_binding name labels scc sa envoyGatewaySystemNS);
          match c with
          | Some e => if IsAlreadyExists e then grant_sccs labels l
                      else mret (Some (Errorf_w ("creating SCC binding " +:+ name +:+ ": ") e))
          | None => grant_sccs labels l
          end
      end
  end.

Definition grantOpenShiftSCCs (gw : OpenShellGateway) : prog KSig (option err) :=
  grant_sccs (ownershipLabels componentEnvoyGateway gw) scc_bindings.

Definition eg_condition (s : ConditionStatus) (reason message : string) : Condition :=
  mkCondition ConditionEnvoyGatewayReady s reason message.

(** A failure with a generic message; the error itself is logged. *)
Definition eg_failed (reason message : string) (e : err) : Condition * option err :=
  (eg_condition ConditionFalse reason message, Some e).

(** The manifests, in order, when the GatewayClass does not exist yet. *)
Definition install_manifests (gw : OpenShellGateway) : prog KSig (option (string * err)) :=
  has ← HasGatewayAPI;
  e ← (if negb has then applyManifestFile "gatewayapi-crds.yaml" gw else mret None);
  match e with
  | Some e => mret (Some ("Failed to install Gateway API CRDs - see operator logs for details", e))
  | None =>
      e ← applyManifestFile "envoygateway-crds.yaml" gw;
      match e with
      | Some e => mret (Some ("Failed to install Envoy Gateway CRDs - see operator logs for details", e))
      | None =>
          e ← applyManifestFile "components.yaml" gw;
          mret (pair "Failed to install Envoy Gateway - see operator logs for details" <$> e)
      end
  end.

Definition installed_message (sccsSkipped : bool) : string :=
  "Envoy Gateway " +:+ envoyGatewayVersion +:+ " installed by OGO" +:+
  (if sccsSkipped
   then " (grantSCCs: false — SCC grants skipped, pods won't schedule until granted separately)" else "").

(** The install path: the GatewayClass is absent, or exists and is OGO's. *)
Definition install_envoygateway (gw : OpenShellGateway) (alreadyInstalled : bool)
    : prog KSig (Condition * option err) :=
  isOCP ← IsOpenShift;
  i ← (if negb alreadyInstalled then install_manifests gw else mret None);
  match i with
  | Some (message, e) => mret (eg_failed "InstallFailed" message e)
  | None =>
      g ← (if isOCP && shouldGrantSCCs gw then grantOpenShiftSCCs gw else mret None);
      mret (match g with
            | Some e => eg_failed "SCCFailed" "Failed to grant SCCs - see operator logs for details" e
            | None => (eg_condition ConditionTrue "Installed"
                         (installed_message (isOCP && negb (shouldGrantSCCs gw))), None)
            end)
  end.

Definition envoygateway_Reconcile (gw : OpenShellGateway) : prog KSig (Condition * option err) :=
  let gcName := gatewayClassName gw in
  let custom := 
    (eg_condition ConditionFalse "InvalidConfig"
       ("route.gatewayAPI.gatewayClassName " +:+ Quote gcName +:+ " requires an externally-managed " +:+
        "GatewayClass - the auto-install path can only create one named " +:+ Quote staticGatewayClassName),
     Some (Err ("custom gatewayClassName " +:+ Quote gcName +:+
                " requires an externally-managed GatewayClass"))) in
  r ← kdo (CGet gatewayClassKind gcName "");
  match r with
  | inr gc =>
      if negb (isOwnedByOGO (Labels (ometa gc))) then
        mret (eg_condition ConditionTrue "External" ("GatewayClass " +:+ Quote gcName +:+ " already exists"),
              None)
      else if gcName <>s staticGatewayClassName then mret custom
      else install_envoygateway gw true
  | inl e =>
      if negb (IsNotFound e) && negb (IsNoMatchError e) then
        mret (eg_failed "CheckFailed" "Failed to check GatewayClass - see operator logs for details" e)
      else if gcName <>s staticGatewayClassName then mret custom
      else install_envoygateway gw false
  end.

Definition envoygateway_Cleanup (gw : OpenShellGateway) : prog KSig (option err) :=
  r ← kdo (CGet gatewayClassKind (gatewayClassName gw) "");
  mret (match r with
        | inl e => if IsNotFound e || IsNoMatchError e then None
                   else Some (Errorf_w "checking GatewayClass for cleanup: " e)
        | inr _ => None
        end).

Definition EnvoyGatewayReconciler : DependencyReconciler :=
  mkDependency "EnvoyGatewayReady" envoygateway_Enabled envoygateway_Reconcile envoygateway_Cleanup.
End envoygateway.

(** ** Privileged SCC of the Envoy proxies *)

Definition componentEnvoyProxySCC : string := "envoy-proxy-scc".

Definition proxyscc_Enabled (gw : OpenShellGateway) : prog KSig bool :=
  isOCP ← IsOpenShift;
  if negb isOCP then mret false
  else match GAEnabled (GatewayAPI (Route (odata gw).1)) with
       | Some false => mret false
       | None => HasGatewayAPI
       | Some true => mret true
       end.

(** The ServiceAccounts that need the grant. *)
Definition is_proxy_sa (name : string) : bool :=
  HasPrefix name "envoy-" && (name <>s "envoy-gateway") && (name <>s "eg-gateway-helm-certgen").

Definition scc_condition (s : ConditionStatus) (reason message : string) : Condition :=
  mkCondition ConditionEnvoyProxySCCReady s reason message.

(** The number of grants in place, or the failure. *)
Fixpoint grant_proxies (labels : gmap string string) (sas : list (obj KServiceAccount)) (granted : Z)
    : prog KSig (Condition * option err) :=
  match sas with
  | [] =>
      mret (scc_condition ConditionTrue "Granted"
              (if (0 <? granted)%Z
               then "Granted privileged SCC to " +:+ itoa granted +:+ " Envoy proxy ServiceAccount(s)"
               else "No Envoy proxy ServiceAccounts found yet"), None)
  | sa :: sas =>
      let name := Name (ometa sa) in
      if negb (is_proxy_sa name) then grant_proxies labels sas granted
      else
        let bindingName := "envoy-proxy-" +:+ name +:+ "-privileged" in
        r ← kdo (CGet crbKind bindingName "");
        match r with
        | inr _ => grant_proxies labels sas (granted + 1)
        | inl _ =>
            c ← create crbKind (scc_binding bindingName labels "privileged" name envoyGatewaySystemNS);
            match c with
            | Some e =>
                if IsAlreadyExists e then grant_proxies labels sas (granted + 1)
                else mret (scc_condition ConditionFalse "GrantFailed"
                       ("Failed to grant SCC to " +:+ name +:+ ": " +:+ Error e), Some e)
            | None => grant_proxies labels sas (granted + 1)
            end
        end
  end.

Definition proxyscc_Reconcile (gw : OpenShellGateway) : prog KSig (Condition * option err) :=
  r ← kdo (CList KServiceAccount (Some envoyGatewaySystemNS) ∅);
  match r with
  | inl e => mret (scc_condition ConditionFalse "ListFailed"
               ("Failed to list ServiceAccounts: " +:+ Error e), Some e)
  | inr sas => grant_proxies (ownershipLabels componentEnvoyProxySCC gw) sas 0
  end.

Definition proxyscc_Cleanup (gw : OpenShellGateway) : prog KSig (option err) :=
  r ← kdo (CList crbKind None (ownershipLabels componentEnvoyProxySCC gw));
  match r with
  | inl _ => mret None
  | inr crbs =>
      _ ← for_each (λ crb : obj crbKind,
            if isOwnedByOGO (Labels (ometa crb))
            then _ ← kdo (CDelete crbKind (Name (ometa crb)) (Namespace (ometa crb))); mret ()
            else mret ()) crbs;
      mret None
  end.

Definition EnvoyProxySCCReconciler : DependencyReconciler :=
  mkDependency "EnvoyProxySCCReady" proxyscc_Enabled proxyscc_Reconcile proxyscc_Cleanup.

(** ** OpenShift groups *)

Definition componentGroups : string := "openshift-groups".

Definition groupNames (gw : OpenShellGateway) : list string :=
  let a := OpenShift (Auth (odata gw).1) in [UserGroup a; AdminGroup a].

Definition groups_Enabled (gw : OpenShellGateway) : prog KSig bool :=
  has ← HasGroupsAPI;
  let a := OpenShift (Auth (odata gw).1) in
  mret (has && unless_false (AutoCreateGroups a) && (UserGroup a <>s "")).

(** [fmt.Sprintf("%v", l)] of a string slice. *)
Definition fmt_strings (l : list string) : string := "[" +:+ join_with " " l +:+ "]".

Definition groups_condition (s : ConditionStatus) (reason message : string) : Condition :=
  mkCondition ConditionOpenShiftGroups s reason message.

Definition new_group (labels : gmap string string) (name : string) : obj groupKind :=
  new_unstructured _ _ _ name "" labels [("users", JArr [])].

Fixpoint ensure_groups (labels : gmap string string) (names created : list string)
    : prog KSig (Condition * option err) :=
  match names with
  | [] =>
      mret (match created with
            | [] => groups_condition ConditionTrue "PreExisting" "Groups exist"
            | _ => groups_condition ConditionTrue "Created" ("Created groups: " +:+ fmt_strings created)
            end, None)
  | groupName :: names =>
      if groupName =s "" then ensure_groups labels names created
      else
        r ← kdo (CGet groupKind groupName "");
        match r with
        | inr _ => ensure_groups labels names created
        | inl e =>
            if negb (IsNotFound e) then
              mret (groups_condition ConditionFalse "CheckFailed"
                      ("Failed to check group " +:+ groupName +:+ ": " +:+ Error e), Some e)
            else
              c ← create groupKind (new_group labels groupName);
              match c with
              | Some e => mret (groups_condition ConditionFalse "CreateFailed"
                                  ("Failed to create group " +:+ groupName +:+ ": " +:+ Error e), Some e)
              | None => ensure_groups labels names (created ++ [groupName])
              end
        end
  end.

Definition groups_Reconcile (gw : OpenShellGateway) : prog KSig (Condition * option err) :=
  ensure_groups (ownershipLabels componentGroups gw) (groupNames gw) [].

Definition groups_Cleanup (gw : OpenShellGateway) : prog KSig (option err) :=
  _ ← for_each (λ groupName, if groupName =s "" then mret () else delete_owned groupKind groupName "")
        (groupNames gw);
  mret None.

Definition GroupsReconciler : DependencyReconciler :=
  mkDependency "OpenShiftGroupsReady" groups_Enabled groups_Reconcile groups_Cleanup.
