(* ===== verification/EmbeddedPostgres.v ===== *)
(** * internal/controller/dep_postgres.go: the embedded database *)

From S2P Require Import Prelude Interaction GoStrings GoText GoErrors Jwt ApiTypes Kube Detect.
From S2P Require Import GatewayHelpers GatewayTls GatewayResources Dependencies.
Import ApiTypes.Gateway.

Definition componentPostgres : string := "embedded-postgresql".
Definition pgUser : string := "openshell".
Definition pgDatabase : string := "openshell".

Section postgres.
Context (gw : OpenShellGateway).
Let spec : Spec := (odata gw).1.
Let name : string := Name (ometa gw).

Definition postgres_Enabled : prog KSig bool :=
  mret (Embedded (Database spec) && (SecretName (Database spec) =s "")).

Definition generatePassword : prog KSig string :=
  b ← kdo (CRand 16); mret (hex_EncodeToString b).

Definition pg_secret (labels : gmap string string) (secretName ns key value : string) : obj KSecret :=
  mkObj (k := KSecret) (with_labels labels (named secretName ns)) (mkSecret "" {[key := value]}).

Definition ensurePasswordSecret (ns : string) (labels : gmap string string) : prog KSig (err + string) :=
  let secretName := name +:+ "-pg-password" in
  r ← kdo (CGet KSecret secretName ns);
  match r with
  | inr existing => mret (inr (secret_key existing "password"))
  | inl e =>
      if negb (IsNotFound e) then mret (inl (Errorf_w "checking password secret: " e))
      else
        password ← generatePassword;
        c ← create KSecret (pg_secret labels secretName ns "password" password);
        mret (match c with Some e => inl e | None => inr password end)
  end.

(** The embedded database's own settings, with their defaults. *)
Definition pg_setting (f : EmbeddedDatabaseConfig → string) (fallback : string) : string :=
  match EmbeddedConfig (Database spec) with
  | Some c => if f c <>s "" then f c else fallback
  | None => fallback
  end.

Definition ensurePVC (ns : string) (labels : gmap string string) : prog KSig (option err) :=
  CreateOrUpdate_pure KPVC (name +:+ "-pg-data") ns (fresh_pvc labels (pg_setting StorageSize "1Gi")).

Definition pg_app : gmap string string := {["app" := name +:+ "-pg"]}.

Definition pg_container : Container :=
  mkContainer "postgresql" (pg_setting EImage "registry.redhat.io/rhel9/postgresql-16:latest") []
    [mkEnv "POSTGRESQL_USER" (EnvValue pgUser);
     mkEnv "POSTGRESQL_PASSWORD" (EnvSecretKey (name +:+ "-pg-password") "password");
     mkEnv "POSTGRESQL_DATABASE" (EnvValue pgDatabase)]
    [mkPort "" 5432]
    None
    (Some (mkProbe (TCPSocket (FromInt32 5432)) 30 30 0))
    (Some (mkProbe (TCPSocket (FromInt32 5432)) 5 10 0))
    (mkResources {["memory" := "128Mi"]} {["memory" := "256Mi"]})
    [mkMount "pgdata" "/var/lib/pgsql/data" false]
    (mkSecurityContext (Some false) (Some true) ["ALL"]).

Definition pg_template : PodTemplate :=
  mkTemplate pg_app ∅
    (mkPodSpec "" None [pg_container] [mkVolume "pgdata" (VClaim (name +:+ "-pg-data"))] None).

Definition pg_deployment (labels : gmap string string) (o : obj KDeployment) : obj KDeployment :=
  mkObj (k := KDeployment)
    (with_annotations {["ogo.aknochow.io/dev-only" := "true";
                        "ogo.aknochow.io/warning" := "Not for production use"]}
       (with_labels labels (ometa o)))
    (mkDeployment (Some 1%Z) "Recreate" pg_app (Some pg_template) (ReadyReplicas (odata o))).

Definition ensureDeployment (ns : string) (labels : gmap string string) : prog KSig (option err) :=
  CreateOrUpdate_pure KDeployment (name +:+ "-pg") ns (pg_deployment labels).

Definition pg_service : Service := mkService "" pg_app [mkServicePort "" 5432 (FromInt32 5432) None].

Definition ensureService (ns : string) (labels : gmap string string) : prog KSig (option err) :=
  CreateOrUpdate_pure KService (name +:+ "-pg") ns (λ o,
    mkObj (k := KService) (with_labels labels (ometa o)) (Some pg_service)).

Definition pg_uri (password ns : string) : string :=
  "postgresql://" +:+ pgUser +:+ ":" +:+ password +:+ "@" +:+ (name +:+ "-pg") +:+ "." +:+ ns +:+
  ".svc:5432/" +:+ pgDatabase +:+ "?sslmode=disable".

Definition ensureURISecret (ns : string) (labels : gmap string string) (password : string)
    : prog KSig (option err) :=
  let secretName := name +:+ "-pg-uri" in
  r ← kdo (CGet KSecret secretName ns);
  match r with
  | inr _ => mret None
  | inl e =>
      if negb (IsNotFound e) then mret (Some (Errorf_w "checking URI secret: " e))
      else create KSecret (pg_secret labels secretName ns "uri" (pg_uri password ns))
  end.

Definition pg_failed (what : string) (e : err) : Condition * option err :=
  (mkCondition ConditionDatabaseReady ConditionFalse "ProvisionFailed"
     ("Failed to create " +:+ what +:+ ": " +:+ Error e), Some e).

Definition postgres_Reconcile : prog KSig (Condition * option err) :=
  let ns := gatewayNamespace gw in
  let labels := ownershipLabels componentPostgres gw in
  p ← ensurePasswordSecret ns labels;
  match p with
  | inl e => mret (pg_failed "password secret" e)
  | inr password =>
      e ← ensurePVC ns labels;
      match e with
      | Some e => mret (pg_failed "PVC" e)
      | None =>
          e ← ensureDeployment ns labels;
          match e with
          | Some e => mret (pg_failed "deployment" e)
          | None =>
              e ← ensureService ns labels;
              match e with
              | Some e => mret (pg_failed "service" e)
              | None =>
                  e ← ensureURISecret ns labels password;
                  mret (match e with
                        | Some e => pg_failed "URI secret" e
                        | None => (mkCondition ConditionDatabaseReady ConditionTrue "EmbeddedProvisioned"
                                     "Dev-only embedded PostgreSQL is running (not for production)", None)
                        end)
              end
          end
      end
  end.

Definition postgres_Cleanup : prog KSig (option err) :=
  let ns := gatewayNamespace gw in
  _ ← for_each (λ '(k, n), delete_owned k n ns)
        [(KDeployment, name +:+ "-pg"); (KService, name +:+ "-pg"); (KSecret, name +:+ "-pg-password");
         (KSecret, name +:+ "-pg-uri"); (KPVC, name +:+ "-pg-data")];
  mret None.
End postgres.

Definition PostgreSQLReconciler : DependencyReconciler :=
  mkDependency "DatabaseReady" postgres_Enabled postgres_Reconcile postgres_Cleanup.
