(* ===== verification/GatewayReconciler.v ===== *)
(** * The reconciler of OpenShellGateway

    Status, deletion, the reconcile loop and the watch handlers of
    openshellgateway_controller.go, composed from the step files. *)

From S2P Require Import Prelude Interaction GoStrings GoText GoErrors Jwt ApiTypes Kube Singleton.
From S2P Require Import Detect Pki GatewayHelpers GatewayTls GatewayResources GatewayDeployment.
From S2P Require Import GatewayRouting Dependencies EmbeddedPostgres.
Import ApiTypes.Gateway.

Section reconciler.
Context {C : Crypto} {X : X509 C} {U : Unicode} {M : ApiMachinery} {ML : ManifestLib}.

(** ** Status *)

Definition with_phase (p : string) (s : Status) : Status :=
  mkStatus p (GatewayURL s) (ClientCertSecretName s) (ObservedGeneration s) (Conditions s).

Definition drop_condition (t : string) (s : Status) : Status :=
  set_conditions s (RemoveStatusCondition (Conditions s) t).

(** [c != nil && c.Status != metav1.ConditionTrue]. *)
Definition not_true (cs : list Condition) (t : string) : bool :=
  match FindStatusCondition cs t with
  | Some c => bool_decide (CStatus c ≠ ConditionTrue)
  | None => false
  end.

Definition pods_ready (deploy : obj KDeployment) : bool :=
  let desired := default 1%Z (DReplicas (odata deploy)) in
  ((0 <? ReadyReplicas (odata deploy)) && (ReadyReplicas (odata deploy) =? desired))%Z.

Definition available (s : ConditionStatus) (reason message : string) : Condition :=
  mkCondition ConditionAvailable s reason message.
Definition progressing (s : ConditionStatus) (reason message : string) : Condition :=
  mkCondition ConditionProgressing s reason message.

(** The [switch] on readiness and blocking conditions. *)
Definition phase_status (podsReady routeBlocking ssoBlocking : bool) (s : Status) : Status :=
  let blocking := routeBlocking || ssoBlocking in
  let '(reason, message, why) :=
    if ssoBlocking then
      (reasonHostnameMissing,
       "spec.route.hostname is required for OpenShift browser SSO — see the BrowserSSOReady condition",
       "WaitingForConfig")
    else ("EnvoyRouteNotReady", "Waiting for the Envoy Gateway Route to become ready", "Deploying") in
  if podsReady && negb blocking then
    add_condition (progressing ConditionFalse "Complete" "Rollout complete")
      (add_condition (available ConditionTrue "Ready" "Gateway is running") (with_phase PhaseRunning s))
  else if podsReady && blocking then
    add_condition (progressing ConditionTrue why message)
      (add_condition (available ConditionFalse reason message) (with_phase PhaseCreating s))
  else
    add_condition (progressing ConditionTrue "Deploying" "Gateway pods starting")
      (add_condition (available ConditionFalse "NotReady" "Waiting for pods") (with_phase PhaseCreating s)).

(** The conditions the steps recorded on [gw], copied to the latest object. *)
Definition carried (routeActive authActive : bool) : list string :=
  List.filter (λ t,
    negb ((t =s ConditionEnvoyRouteReady) && negb routeActive) &&
    negb ((t =s ConditionBrowserSSOReady) && negb authActive))
  [ConditionEnvoyGatewayReady; ConditionDatabaseReady; ConditionEnvoyProxySCCReady;
   ConditionOpenShiftGroups; ConditionEnvoyRouteReady; ConditionBrowserSSOReady;
   ConditionImageConfigValid].

Definition carry (from : list Condition) (types : list string) (s : Status) : Status :=
  foldl (λ s t, match FindStatusCondition from t with Some c => add_condition c s | None => s end)
    s types.

Definition gateway_url (gw : OpenShellGateway) : string :=
  let hostname := Hostname (Route (odata gw).1) in
  if routeEnabled gw && (hostname <>s "") then "https://" +:+ hostname +:+ ":443"
  else "https://" +:+ Name (ometa gw) +:+ "." +:+ gatewayNamespace gw +:+ ".svc.cluster.local:8080".

Definition final_status (gw : OpenShellGateway) (podsReady hasGWAPI authEnabled : bool) (s : Status)
    : Status :=
  let routeActive := routeEnabled gw && gatewayAPIEnabled gw hasGWAPI in
  let recorded := Conditions (gw_status gw) in
  let s := if negb routeActive then drop_condition ConditionEnvoyRouteReady s else s in
  let s := if negb authEnabled then drop_condition ConditionBrowserSSOReady s else s in
  let s := phase_status podsReady
             (routeActive && not_true recorded ConditionEnvoyRouteReady)
             (authEnabled && not_true recorded ConditionBrowserSSOReady) s in
  let s := add_condition (mkCondition ConditionDegraded ConditionFalse "OK" "") s in
  let s := carry recorded (carried routeActive authEnabled) s in
  mkStatus (Phase s) (gateway_url gw) (Name (ometa gw) +:+ "-client-tls") (Generation (ometa gw))
    (Conditions s).

Definition missing_status (s : Status) : Status :=
  add_condition (available ConditionFalse "DeploymentNotFound" "Gateway deployment not found")
    (with_phase PhaseFailed s).

Definition updateStatus (gw : OpenShellGateway) (authEnabled : bool) : prog KSig (option err) :=
  r ← kdo (CGet KGateway (Name (ometa gw)) "");
  match r with
  | inl e => mret (Some e)
  | inr latest =>
      d ← kdo (CGet KDeployment (Name (ometa gw)) (gatewayNamespace gw));
      match d with
      | inl _ =>
          kdo (CStatusUpdate KGateway (with_gw_status latest (missing_status (gw_status latest))))
      | inr deploy =>
          hasGWAPI ← (if routeEnabled gw then HasGatewayAPI else mret false);
          kdo (CStatusUpdate KGateway (with_gw_status latest
            (final_status gw (pods_ready deploy) hasGWAPI authEnabled (gw_status latest))))
      end
  end.

Definition degraded_status (gw : OpenShellGateway) (step : string) (e : err) (s : Status) : Status :=
  add_condition (mkCondition ConditionDegraded ConditionTrue "ReconcileError" (step +:+ ": " +:+ Error e))
    (mkStatus PhaseFailed (GatewayURL s) (ClientCertSecretName s) (Generation (ometa gw)) (Conditions s)).

(** [return ctrl.Result{RequeueAfter: 30 * time.Second}, r.setDegraded(...)]. *)
Definition setDegraded (gw : OpenShellGateway) (step : string) (e : err) : prog KSig outcome :=
  r ← kdo (CGet KGateway (Name (ometa gw)) "");
  match r with
  | inl _ => mret (requeue_after (30 * Second), Some e)
  | inr latest =>
      _ ← kdo (CStatusUpdate KGateway
                 (with_gw_status latest (degraded_status gw step e (gw_status latest))));
      mret (requeue_after (30 * Second), Some e)
  end.

(** ** Dependencies *)

Definition dependencies : list DependencyReconciler :=
  [EnvoyGatewayReconciler; EnvoyProxySCCReconciler; PostgreSQLReconciler; GroupsReconciler].

(** The loop of phase 1; [Some] is the failed dependency and its error. *)
Fixpoint reconcile_dependencies (deps : list DependencyReconciler) (gw : OpenShellGateway)
    : prog KSig (option (string * err) * OpenShellGateway) :=
  match deps with
  | [] => mret (None, gw)
  | dep :: deps =>
      enabled ← dep_Enabled dep gw;
      if negb enabled then reconcile_dependencies deps gw
      else
        r ← dep_Reconcile dep gw;
        let gw := gw_condition gw r.1 in
        match r.2 with
        | Some e => mret (Some (dep_name dep, e), gw)
        | None => reconcile_dependencies deps gw
        end
  end.

(** ** Phase 2 *)

Definition gstep : Type := OpenShellGateway → prog KSig (option err * OpenShellGateway).

(** A step that leaves the gateway object as it is. *)
Definition pure_step (f : OpenShellGateway → prog KSig (option err)) : gstep :=
  λ gw, e ← f gw; mret (e, gw).

Definition steps : list (string * gstep) :=
  [("Namespace", pure_step reconcileNamespace);
   ("GatewayServiceAccount", pure_step reconcileGatewayServiceAccount);
   ("SandboxServiceAccount", pure_step reconcileSandboxServiceAccount);
   ("ClusterRole", pure_step reconcileClusterRole);
   ("ClusterRoleBinding", pure_step reconcileClusterRoleBinding);
   ("Role", pure_step reconcileRole);
   ("RoleBinding", pure_step reconcileRoleBinding);
   ("TLS", pure_step reconcileTLS);
   ("AuthBridgeCA", pure_step reconcileAuthBridgeCA);
   ("GatewayCA", pure_step reconcileGatewayCA);
   ("JWTKeys", pure_step reconcileJWTKeys);
   ("AuthBridgeKeys", pure_step reconcileAuthBridgeKeys);
   ("ConfigMap", pure_step reconcileConfigMap);
   ("Deployment", reconcileDeployment);
   ("Service", pure_step reconcileService);
   ("NetworkPolicy", pure_step reconcileNetworkPolicy)].

Fixpoint run_steps (l : list (string * gstep)) (gw : OpenShellGateway)
    : prog KSig (option (string * err) * OpenShellGateway) :=
  match l with
  | [] => mret (None, gw)
  | (n, f) :: l =>
      r ← f gw;
      match r with
      | (Some e, gw) => mret (Some (n, e), gw)
      | (None, gw) => run_steps l gw
      end
  end.

(** The rest of a reconcile runs unless a step failed. *)
Definition unless_failed (p : prog KSig (option (string * err) * OpenShellGateway))
    (k : OpenShellGateway → prog KSig outcome) : prog KSig outcome :=
  r ← p;
  match r with
  | (Some (step, e), gw) => setDegraded gw step e
  | (None, gw) => k gw
  end.

Definition routing_phase (isOCP useGWAPI authEnabled : bool) (gw : OpenShellGateway)
    : prog KSig outcome :=
  unless_failed
    (if useGWAPI then r ← reconcileGatewayAPI gw; mret (named_step "GatewayAPI" r.1, r.2)
     else mret (None, gw))
    (λ gw, unless_failed
      (if isOCP then reconcileOpenShiftRouting gw useGWAPI authEnabled else mret (None, gw))
      (λ gw, e ← updateStatus gw authEnabled; mret (requeue_after requeueInterval, e))).

Definition reconcile_active (gw : OpenShellGateway) : prog KSig outcome :=
  isOCP ← IsOpenShift;
  hasGWAPI ← HasGatewayAPI;
  let useGWAPI := gatewayAPIEnabled gw hasGWAPI in
  let authEnabled := authBridgeEnabled gw isOCP in
  unless_failed (reconcile_dependencies dependencies gw) (λ gw,
  unless_failed (e ← validateDatabaseSecret gw; mret (named_step "DatabaseSecret" e, gw)) (λ gw,
  unless_failed (run_steps steps gw) (routing_phase isOCP useGWAPI authEnabled))).

(** ** Deletion *)

(** Delete an object; [NotFound] is success, other errors are collected. *)
Definition delete_collect (k : kind) (n ns : string) (errs : list err) : prog KSig (list err) :=
  d ← kdo (CDelete k n ns);
  mret (match d with
        | Some e => if IsNotFound e then errs else errs ++ [e]
        | None => errs
        end).

Fixpoint delete_all (l : list (kind * string * string)) (errs : list err) : prog KSig (list err) :=
  match l with
  | [] => mret errs
  | (k, n, ns) :: l => errs ← delete_collect k n ns errs; delete_all l errs
  end.

Definition cluster_resources (gw : OpenShellGateway) (isOCP : bool) : list (kind * string * string) :=
  let name := Name (ometa gw) in
  [(KClusterRole, name +:+ "-node-reader", ""); (KClusterRoleBinding, name +:+ "-node-reader", "")] ++
  (if isOCP then [(KClusterRoleBinding, name +:+ "-sandbox-scc-privileged", "")] else []).

Definition cross_ns_resources (gw : OpenShellGateway) : list (kind * string * string) :=
  let name := Name (ometa gw) in
  let ns := sandboxNamespace gw in
  if ns <>s gatewayNamespace gw then
    [(KServiceAccount, name +:+ "-sandbox", ns); (KRole, name +:+ "-sandbox", ns);
     (KRoleBinding, name +:+ "-sandbox", ns); (KNetworkPolicy, name +:+ "-sandbox-ssh", ns)]
  else [].

(** Gateway API objects: errors are only logged. *)
Definition gateway_api_resources (gw : OpenShellGateway) : list (kind * string * string) :=
  let name := Name (ometa gw) in
  let ns := gatewayNamespace gw in
  [(gatewayKind, name, ns); (grpcRouteKind, name, ns); (btpKind, name +:+ "-timeout", ns)].

Fixpoint delete_cas (gw : OpenShellGateway) (suffixes : list string) (errs : list err)
    : prog KSig (list err) :=
  match suffixes with
  | [] => mret errs
  | suffix :: suffixes =>
      r ← kdo (CGet KConfigMap (Name (ometa gw) +:+ suffix) (gatewayNamespace gw));
      errs ← match r with
             | inr ca =>
                 if managed_by_gateway gw (Labels (ometa ca))
                 then delete_collect KConfigMap (Name (ometa ca)) (Namespace (ometa ca)) errs
                 else mret errs
             | inl e => mret (if IsNotFound e then errs else errs ++ [e])
             end;
      delete_cas gw suffixes errs
  end.

(** [for i := len(deps) - 1; i >= 0; i--]; an error is only logged. *)
Definition cleanup_dependencies (gw : OpenShellGateway) : prog KSig unit :=
  for_each (λ dep, _ ← dep_Cleanup dep gw; mret ()) (reverse dependencies).

(** Everything that must be gone before the finalizer may be dropped: the
    errors met. *)
Definition cleanup (gw : OpenShellGateway) : prog KSig (list err) :=
  _ ← cleanup_dependencies gw;
  isOCP ← IsOpenShift;
  _ ← for_each (λ '(k, n, ns), _ ← kdo (CDelete k n ns); mret ()) (gateway_api_resources gw);
  r ← deleteManagedRoutes gw;
  let errs := match r with
              | Some e => if IsNoMatchError e || IsNotFound e then [] else [e]
              | None => []
              end in
  errs ← delete_all (cluster_resources gw isOCP) errs;
  errs ← delete_all (cross_ns_resources gw) errs;
  delete_cas gw [authCASuffix; gatewayCASuffix] errs.

Definition drop_gateway_finalizer (gw : OpenShellGateway) : OpenShellGateway :=
  mkObj (k := KGateway)
    (with_finalizers (RemoveFinalizer (Finalizers (ometa gw)) finalizerName) (ometa gw)) (odata gw).

Definition gateway_reconcileDelete (gw : OpenShellGateway) : prog KSig outcome :=
  if negb (ContainsFinalizer (Finalizers (ometa gw)) finalizerName) then mret (no_requeue, None)
  else
    errs ← cleanup gw;
    match errs with
    | [] =>
        e ← kdo (CUpdate KGateway (drop_gateway_finalizer gw));
        mret (no_requeue, e)
    | _ => mret (requeue_after (30 * Second),
                 Some (Err ("cleanup incomplete: " +:+ itoa (Z.of_nat (length errs)) +:+ " errors")))
    end.

(** ** The reconcile loop *)

Definition superseded_gateway (gw oldest : OpenShellGateway) : OpenShellGateway :=
  with_gw_status gw (with_phase PhaseFailed (add_condition
    (mkCondition ConditionDegraded ConditionTrue "MultipleGateways"
       ("Only one OpenShellGateway is allowed per cluster; " +:+ Quote (Name (ometa oldest)) +:+
        " is the active instance")) (gw_status gw))).

(** The oldest gateway when several exist and this is not it. *)
Definition superseded_by (gw : OpenShellGateway) (items : list OpenShellGateway)
    : option OpenShellGateway :=
  if (1 <? length items)%nat then
    match oldestByCreationTimestamp items with
    | Some oldest => if Name (ometa gw) <>s Name (ometa oldest) then Some oldest else None
    | None => None
    end
  else None.

Definition gateway_Reconcile (name : string) : prog KSig outcome :=
  r ← kdo (CGet KGateway name "");
  match r with
  | inl e => mret (no_requeue, IgnoreNotFound e)
  | inr gw =>
      l ← kdo (CList KGateway None ∅);
      match l with
      | inl e => mret (no_requeue, Some e)
      | inr items =>
          match superseded_by gw items with
          | Some oldest =>
              e ← kdo (CStatusUpdate KGateway (superseded_gateway gw oldest));
              mret (no_requeue, e)
          | None =>
              if bool_decide (DeletionTimestamp (ometa gw) ≠ None) then gateway_reconcileDelete gw
              else if negb (ContainsFinalizer (Finalizers (ometa gw)) finalizerName) then
                e ← kdo (CUpdate KGateway (mkObj (k := KGateway)
                      (with_finalizers (AddFinalizer (Finalizers (ometa gw)) finalizerName) (ometa gw))
                      (odata gw)));
                mret (match e with
                      | Some e => (no_requeue, Some e)
                      | None => (requeue_after Second, None)
                      end)
              else reconcile_active gw
          end
      end
  end.

(** ** Watches *)

Definition findGatewayForManagedResource {k} (o : obj k) : list string :=
  let labels := Labels (ometa o) in
  if index labels labelManagedBy <>s managedByValue then []
  else let name := index labels labelInstance in
       if name =s "" then [] else [name].

Definition findGatewaysForDatabaseSecret (o : obj KSecret) : prog KSig (list string) :=
  r ← kdo (CList KGateway None ∅);
  mret (match r with
        | inl _ => []
        | inr gws =>
            map (λ gw, Name (ometa gw))
              (List.filter (λ gw, negb ((gatewayNamespace gw <>s Namespace (ometa o)) ||
                                        (databaseSecretName gw <>s Name (ometa o)))) gws)
        end).
End reconciler.
