(* ===== verification/Watches.v ===== *)
(** * Which events wake which reconciles

    The [SetupWithManager] functions register, for each controller, the kind it
    reconciles and the kinds it watches, with a predicate on the events and a
    function from the changed object to the requests it causes.  Here the
    registration is data ([builder]) and a theorem says exactly which objects
    are reconciled after a change.  controller-runtime, which carries a
    registration out, is the class [ControllerRuntime]. *)

From S2P Require Import Prelude Interaction GoText GoErrors Jwt ApiTypes Kube Singleton GatewayHelpers.
From S2P Require Import GatewayRpc ProviderController MemberController PolicyController GatewayReconciler.
From S2P Require Import Concrete FakeCluster.

(** [reconcile.Request]: name and namespace. *)
Abbreviation request := (string * string)%type.

(** What an informer reports of an object. *)
Inductive notice (k : kind) :=
| Created (o : obj k)
| Updated (old new : obj k)
| Deleted (o : obj k)
| Generic (o : obj k).
Arguments Created {k} o.
Arguments Updated {k} old new.
Arguments Deleted {k} o.
Arguments Generic {k} o.

Definition notice_type {k} (n : notice k) : watch_event :=
  match n with
  | Created _ => CreateEvent | Updated _ _ => UpdateEvent
  | Deleted _ => DeleteEvent | Generic _ => GenericEvent
  end.

(** The objects a notice carries, and the one it is about. *)
Definition carried_by {k} (n : notice k) : list (obj k) :=
  match n with Created o | Deleted o | Generic o => [o] | Updated old new => [old; new] end.
Definition subject {k} (n : notice k) : obj k :=
  match n with Created o | Deleted o | Generic o => o | Updated _ new => new end.

(** [Watches(&T{}, handler.EnqueueRequestsFromMapFunc(f), builder.WithPredicates(p))]. *)
Record watch := Watch {
  w_kind : kind;
  w_map : obj w_kind → prog KSig (list request);
  w_pred : notice w_kind → bool
}.

(** [ctrl.NewControllerManagedBy(mgr).For(&T{}).Watches(...).Named(...)]. *)
Record builder := Builder { b_for : kind; b_watches : list watch; b_name : string }.

Definition always_pred {k} (n : notice k) : bool := true.

(** ** What a registration asks for *)

Fixpoint map_each {k} (f : obj k → prog KSig (list request)) (l : list (obj k)) : prog KSig (list request) :=
  match l with
  | [] => mret []
  | o :: l => rs ← f o; rest ← map_each f l; mret (rs ++ rest)
  end.

Definition as_notice {k} (k' : kind) (n : notice k) : option (notice k') :=
  match decide (k = k') with
  | left e => Some (eq_rect k notice n k' e)
  | right _ => None
  end.

Definition watch_requests {k} (n : notice k) (wt : watch) : prog KSig (list request) :=
  match as_notice (w_kind wt) n with
  | Some n => if w_pred wt n then map_each (w_map wt) (carried_by n) else mret []
  | None => mret []
  end.

Fixpoint all_watch_requests {k} (n : notice k) (ws : list watch) : prog KSig (list request) :=
  match ws with
  | [] => mret []
  | wt :: ws => rs ← watch_requests n wt; rest ← all_watch_requests n ws; mret (rs ++ rest)
  end.

Definition own_requests {k} (n : notice k) (b : builder) : list request :=
  if bool_decide (k = b_for b) then request_of <$> carried_by n else [].

Definition registered (b : builder) {k} (n : notice k) : prog KSig (list request) :=
  rs ← all_watch_requests n (b_watches b);
  mret (own_requests n b ++ rs).

(** controller-runtime: its two stock predicates, and the queue of a
    controller after one notice. *)
Class ControllerRuntime := {
  GenerationChangedPredicate : ∀ {k}, notice k → bool;
  ResourceVersionChangedPredicate : ∀ {k}, notice k → bool;
  dispatch : builder → ∀ {k}, notice k → prog KSig (list request)
}.

(** As documented: the predicates filter updates only, by the field they are
    named for; a notice enqueues what the registration asks for. *)
Class ControllerRuntimeLaws (CR : ControllerRuntime) : Prop := {
  generation_pred : ∀ k (n : notice k), GenerationChangedPredicate n =
    match n with
    | Updated old new => bool_decide (Generation (ometa old) ≠ Generation (ometa new))
    | _ => true
    end;
  resource_version_pred : ∀ k (n : notice k), ResourceVersionChangedPredicate n =
    match n with
    | Updated old new => bool_decide (ResourceVersion (ometa old) ≠ ResourceVersion (ometa new))
    | _ => true
    end;
  dispatch_registered : ∀ W (h : handler KSig W) b k (n : notice k) w q,
    q ∈ (run h (dispatch b n) w).1 ↔ q ∈ (run h (registered b n) w).1
}.

(** ** The four registrations *)

Section builders.
Context {CR : ControllerRuntime}.

(** Requests for a cluster-scoped object. *)
Definition cluster_requests (names : list string) : list request := (λ n, (n, "")) <$> names.

Definition labelMatcher {k} (o : obj k) : prog KSig (list request) :=
  mret (cluster_requests (findGatewayForManagedResource o)).

Definition databaseSecretMatcher (o : obj KSecret) : prog KSig (list request) :=
  names ← findGatewaysForDatabaseSecret o; mret (cluster_requests names).

Definition gateway_builder : builder :=
  Builder KGateway
    [Watch KDeployment labelMatcher always_pred;
     Watch KService labelMatcher always_pred;
     Watch KConfigMap labelMatcher always_pred;
     Watch KSecret databaseSecretMatcher always_pred] "openshellgateway".

Definition provider_builder : builder :=
  Builder KProvider
    [Watch KSecret findProvidersForSecret ResourceVersionChangedPredicate;
     Watch KGateway (λ _, findProvidersForGateway) always_pred] "openshellprovider".

Definition policy_builder : builder :=
  Builder KPolicy
    [Watch KGateway (λ _, findAllPolicies) GenerationChangedPredicate;
     Watch KPolicy (λ _, findAllPolicies) (λ n, policySelfWatchPredicate (notice_type n))]
    "openshellpolicy".

Definition member_builder : builder := Builder KMember [] "openshellworkspacemember".
End builders.

(** ** Running a registration *)

Lemma as_notice_same {k} (n : notice k) : as_notice k n = Some n.
Proof.
  unfold as_notice. destruct (decide (k = k)) as [e|]; [|done].
  by rewrite (Eqdep_dec.UIP_dec kind_eq_dec e eq_refl).
Qed.

Lemma as_notice_other {k} k' (n : notice k) : k ≠ k' → as_notice k' n = None.
Proof. intros Hk. unfold as_notice. by destruct (decide (k = k')). Qed.

Section exact.
Context {W : Type} (h : handler KSig W).

(** A map function that only reads, with what it returns. *)
Definition reads {k} (f : obj k → prog KSig (list request)) (R : obj k → list request) : Prop :=
  ∀ o w, run h (f o) w = (R o, w).

Lemma map_each_run {k} (f : obj k → prog KSig (list request)) R l w :
  reads f R → run h (map_each f l) w = (l ≫= R, w).
Proof.
  intros HR. induction l as [|o l IH]; [done|]. cbn [map_each]. rewrite run_bind, (HR o w).
  rewrite run_bind, IH. done.
Qed.

Lemma watch_hit {k} (n : notice k) f p R w :
  reads f R →
  run h (watch_requests n (Watch k f p)) w = (if p n then carried_by n ≫= R else [], w).
Proof.
  intros HR. unfold watch_requests. cbn [w_kind w_map w_pred]. rewrite as_notice_same.
  destruct (p n); [|done]. by apply map_each_run.
Qed.

Lemma watch_miss {k} (n : notice k) wt w :
  k ≠ w_kind wt → run h (watch_requests n wt) w = ([], w).
Proof. intros Hk. unfold watch_requests. by rewrite as_notice_other. Qed.

Lemma all_watch_requests_run {k} (n : notice k) ws rss w :
  Forall2 (λ wt rs, ∀ w, run h (watch_requests n wt) w = (rs, w)) ws rss →
  run h (all_watch_requests n ws) w = (concat rss, w).
Proof.
  induction 1 as [|wt rs ws rss Hwt _ IH]; [done|]. cbn [all_watch_requests concat].
  by rewrite run_bind, Hwt, run_bind, IH.
Qed.

Lemma registered_run {k} (n : notice k) b rss w :
  Forall2 (λ wt rs, ∀ w, run h (watch_requests n wt) w = (rs, w)) (b_watches b) rss →
  run h (registered b n) w = (own_requests n b ++ concat rss, w).
Proof.
  intros HF. unfold registered. by rewrite run_bind, (all_watch_requests_run n _ rss w HF).
Qed.
End exact.

(** ** Exactly what wakes what *)

Section claims.
Context {CR : ControllerRuntime} {CRL : ControllerRuntimeLaws CR}.
Context {W : Type} (h : handler KSig W).

(** What a map function gets to see: nothing when its List fails. *)
Definition listed {A} (r : err + list A) : list A := match r with inr l => l | inl _ => [] end.

(** What the API server answers to the lists of the map functions, which only
    read. *)
Context (gws : err + list OpenShellGateway) (providers : err + list OpenShellProvider).
Context (providers_in : string → err + list OpenShellProvider) (policies : err + list OpenShellPolicy).

Record lists_answered : Prop := {
  gateways_listed : ∀ w, h (CList KGateway None ∅) w = (gws, w);
  providers_listed : ∀ w, h (CList KProvider None ∅) w = (providers, w);
  providers_listed_in : ∀ ns w, h (CList KProvider (Some ns) ∅) w = (providers_in ns, w);
  policies_listed : ∀ w, h (CList KPolicy None ∅) w = (policies, w)
}.

(** A notice puts a request into a controller's queue. *)
Definition wakes (b : builder) {k} (n : notice k) (w : W) (q : request) : Prop :=
  q ∈ (run h (dispatch b n) w).1.

Definition about {k} (n : notice k) (P : obj k → Prop) : Prop := ∃ o, o ∈ carried_by n ∧ P o.

(** An object with the operator's labels for the gateway [name]. *)
Definition labelled_for {k} (name : string) (o : obj k) : Prop :=
  Labels (ometa o) !! labelManagedBy = Some managedByValue ∧
  Labels (ometa o) !! labelInstance = Some name ∧ name ≠ "".

Definition gateway_cares {k} (n : notice k) (q : request) : Prop :=
  match k return notice k → Prop with
  | KGateway => λ n, about n (λ o, q = request_of o)
  | KDeployment => λ n, about n (λ o, q.2 = "" ∧ labelled_for q.1 o)
  | KService => λ n, about n (λ o, q.2 = "" ∧ labelled_for q.1 o)
  | KConfigMap => λ n, about n (λ o, q.2 = "" ∧ labelled_for q.1 o)
  | KSecret => λ n, about n (λ s : obj KSecret, ∃ gw, gw ∈ listed gws ∧ q = (Name (ometa gw), "") ∧
                 gatewayNamespace gw = Namespace (ometa s) ∧ databaseSecretName gw = Name (ometa s))
  | _ => λ _, False
  end n.

Definition refers_to_secret (p : OpenShellProvider) (s : obj KSecret) : Prop :=
  ∃ key ref, Provider.Credentials (odata p).1 !! key = Some ref ∧ Provider.RefName ref = Name (ometa s).

Definition provider_cares {k} (n : notice k) (q : request) : Prop :=
  match k return notice k → Prop with
  | KProvider => λ n, about n (λ o, q = request_of o)
  | KSecret => λ n,
      (∀ old new, n = Updated old new → ResourceVersion (ometa old) ≠ ResourceVersion (ometa new)) ∧
      about n (λ s, ∃ p, p ∈ listed (providers_in (Namespace (ometa s))) ∧ q = request_of p ∧ refers_to_secret p s)
  | KGateway => λ _, ∃ p, p ∈ listed providers ∧ q = request_of p
  | _ => λ _, False
  end n.

Definition policy_cares {k} (n : notice k) (q : request) : Prop :=
  match k return notice k → Prop with
  | KPolicy => λ n, about n (λ o, q = request_of o) ∨
      (∃ o, n = Deleted o) ∧ ∃ p, p ∈ listed policies ∧ q = request_of p
  | KGateway => λ n,
      (∀ old new, n = Updated old new → Generation (ometa old) ≠ Generation (ometa new)) ∧
      ∃ p, p ∈ listed policies ∧ q = request_of p
  | _ => λ _, False
  end n.

Definition member_cares {k} (n : notice k) (q : request) : Prop :=
  match k return notice k → Prop with
  | KMember => λ n, about n (λ o, q = request_of o)
  | _ => λ _, False
  end n.

(** The map functions, given the lists. *)
Context (HL : lists_answered).

Lemma labelMatcher_reads k :
  reads h (labelMatcher (k := k)) (λ o, cluster_requests (findGatewayForManagedResource o)).
Proof. done. Qed.

Lemma databaseSecretMatcher_reads :
  reads h databaseSecretMatcher (λ s, cluster_requests (map (λ gw : OpenShellGateway, Name (ometa gw))
    (List.filter (λ gw, negb ((gatewayNamespace gw <>s Namespace (ometa s)) ||
                              (databaseSecretName gw <>s Name (ometa s)))) (listed gws)))).
Proof. intros o w. cbn. rewrite (gateways_listed HL). by destruct gws. Qed.

Lemma findProvidersForSecret_reads :
  reads h findProvidersForSecret (λ s, request_of <$> filter (λ p, refers_to (Name (ometa s)) p = true)
    (listed (providers_in (Namespace (ometa s))))).
Proof. intros o w. cbn. rewrite (providers_listed_in HL). by destruct (providers_in _). Qed.

Lemma findProvidersForGateway_reads {k} :
  reads (k := k) h (λ _, findProvidersForGateway) (λ _, request_of <$> listed providers).
Proof. intros o w. cbn. rewrite (providers_listed HL). by destruct providers. Qed.

Lemma findAllPolicies_reads {k} :
  reads (k := k) h (λ _, findAllPolicies) (λ _, request_of <$> listed policies).
Proof. intros o w. cbn. rewrite (policies_listed HL). by destruct policies. Qed.

Lemma elem_of_managed {k} (o : obj k) q :
  q ∈ cluster_requests (findGatewayForManagedResource o) ↔ q.2 = "" ∧ labelled_for q.1 o.
Proof.
  unfold findGatewayForManagedResource, cluster_requests, labelled_for, index, or_zero.
  destruct q as [name ns]. cbn [fst snd].
  destruct (Labels (ometa o) !! labelManagedBy) as [m|] eqn:Em; cbn [default from_option];
    [|cbn; set_solver].
  case_bool_decide as Hm; cbn [negb].
  - destruct (Labels (ometa o) !! labelInstance) as [i|] eqn:Ei; cbn [default from_option].
    + unfold id. case_bool_decide; cbn; set_solver.
    + cbn. set_solver.
  - cbn. set_solver.
Qed.

Lemma elem_of_requests {k} q (l : list (obj k)) : q ∈ request_of <$> l ↔ ∃ o, o ∈ l ∧ q = request_of o.
Proof. rewrite list_elem_of_fmap. naive_solver. Qed.

Lemma refers_to_spec s (p : OpenShellProvider) :
  refers_to s p = true ↔
  ∃ key ref, Provider.Credentials (odata p).1 !! key = Some ref ∧ Provider.RefName ref = s.
Proof.
  unfold refers_to. rewrite existsb_elem_of. split.
  - intros ([k r] & Hin%elem_of_map_to_list & H). exists k, r. by bool_simpl.
  - intros (k & r & H & <-). exists (k, r). rewrite elem_of_map_to_list. by rewrite bool_decide_eq_true_2.
Qed.

Lemma elem_of_about {k} (n : notice k) (R : obj k → list request) P q :
  (∀ o, q ∈ R o ↔ P o) → q ∈ (carried_by n ≫= R) ↔ about n P.
Proof. intros HR. rewrite list_elem_of_bind. unfold about. setoid_rewrite HR. naive_solver. Qed.

Lemma elem_of_own {k} (n : notice k) b q :
  k = b_for b → q ∈ own_requests n b ↔ about n (λ o, q = request_of o).
Proof. intros Hk. unfold own_requests. by rewrite bool_decide_eq_true_2, elem_of_requests. Qed.

Lemma not_own {k} (n : notice k) b : k ≠ b_for b → own_requests n b = [].
Proof. intros Hk. unfold own_requests. by rewrite bool_decide_eq_false_2. Qed.

(** The queue, once every watch of the registration is evaluated. *)
Lemma wakes_run {k} (n : notice k) b rss w q :
  Forall2 (λ wt rs, ∀ w, run h (watch_requests n wt) w = (rs, w)) (b_watches b) rss →
  wakes b n w q ↔ q ∈ own_requests n b ∨ q ∈ concat rss.
Proof.
  intros HF. unfold wakes. rewrite dispatch_registered, (registered_run h n b rss w HF). cbn [fst].
  apply elem_of_app.
Qed.

Lemma elem_of_every {k} (n : notice k) (l : list request) q : q ∈ (carried_by n ≫= λ _, l) ↔ q ∈ l.
Proof. rewrite list_elem_of_bind. destruct n; set_solver. Qed.

Lemma elem_of_if (b : bool) (l : list request) q : q ∈ (if b then l else []) ↔ b = true ∧ q ∈ l.
Proof. destruct b; set_solver. Qed.

Lemma updates_filtered {k} (n : notice k) (P : obj k → obj k → Prop) `{!∀ o o', Decision (P o o')} :
  match n with Updated old new => bool_decide (P old new) | _ => true end = true ↔
  ∀ old new, n = Updated old new → P old new.
Proof. destruct n; try naive_solver. rewrite bool_decide_eq_true. naive_solver. Qed.

Lemma deletions_only {k} (n : notice k) :
  policySelfWatchPredicate (notice_type n) = true ↔ ∃ o, n = Deleted o.
Proof. destruct n; naive_solver. Qed.

Ltac watches_evaluated :=
  erewrite wakes_run;
  [|repeat constructor; intros;
    first [apply watch_miss; discriminate
          |apply watch_hit; first
            [apply labelMatcher_reads | apply databaseSecretMatcher_reads
            |apply findProvidersForSecret_reads | apply findProvidersForGateway_reads
            |apply findAllPolicies_reads]]];
  cbn [concat]; rewrite ?app_nil_r; cbn [app].
Ltac nothing_else :=
  rewrite not_own by discriminate; cbn; split; [by intros [?%not_elem_of_nil|?%not_elem_of_nil]|done].

Lemma gateway_woken k (n : notice k) w q : wakes gateway_builder n w q ↔ gateway_cares n q.
Proof.
  assert (∀ k (n : notice k), q ∈ (carried_by n ≫= λ o, cluster_requests (findGatewayForManagedResource o)) ↔
    about n (λ o, q.2 = "" ∧ labelled_for q.1 o)) as Hl.
  { intros k' n'. apply elem_of_about. intros o. apply elem_of_managed. }
  destruct k; watches_evaluated; try nothing_else; cbn [gateway_cares].
  - rewrite elem_of_own by done. set_solver.
  - rewrite not_own by done. cbn [always_pred].
    rewrite (elem_of_about _ _ (λ s : obj KSecret, ∃ gw, gw ∈ listed gws ∧ q = (Name (ometa gw), "") ∧
      gatewayNamespace gw = Namespace (ometa s) ∧ databaseSecretName gw = Name (ometa s))); [set_solver|].
    intros s. unfold cluster_requests. rewrite list_elem_of_fmap.
    setoid_rewrite list_elem_of_In. setoid_rewrite in_map_iff. setoid_rewrite filter_In.
    split.
    + intros (x & -> & gw & <- & Hin & Hb). exists gw. by bool_simpl.
    + intros (gw & Hin & -> & H1 & H2). exists (Name (ometa gw)). split; [done|]. exists gw.
      rewrite H1, H2, !bool_decide_eq_true_2 by done. done.
  - rewrite not_own by done. cbn [always_pred]. rewrite Hl. set_solver.
  - rewrite not_own by done. cbn [always_pred]. rewrite Hl. set_solver.
  - rewrite not_own by done. cbn [always_pred]. rewrite Hl. set_solver.
Qed.

Lemma provider_woken k (n : notice k) w q : wakes provider_builder n w q ↔ provider_cares n q.
Proof.
  destruct k; watches_evaluated; try nothing_else; cbn [provider_cares].
  - rewrite not_own by done. cbn [always_pred]. rewrite elem_of_every, elem_of_requests. set_solver.
  - rewrite elem_of_own by done. set_solver.
  - rewrite not_own by done. rewrite resource_version_pred.
    assert (q ∈ (carried_by n ≫= λ s : obj KSecret, request_of <$>
        filter (λ p, refers_to (Name (ometa s)) p = true) (listed (providers_in (Namespace (ometa s))))) ↔
      about n (λ s, ∃ p, p ∈ listed (providers_in (Namespace (ometa s))) ∧ q = request_of p ∧ refers_to_secret p s)) as Hs.
    { apply elem_of_about. intros s. rewrite elem_of_requests. unfold refers_to_secret.
      setoid_rewrite list_elem_of_filter.
      setoid_rewrite refers_to_spec. naive_solver. }
    rewrite elem_of_if, Hs, (updates_filtered n (λ o o', ResourceVersion (ometa o) ≠ ResourceVersion (ometa o'))).
    set_solver.
Qed.

Lemma policy_woken k (n : notice k) w q : wakes policy_builder n w q ↔ policy_cares n q.
Proof.
  destruct k; watches_evaluated; try nothing_else; cbn [policy_cares].
  - rewrite not_own by done. rewrite generation_pred.
    rewrite elem_of_if, elem_of_every, elem_of_requests.
    rewrite (updates_filtered n (λ o o', Generation (ometa o) ≠ Generation (ometa o'))). set_solver.
  - rewrite elem_of_own by done.
    by rewrite elem_of_if, deletions_only, elem_of_every, elem_of_requests.
Qed.

Lemma member_woken k (n : notice k) w q : wakes member_builder n w q ↔ member_cares n q.
Proof.
  destruct k; watches_evaluated; try nothing_else; cbn [member_cares].
  rewrite elem_of_own by done. set_solver.
Qed.

(** C31. Which events enqueue which requests, for each of the four controllers
    and every kind of object: an event enqueues the object itself for its own
    controller; the gateway whose label a Deployment, Service or ConfigMap
    carries; for a Secret, the gateways whose database Secret it is, and, unless
    the update left its resource version alone, the providers of its namespace
    that refer to it; for a gateway, all providers, and, unless the update left
    its generation alone, all policies, so also when a gateway is created or
    deleted; for the deletion of a policy, all policies.  Nothing else is
    enqueued.  Gateways, providers and policies are those that the List of the
    map function returns: when it fails there are none and the event is dropped.
    Lists are taken to leave the cluster as it is. *)
Theorem watches_are_exact k (n : notice k) w q :
  (wakes gateway_builder n w q ↔ gateway_cares n q) ∧
  (wakes provider_builder n w q ↔ provider_cares n q) ∧
  (wakes policy_builder n w q ↔ policy_cares n q) ∧
  (wakes member_builder n w q ↔ member_cares n q).
Proof. auto using gateway_woken, provider_woken, policy_woken, member_woken. Qed.

(** When the active gateway is deleted, only its own request is enqueued: the
    gateway that was superseded by it is not reconciled. *)
Theorem deleted_gateway_wakes_no_successor (o : OpenShellGateway) w q :
  wakes gateway_builder (Deleted o) w q ↔ q = request_of o.
Proof. rewrite gateway_woken. unfold gateway_cares, about. cbn [carried_by]. set_solver. Qed.
End claims.

(** What the gateway controller labels comes back to it. *)
Lemma gatewayLabels_labelled {k} gw (o : obj k) :
  Name (ometa gw) ≠ "" → gatewayLabels gw ⊆ Labels (ometa o) → labelled_for (Name (ometa gw)) o.
Proof.
  intros Hn Hsub. split; [|split; [|done]]; eapply lookup_weaken; [|exact Hsub| |exact Hsub].
  - unfold gatewayLabels. by rewrite !lookup_insert_ne, lookup_insert_eq by done.
  - unfold gatewayLabels. by rewrite lookup_insert_ne, lookup_insert_eq by done.
Qed.

(** ** A concrete runtime *)

#[local] Instance plain_runtime : ControllerRuntime := {|
  GenerationChangedPredicate k n := match n with
    | Updated old new => bool_decide (Generation (ometa old) ≠ Generation (ometa new)) | _ => true end;
  ResourceVersionChangedPredicate k n := match n with
    | Updated old new => bool_decide (ResourceVersion (ometa old) ≠ ResourceVersion (ometa new))
    | _ => true end;
  dispatch b k n := registered b n |}.

#[local] Instance plain_runtime_laws : ControllerRuntimeLaws plain_runtime.
Proof. by split. Qed.

Definition list_handler : handler KSig unit := λ c w,
  match c return kresp c * unit with
  | CList KProvider (Some ns) labels =>
      (inr (filter (λ p : OpenShellProvider, Namespace (ometa p) = ns) [toy_provider None]), w)
  | c => cluster_handler (toy_cluster None) c w
  end.

Lemma list_handler_lists :
  lists_answered list_handler (inr [toy_gateway]) (inr [toy_provider None])
    (λ ns, inr (filter (λ p : OpenShellProvider, Namespace (ometa p) = ns) [toy_provider None]))
    (inr (cl_policies (toy_cluster None))).
Proof. split; [by intros []..|by intros ? []|by intros []]. Qed.

(** The credentials Secret of the provider is rotated. *)
Definition rotated : notice KSecret :=
  Updated (toy_secret "creds" "team" {["token" := "s3cret"]})
    (with_meta (λ m, mkMeta (Name m) (Namespace m) (Labels m) (Annotations m) (UID m) "2" (Generation m)
                       (CreationTimestamp m) (DeletionTimestamp m) (Finalizers m))
       (toy_secret "creds" "team" {["token" := "n3w"]})).

Lemma watches_are_exact_witness :
  wakes list_handler provider_builder rotated tt ("p", "team") ∧
  ¬ wakes list_handler gateway_builder rotated tt ("gw", "").
Proof.
  destruct (watches_are_exact list_handler _ _ _ _ list_handler_lists KSecret rotated tt ("p", "team"))
    as (_ & Hp & _).
  destruct (watches_are_exact list_handler _ _ _ _ list_handler_lists KSecret rotated tt ("gw", ""))
    as (Hg & _).
  split.
  - apply Hp. split; [by intros ?? [= <- <-]|]. eexists. split; [by left|].
    exists (toy_provider None). split; [by left|]. split; [reflexivity|].
    exists "GH_TOKEN". eexists. split; reflexivity.
  - rewrite Hg. intros (s & Hin & gw & Hgw & _ & _ & Hs).
    apply list_elem_of_singleton in Hgw as ->.
    apply elem_of_cons in Hin as [->|Hin%list_elem_of_singleton]; [discriminate Hs|].
    subst s. discriminate Hs.
Defined.
