(* ===== verification/Manager.v ===== *)
(** * cmd/main.go and api/v1alpha1/groupversion_info.go: the manager process

    The process parses its flags, prepares the TLS options of its two servers,
    creates the controller-runtime manager, registers the four controllers and
    the health checks, and runs until a signal.  Calls into controller-runtime
    are the signature [MSig]; [os.Exit] ends the program.  The TLS options are
    slices that are appended to in several places, so they are modelled with
    their backing arrays and capacities. *)

From S2P Require Import Prelude Interaction GoStrings GoErrors GoPath ApiTypes Kube.
From S2P Require Import Watches.
From Stdlib Require Import Ascii.

(** ** Types known to the scheme *)

Inductive api_type := ApiObject (k : kind) | ApiList (k : kind).
Definition scheme : Type := list api_type.

(** [addKnownTypes]; [metav1.AddToGroupVersion] adds option types only. *)
Definition addKnownTypes (s : scheme) : option err * scheme :=
  (None, s ++ [ApiObject KGateway; ApiList KGateway; ApiObject KProvider; ApiList KProvider;
               ApiObject KPolicy; ApiList KPolicy; ApiObject KMember; ApiList KMember]).

(** [clientgoscheme.AddToScheme]. *)
Class ClientGoScheme := clientgo_AddToScheme : scheme → option err * scheme.

(** [init]: [utilruntime.Must] panics ([None]) on an error. *)
Definition Must (r : option err * scheme) : option scheme :=
  match r with (None, s) => Some s | (Some _, _) => None end.

Definition init {CS : ClientGoScheme} : option scheme :=
  s ← Must (clientgo_AddToScheme []);
  Must (addKnownTypes s).

(** ** Flags *)

Record flags := mkFlags {
  metricsAddr : string; probeAddr : string;
  enableLeaderElection : bool; secureMetrics : bool;
  webhookCertPath : string; webhookCertName : string; webhookCertKey : string;
  metricsCertPath : string; metricsCertName : string; metricsCertKey : string;
  enableHTTP2 : bool
}.

Definition default_flags : flags :=
  mkFlags "0" ":8081" false true "" "tls.crt" "tls.key" "" "tls.crt" "tls.key" false.

(** [flag.StringVar] and [flag.BoolVar]: the variable behind a name. *)
Definition string_flag (name v : string) (f : flags) : option flags :=
  let '(mkFlags ma pa le sm wp wn wk mp mn mk h2) := f in
  if name =s "metrics-bind-address" then Some (mkFlags v pa le sm wp wn wk mp mn mk h2)
  else if name =s "health-probe-bind-address" then Some (mkFlags ma v le sm wp wn wk mp mn mk h2)
  else if name =s "webhook-cert-path" then Some (mkFlags ma pa le sm v wn wk mp mn mk h2)
  else if name =s "webhook-cert-name" then Some (mkFlags ma pa le sm wp v wk mp mn mk h2)
  else if name =s "webhook-cert-key" then Some (mkFlags ma pa le sm wp wn v mp mn mk h2)
  else if name =s "metrics-cert-path" then Some (mkFlags ma pa le sm wp wn wk v mn mk h2)
  else if name =s "metrics-cert-name" then Some (mkFlags ma pa le sm wp wn wk mp v mk h2)
  else if name =s "metrics-cert-key" then Some (mkFlags ma pa le sm wp wn wk mp mn v h2)
  else None.

Definition bool_flag (name : string) (v : bool) (f : flags) : option flags :=
  let '(mkFlags ma pa le sm wp wn wk mp mn mk h2) := f in
  if name =s "leader-elect" then Some (mkFlags ma pa v sm wp wn wk mp mn mk h2)
  else if name =s "metrics-secure" then Some (mkFlags ma pa le v wp wn wk mp mn mk h2)
  else if name =s "enable-http2" then Some (mkFlags ma pa le sm wp wn wk mp mn mk v)
  else None.

(** The flags that libraries put on the command line ([zap.Options.BindFlags],
    controller-runtime's [kubeconfig]): whether a name is one of them and
    boolean, and whether a value is accepted. *)
Class LibraryFlags := { library_flag : string → option bool; library_accepts : string → string → bool }.

(** [strconv.ParseBool]. *)
Definition ParseBool (s : string) : option bool :=
  if existsb (λ x, s =s x) ["1"; "t"; "T"; "true"; "TRUE"; "True"] then Some true
  else if existsb (λ x, s =s x) ["0"; "f"; "F"; "false"; "FALSE"; "False"] then Some false
  else None.

(** The [name=value] of an argument: the name has at least one byte, so the
    search starts at the second one. *)
Fixpoint cut_eq (s : string) : string * option string :=
  match s with
  | EmptyString => ("", None)
  | String c s =>
      if bool_decide (c = "="%char) then ("", Some s)
      else let '(n, v) := cut_eq s in (String c n, v)
  end.

Definition cut_flag (s : string) : string * option string :=
  match s with
  | EmptyString => ("", None)
  | String c s => let '(n, v) := cut_eq s in (String c n, v)
  end.

(** An argument of [parseOne]: not a flag, the terminator, malformed, or a flag
    with an optional value. *)
Inductive argument := NotAFlag | Terminator | BadSyntax | FlagArg (name : string) (value : option string).

Definition flag_of (body : string) : argument :=
  match body with
  | EmptyString => BadSyntax
  | String c _ =>
      if bool_decide (c = "-"%char) || bool_decide (c = "="%char) then BadSyntax
      else let '(n, v) := cut_flag body in FlagArg n v
  end.

Definition argument_of (s : string) : argument :=
  match s with
  | String "-" (String "-" EmptyString) => Terminator
  | String "-" (String "-" body) => flag_of body
  | String "-" (String c body) => flag_of (String c body)
  | _ => NotAFlag
  end.

Section flags.
Context {Z : LibraryFlags}.

Inductive parse_result := Parsed (f : flags) | UsageError | HelpRequested.

Definition known_flag (name : string) : option bool :=
  if existsb (λ x, name =s x) ["leader-elect"; "metrics-secure"; "enable-http2"] then Some true
  else if bool_decide (is_Some (string_flag name "" default_flags)) then Some false
  else library_flag name.

(** [flag.Set]: the value is stored, or refused. *)
Definition set_flag (name value : string) (f : flags) : option flags :=
  match string_flag name value f with
  | Some f => Some f
  | None =>
      match library_flag name with
      | Some _ => if library_accepts name value then Some f else None
      | None => b ← ParseBool value; bool_flag name b f
      end
  end.

(** [flag.Parse] on [os.Args[1:]], with the command line's exit on errors. *)
Fixpoint flag_Parse (args : list string) (f : flags) : parse_result :=
  match args with
  | [] => Parsed f
  | a :: args =>
      match argument_of a with
      | NotAFlag | Terminator => Parsed f
      | BadSyntax => UsageError
      | FlagArg name value =>
          match known_flag name, value with
          | None, _ => if (name =s "help") || (name =s "h") then HelpRequested else UsageError
          | Some true, _ =>
              match set_flag name (default "true" value) f with
              | Some f => flag_Parse args f
              | None => UsageError
              end
          | Some false, Some v =>
              match set_flag name v f with Some f => flag_Parse args f | None => UsageError end
          | Some false, None =>
              match args with
              | [] => UsageError
              | v :: args =>
                  match set_flag name v f with Some f => flag_Parse args f | None => UsageError end
              end
          end
      end
  end.

(** A setting changes only by its own flag. *)
Definition mentions (name : string) (args : list string) : Prop :=
  ∃ a v, a ∈ args ∧ argument_of a = FlagArg name v.

Lemma set_flag_secure name v f f' :
  set_flag name v f = Some f' → name ≠ "metrics-secure" → secureMetrics f' = secureMetrics f.
Proof.
  unfold set_flag. intros Hset Hn. destruct f, (string_flag _ _ _) as [f1|] eqn:E.
  - injection Hset as <-. unfold string_flag in E. repeat case_match; by simplify_eq.
  - destruct (library_flag name); [by case_match; simplify_eq|].
    destruct (ParseBool v) as [b|]; [|done]. cbn in Hset. rewrite (bool_decide_eq_false_2 _ Hn) in Hset.
    repeat case_match; by simplify_eq.
Qed.

Lemma metrics_stay_secure args f f' :
  flag_Parse args f = Parsed f' → ¬ mentions "metrics-secure" args → secureMetrics f' = secureMetrics f.
Proof.
  revert f. induction args as [args IH] using (induction_ltof1 _ (@length string)). unfold ltof in IH.
  intros f Hp Hm. destruct args as [|a args]; [by injection Hp as <-|]. cbn [flag_Parse] in Hp.
  destruct (argument_of a) as [| | |name value] eqn:Ha; try (done || by injection Hp as <-).
  assert (name ≠ "metrics-secure") as Hn.
  { intros ->. apply Hm. exists a, value. split; [by left|done]. }
  assert (∀ args', args' `suffix_of` args → ¬ mentions "metrics-secure" args') as Hm'.
  { intros args' [l ->] (a' & v & Hin & ?). apply Hm. exists a', v. split; [|done].
    right. apply elem_of_app. by right. }
  destruct (known_flag name) as [[|]|]; [|destruct value as [v|]|by case_match].
  - destruct (set_flag _ _ f) as [f1|] eqn:E; [|done]. rewrite <-(set_flag_secure _ _ _ _ E Hn).
    apply (IH args); [cbn; lia|done|]. by apply Hm'.
  - destruct (set_flag _ _ f) as [f1|] eqn:E; [|done]. rewrite <-(set_flag_secure _ _ _ _ E Hn).
    apply (IH args); [cbn; lia|done|]. by apply Hm'.
  - destruct args as [|v args]; [done|].
    destruct (set_flag _ _ f) as [f1|] eqn:E; [|done]. rewrite <-(set_flag_secure _ _ _ _ E Hn).
    apply (IH args); [cbn; lia|done|]. apply Hm'. by exists [v].
Qed.
End flags.

(** ** Slices that are appended to *)

(** The capacity the runtime gives a slice that must grow to [n] elements. *)
Class GrowSlice := growcap : nat → nat.

(** A slice header, the zero value being nil, and the backing arrays. *)
Record header := mkHeader { sl_array : positive; sl_len : nat; sl_cap : nat }.
Definition nil_slice : header := mkHeader 1 0 0.
Abbreviation arrays T := (gmap positive (list T)).

Definition contents {T} (a : arrays T) (s : header) : list T :=
  take (sl_len s) (default [] (a !! sl_array s)).

(** [append(s, x)]: in place when there is room, else in a new array. *)
Definition append {G : GrowSlice} {T} (a : arrays T) (s : header) (x : T) : header * arrays T :=
  if (sl_len s <? sl_cap s)%nat then
    (mkHeader (sl_array s) (S (sl_len s)) (sl_cap s),
     alter (λ l, take (sl_len s) l ++ x :: drop (S (sl_len s)) l) (sl_array s) a)
  else
    let l := fresh (dom a) in
    (mkHeader l (S (sl_len s)) (growcap (S (sl_len s))), <[l := contents a s ++ [x]]> a).

(** ** TLS options *)

(** A certificate watcher, by the order of creation. *)
Abbreviation watcher := nat.

Inductive tls_opt := DisableHTTP2 | UseCertificate (w : watcher).
Record tls_config := mkTLSConfig { NextProtos : list string; GetCertificate : option watcher }.

Definition apply_opt (c : tls_config) (o : tls_opt) : tls_config :=
  match o with
  | DisableHTTP2 => mkTLSConfig ["http/1.1"] (GetCertificate c)
  | UseCertificate w => mkTLSConfig (NextProtos c) (Some w)
  end.

(** A server applies its options in order. *)
Definition configured (opts : list tls_opt) : tls_config := foldl apply_opt (mkTLSConfig [] None) opts.

Record metrics_options := mkMetrics {
  BindAddress : string; SecureServing : bool; MTLSOpts : list tls_opt; AuthFilter : bool
}.
Record manager_options := mkManager {
  OScheme : scheme; Metrics : metrics_options; WebhookTLSOpts : list tls_opt;
  HealthProbeBindAddress : string; LeaderElection : bool; LeaderElectionID : string
}.

(** ** The process *)

Inductive mcall :=
| MNewCertWatcher (cert key : string)       (* certwatcher.New *)
| MGetConfig                                (* ctrl.GetConfigOrDie *)
| MNewManager (o : manager_options)
| MNewForConfig                             (* kubernetes.NewForConfig *)
| MComplete (b : builder)                   (* SetupWithManager *)
| MAdd (w : watcher)
| MAddHealthzCheck (name : string)
| MAddReadyzCheck (name : string)
| MStart.

Definition mresp (c : mcall) : Type :=
  match c with
  | MNewCertWatcher _ _ => err + watcher
  | _ => option err
  end%type.

Definition MSig : sig := Sig mcall mresp.
Definition mdo (c : mcall) : prog MSig (mresp c) := Call (S := MSig) c Ret.

(** How the process ends: [os.Exit], a panic in [init], or the end of [main]. *)
Inductive ending := Exited (code : nat) | Panicked | Returned.

Section main.
Context {Z : LibraryFlags} {G : GrowSlice} {CS : ClientGoScheme} {CR : ControllerRuntime}.

(** [if err := f(); err != nil { ...; os.Exit(1) }]. *)
Definition or_exit (p : prog MSig (option err)) (k : prog MSig ending) : prog MSig ending :=
  e ← p;
  match e with
  | Some _ => mret (Exited 1)
  | None => k
  end.

(** A certificate watcher when a directory is given. *)
Definition cert_watcher (path name key : string) : prog MSig (err + option watcher) :=
  if path <>s "" then
    r ← mdo (MNewCertWatcher (Join [path; name]) (Join [path; key]));
    mret (match r with inl e => inl e | inr w => inr (Some w) end)
  else mret (inr None).

(** [append(opts, func(config) { config.GetCertificate = w.GetCertificate })]. *)
Definition append_certificate (a : arrays tls_opt) (s : header) (w : option watcher)
    : header * arrays tls_opt :=
  match w with
  | Some w => append a s (UseCertificate w)
  | None => (s, a)
  end.

Definition add_watcher (w : option watcher) (k : prog MSig ending) : prog MSig ending :=
  match w with
  | Some w => or_exit (mdo (MAdd w)) k
  | None => k
  end.

(** The reconcilers' [SetupWithManager]. *)
Definition gateway_SetupWithManager : prog MSig (option err) := mdo (MComplete gateway_builder).
Definition provider_SetupWithManager : prog MSig (option err) := mdo (MComplete provider_builder).
Definition policy_SetupWithManager : prog MSig (option err) := mdo (MComplete policy_builder).
Definition member_SetupWithManager : prog MSig (option err) := mdo (MComplete member_builder).

(** From the manager on. *)
Definition run_manager (o : manager_options) (metricsW webhookW : option watcher) : prog MSig ending :=
  or_exit (mdo MGetConfig) (
  or_exit (mdo (MNewManager o)) (
  or_exit (mdo MNewForConfig) (
  or_exit gateway_SetupWithManager (
  or_exit provider_SetupWithManager (
  or_exit policy_SetupWithManager (
  or_exit member_SetupWithManager (
  add_watcher metricsW (
  add_watcher webhookW (
  or_exit (mdo (MAddHealthzCheck "healthz")) (
  or_exit (mdo (MAddReadyzCheck "readyz")) (
  or_exit (mdo MStart) (mret Returned)))))))))))).

(** The options of the two servers are read when they start, after the last
    append. *)
Definition options_of (s : scheme) (f : flags) (a : arrays tls_opt) (metricsOpts webhookOpts : header)
    : manager_options :=
  mkManager s
    (mkMetrics (metricsAddr f) (secureMetrics f) (contents a metricsOpts) (secureMetrics f))
    (contents a webhookOpts) (probeAddr f) (enableLeaderElection f) "10738010.ogo.io".

Definition main_parsed (s : scheme) (f : flags) : prog MSig ending :=
  let '(tlsOpts, a) :=
    if negb (enableHTTP2 f) then append ∅ nil_slice DisableHTTP2 else (nil_slice, ∅) in
  let webhookTLSOpts := tlsOpts in
  r ← cert_watcher (webhookCertPath f) (webhookCertName f) (webhookCertKey f);
  match r with
  | inl _ => mret (Exited 1)
  | inr webhookW =>
      let '(webhookTLSOpts, a) := append_certificate a webhookTLSOpts webhookW in
      r ← cert_watcher (metricsCertPath f) (metricsCertName f) (metricsCertKey f);
      match r with
      | inl _ => mret (Exited 1)
      | inr metricsW =>
          let '(metricsTLSOpts, a) := append_certificate a tlsOpts metricsW in
          run_manager (options_of s f a metricsTLSOpts webhookTLSOpts) metricsW webhookW
      end
  end.

Definition main (args : list string) : prog MSig ending :=
  match init with
  | None => mret Panicked
  | Some s =>
      match flag_Parse args default_flags with
      | UsageError => mret (Exited 2)
      | HelpRequested => mret (Exited 0)
      | Parsed f => main_parsed s f
      end
  end.

(** ** What a started manager is *)

(** The watcher of a server: made from the files the flags name, if any. *)
Definition cert_events (path name key : string) (w : option watcher) : list (event MSig) :=
  match w with
  | Some w => [Ev (S := MSig) (MNewCertWatcher (Join [path; name]) (Join [path; key])) (inr w)]
  | None => []
  end.

Definition added (w : option watcher) : list (event MSig) :=
  match w with Some w => [Ev (S := MSig) (MAdd w) None] | None => [] end.

(** Everything that happened, successfully, before the manager was started. *)
Definition startup_events (f : flags) (o : manager_options) (metricsW webhookW : option watcher)
    : list (event MSig) :=
  cert_events (webhookCertPath f) (webhookCertName f) (webhookCertKey f) webhookW ++
  cert_events (metricsCertPath f) (metricsCertName f) (metricsCertKey f) metricsW ++
  [Ev (S := MSig) MGetConfig None; Ev (S := MSig) (MNewManager o) None; Ev (S := MSig) MNewForConfig None;
   Ev (S := MSig) (MComplete gateway_builder) None; Ev (S := MSig) (MComplete provider_builder) None;
   Ev (S := MSig) (MComplete policy_builder) None; Ev (S := MSig) (MComplete member_builder) None] ++
  added metricsW ++ added webhookW ++
  [Ev (S := MSig) (MAddHealthzCheck "healthz") None; Ev (S := MSig) (MAddReadyzCheck "readyz") None].

(** The two servers' options are appended to one slice.  With HTTP/2 off that
    slice has an element, and a runtime that allocated more room than that lets
    both appends write to the same place. *)
Definition shares_array (f : flags) : bool := negb (enableHTTP2 f) && (1 <? growcap 1)%nat.

(** The certificate the webhook server serves: its own, or in a shared array
    the one that was appended last. *)
Definition webhook_certificate (f : flags) (metricsW webhookW : option watcher) : option watcher :=
  w ← webhookW; if shares_array f then Some (default w metricsW) else Some w.

(** Both servers as the flags ask for them. *)
Record manager_configured (f : flags) (o : manager_options) (metricsW webhookW : option watcher) : Prop := {
  metrics_watched : is_Some metricsW ↔ metricsCertPath f ≠ "";
  webhook_watched : is_Some webhookW ↔ webhookCertPath f ≠ "";
  metrics_tls : configured (MTLSOpts (Metrics o)) =
    mkTLSConfig (if enableHTTP2 f then [] else ["http/1.1"]) metricsW;
  webhook_tls : configured (WebhookTLSOpts o) =
    mkTLSConfig (if enableHTTP2 f then [] else ["http/1.1"]) (webhook_certificate f metricsW webhookW);
  metrics_protected : AuthFilter (Metrics o) = SecureServing (Metrics o) ∧
    SecureServing (Metrics o) = secureMetrics f ∧ BindAddress (Metrics o) = metricsAddr f;
  election : LeaderElection o = enableLeaderElection f;
  kinds_known : ∀ b, b ∈ [gateway_builder; provider_builder; policy_builder; member_builder] →
    ApiObject (b_for b) ∈ OScheme o ∧ ApiList (b_for b) ∈ OScheme o
}.

(** *** Appending *)

Section appending.
Context {T : Type}.

(** A header of these arrays. *)
Definition valid (a : arrays T) (s : header) : Prop :=
  sl_len s = 0 ∨ ∃ l, a !! sl_array s = Some l ∧ sl_len s ≤ length l.

Lemma contents_length a s : valid a s → length (contents a s) = sl_len s.
Proof.
  unfold contents. rewrite length_take. intros [->|(l & -> & Hl)]; [lia|]. cbn. lia.
Qed.

(** Appending to a full slice copies: the result has one element more, and no
    other slice sees it. *)
Lemma append_full a s x :
  sl_cap s ≤ sl_len s → valid a s →
  valid (append a s x).2 (append a s x).1 ∧
  contents (append a s x).2 (append a s x).1 = contents a s ++ [x] ∧
  ∀ t, valid a t → contents (append a s x).2 t = contents a t ∧ valid (append a s x).2 t.
Proof.
  intros Hc Hv. unfold append. rewrite (proj2 (Nat.ltb_ge _ _)) by lia. cbv zeta. cbn [fst snd].
  pose proof (is_fresh (dom a)) as Hf. set (l := fresh (dom a)) in *.
  pose proof (contents_length a s Hv) as Hlen. split_and!.
  - right. exists (contents a s ++ [x]). cbn [sl_array sl_len].
    rewrite lookup_insert_eq, length_app, Hlen. cbn. split; [done|lia].
  - unfold contents at 1. cbn [sl_array sl_len]. rewrite lookup_insert_eq. cbn [default from_option].
    rewrite take_ge; [done|]. unfold id. rewrite length_app, Hlen. cbn. lia.
  - intros t [Ht|(lt & Ht & Hle)].
    + split; [|by left]. unfold contents. by rewrite Ht, !take_0.
    + assert (sl_array t ≠ l) as Hne by (intros E; apply Hf; rewrite <-E; apply elem_of_dom; by eexists).
      split; [unfold contents; by rewrite lookup_insert_ne|].
      right. exists lt. by rewrite lookup_insert_ne.
Qed.
End appending.

(** The options both servers start from. *)
Definition base_opts (f : flags) : list tls_opt := if enableHTTP2 f then [] else [DisableHTTP2].
Definition cert_opt (w : option watcher) : list tls_opt :=
  match w with Some w => [UseCertificate w] | None => [] end.

Lemma append_certificate_full a s w :
  sl_cap s ≤ sl_len s → valid a s →
  contents (append_certificate a s w).2 (append_certificate a s w).1 = contents a s ++ cert_opt w ∧
  valid (append_certificate a s w).2 (append_certificate a s w).1 ∧
  ∀ t, valid a t → contents (append_certificate a s w).2 t = contents a t ∧
    valid (append_certificate a s w).2 t.
Proof.
  intros Hc Hv. destruct w as [w|]; cbn [append_certificate cert_opt fst snd].
  - destruct (append_full a s (UseCertificate w) Hc Hv) as (H1 & H2 & H3). done.
  - by rewrite app_nil_r.
Qed.

Lemma configured_opts f w :
  configured (base_opts f ++ cert_opt w) = mkTLSConfig (if enableHTTP2 f then [] else ["http/1.1"]) w.
Proof. unfold configured, base_opts. by destruct (enableHTTP2 f), w. Qed.

(** Appending for one server and then for the other, from the same slice. *)
Definition append_both (b : header * arrays tls_opt) (webhookW metricsW : option watcher)
    : header * header * arrays tls_opt :=
  let '(webhookOpts, a) := append_certificate b.2 b.1 webhookW in
  let '(metricsOpts, a) := append_certificate a b.1 metricsW in
  (metricsOpts, webhookOpts, a).

(** Without spare room both get a copy. *)
Lemma append_both_full b webhookW metricsW :
  sl_cap b.1 ≤ sl_len b.1 → valid b.2 b.1 →
  let '(metricsOpts, webhookOpts, a) := append_both b webhookW metricsW in
  contents a metricsOpts = contents b.2 b.1 ++ cert_opt metricsW ∧
  contents a webhookOpts = contents b.2 b.1 ++ cert_opt webhookW.
Proof.
  destruct b as [s a]. cbn [fst snd]. intros Hfull Hval. unfold append_both. cbn [fst snd].
  destruct (append_certificate_full a s webhookW Hfull Hval) as (Hc1 & Hv1 & Hk1).
  destruct (append_certificate a s webhookW) as [wo a1]. cbn [fst snd] in *.
  destruct (Hk1 s Hval) as [Hb1 Hval1].
  destruct (append_certificate_full a1 s metricsW Hfull Hval1) as (Hc2 & _ & Hk2).
  destruct (append_certificate a1 s metricsW) as [mo a2]. cbn [fst snd] in *.
  destruct (Hk2 wo Hv1) as [Hw2 _]. by rewrite Hc2, Hb1, Hw2, Hc1.
Qed.

(** With spare room both write to the element after the first. *)
Lemma append_both_spare l c x webhookW metricsW :
  (1 < c)%nat →
  let '(metricsOpts, webhookOpts, a) := append_both (mkHeader l 1 c, {[l := [x]]}) webhookW metricsW in
  contents a metricsOpts = x :: cert_opt metricsW ∧
  contents a webhookOpts = x :: cert_opt (w ← webhookW; Some (default w metricsW)).
Proof.
  intros Hc. unfold append_both, append_certificate, append. cbn [fst snd sl_len sl_cap sl_array].
  rewrite (proj2 (Nat.ltb_lt _ _)) by done.
  destruct webhookW as [w|], metricsW as [m|]; unfold contents; cbn [sl_len sl_array];
    rewrite ?alter_singleton_eq, !lookup_singleton_eq; done.
Qed.

(** The slice both start from. *)
Lemma append_both_base f webhookW metricsW :
  let '(metricsOpts, webhookOpts, a) := append_both
    (if negb (enableHTTP2 f) then append ∅ nil_slice DisableHTTP2 else (nil_slice, ∅)) webhookW metricsW in
  contents a metricsOpts = base_opts f ++ cert_opt metricsW ∧
  contents a webhookOpts = base_opts f ++ cert_opt (webhook_certificate f metricsW webhookW).
Proof.
  unfold webhook_certificate, shares_array, base_opts. destruct (enableHTTP2 f); cbn [negb andb].
  - pose proof (append_both_full (nil_slice, ∅) webhookW metricsW) as Hb.
    destruct (append_both _ _ _) as [[mo wo] a].
    destruct Hb as [-> ->]; [done|by left|]. by destruct webhookW.
  - destruct (Nat.ltb_spec 1 (growcap 1)).
    + by apply append_both_spare.
    + destruct (append_full (∅ : arrays tls_opt) nil_slice DisableHTTP2) as (H1 & H2 & _); [done|by left|].
      pose proof (append_both_full (append ∅ nil_slice DisableHTTP2) webhookW metricsW) as Hb.
      destruct (append_both _ _ _) as [[mo wo] a]. rewrite H2 in Hb.
      destruct Hb as [-> ->]; [done..|]. by destruct webhookW.
Qed.

Lemma init_kinds s k :
  init = Some s → k ∈ [KGateway; KProvider; KPolicy; KMember] → ApiObject k ∈ s ∧ ApiList k ∈ s.
Proof.
  unfold init, addKnownTypes. destruct (clientgo_AddToScheme []) as [[e|] s0]; [done|].
  cbn. intros [= <-] Hk. rewrite !elem_of_app. set_solver.
Qed.

(** *** The start *)

(** The permission: whatever was done, when the manager starts. *)
Definition start_guard (args : list string) (t : list (event MSig)) (c : call MSig) : Prop :=
  c = MStart → ∃ f o metricsW webhookW, flag_Parse args default_flags = Parsed f ∧
    t = startup_events f o metricsW webhookW ∧ manager_configured f o metricsW webhookW.

Lemma start_event_inj (x y : option err) :
  Some (Ev (S := MSig) MStart x) = Some (Ev (S := MSig) MStart y) → x = y.
Proof.
  intros E. by apply (f_equal (λ o : option (event MSig), match o with
    | Some e => match ev_call e as c return mresp c → option err with
                | MStart => λ r, r | _ => λ _, None end (ev_resp e)
    | None => None end)) in E.
Qed.

(** The manager was not started. *)
Definition unstarted (t : list (event MSig)) : Prop := ∀ x, Ev (S := MSig) MStart x ∉ t.

(** How the process ends: with a failure before the manager ran, or as the
    manager's run does. *)
Definition ends_as_run (t : list (event MSig)) (r : ending) : Prop :=
  (r = Exited 1 ∧ unstarted t) ∨
  ∃ t0 x, t = t0 ++ [Ev (S := MSig) MStart x] ∧ unstarted t0 ∧
    r = match x with None => Returned | Some _ => Exited 1 end.

Lemma unstarted_snoc t c r : c ≠ MStart → unstarted t → unstarted (t ++ [Ev (S := MSig) c r]).
Proof.
  intros Hc Ht x [Hx|Hx]%elem_of_snoc; [by apply (Ht x)|].
  apply Hc. by apply (f_equal (@ev_call MSig)) in Hx.
Qed.

Lemma cert_watcher_spec args t path name key :
  unstarted t →
  always (start_guard args) (λ t' r, unstarted t' ∧ ∀ w, r = inr w →
    t' = t ++ cert_events path name key w ∧ (is_Some w ↔ path ≠ "")) t (cert_watcher path name key).
Proof.
  intros Ht. unfold cert_watcher. case_bool_decide as Hp; cbn [negb].
  - apply always_ret. split; [done|]. intros w [= <-]. cbn. rewrite app_nil_r. split; [done|].
    split; [by intros [? ?]|done].
  - always_step; [done|]. apply always_ret. split; [by apply unstarted_snoc|].
    destruct r as [e|w0]; [done|]. intros w [= <-]. split; [done|]. split; [done|by eexists].
Qed.

(** One call of the start: it is not the last one, and a failure ends the
    process. *)
Ltac start_step :=
  unfold or_exit at 1; always_step; [by intros [=]|];
  match goal with
  | H : unstarted ?t |- always _ _ (?t ++ [Ev ?c ?r]) _ =>
      assert (unstarted (t ++ [Ev (S := MSig) c r])) by (by apply unstarted_snoc); clear H; destruct r;
      [apply always_ret; by left|]
  end.

Lemma run_manager_spec args t o metricsW webhookW f :
  flag_Parse args default_flags = Parsed f → unstarted t →
  t = cert_events (webhookCertPath f) (webhookCertName f) (webhookCertKey f) webhookW ++
      cert_events (metricsCertPath f) (metricsCertName f) (metricsCertKey f) metricsW →
  manager_configured f o metricsW webhookW →
  always (start_guard args) ends_as_run t (run_manager o metricsW webhookW).
Proof.
  intros Hf Hu Ht Ho. unfold run_manager, add_watcher, gateway_SetupWithManager,
    provider_SetupWithManager, policy_SetupWithManager, member_SetupWithManager.
  do 7 start_step.
  destruct metricsW as [m|], webhookW as [v|]; repeat start_step;
    unfold or_exit; (always_step; [intros _|destruct r; apply always_ret; right; by eexists _, _]);
    exists f, o; eexists _, _; (split; [done|]; split; [|exact Ho]);
    rewrite Ht; unfold startup_events; cbn [added]; by rewrite <-!app_assoc.
Qed.

Lemma main_parsed_spec args s f :
  init = Some s → flag_Parse args default_flags = Parsed f →
  always (start_guard args) ends_as_run [] (main_parsed s f).
Proof.
  intros Hs Hf. unfold main_parsed.
  pose proof (append_both_base f) as Hopts. revert Hopts.
  generalize (if negb (enableHTTP2 f) then append ∅ nil_slice DisableHTTP2 else (nil_slice, ∅)).
  intros [tlsOpts a] Hopts. unfold append_both in Hopts. cbn [fst snd] in Hopts.
  assert (unstarted []) as Hu by by intros x ?%not_elem_of_nil.
  eapply always_cut; [by apply cert_watcher_spec|]. intros t1 [e|webhookW] [Hu1 H1].
  { apply always_ret. by left. }
  specialize (H1 _ eq_refl) as [-> Hwh].
  specialize (Hopts webhookW).
  destruct (append_certificate a tlsOpts webhookW) as [webhookOpts a1].
  eapply always_cut; [by apply cert_watcher_spec|]. intros t2 [e|metricsW] [Hu2 H2].
  { apply always_ret. by left. }
  specialize (H2 _ eq_refl) as [-> Hme].
  specialize (Hopts metricsW).
  destruct (append_certificate a1 tlsOpts metricsW) as [metricsOpts a2]. destruct Hopts as [Hmo Hwo].
  apply run_manager_spec with (f := f); [done|done|done|].
  split; cbn; [done|done|..|done|done|].
  - by rewrite Hmo, configured_opts.
  - by rewrite Hwo, configured_opts.
  - intros b Hb. apply init_kinds; [done|]. set_solver.
Qed.

(** The end of a process that never started the manager. *)
Definition unstarted_ending (args : list string) : ending :=
  match init, flag_Parse args default_flags with
  | None, _ => Panicked
  | Some _, UsageError => Exited 2
  | Some _, HelpRequested => Exited 0
  | Some _, Parsed _ => Exited 1
  end.

(** C39. The manager starts as configured or not at all.  It is started only
    after every step of the set-up succeeded, in order: both certificate
    watchers, the manager with its options, the four controllers, the health
    checks; the process then ends as the manager's run does, normally or with
    code 1.  Each server offers HTTP/2 only when asked to, the metrics endpoint
    uses its own certificate and is behind authentication exactly when it is
    served securely, which it is unless a flag says otherwise, and every kind
    that is reconciled is known to the scheme.  The webhook server uses its own
    certificate too, with one exception that Go leaves to its runtime: both
    servers' options are appended to one slice, so when HTTP/2 is off, both
    certificates are given and the runtime allocated that slice with more room
    than the one element it holds, the webhook server gets the certificate of
    the metrics server.  Where the manager is not started the process never ends
    by returning from main: it panics over the scheme, or exits with code 0
    exactly when the flags asked for the usage text, with code 2 when they are
    wrong, and with code 1 when a step of the set-up failed. *)
Theorem manager_starts_as_configured {W} (h : handler MSig W) w args :
  let tr := trace h (main args) w in
  let r := (run h (main args) w).1 in
  (∀ i x, tr !! i = Some (Ev (S := MSig) MStart x) →
    (∃ f o metricsW webhookW, flag_Parse args default_flags = Parsed f ∧
       take i tr = startup_events f o metricsW webhookW ∧ manager_configured f o metricsW webhookW ∧
       (¬ mentions "metrics-secure" args → AuthFilter (Metrics o) = true)) ∧
    length tr = S i ∧ r = match x with None => Returned | Some _ => Exited 1 end) ∧
  ((∀ x, Ev (S := MSig) MStart x ∉ tr) → r = unstarted_ending args).
Proof.
  intros tr r.
  assert (always (start_guard args) (λ t r, (r = unstarted_ending args ∧ unstarted t) ∨
    ∃ t0 x, t = t0 ++ [Ev (S := MSig) MStart x] ∧ unstarted t0 ∧
      r = match x with None => Returned | Some _ => Exited 1 end) [] (main args)) as Hm.
  { assert (unstarted []) by by intros x ?%not_elem_of_nil.
    unfold main, unstarted_ending. destruct init as [s|] eqn:Hs; [|apply always_ret; by left].
    destruct (flag_Parse args default_flags) as [f| |] eqn:Hf; try (apply always_ret; by left).
    by apply main_parsed_spec. }
  destruct (always_run _ _ h [] (main args) w Hm) as [HQ HG]. cbn [app] in HQ, HG.
  fold tr in HQ, HG. fold r in HQ. split.
  - intros i x Hi. split.
    { destruct (HG i _ Hi eq_refl) as (f & o & m & v & Hf & Ht & Ho). exists f, o, m, v.
      split_and!; [done..|]. intros Hsec. destruct (metrics_protected _ _ _ _ Ho) as (-> & -> & _).
      by rewrite (metrics_stay_secure _ _ _ Hf Hsec). }
    destruct HQ as [[_ Hno]|(t0 & x' & Ht & Hu & ->)].
    + apply list_elem_of_lookup_2 in Hi. by apply (Hno x) in Hi.
    + assert (i = length t0) as ->.
      { destruct (decide (i < length t0)) as [Hlt|].
        - rewrite Ht, lookup_app_l in Hi by done. apply list_elem_of_lookup_2 in Hi.
          by apply (Hu x) in Hi.
        - apply lookup_lt_Some in Hi. rewrite Ht, length_app in Hi. cbn in Hi. lia. }
      rewrite Ht in Hi. rewrite lookup_app_r, Nat.sub_diag in Hi by done.
      apply start_event_inj in Hi as ->.
      split; [|done]. rewrite Ht, length_app. cbn. lia.
  - intros Hno. destruct HQ as [[-> _]|(t0 & x' & Ht & _)]; [done|].
    exfalso. apply (Hno x'). rewrite Ht. apply elem_of_snoc. by right.
Qed.
End main.

(** ** A concrete process *)

#[local] Instance no_library_flags : LibraryFlags := {| library_flag _ := None; library_accepts _ _ := false |}.
#[local] Instance no_clientgo : ClientGoScheme := λ s, (None, s).
#[local] Existing Instance plain_runtime.

(** Watchers are numbered, everything succeeds, and the options of the manager
    are kept. *)
Definition manager_handler : handler MSig (nat * option manager_options) := λ c w,
  match c return mresp c * (nat * option manager_options) with
  | MNewCertWatcher _ _ => (inr w.1, (S w.1, w.2))
  | MNewManager o => (None, (w.1, Some o))
  | MStart | MGetConfig | MNewForConfig | MComplete _ | MAdd _ | MAddHealthzCheck _ | MAddReadyzCheck _ =>
      (None, w)
  end.

Definition manager_args : list string :=
  ["--leader-elect"; "--webhook-cert-path=/etc/webhook"; "-metrics-cert-path"; "/etc/metrics/"].

(** One word for one pointer. *)
#[local] Instance exact_growth : GrowSlice := λ n, n.

Lemma manager_starts_as_configured_witness :
  ∃ f o, take 13 (trace manager_handler (main manager_args) (0, None)) =
      startup_events f o (Some 1) (Some 0) ∧
    manager_configured f o (Some 1) (Some 0) ∧ enableLeaderElection f = true ∧
    GetCertificate (configured (WebhookTLSOpts o)) = Some 0 ∧
    (run manager_handler (main manager_args) (0, None)).1 = Returned.
Proof.
  destruct (manager_starts_as_configured manager_handler (0, None) manager_args) as [Hs _].
  specialize (Hs 13 None ltac:(vm_compute; reflexivity)) as ((f & o & m & v & Hf & Ht & Ho & _) & _ & Hr).
  assert (m = Some 1 ∧ v = Some 0) as [-> ->].
  { destruct (metrics_watched _ _ _ _ Ho) as [_ Hm]. destruct (webhook_watched _ _ _ _ Ho) as [_ Hv].
    vm_compute in Hf. injection Hf as <-. vm_compute in Ht.
    destruct m as [m|]; [|by destruct Hm]. destruct v as [v|]; [|by destruct Hv].
    apply (f_equal (omap (λ e : event MSig,
      match ev_call e as c return mresp c → option nat with
      | MNewCertWatcher _ _ => λ r, match r with inr w => Some w | inl _ => None end
      | _ => λ _, None end (ev_resp e)))) in Ht. vm_compute in Ht. by injection Ht as <- <-. }
  exists f, o. split; [exact Ht|]. split; [exact Ho|].
  pose proof (webhook_tls _ _ _ _ Ho) as Hw.
  vm_compute in Hf. injection Hf as <-.
  split; [reflexivity|]. split; [by rewrite Hw|exact Hr].
Defined.

(** The exception of C39: with room to spare in the first array, both appends
    would write to the same element, and the webhook server would serve the
    certificate of the metrics server. *)
Example spare_capacity_mixes_certificates :
  let grown : GrowSlice := λ n, 2 * n in
  (λ o, (GetCertificate (configured (WebhookTLSOpts o)), GetCertificate (configured (MTLSOpts (Metrics o))))) <$>
    (run manager_handler (main (G := grown) manager_args) (0, None)).2.2 = Some (Some 1, Some 1).
Proof. vm_compute. reflexivity. Qed.
