(* ===== verification/GatewayGuard.v ===== *)
(** * What the gateway controller may do

    One permission, [gateway_guard], says of every call of a reconcile what it
    rests on: which observation allows an update, a deletion or a creation,
    what a write contains, and when the finalizer and the status may be
    written.  The step files are proved against it in GatewayProofs. *)

From S2P Require Import Prelude Interaction GoStrings GoText GoErrors Jwt ApiTypes Kube StatusSchema Singleton.
From S2P Require Import Detect Pki GatewayHelpers GatewayTls GatewayResources GatewayDeployment.
From S2P Require Import GatewayRouting Dependencies EmbeddedPostgres GatewayReconciler.
Import ApiTypes.Gateway.

Create HintDb gw.

Section guard.
Context {C : Crypto} {X : X509 C} {U : Unicode} {M : ApiMachinery} {ML : ManifestLib}.
Context (name : string).

Abbreviation history := (list (event KSig)).
Abbreviation saw c r t := (Ev (S := KSig) c r ∈ t).

(** ** Facts about a history *)

(** The copy in memory, with the conditions the steps recorded on it: each of
    the shape the schema asks for. *)
Inductive recorded (gw0 : OpenShellGateway) : OpenShellGateway → Prop :=
| recorded_as_read : recorded gw0 gw0
| recorded_condition gw c :
    condition_admitted c = true → recorded gw0 gw → recorded gw0 (gw_condition gw c).

(** The gateway the reconcile was called for, up to the conditions recorded on
    it in memory. *)
Definition held (t : history) (gw : OpenShellGateway) : Prop :=
  ∃ gw0, saw (CGet KGateway name "") (inr gw0) t ∧ recorded gw0 gw.

(** It is the oldest of the cluster, or the only one. *)
Definition elected (t : history) (gw : OpenShellGateway) : Prop :=
  ∃ items, saw (CList KGateway None ∅) (inr items) t ∧ superseded_by gw items = None.

Definition active (t : history) (gw : OpenShellGateway) : Prop := held t gw ∧ elected t gw.

Definition gw_deleting (gw : OpenShellGateway) : Prop := DeletionTimestamp (ometa gw) ≠ None.

Definition absent (t : history) (k : kind) (n ns : string) : Prop :=
  ∃ e, saw (CGet k n ns) (inl e) t ∧ IsNotFound e = true.

(** The object is known to exist: read, created or written. *)
Definition provided (t : history) (k : kind) (n ns : string) : Prop :=
  (∃ o, saw (CGet k n ns) (inr o) t) ∨
  (∃ o o', saw (CCreate k o) (inr o') t ∧ Name (ometa o) = n ∧ Namespace (ometa o) = ns) ∨
  (∃ o0 o, saw (CUFetch k n ns) (inr o0) t ∧ saw (CUCommit k o) None t ∧
     Name (ometa o) = Name (ometa o0) ∧ Namespace (ometa o) = Namespace (ometa o0)).

(** What a check of an API group answered: the API server's answer in this
    reconcile, or a cached one that has not expired. *)
Definition detected (t : history) (gv : string) (b : bool) : Prop :=
  saw (CDiscover gv) b t ∨
  ∃ c now, saw (CDetectLoad gv) c t ∧ saw CNow now t ∧ (now < expiry c)%Z ∧ b = result c.

(** Labels that say the object is the operator's. *)
Definition marked (gw : OpenShellGateway) (l : gmap string string) : Prop :=
  managed_by_gateway gw l = true ∨ isOwnedByOGO l = true.

(** The database Secret holds a connection string. *)
Definition database_ok (t : history) (gw : OpenShellGateway) : Prop :=
  ∃ s, saw (CGet KSecret (databaseSecretName gw) (gatewayNamespace gw)) (inr s) t ∧
    is_Some (secret_data s !! "uri").

Definition server_secret_name (gw : OpenShellGateway) : string :=
  let custom := ServerCertSecretName (TLS (odata gw).1) in
  if custom <>s "" then custom else Name (ometa gw) +:+ "-server-tls".

(** ** Writes *)

(** What CreateOrUpdate is ever called for. *)
Definition written_names (gw : OpenShellGateway) : list (kind * string * string) :=
  let n := Name (ometa gw) in
  let ns := gatewayNamespace gw in
  let boxes := sandboxNamespace gw in
  [(KServiceAccount, n, ns); (KServiceAccount, n +:+ "-sandbox", boxes);
   (KClusterRole, n +:+ "-node-reader", ""); (KClusterRoleBinding, n +:+ "-node-reader", "");
   (KClusterRoleBinding, n +:+ "-sandbox-scc-privileged", "");
   (KRole, n +:+ "-sandbox", boxes); (KRoleBinding, n +:+ "-sandbox", boxes);
   (KNetworkPolicy, n +:+ "-sandbox-ssh", boxes);
   (KSecret, n +:+ "-server-tls", ns); (KSecret, n +:+ "-client-tls", ns);
   (KConfigMap, n +:+ "-config", ns); (KConfigMap, n +:+ "-auth-ca", ns);
   (KConfigMap, n +:+ "-gateway-ca", ns);
   (KPVC, n +:+ "-state", ns); (KPVC, n +:+ "-pg-data", ns);
   (KDeployment, n, ns); (KDeployment, n +:+ "-pg", ns);
   (KService, n, ns); (KService, n +:+ "-pg", ns)] ++
  map (λ x, (KNamespace, x, "")) (uniqueNamespaces gw).

(** The keys that the pod reads of the objects the operator writes. *)
Definition operator_files (gw : OpenShellGateway) : list (kind * string * string) :=
  let n := Name (ometa gw) in
  [(KConfigMap, n +:+ "-config", "gateway.toml");
   (KSecret, n +:+ "-jwt-keys", "signing.pem"); (KSecret, n +:+ "-jwt-keys", "public.pem");
   (KSecret, n +:+ "-jwt-keys", "kid");
   (KSecret, n +:+ "-auth-bridge-keys", "signing.pem"); (KSecret, n +:+ "-auth-bridge-keys", "public.pem");
   (KSecret, n +:+ "-auth-bridge-keys", "kid");
   (KSecret, n +:+ "-server-tls", "tls.crt"); (KSecret, n +:+ "-server-tls", "tls.key");
   (KSecret, n +:+ "-client-tls", "ca.crt")].

Definition has_files (gw : OpenShellGateway) (k : kind) (n : string) (m : gmap string string) : Prop :=
  ∀ key, (k, n, key) ∈ operator_files gw → is_Some (m !! key).

(** The self-signed pair is written only when it is missing or names other
    hosts; the client's half follows the server's half of the same bundle. *)
Definition pki_stale (t : history) (gw : OpenShellGateway) : Prop :=
  absent t KSecret (Name (ometa gw) +:+ "-server-tls") (gatewayNamespace gw) ∨
  absent t KSecret (Name (ometa gw) +:+ "-client-tls") (gatewayNamespace gw) ∨
  ∃ s, saw (CGet KSecret (Name (ometa gw) +:+ "-server-tls") (gatewayNamespace gw)) (inr s) t ∧
    sans_current s (HashSANs (computeServerSANs gw)) = false.

Definition pki_write (t : history) (gw : OpenShellGateway) (n : string) (o : obj KSecret) : Prop :=
  pki_stale t gw ∧ ∃ b o0, bundle_ok (computeServerSANs gw) b ∧
    (n = Name (ometa gw) +:+ "-server-tls" ∧
       saw (CUFetch KSecret (Name (ometa gw) +:+ "-server-tls") (gatewayNamespace gw)) (inr o0) t ∧
       o = server_tls_secret gw b (HashSANs (computeServerSANs gw)) o0 ∨
     n = Name (ometa gw) +:+ "-client-tls" ∧
       saw (CUFetch KSecret (Name (ometa gw) +:+ "-client-tls") (gatewayNamespace gw)) (inr o0) t ∧
       (∃ o1, saw (CUCommit KSecret
          (server_tls_secret gw b (HashSANs (computeServerSANs gw)) o1)) None t) ∧
       o = client_tls_secret gw b o0).

(** A ConfigMap write: the configuration, or a CA read from the server's
    Secret, never over somebody else's object. *)
Definition config_write (gw : OpenShellGateway) (o : obj KConfigMap) : Prop :=
  ∃ isOCP, CMData (odata o) = {["gateway.toml" := gateway_toml gw isOCP]} ∧
    managed_by_gateway gw (Labels (ometa o)) = true.

Definition ca_write (t : history) (gw : OpenShellGateway) (o0 o : obj KConfigMap) : Prop :=
  (CreationTimestamp (ometa o0) = None ∨ managed_by_gateway gw (Labels (ometa o0)) = true) ∧
  ∃ s key,
    saw (CGet KSecret (server_secret_name gw) (gatewayNamespace gw)) (inr s) t ∧
    (key = "ca.crt" ∨ key = "tls.crt" ∧ ServerCertSecretName (TLS (odata gw).1) = "") ∧
    CMData (odata o) = {["ca.crt" := secret_key s key]} ∧ BinaryData (odata o) = ∅ ∧
    managed_by_gateway gw (Labels (ometa o)) = true.

(** An existing claim is written back unchanged. *)
Definition pvc_write (o0 o : obj KPVC) : Prop := ∃ labels size, o = fresh_pvc labels size o0.

Definition inputs_ready (t : history) (gw : OpenShellGateway) : Prop :=
  let n := Name (ometa gw) in
  let ns := gatewayNamespace gw in
  provided t KConfigMap (n +:+ "-config") ns ∧ provided t KSecret (n +:+ "-jwt-keys") ns ∧
  provided t KSecret (n +:+ "-auth-bridge-keys") ns ∧ provided t KPVC (n +:+ "-state") ns ∧
  (tlsEnabled gw = true → provided t KSecret (server_secret_name gw) ns) ∧
  (tlsEnabled gw = true → ServerCertSecretName (TLS (odata gw).1) = "" →
     provided t KSecret (n +:+ "-client-tls") ns) ∧
  database_ok t gw.

Definition gateway_rollout (t : history) (gw : OpenShellGateway) (o0 o : obj KDeployment) : Prop :=
  inputs_ready t gw ∧
  ∃ isOCP rev, detected t routeGroupVersion isOCP ∧ o = gateway_deployment gw isOCP rev o0.

(** What may be written over [o0], which was fetched under the name [n]. *)
Definition commit_ok (t : history) (gw : OpenShellGateway) (k : kind) (n : string) : obj k → obj k → Prop :=
  match k return obj k → obj k → Prop with
  | KNamespace => λ _ o, index (Labels (ometa o)) labelManagedBy = managedByValue
  | KSecret => λ _, pki_write t gw n
  | KConfigMap => λ o0 o,
      n = Name (ometa gw) +:+ "-config" ∧ config_write gw o ∨
      n ≠ Name (ometa gw) +:+ "-config" ∧ ca_write t gw o0 o
  | KPVC => pvc_write
  | KDeployment => λ o0 o,
      n = Name (ometa gw) ∧ gateway_rollout t gw o0 o ∨
      n = Name (ometa gw) +:+ "-pg" ∧ o = pg_deployment gw (ownershipLabels componentPostgres gw) o0
  | _ => λ _ o, marked gw (Labels (ometa o))
  end.

Definition commit_at (t : history) (gw : OpenShellGateway) (k : kind) (o : obj k) : Prop :=
  ∃ n ns o0, saw (CUFetch k n ns) (inr o0) t ∧ (k, n, ns) ∈ written_names gw ∧
    (Name (ometa o) = Name (ometa o0) ∧ Namespace (ometa o) = Namespace (ometa o0)) ∧
    commit_ok t gw k n o0 o.

(** A Secret is created only where there was none, with the keys the pod reads. *)
Definition create_ok (t : history) (gw : OpenShellGateway) (k : kind) : obj k → Prop :=
  match k return obj k → Prop with
  | KSecret => λ o, absent t KSecret (Name (ometa o)) (Namespace (ometa o)) ∧ marked gw (Labels (ometa o)) ∧
      has_files gw KSecret (Name (ometa o)) (secret_data o)
  | _ => λ o, marked gw (Labels (ometa o))
  end.

(** ** Updates, deletions, the finalizer *)

Definition gone (t : history) (x : kind * string * string) : Prop :=
  let '(k, n, ns) := x in
  ∃ r, saw (CDelete k n ns) r t ∧ match r with None => True | Some e => IsNotFound e = true end.

Definition routes_cleaned (t : history) (gw : OpenShellGateway) : Prop :=
  (∃ items, saw (CList routeKind None (managed_route_selector gw)) (inr items) t ∧
     ∀ o, o ∈ items → gone t (routeKind, Name (ometa o), Namespace (ometa o))) ∨
  (∃ e, saw (CList routeKind None (managed_route_selector gw)) (inl e) t ∧
     (IsNoMatchError e = true ∨ IsNotFound e = true)) ∨
  (∃ n ns e, saw (CDelete routeKind n ns) (Some e) t ∧ IsNoMatchError e = true).

(** A trust bundle of the gateway: absent, somebody else's, or deleted. *)
Definition ca_cleaned (t : history) (gw : OpenShellGateway) (suffix : string) : Prop :=
  let n := Name (ometa gw) +:+ suffix in
  let ns := gatewayNamespace gw in
  absent t KConfigMap n ns ∨
  ∃ o, saw (CGet KConfigMap n ns) (inr o) t ∧
    (managed_by_gateway gw (Labels (ometa o)) = false ∨
     gone t (KConfigMap, Name (ometa o), Namespace (ometa o))).

Definition cleaned (t : history) (gw : OpenShellGateway) : Prop :=
  routes_cleaned t gw ∧
  (∃ isOCP, detected t routeGroupVersion isOCP ∧
     ∀ x, x ∈ cluster_resources gw isOCP ++ cross_ns_resources gw → gone t x) ∧
  ∀ suffix, suffix ∈ [authCASuffix; gatewayCASuffix] → ca_cleaned t gw suffix.

Definition finalizer_write (t : history) (gw o : OpenShellGateway) : Prop :=
  gw_deleting gw ∧ cleaned t gw ∧ o = drop_gateway_finalizer gw ∨
  ¬ gw_deleting gw ∧ odata o = odata gw ∧
    Finalizers (ometa o) = AddFinalizer (Finalizers (ometa gw)) finalizerName.

(** The operator's own, by either kind of mark, except for the Certificate and
    the OAuth client, which it synchronises by name. *)
Definition update_known (t : history) (gw : OpenShellGateway) (k : kind) (o : obj k) : Prop :=
  ∃ n ns o0, saw (CGet k n ns) (inr o0) t ∧
    (ometa o = ometa o0 ∨ n = Name (ometa o) ∧ ns = Namespace (ometa o)) ∧
    (marked gw (Labels (ometa o0)) ∨
     (k, n, ns) = (certificateKind, Name (ometa gw) +:+ "-gateway-tls", gatewayNamespace gw) ∨
     (k, n, ns) = (oauthClientKind, "openshell", "")).

Definition update_ok (t : history) (gw : OpenShellGateway) (k : kind) : obj k → Prop :=
  match k return obj k → Prop with
  | KGateway => finalizer_write t gw
  | KUnstructured g v kd => update_known t gw (KUnstructured g v kd)
  | _ => λ _, False
  end.

Definition delete_ok (t : history) (gw : OpenShellGateway) (k : kind) (n ns : string) : Prop :=
  (∃ n' ns' o, saw (CGet k n' ns') (inr o) t ∧ Name (ometa o) = n ∧ Namespace (ometa o) = ns ∧
     (marked gw (Labels (ometa o)) ∨
      (k, n', ns') = (gatewayKind, Name (ometa gw), gatewayNamespace gw) ∨
      (k, n', ns') = (KNetworkPolicy, Name (ometa gw) +:+ "-sandbox-ssh", sandboxNamespace gw) ∧
        unless_false (NPEnabled (Gateway.NetworkPolicy (odata gw).1)) = false)) ∨
  (∃ sel items o, saw (CList k None sel) (inr items) t ∧ o ∈ items ∧
     Name (ometa o) = n ∧ Namespace (ometa o) = ns ∧
     (sel = managed_route_selector gw ∨ isOwnedByOGO (Labels (ometa o)) = true)) ∨
  gw_deleting gw ∧ ∃ isOCP, (k, n, ns) ∈
    gateway_api_resources gw ++ cluster_resources gw isOCP ++ cross_ns_resources gw.

(** ** Status *)

Definition rolled_out (t : history) (gw : OpenShellGateway) : Prop :=
  ∃ isOCP rev o0, saw (CUCommit KDeployment (gateway_deployment gw isOCP rev o0)) None t.

(** The Deployment was read after its rollout was accepted. *)
Definition read_back (t : history) (gw : OpenShellGateway) (deploy : obj KDeployment) : Prop :=
  ∃ before after, t = before ++
      Ev (S := KSig) (CGet KDeployment (Name (ometa gw)) (gatewayNamespace gw)) (inr deploy) :: after ∧
    rolled_out before gw.

(** The switches of a reconcile, by the spec and the detections. *)
Definition switched (t : history) (gw : OpenShellGateway) (isOCP useGWAPI authEnabled : bool) : Prop :=
  detected t routeGroupVersion isOCP ∧
  (∃ has, detected t gatewayGroupVersion has ∧ useGWAPI = gatewayAPIEnabled gw has) ∧
  authEnabled = authBridgeEnabled gw isOCP.

(** The condition of a type that was recorded last. *)
Definition latest_condition (gw : OpenShellGateway) (ty : string) (c : Condition) : Prop :=
  ∃ base cs, gw = foldl gw_condition (gw_condition base c) cs ∧ CType c = ty ∧
    Forall (λ d, CType d ≠ ty) cs.

(** The Route in front of a listed Envoy proxy exists. *)
Definition envoy_route_there (t : history) (gw : OpenShellGateway) : Prop :=
  ∃ svcs svc, saw (CList KService (Some envoyGatewaySystemNS) (proxy_selector gw)) (inr svcs) t ∧
    svc ∈ svcs ∧ provided t routeKind (Name (ometa gw) +:+ "-gw") (Namespace (ometa svc)).

(** What was recorded of that Route: ready only when it exists. *)
Definition entry_known (t : history) (gw : OpenShellGateway) : Prop :=
  ∃ c, latest_condition gw ConditionEnvoyRouteReady c ∧
    (CStatus c = ConditionTrue → Hostname (Route (odata gw).1) ≠ "" ∧ envoy_route_there t gw).

(** What the routing steps recorded. *)
Definition routing_known (t : history) (gw : OpenShellGateway) (isOCP useGWAPI authEnabled : bool) : Prop :=
  (useGWAPI = true → routeEnabled gw = true →
     if isOCP then entry_known t gw
     else Hostname (Route (odata gw).1) = "" →
          latest_condition gw ConditionEnvoyRouteReady hostname_missing) ∧
  (isOCP = true → browserSSOMissingHostname gw authEnabled = true →
     latest_condition gw ConditionBrowserSSOReady sso_missing).

Definition final_write (t : history) (gw o : OpenShellGateway) : Prop :=
  ∃ latest deploy hasGWAPI isOCP useGWAPI authEnabled,
    saw (CGet KGateway (Name (ometa gw)) "") (inr latest) t ∧ read_back t gw deploy ∧
    (routeEnabled gw = true → detected t gatewayGroupVersion hasGWAPI) ∧
    switched t gw isOCP useGWAPI authEnabled ∧ routing_known t gw isOCP useGWAPI authEnabled ∧
    o = with_gw_status latest
          (final_status gw (pods_ready deploy) hasGWAPI authEnabled (gw_status latest)).

Definition failed_write (t : history) (gw o : OpenShellGateway) : Prop :=
  ∃ latest, saw (CGet KGateway (Name (ometa gw)) "") (inr latest) t ∧
    (o = with_gw_status latest (missing_status (gw_status latest)) ∨
     ∃ step e, o = with_gw_status latest (degraded_status gw step e (gw_status latest))).

Definition superseded_write (t : history) (gw o : OpenShellGateway) : Prop :=
  ∃ items oldest, saw (CList KGateway None ∅) (inr items) t ∧
    superseded_by gw items = Some oldest ∧ o = superseded_gateway gw oldest.

Definition status_ok (t : history) (k : kind) : obj k → Prop :=
  match k return obj k → Prop with
  | KGateway => λ o, ∃ gw, held t gw ∧
      (superseded_write t gw o ∨ elected t gw ∧ (final_write t gw o ∨ failed_write t gw o))
  | _ => λ _, False
  end.

(** ** The permission *)

Definition gateway_guard (t : history) (c : call KSig) : Prop :=
  match c with
  | CUCommit k o => ∃ gw, active t gw ∧ commit_at t gw k o
  | CCreate k o => ∃ gw, active t gw ∧ create_ok t gw k o
  | CUpdate k o => ∃ gw, active t gw ∧ update_ok t gw k o
  | CDelete k n ns => ∃ gw, active t gw ∧ delete_ok t gw k n ns
  | CStatusUpdate k o => status_ok t k o
  | CRpc _ _ | CDial _ _ | CClose => False
  | _ => True
  end.

(** ** Facts last *)

Lemma held_grow t t' gw : held t gw → t ⊆ t' → held t' gw.
Proof. intros (gw0 & H & Hr) Ht. exists gw0. auto. Qed.
Lemma active_grow t t' gw : active t gw → t ⊆ t' → active t' gw.
Proof.
  intros [Hh (items & Hi & Hs)] Ht. split; [by eapply held_grow|]. exists items. auto.
Qed.
Lemma absent_grow t t' k n ns : absent t k n ns → t ⊆ t' → absent t' k n ns.
Proof. intros (e & He & Hn) Ht. exists e. auto. Qed.
Lemma provided_grow t t' k n ns : provided t k n ns → t ⊆ t' → provided t' k n ns.
Proof.
  intros [(o & Ho)|[(o & o' & Ho & ?)|(o0 & o & H0 & Ho & ?)]] Ht.
  - left. exists o. auto.
  - right; left. exists o, o'. auto.
  - right; right. exists o0, o. auto.
Qed.
Lemma database_ok_grow t t' gw : database_ok t gw → t ⊆ t' → database_ok t' gw.
Proof. intros (s & Hs & ?) Ht. exists s. auto. Qed.
Lemma pki_stale_grow t t' gw : pki_stale t gw → t ⊆ t' → pki_stale t' gw.
Proof.
  intros [H|[H|(s & Hs & Hh)]] Ht; [left|right; left|right; right]; eauto using absent_grow.
Qed.
Lemma detected_grow t t' gv b : detected t gv b → t ⊆ t' → detected t' gv b.
Proof. intros [H|(c & now & H1 & H2 & ?)] Ht; [left; auto|right]. exists c, now. auto. Qed.

(** The spec decides, whatever conditions were recorded since. *)
Lemma switched_grow t t' (gw gw' : OpenShellGateway) isOCP useGWAPI a :
  switched t gw isOCP useGWAPI a → t ⊆ t' → (odata gw').1 = (odata gw).1 →
  switched t' gw' isOCP useGWAPI a.
Proof.
  intros (Hd & (has & Hh & ->) & ->) Ht Hs. unfold switched, authBridgeEnabled, gatewayAPIEnabled.
  rewrite Hs. split_and!; [by eapply detected_grow| |done]. exists has. split; [by eapply detected_grow|done].
Qed.

Lemma latest_condition_new gw c : latest_condition (gw_condition gw c) (CType c) c.
Proof. exists gw, []. by split_and!. Qed.

Lemma latest_condition_other gw ty c d :
  CType d ≠ ty → latest_condition gw ty c → latest_condition (gw_condition gw d) ty c.
Proof.
  intros Hd (base & cs & -> & Hc & Hf). exists base, (cs ++ [d]). rewrite foldl_snoc. split_and!; [done..|].
  apply Forall_app. auto.
Qed.

Lemma latest_condition_find `{!ApiMachineryLaws M} gw ty c :
  latest_condition gw ty c → FindStatusCondition (Conditions (gw_status gw)) ty = Some c.
Proof.
  intros (base & cs & -> & Hc & Hf). revert Hf. induction cs as [|d cs IH] using rev_ind; intros Hf.
  - cbn. rewrite find_set. by rewrite decide_True.
  - rewrite foldl_snoc. apply Forall_app in Hf as [Hf Hd]. inversion Hd; subst. cbn.
    rewrite find_set, decide_False by done. by apply IH.
Qed.

Lemma envoy_route_there_grow t t' gw : envoy_route_there t gw → t ⊆ t' → envoy_route_there t' gw.
Proof.
  intros (svcs & svc & Hl & Hin & Hp) Ht. exists svcs, svc. split_and!; [by apply Ht|done|].
  by eapply provided_grow.
Qed.
Lemma entry_known_grow t t' gw : entry_known t gw → t ⊆ t' → entry_known t' gw.
Proof.
  intros (c & Hc & H) Ht. exists c. split; [done|]. intros Hs. destruct (H Hs).
  split; [done|]. by eapply envoy_route_there_grow.
Qed.
Lemma entry_known_other t gw d :
  CType d ≠ ConditionEnvoyRouteReady → entry_known t gw → entry_known t (gw_condition gw d).
Proof. intros Hd (c & Hc & H). exists c. split; [by apply latest_condition_other|exact H]. Qed.
Lemma routing_known_grow t t' gw isOCP useGWAPI a :
  routing_known t gw isOCP useGWAPI a → t ⊆ t' → routing_known t' gw isOCP useGWAPI a.
Proof.
  intros [H1 H2] Ht. split; [|done]. intros Hu Hr. specialize (H1 Hu Hr).
  destruct isOCP; [by eapply entry_known_grow|done].
Qed.

Lemma gone_grow t t' x : gone t x → t ⊆ t' → gone t' x.
Proof. destruct x as [[k n] ns]. intros (r & Hr & H) Ht. exists r. auto. Qed.
Lemma rolled_out_grow t t' gw : rolled_out t gw → t ⊆ t' → rolled_out t' gw.
Proof. intros (i & r & o & H) Ht. exists i, r, o. auto. Qed.
Lemma ca_cleaned_grow t t' gw s : ca_cleaned t gw s → t ⊆ t' → ca_cleaned t' gw s.
Proof.
  intros [H|(o & Ho & H)] Ht; [left; eauto using absent_grow|right]. exists o. split; [auto|].
  destruct H; eauto using gone_grow.
Qed.
Lemma routes_cleaned_grow t t' gw : routes_cleaned t gw → t ⊆ t' → routes_cleaned t' gw.
Proof.
  intros [(items & Hi & H)|[(e & He & H)|(n & ns & e & He & H)]] Ht.
  - left. exists items. eauto using gone_grow.
  - right; left. exists e. auto.
  - right; right. exists n, ns, e. auto.
Qed.

(** Conditions recorded in memory change neither. *)
Lemma active_condition t gw c :
  condition_admitted c = true → active t gw → active t (gw_condition gw c).
Proof.
  intros Hc [(gw0 & H & Hr) (items & Hi & Hs)]. split; [|by exists items].
  exists gw0. split; [done|]. by apply recorded_condition.
Qed.
End guard.

#[export] Hint Resolve held_grow active_grow absent_grow provided_grow database_ok_grow pki_stale_grow
  detected_grow switched_grow envoy_route_there_grow entry_known_grow routing_known_grow gone_grow rolled_out_grow ca_cleaned_grow routes_cleaned_grow active_condition : gw.

(** [t ⊆ t'] for a history [t'] that extends [t]. *)
Ltac grow := solve [repeat first
  [ assumption | reflexivity | etrans; [|apply hist_grow]
  | match goal with H : _ ⊆ ?u |- _ ⊆ ?u => etrans; [|exact H]; clear H end ]].
#[export] Hint Extern 1 (_ ⊆ _) => grow : gw.

Lemma saw_grow {A} (x : A) (t t' : list A) : x ∈ t → t ⊆ t' → x ∈ t'.
Proof. auto. Qed.
Lemma saw_last {A} (x : A) (t : list A) : x ∈ t ++ [x].
Proof. apply elem_of_snoc. by right. Qed.
#[export] Hint Resolve saw_last : gw.
#[export] Hint Resolve saw_grow | 3 : gw.

(** A name of [written_names]. *)
Ltac own_name := solve [unfold written_names; apply elem_of_app; left;
  repeat first [apply list_elem_of_here|apply list_elem_of_further]].

(** A Secret the pod does not read files of. *)
Ltac no_files := intros ?; unfold operator_files; cbv zeta; rewrite !elem_of_cons, elem_of_nil;
  let H := fresh in intros H;
  repeat match type of H with _ ∨ _ => destruct H as [H|H] | False => destruct H end;
  first [discriminate H | injection H as H _; apply (inj (String.append _)) in H; discriminate H].
