(* ===== verification/GatewayProofs.v ===== *)
(** * The gateway controller keeps to its permission

    Every operation of the step files is proved against [gateway_guard], for
    every answer of the API server; what a step leaves behind (an object known
    to exist, a rollout, a clean-up) is its postcondition. *)

From S2P Require Import Prelude Interaction GoStrings GoText GoErrors Jwt ApiTypes Kube StatusSchema Singleton.
From S2P Require Import Detect Pki GatewayHelpers GatewayTls GatewayResources GatewayDeployment.
From S2P Require Import GatewayRouting Dependencies EmbeddedPostgres GatewayReconciler GatewayGuard.
Import ApiTypes.Gateway.

Section proofs.
Context {C : Crypto} {X : X509 C} {U : Unicode} {M : ApiMachinery} {ML : ManifestLib}.
Context (name : string).

Abbreviation G := (gateway_guard name).
Abbreviation act := (active name).
Abbreviation spec_ok Q t p := (always G Q t p).

Definition any {A} (t : list (event KSig)) (a : A) : Prop := True.

(** A step without a postcondition. *)
Abbreviation safe_step t p := (always G any t p).

Lemma any_ok {A} (Q : list (event KSig) → A → Prop) t p : always G Q t p → always G any t p.
Proof. intros H. by eapply always_mono. Qed.

(** ** Shared shapes *)

(** A call in tail position. *)
Lemma last_call (c : kcall) (Q : list (event KSig) → kresp c → Prop) t :
  G t c → (∀ r, Q (t ++ [Ev (S := KSig) c r]) r) → always G Q t (kdo c).
Proof. intros HG HQ. split; [exact HG|exact HQ]. Qed.

Lemma check_spec t gv : spec_ok (λ t' b, detected t' gv b) t (check gv).
Proof.
  unfold check. always_step; [done|]. rename r into c. always_step; [done|].
  destruct (Z.ltb_spec r (expiry c)) as [Hlt|_].
  - apply always_ret. right. exists c, r. eauto with gw.
  - do 3 (always_step; [done|]). apply always_ret. left. eauto with gw.
Qed.

Lemma check_ok t gv : safe_step t (check gv).
Proof. eapply any_ok, check_spec. Qed.

Lemma create_spec t gw k o :
  act t gw → create_ok t gw k o →
  spec_ok (λ t' e, e = None → provided t' k (Name (ometa o)) (Namespace (ometa o))) t (create k o).
Proof.
  intros Ha Hc. unfold create. always_step; [by exists gw|]. apply always_ret.
  destruct r as [e|o']; [done|]. intros _. right; left. exists o, o'. auto with gw.
Qed.

Lemma create_safe t gw k o : act t gw → create_ok t gw k o → safe_step t (create k o).
Proof. intros Ha Hc. by eapply any_ok, (create_spec _ gw). Qed.

(** [CreateOrUpdate] with a pure callback that keeps the object's identity. *)
Lemma CreateOrUpdate_pure_committed t gw k n ns f :
  act t gw → (k, n, ns) ∈ written_names gw →
  (∀ o, Name (ometa (f o)) = Name (ometa o) ∧ Namespace (ometa (f o)) = Namespace (ometa o)) →
  (∀ t' o, t ⊆ t' → Ev (S := KSig) (CUFetch k n ns) (inr o) ∈ t' → commit_ok t' gw k n o (f o)) →
  spec_ok (λ t' e, e = None → ∃ o, Ev (S := KSig) (CUFetch k n ns) (inr o) ∈ t' ∧
      Ev (S := KSig) (CUCommit k (f o)) None ∈ t')
    t (CreateOrUpdate_pure k n ns f).
Proof.
  intros Ha Hn Hf Hc. unfold CreateOrUpdate_pure, CreateOrUpdate. apply always_bind. always_step; [done|].
  destruct r as [e|o]; [done|]. apply always_bind, always_ret. cbn [fst].
  always_step.
  { exists gw. split; [eauto with gw|]. exists n, ns, o. split_and!; [eauto with gw|done|apply Hf..|].
    apply Hc; eauto with gw. }
  apply always_ret. destruct r; [done|]. intros _. exists o. eauto with gw.
Qed.

Lemma CreateOrUpdate_pure_spec t gw k n ns f :
  act t gw → (k, n, ns) ∈ written_names gw →
  (∀ t' o, t ⊆ t' → Ev (S := KSig) (CUFetch k n ns) (inr o) ∈ t' → commit_ok t' gw k n o (f o)) →
  (∀ o, Name (ometa (f o)) = Name (ometa o) ∧ Namespace (ometa (f o)) = Namespace (ometa o)) →
  spec_ok (λ t' e, e = None → provided t' k n ns) t (CreateOrUpdate_pure k n ns f).
Proof.
  intros Ha Hn Hc Hf. eapply always_mono; [by apply (CreateOrUpdate_pure_committed _ gw)|].
  intros t' e H He. destruct (H He) as (o & Ho & Hw). right; right. exists o, (f o).
  destruct (Hf o). by split_and!.
Qed.

(** The labels the operator puts on its objects. *)
Lemma gateway_labels_marked gw : marked gw (gatewayLabels gw).
Proof. left. apply gatewayLabels_managed. Qed.

Lemma ownership_labels_marked gw component : isOwnedByOGO (ownershipLabels component gw) = true.
Proof. done. Qed.

Lemma owned_marked gw l : isOwnedByOGO l = true → marked gw l.
Proof. by right. Qed.

Lemma labelled_step t gw k n ns (b : body k) :
  act t gw → (k, n, ns) ∈ written_names gw →
  (∀ t' o0 o, marked gw (Labels (ometa o)) → commit_ok t' gw k n o0 o) →
  safe_step t (CreateOrUpdate_pure k n ns (labelled gw k b)).
Proof.
  intros Ha Hn Hc. eapply any_ok, CreateOrUpdate_pure_spec; [done|done| |done].
  intros t' o _ _. apply Hc, gateway_labels_marked.
Qed.

(** ** Identities, roles, network *)

Lemma validateDatabaseSecret_spec t gw :
  spec_ok (λ t' e, e = None → database_ok t' gw) t (validateDatabaseSecret gw).
Proof.
  unfold validateDatabaseSecret. case_match; [done|]. always_step; [done|]. apply always_ret.
  destruct r as [e|s]; [by destruct (IsNotFound e)|].
  destruct (secret_data s !! "uri") eqn:E; [|done]. intros _. exists s. rewrite E. eauto with gw.
Qed.

Lemma reconcileNamespace_ok t gw : act t gw → safe_step t (reconcileNamespace gw).
Proof.
  intros Ha. unfold reconcileNamespace.
  assert (∀ n, n ∈ uniqueNamespaces gw → (KNamespace, n, "") ∈ written_names gw) as Hn.
  { intros n Hn. unfold written_names. apply elem_of_app. right.
    by apply list_elem_of_In, (in_map (λ x, (KNamespace, x, ""))), list_elem_of_In. }
  revert Hn. generalize (uniqueNamespaces gw). intros nss.
  revert t Ha. induction nss as [|n nss IH]; intros t Ha Hn; [done|]. cbn [ensure_namespaces].
  eapply always_cut_grow.
  - apply (CreateOrUpdate_pure_spec _ gw); [done|apply Hn, list_elem_of_here| |done]. intros t' o _ _. cbn [commit_ok].
    unfold index. cbn [ometa Labels with_labels]. by rewrite lookup_insert_eq.
  - intros t' [e|] Ht _; [done|]. apply IH; [eauto with gw|]. intros x Hx. by apply Hn, list_elem_of_further.
Qed.

Lemma reconcileGatewayServiceAccount_ok t gw : act t gw → safe_step t (reconcileGatewayServiceAccount gw).
Proof. intros Ha. apply labelled_step; [done|own_name|done]. Qed.
Lemma reconcileSandboxServiceAccount_ok t gw : act t gw → safe_step t (reconcileSandboxServiceAccount gw).
Proof. intros Ha. apply labelled_step; [done|own_name|done]. Qed.
Lemma reconcileClusterRole_ok t gw : act t gw → safe_step t (reconcileClusterRole gw).
Proof. intros Ha. apply labelled_step; [done|own_name|done]. Qed.
Lemma reconcileClusterRoleBinding_ok t gw : act t gw → safe_step t (reconcileClusterRoleBinding gw).
Proof. intros Ha. apply labelled_step; [done|own_name|done]. Qed.
Lemma reconcileRole_ok t gw : act t gw → safe_step t (reconcileRole gw).
Proof. intros Ha. apply labelled_step; [done|own_name|done]. Qed.
Lemma reconcileRoleBinding_ok t gw : act t gw → safe_step t (reconcileRoleBinding gw).
Proof. intros Ha. apply labelled_step; [done|own_name|done]. Qed.
Lemma reconcileSCCBinding_ok t gw : act t gw → safe_step t (reconcileSCCBinding gw).
Proof. intros Ha. apply labelled_step; [done|own_name|done]. Qed.

Lemma reconcileConfigMap_spec t gw :
  act t gw →
  spec_ok (λ t' e, e = None → provided t' KConfigMap (Name (ometa gw) +:+ "-config") (gatewayNamespace gw))
    t (reconcileConfigMap gw).
Proof.
  intros Ha. unfold reconcileConfigMap, IsOpenShift. eapply always_cut_grow; [apply check_ok|].
  intros t' isOCP Ht _. apply (CreateOrUpdate_pure_spec _ gw); [eauto with gw|own_name| |done].
  intros t2 o _ _. left. split; [done|]. exists isOCP. split; [done|]. apply gatewayLabels_managed.
Qed.

Lemma ensureGatewayStatePVC_spec t gw :
  act t gw →
  spec_ok (λ t' e, e = None → provided t' KPVC (Name (ometa gw) +:+ "-state") (gatewayNamespace gw)) t
    (ensureGatewayStatePVC gw (gatewayNamespace gw)).
Proof.
  intros Ha. apply (CreateOrUpdate_pure_spec _ gw); [done|own_name| |].
  - intros t' o _ Ho. by exists (gatewayLabels gw), "1Gi".
  - intros o. unfold fresh_pvc. by case_bool_decide.
Qed.

Lemma reconcileService_ok t gw : act t gw → safe_step t (reconcileService gw).
Proof.
  intros Ha. unfold reconcileService, CreateOrUpdate, IsOpenShift. apply always_bind.
  always_step; [done|]. destruct r as [e|o]; [done|]. apply always_bind.
  eapply always_cut_grow; [apply check_ok|]. intros t' isOCP Ht _. apply always_ret. cbn [fst snd].
  always_step; [|done]. exists gw. split; [eauto with gw|]. exists (Name (ometa gw)), (gatewayNamespace gw), o.
  split_and!; [eauto with gw|own_name|done|done|apply gateway_labels_marked].
Qed.

Lemma reconcileNetworkPolicy_ok t gw : act t gw → safe_step t (reconcileNetworkPolicy gw).
Proof.
  intros Ha. unfold reconcileNetworkPolicy. destruct (unless_false _) eqn:En; cbn [negb].
  - apply labelled_step; [done|own_name|done].
  - always_step; [done|]. destruct r as [e|o]; [done|]. always_step; [|done].
    exists gw. split; [eauto with gw|]. left. do 3 eexists. split; [apply saw_last|].
    split_and!; [done|done|]. by right; right.
Qed.

(** ** Certificates and keys *)

Lemma local_ok t c :
  match c with CEntropy | CRand _ | CNow => True | _ => False end → G t c.
Proof. by destruct c. Qed.

Lemma sync_certificate_ok t gw hostname existing :
  act t gw → Ev (S := KSig) (CGet certificateKind (Name (ometa gw) +:+ "-gateway-tls")
    (gatewayNamespace gw)) (inr existing) ∈ t →
  safe_step t (sync_certificate gw hostname existing).
Proof.
  intros Ha He. unfold sync_certificate. repeat (case_match; try done).
  apply last_call; [|done]. exists gw. split; [done|].
  do 2 eexists. exists existing. split; [done|]. split; [by left|]. right. by left.
Qed.

Lemma reconcileGatewayTLSCert_ok t gw hostname :
  act t gw → safe_step t (reconcileGatewayTLSCert gw (Name (ometa gw) +:+ "-gateway-tls") hostname).
Proof.
  intros Ha. unfold reconcileGatewayTLSCert. always_step; [done|]. destruct r as [e|existing].
  - destruct (IsNotFound e); cbn [negb].
    + apply (create_safe _ gw); [eauto with gw|]. apply gateway_labels_marked.
    + always_step; done.
  - eapply sync_certificate_ok; eauto with gw.
Qed.

Lemma write_pki_spec t gw b :
  act t gw → pki_stale t gw → bundle_ok (computeServerSANs gw) b →
  spec_ok (λ t' e, e = None → provided t' KSecret (Name (ometa gw) +:+ "-client-tls") (gatewayNamespace gw))
    t (write_pki gw (HashSANs (computeServerSANs gw)) b).
Proof.
  intros Ha Hs Hb. unfold write_pki. eapply always_cut_grow.
  - apply (CreateOrUpdate_pure_committed _ gw); [done|own_name|done|]. intros t' o Ht Ho.
    split; [eauto with gw|]. exists b, o. split; [done|]. by left.
  - intros t' [e|] Ht Hw; [done|]. destruct (Hw eq_refl) as (o1 & _ & Hw1). eapply always_cut_grow.
    + apply (CreateOrUpdate_pure_spec _ gw); [eauto with gw|own_name| |done]. intros t2 o Ht2 Ho.
      split; [eauto with gw|]. exists b, o. split; [done|]. right.
      split_and!; [done|done| |done]. exists o1. by apply Ht2.
    + intros t2 [e|] Ht2 Hp; apply always_ret; [done|]. intros _. eauto with gw.
Qed.

Lemma generate_pki_spec t gw :
  act t gw → pki_stale t gw →
  spec_ok (λ t' e, e = None → provided t' KSecret (Name (ometa gw) +:+ "-client-tls") (gatewayNamespace gw))
    t (b ← GeneratePKI (computeServerSANs gw);
       match b with
       | inl e => mret (Some (Errorf_w "generating PKI: " e))
       | inr bundle => write_pki gw (HashSANs (computeServerSANs gw)) bundle
       end).
Proof.
  intros Ha Hs. eapply always_cut_grow; [apply GeneratePKI_spec, local_ok|].
  intros t' [e|b] Ht Hb; [done|]. apply write_pki_spec; eauto with gw.
Qed.

Lemma reconcileSelfSignedTLS_spec t gw :
  act t gw →
  spec_ok (λ t' e, e = None → provided t' KSecret (Name (ometa gw) +:+ "-client-tls") (gatewayNamespace gw))
    t (reconcileSelfSignedTLS gw).
Proof.
  intros Ha. unfold reconcileSelfSignedTLS. always_step; [done|]. destruct r as [e|server].
  - destruct (IsNotFound e) eqn:En; cbn [negb]; [|done]. always_step; [done|].
    destruct r as [e'|client]; [destruct (IsNotFound e'); cbn [negb]; [|done]|];
      (apply generate_pki_spec; [eauto with gw|]); left; exists e; eauto with gw.
  - always_step; [done|]. destruct r as [e|client].
    + destruct (IsNotFound e) eqn:En; cbn [negb]; [|done]. apply generate_pki_spec; [eauto with gw|].
      right; left. exists e. eauto with gw.
    + destruct (sans_current server _) eqn:Es.
      * apply always_ret. intros _. left. exists client. eauto with gw.
      * apply generate_pki_spec; [eauto with gw|]. right; right. exists server. eauto with gw.
Qed.

Lemma reconcileTLS_spec t gw :
  act t gw →
  spec_ok (λ t' e, e = None → tlsEnabled gw = true → ServerCertSecretName (TLS (odata gw).1) = "" →
             provided t' KSecret (Name (ometa gw) +:+ "-client-tls") (gatewayNamespace gw))
    t (reconcileTLS gw).
Proof.
  intros Ha. unfold reconcileTLS. destruct (tlsEnabled gw); cbn [negb]; [|done].
  case_bool_decide as Hc; cbn [negb]; [|by apply always_ret; intros _ _ ?].
  eapply always_cut_grow; [by apply reconcileSelfSignedTLS_spec|]. intros t' [e|] Ht Hp; [done|].
  specialize (Hp eq_refl). case_match; [|by apply always_ret].
  eapply always_cut_grow; [apply reconcileGatewayTLSCert_ok; eauto with gw|].
  intros t2 [e|] Ht2 _; apply always_ret; [done|]. eauto with gw.
Qed.

(** The CA that is published was read from the server's Secret. *)
Definition ca_read (t : list (event KSig)) (gw : OpenShellGateway) (ca : string) : Prop :=
  ∃ s key, Ev (S := KSig) (CGet KSecret (server_secret_name gw) (gatewayNamespace gw)) (inr s) ∈ t ∧
    (key = "ca.crt" ∨ key = "tls.crt" ∧ ServerCertSecretName (TLS (odata gw).1) = "") ∧
    ca = secret_key s key.

Lemma serverTLSCA_spec t gw :
  spec_ok (λ t' r, match r with inr ca => ca_read t' gw ca | inl _ => True end) t (serverTLSCA gw).
Proof.
  unfold serverTLSCA. change (if negb (bool_decide (ServerCertSecretName (TLS (odata gw).1) = ""))
    then ServerCertSecretName (TLS (odata gw).1) else Name (ometa gw) +:+ "-server-tls")
    with (server_secret_name gw).
  always_step; [done|]. destruct r as [e|s]; [done|].
  destruct (bool_decide (secret_key s "ca.crt" = "")) eqn:Ec; cbn [andb].
  - destruct (bool_decide (ServerCertSecretName (TLS (odata gw).1) = "")) eqn:Ex; cbn [negb]; [|done].
    apply bool_decide_eq_true in Ex. destruct (bool_decide (secret_key s "tls.crt" = "")); [done|]. apply always_ret.
    exists s, "tls.crt". split; [apply saw_last|]. auto.
  - rewrite Ec. apply always_ret. exists s, "ca.crt". split; [apply saw_last|]. auto.
Qed.

Lemma reconcileCAConfigMap_spec t gw n enabled :
  act t gw → (KConfigMap, n, gatewayNamespace gw) ∈ written_names gw → n ≠ Name (ometa gw) +:+ "-config" →
  spec_ok (λ t' e, e = None → enabled = true → provided t' KSecret (server_secret_name gw) (gatewayNamespace gw))
    t (reconcileCAConfigMap gw n enabled).
Proof.
  intros Ha Hn Hne. unfold reconcileCAConfigMap. destruct enabled; cbn [negb].
  - eapply always_cut_grow; [apply serverTLSCA_spec|]. intros t' [e|ca] Ht Hr; [done|].
    unfold CreateOrUpdate. apply always_bind. always_step; [done|]. destruct r as [e|o]; [done|].
    apply always_bind, always_ret.
    destruct Hr as (s & key & Hs & Hk & ->).
    destruct (bool_decide (CreationTimestamp (ometa o) ≠ None) &&
              negb (managed_by_gateway gw (Labels (ometa o)))) eqn:Eo; [done|].
    always_step.
    + exists gw. split; [eauto with gw|]. exists n, (gatewayNamespace gw), o.
      split_and!; [eauto with gw|done|done|done|]. right. split; [done|]. split.
      { apply andb_false_iff in Eo as [H|H]; [left|right; by apply negb_false_iff in H].
        apply bool_decide_eq_false in H. by apply dec_stable. }
      exists s, key. split; [eauto with gw|]. split_and!; [done|done|done|]. apply gatewayLabels_managed.
    + apply always_ret. intros _ _. left. exists s. eauto with gw.
  - always_step; [done|]. destruct r as [e|o].
    + apply always_ret. by destruct (IsNotFound e).
    + destruct (managed_by_gateway gw (Labels (ometa o))) eqn:Em; [|done].
      apply last_call; [|done]. exists gw. split; [eauto with gw|].
      left. do 3 eexists. split; [apply saw_last|]. split_and!; [done|done|]. left. by left.
Qed.

Lemma reconcileAuthBridgeCA_ok t gw : act t gw → safe_step t (reconcileAuthBridgeCA gw).
Proof.
  intros Ha. unfold reconcileAuthBridgeCA. eapply always_cut_grow.
  - instantiate (1 := any). destruct (tlsEnabled gw); [apply check_ok|done].
  - intros t' isOCP Ht _. eapply any_ok, reconcileCAConfigMap_spec; [eauto with gw|own_name|].
    by intros ?%(inj (String.append _)).
Qed.

Lemma reconcileGatewayCA_spec t gw :
  act t gw →
  spec_ok (λ t' e, e = None → tlsEnabled gw = true →
             provided t' KSecret (server_secret_name gw) (gatewayNamespace gw)) t (reconcileGatewayCA gw).
Proof.
  intros Ha. apply reconcileCAConfigMap_spec; [done|own_name|]. by intros ?%(inj (String.append _)).
Qed.

Lemma key_generation_ok t : safe_step t GenerateRSAKeys ∧ safe_step t GenerateJWTKeys.
Proof. split; (always_step; [done|]); done. Qed.

(** Both key Secrets: found, or created where there was none. *)
Lemma key_secret_files gw n keys :
  n = Name (ometa gw) +:+ "-jwt-keys" ∨ n = Name (ometa gw) +:+ "-auth-bridge-keys" →
  has_files gw KSecret n (secret_data (key_secret gw n keys)).
Proof.
  intros Hn key. unfold operator_files. cbv zeta. rewrite !elem_of_cons, elem_of_nil.
  cbn [secret_data key_secret odata SecretData].
  destruct Hn as [->| ->]; naive_solver eauto using lookup_insert_is_Some'.
Qed.

Lemma create_keys_spec t gw n keys e :
  act t gw → n = Name (ometa gw) +:+ "-jwt-keys" ∨ n = Name (ometa gw) +:+ "-auth-bridge-keys" →
  Ev (S := KSig) (CGet KSecret n (gatewayNamespace gw)) (inl e) ∈ t → IsNotFound e = true →
  spec_ok (λ t' r, r = None → provided t' KSecret n (gatewayNamespace gw)) t
    (create KSecret (key_secret gw n keys)).
Proof.
  intros Ha Hn He En. apply (create_spec _ gw); [done|].
  split_and!; [exists e; eauto with gw|apply gateway_labels_marked|by apply key_secret_files].
Qed.

Lemma reconcileAuthBridgeKeys_spec t gw :
  act t gw →
  spec_ok (λ t' r, r = None → provided t' KSecret (Name (ometa gw) +:+ "-auth-bridge-keys") (gatewayNamespace gw))
    t (reconcileAuthBridgeKeys gw).
Proof.
  intros Ha. unfold reconcileAuthBridgeKeys. always_step; [done|]. destruct r as [e|s].
  - destruct (IsNotFound e) eqn:En; cbn [negb]; [|done].
    eapply always_cut_grow; [apply key_generation_ok|]. intros t' [e'|keys] Ht _; [done|].
    eapply create_keys_spec; eauto with gw.
  - apply always_ret. intros _. left. exists s. eauto with gw.
Qed.

Lemma reconcileJWTKeys_spec t gw :
  act t gw →
  spec_ok (λ t' r, r = None → provided t' KSecret (Name (ometa gw) +:+ "-jwt-keys") (gatewayNamespace gw))
    t (reconcileJWTKeys gw).
Proof.
  intros Ha. unfold reconcileJWTKeys, ensureEd25519KeySecret. always_step; [done|]. destruct r as [e|s].
  - destruct (IsNotFound e) eqn:En; cbn [negb]; [|done].
    eapply always_cut_grow; [apply key_generation_ok|]. intros t' [e'|keys] Ht _; [done|].
    eapply create_keys_spec; eauto with gw.
  - apply always_ret. intros _. left. exists s. eauto with gw.
Qed.

(** ** The rollout *)

Lemma databaseSecretRevision_ok t gw : safe_step t (databaseSecretRevision gw).
Proof. unfold databaseSecretRevision. case_match; [done|]. by always_step. Qed.

(** Everything but the state volume, which the step itself provides. *)
Definition inputs_before (t : list (event KSig)) (gw : OpenShellGateway) : Prop :=
  provided t KPVC (Name (ometa gw) +:+ "-state") (gatewayNamespace gw) → inputs_ready t gw.

Lemma inputs_ready_grow t t' gw : inputs_ready t gw → t ⊆ t' → inputs_ready t' gw.
Proof. intros (? & ? & ? & ? & H1 & H2 & ?) Ht. split_and!; eauto 6 with gw. Qed.

Lemma image_condition_admitted gw : condition_admitted (image_config gw).2 = true.
Proof. unfold image_config. by repeat case_match. Qed.

Lemma reconcileDeployment_spec t gw :
  act t gw → (∀ t', t ⊆ t' → inputs_before t' gw) →
  spec_ok (λ t' r, act t' r.2 ∧ (odata r.2).1 = (odata gw).1 ∧ (r.1 = None → rolled_out t' r.2)) t
    (reconcileDeployment gw).
Proof.
  intros Ha Hi. unfold reconcileDeployment, IsOpenShift. eapply always_cut_grow; [apply check_spec|].
  intros t1 isOCP Ht1 Hocp. eapply always_cut_grow; [apply ensureGatewayStatePVC_spec; eauto with gw|].
  intros t2 [e|] Ht2 Hp; [apply always_ret; split_and!; [eauto with gw|done..]|]. specialize (Hp eq_refl).
  unfold CreateOrUpdate. always_step; [done|].
  destruct r as [e|o]; [apply always_ret; split_and!; [eauto with gw|done..]|].
  apply always_bind. eapply always_cut_grow; [apply databaseSecretRevision_ok|].
  intros t3 [e|rev] Ht3 _; apply always_ret; [apply always_ret; split_and!; [eauto with gw|done..]|].
  always_step.
  - exists gw. split; [eauto with gw|]. exists (Name (ometa gw)), (gatewayNamespace gw), o.
    split_and!; [eauto with gw|own_name|done|done|]. left. split; [done|].
    split; [apply Hi; [grow|]; eauto with gw|]. exists isOCP, rev.
    split; [eapply detected_grow; [exact Hocp|grow]|done].
  - apply always_ret. cbn [fst snd].
    split_and!; [apply active_condition; [apply image_condition_admitted|eauto with gw]|done|].
    intros ->. exists isOCP, rev, o. apply saw_last.
Qed.
End proofs.
