(* ===== verification/GatewayFlow.v ===== *)
(** * The gateway controller keeps to its permission: routing, dependencies
    and the reconcile loop *)

From S2P Require Import Prelude Interaction GoStrings GoText GoErrors Jwt ApiTypes Kube StatusSchema Singleton.
From S2P Require Import Detect Pki GatewayHelpers GatewayTls GatewayResources GatewayDeployment.
From S2P Require Import GatewayRouting Dependencies EmbeddedPostgres GatewayReconciler GatewayGuard.
From S2P Require Import GatewayProofs.
Import ApiTypes.Gateway.

Section flow.
Context {C : Crypto} {X : X509 C} {U : Unicode} {M : ApiMachinery} {ML : ManifestLib}.
Context (name : string).

Abbreviation G := (gateway_guard name).
Abbreviation act := (active name).
Abbreviation safe_step t p := (always G any t p).

(** ** Routes *)

(** Deleting an object that was read and carries a mark. *)
Lemma delete_marked t gw k n ns o :
  act t gw → Ev (S := KSig) (CGet k n ns) (inr o) ∈ t → marked gw (Labels (ometa o)) →
  G t (CDelete k (Name (ometa o)) (Namespace (ometa o))).
Proof.
  intros Ha Ho Hm. exists gw. split; [done|]. left. exists n, ns, o. auto.
Qed.

(** The Routes [keep] does not spare are deleted. *)
Lemma delete_routes_spec t gw what keep items routes :
  act t gw →
  Ev (S := KSig) (CList routeKind None (managed_route_selector gw)) (inr items) ∈ t →
  routes ⊆ items →
  always G (λ t' e, match e with
    | None => ∀ o, o ∈ routes → keep o = false →
        gone t' (routeKind, Name (ometa o), Namespace (ometa o))
    | Some e => ∃ n ns e', Ev (S := KSig) (CDelete routeKind n ns) (Some e') ∈ t' ∧
        innermost e = innermost e' ∧ IsNotFound e' = false end) t (delete_routes what keep routes).
Proof.
  intros Ha Hl. revert t Ha Hl. induction routes as [|route routes IH]; intros t Ha Hl Hsub.
  { apply always_ret. intros o Ho. by apply not_elem_of_nil in Ho. }
  assert (routes ⊆ items) as Hsub' by set_solver. cbn [delete_routes].
  destruct (keep route) eqn:Ek.
  { eapply always_mono; [by apply IH|]. intros t' [e|] He; [done|].
    intros o [->|Ho]%elem_of_cons Hk; [congruence|by apply He]. }
  always_step.
  { exists gw. split; [done|]. right; left. exists (managed_route_selector gw), items, route.
    split; [done|]. split; [set_solver|]. auto. }
  assert (∀ t' : list (event KSig), t ++ [Ev (S := KSig) (CDelete routeKind (Name (ometa route)) (Namespace (ometa route))) r] ⊆ t' →
    match r with None => True | Some e => IsNotFound e = true end →
    gone t' (routeKind, Name (ometa route), Namespace (ometa route))) as Hgone.
  { intros t' Ht Hr. exists r. split; [|done]. eauto with gw. }
  assert (match r with None => True | Some e => IsNotFound e = true end →
    always G (λ t' e, match e with
      | None => ∀ o, o ∈ route :: routes → keep o = false →
          gone t' (routeKind, Name (ometa o), Namespace (ometa o))
      | Some e => ∃ n ns e', Ev (S := KSig) (CDelete routeKind n ns) (Some e') ∈ t' ∧
          innermost e = innermost e' ∧ IsNotFound e' = false end)
      (t ++ [Ev (S := KSig) (CDelete routeKind (Name (ometa route)) (Namespace (ometa route))) r])
      (delete_routes what keep routes)) as Hrest.
  { intros Hr. eapply always_mono; [apply always_prefix, IH; eauto with gw|].
    intros t' [e|] [[s ->] He]; [done|]. intros o [->|Ho]%elem_of_cons Hk; [|by apply He].
    apply Hgone; [|done]. intros x Hx. apply elem_of_app. by left. }
  destruct r as [e|]; [|by apply Hrest]. destruct (IsNotFound e) eqn:En; [by apply Hrest|].
  apply always_ret. do 3 eexists. split; [apply saw_last|]. by rewrite innermost_wrap.
Qed.

Lemma reconcileObsoleteRoutes_ok t gw useGWAPI authEnabled :
  act t gw → safe_step t (reconcileObsoleteRoutes gw useGWAPI authEnabled).
Proof.
  intros Ha. unfold reconcileObsoleteRoutes. always_step; [done|]. destruct r as [e|items]; [done|].
  eapply any_ok, (delete_routes_spec _ gw _ _ items); eauto with gw.
Qed.

Lemma deleteManagedRoutes_spec t gw :
  act t gw →
  always G (λ t' e, match e with
    | None => routes_cleaned t' gw
    | Some e => IsNoMatchError e = true ∨ IsNotFound e = true → routes_cleaned t' gw end) t
    (deleteManagedRoutes gw).
Proof.
  intros Ha. unfold deleteManagedRoutes. always_step; [done|]. destruct r as [e|items].
  - apply always_ret. intros Hr. right; left. exists e. split; [apply saw_last|exact Hr].
  - eapply always_mono; [apply always_prefix, (delete_routes_spec _ gw _ _ items); eauto with gw|].
    intros t' [e|] [[s ->] He].
    + destruct He as (n & ns & e' & Hd & Hi & Hn). unfold IsNoMatchError, IsNotFound in *.
      rewrite Hi, Hn. intros [H|H]; [right; right; by exists n, ns, e'|done].
    + left. exists items. split; [apply elem_of_app; left; apply saw_last|]. auto.
Qed.

Lemma route_created t gw n ns spec :
  act t gw → safe_step t (create routeKind (new_route gw n ns spec)).
Proof. intros Ha. apply (create_safe _ _ gw); [done|]. apply gateway_labels_marked. Qed.

Lemma reconcileRoute_ok t gw : act t gw → safe_step t (reconcileRoute gw).
Proof.
  intros Ha. unfold reconcileRoute. case_match; [done|]. always_step; [done|]. destruct r as [e|existing].
  - destruct (IsNotFound e); [|done]. apply route_created. eauto with gw.
  - destruct (routeManagedByGateway gw existing) eqn:Em; cbn [negb]; [|done]. case_match; [|done].
    always_step.
    { eapply delete_marked; [|apply saw_last|by left]. eauto with gw. }
    destruct r; [done|]. apply route_created. eauto with gw.
Qed.

(** The outcome of a step that reports a condition: one of an admitted shape. *)
Abbreviation reports t p := (always G (λ _ r, condition_admitted r.1 = true) t p).

Lemma sync_envoy_route_ok t gw hostname svc : act t gw → reports t (sync_envoy_route gw hostname svc).
Proof.
  intros Ha. unfold sync_envoy_route, envoy_route. always_step; [done|]. destruct r as [e|existing].
  - destruct (IsNotFound e); [|done]. eapply always_cut_grow; [apply route_created; eauto with gw|]. by intros ? [].
  - destruct (routeManagedByGateway gw existing) eqn:Em; cbn [negb]; [|done]. case_match; [|done].
    always_step.
    { eapply delete_marked; [|apply saw_last|by left]. eauto with gw. }
    destruct r; [done|]. eapply always_cut_grow; [apply route_created; eauto with gw|]. by intros ? [].
Qed.

Lemma reconcileEnvoyRoute_ok t gw :
  act t gw → always G (λ _ r, ∀ c, r.1 = Some c → condition_admitted c = true) t (reconcileEnvoyRoute gw).
Proof.
  intros Ha. unfold reconcileEnvoyRoute. case_match; [done|].
  case_match; [apply always_ret; by intros ? [= <-]|]. always_step; [done|].
  destruct r as [e|svcs]; [apply always_ret; by intros ? [= <-]|].
  case_match; [apply always_ret; by intros ? [= <-]|].
  eapply always_cut_grow; [apply sync_envoy_route_ok; eauto with gw|].
  intros t' r _ Hr. apply always_ret. by intros ? [= <-].
Qed.

(** What the step reports of the Route, and that it is true. *)
Lemma create_provides t k o :
  always unguarded (λ t' e, e = None → provided t' k (Name (ometa o)) (Namespace (ometa o))) t (create k o).
Proof.
  unfold create. always_step; [done|]. apply always_ret. destruct r as [e|o']; [done|]. intros _.
  right; left. exists o, o'. auto with gw.
Qed.

Lemma sync_envoy_route_records t gw hostname svc :
  always unguarded (λ t' r, CType r.1 = ConditionEnvoyRouteReady ∧ (CStatus r.1 = ConditionTrue →
      provided t' routeKind (Name (ometa gw) +:+ "-gw") (Namespace (ometa svc)))) t
    (sync_envoy_route gw hostname svc).
Proof.
  unfold sync_envoy_route. always_step; [done|]. destruct r as [e|existing].
  - destruct (IsNotFound e); [|by apply always_ret]. eapply always_cut; [apply create_provides|].
    cbn beta. intros t' [e'|] Hp; apply always_ret; (split; [done|]); [done|auto].
  - destruct (routeManagedByGateway gw existing); cbn [negb]; [|by apply always_ret]. case_match.
    + always_step; [done|]. destruct r; [by apply always_ret|]. eapply always_cut; [apply create_provides|].
      cbn beta. intros t' [e'|] Hp; apply always_ret; (split; [done|]); [done|auto].
    + apply always_ret. split; [done|]. intros _. left. exists existing. apply saw_last.
Qed.

Lemma insert_by_name_elem {k} (o x : obj k) l : x ∈ insert_by_name o l → x = o ∨ x ∈ l.
Proof.
  induction l as [|y l IH]; cbn [insert_by_name]; [by rewrite list_elem_of_singleton; left|].
  case_match; rewrite !elem_of_cons; [|tauto]. intros [->|Hx]; [auto|]. destruct (IH Hx); auto.
Qed.

Lemma sort_by_name_elem {k} (x : obj k) l : x ∈ sort_by_name l → x ∈ l.
Proof.
  induction l as [|o l IH]; cbn [sort_by_name]; [done|].
  intros [->|Hx]%insert_by_name_elem; rewrite elem_of_cons; auto.
Qed.

Lemma reconcileEnvoyRoute_records t gw :
  routeEnabled gw = true →
  always unguarded (λ t' r, ∃ c, r.1 = Some c ∧ CType c = ConditionEnvoyRouteReady ∧
      (CStatus c = ConditionTrue → Hostname (Route (odata gw).1) ≠ "" ∧ envoy_route_there t' gw)) t
    (reconcileEnvoyRoute gw).
Proof.
  intros Hr. unfold reconcileEnvoyRoute. rewrite Hr. cbn [negb].
  case_bool_decide as Hh; [apply always_ret; by eexists|]. always_step; [done|].
  destruct r as [e|svcs]; [apply always_ret; by eexists|].
  destruct (if (1 <? length svcs)%nat then _ else _) as [|svc rest] eqn:El; [apply always_ret; by eexists|].
  assert (svc ∈ svcs) as Hin.
  { destruct (1 <? length svcs)%nat; [apply sort_by_name_elem|]; rewrite El; apply list_elem_of_here. }
  eapply always_cut_grow; [apply sync_envoy_route_records|]. cbn beta. intros t' [c e] Ht [Hty Hp].
  apply always_ret. exists c. split_and!; [done..|]. intros Hs. split; [done|].
  exists svcs, svc. split_and!; [apply Ht, saw_last|done|auto].
Qed.

Lemma entry_records t gw :
  routeEnabled gw = true → always unguarded (λ t' r, entry_known t' r.2) t (reconcile_entry gw true).
Proof.
  intros Hr. unfold reconcile_entry. eapply always_cut; [by apply reconcileEnvoyRoute_records|].
  cbn beta. intros t' [rc e] (c & Hc & Hty & Hs). cbn [fst snd] in *. subst rc. apply always_ret.
  exists c. cbn [snd]. split; [|exact Hs]. rewrite <-Hty. apply latest_condition_new.
Qed.

Lemma gateway_api_records t (gw : OpenShellGateway) :
  Hostname (Route (odata gw).1) = "" →
  always unguarded (λ _ r, latest_condition r.2 ConditionEnvoyRouteReady hostname_missing) t
    (reconcileGatewayAPI gw).
Proof.
  intros Hh. unfold reconcileGatewayAPI. rewrite Hh. rewrite bool_decide_eq_true_2 by done.
  apply always_ret. apply latest_condition_new.
Qed.

Lemma gateway_api_recorded t (gw : OpenShellGateway) :
  always unguarded (λ _ r, Hostname (Route (odata gw).1) = "" →
      latest_condition r.2 ConditionEnvoyRouteReady hostname_missing) t (reconcileGatewayAPI gw).
Proof.
  destruct (decide (Hostname (Route (odata gw).1) = "")) as [Hh|Hh].
  - eapply always_mono; [by apply gateway_api_records|]. auto.
  - eapply always_mono; [apply always_any|]. done.
Qed.

(** The login step records one condition, of its own type. *)
Lemma sso_records t gw authEnabled :
  always unguarded (λ _ r,
      (r.2 = gw ∨ ∃ d, CType d = ConditionBrowserSSOReady ∧ r.2 = gw_condition gw d) ∧
      (browserSSOMissingHostname gw authEnabled = true →
         latest_condition r.2 ConditionBrowserSSOReady sso_missing)) t
    (reconcile_browser_sso gw authEnabled).
Proof.
  unfold reconcile_browser_sso. destruct authEnabled; cbn [negb]; [|apply always_ret; by split; [left|]].
  destruct (browserSSOMissingHostname gw true).
  { apply always_ret. split; [right; by exists sso_missing|]. intros _. apply latest_condition_new. }
  apply always_skip. intros t1 [e|] _; [apply always_ret; split; [right; by exists sso_ready|done]|].
  apply always_skip. intros t2 e _. apply always_ret. split; [right; by exists sso_ready|done].
Qed.

Lemma routeEnabled_spec (gw gw' : OpenShellGateway) :
  (odata gw).1 = (odata gw').1 → routeEnabled gw = routeEnabled gw'.
Proof. unfold routeEnabled. by intros ->. Qed.

(** Together, on OpenShift. *)
Lemma routing_records t (gw : OpenShellGateway) useGWAPI authEnabled :
  always unguarded (λ t' (r : _ * OpenShellGateway), (odata r.2).1 = (odata gw).1 →
      r.1 = None → routing_known t' r.2 true useGWAPI authEnabled) t
    (reconcileOpenShiftRouting gw useGWAPI authEnabled).
Proof.
  unfold reconcileOpenShiftRouting. apply always_skip. intros t1 [e|] _; [by apply always_ret|].
  eapply always_cut_grow with (R := λ t' r, useGWAPI = true → routeEnabled gw = true → entry_known t' r.2).
  { destruct useGWAPI, (routeEnabled gw) eqn:Hr; try (eapply always_mono; [apply always_any|done]).
    eapply always_mono; [by apply entry_records|]. auto. }
  cbn beta. intros t2 [[e|] gw2] Ht2 Hentry; [by apply always_ret|].
  apply always_skip. intros t3 [e|] Ht3; [by apply always_ret|].
  eapply always_mono; [apply always_prefix, sso_records|]. cbn beta.
  intros t4 [e gw4] [[s ->] [Hd Hsso]] Hspec _. cbn [fst snd] in *. split.
  - intros Hu Hr. rewrite routeEnabled_spec with (gw' := gw) in Hr by done. specialize (Hentry Hu Hr).
    assert (entry_known (t3 ++ s) gw2) as Hk.
    { eapply entry_known_grow; [exact Hentry|]. intros x Hx. apply elem_of_app. left. auto. }
    destruct Hd as [->|(d & Hty & ->)]; [done|]. apply entry_known_other; [by rewrite Hty|done].
  - intros _ Hm. apply Hsso. by destruct Hd as [->|(d & _ & ->)].
Qed.

(** ** Gateway API *)

Lemma gateway_objects_created t gw g v kd n ns fields :
  act t gw →
  safe_step t (create (KUnstructured g v kd) (new_unstructured g v kd n ns (gatewayLabels gw) fields)).
Proof. intros Ha. apply (create_safe _ _ gw); [done|]. apply gateway_labels_marked. Qed.

Lemma ensure_grpc_route_ok t gw hostname : act t gw → safe_step t (ensure_grpc_route gw hostname).
Proof.
  intros Ha. unfold ensure_grpc_route, grpc_route. always_step; [done|]. destruct r as [e|]; [|done].
  destruct (IsNotFound e); [|done].
  eapply always_cut_grow; [apply gateway_objects_created; eauto with gw|]. done.
Qed.

Lemma ensure_traffic_policy_ok t gw : act t gw → safe_step t (ensure_traffic_policy gw).
Proof.
  intros Ha. unfold ensure_traffic_policy, traffic_policy. always_step; [done|]. destruct r as [e|]; [|done].
  destruct (IsNotFound e); [|done].
  eapply always_cut_grow; [apply gateway_objects_created; eauto with gw|]. done.
Qed.

(** A step that may record conditions keeps hold of its gateway. *)
Definition still {A} (t : list (event KSig)) (gw : OpenShellGateway) (t' : list (event KSig))
    (r : A * OpenShellGateway) : Prop :=
  act t' r.2 ∧ (odata r.2).1 = (odata gw).1 ∧ (rolled_out t gw → rolled_out t' r.2).
Abbreviation keeps t gw p := (always G (still t gw) t p).

Lemma keeps_ret {A} t t' gw (a : A) :
  t ⊆ t' → act t gw → always G (still t gw) t' (mret (a, gw)).
Proof. intros Ht Ha. apply always_ret. split_and!; [cbn [snd]; eauto with gw..]. Qed.

Lemma keeps_condition {A} t t' gw (a : A) c :
  condition_admitted c = true → t ⊆ t' → act t gw →
  always G (still t gw) t' (mret (a, gw_condition gw c)).
Proof.
  intros Hc Ht Ha. apply always_ret. split_and!; [apply active_condition; eauto with gw|done|].
  intros Hr. assert (rolled_out t' gw) as Hr' by eauto with gw. exact Hr'.
Qed.

Lemma reconcileGatewayAPI_spec t gw : act t gw → keeps t gw (reconcileGatewayAPI gw).
Proof.
  intros Ha. unfold reconcileGatewayAPI, gateway_cr. case_match; [by apply keeps_condition|].
  eapply always_cut_grow; [apply reconcileGatewayTLSCert_ok; eauto with gw|].
  intros t1 [e|] Ht1 _; [apply keeps_ret; [grow|done]|]. always_step; [done|].
  assert (∀ t' : list (event KSig), t ⊆ t' → always G (still t gw) t'
    (e ← (mbind (λ r_, match r_ with Some e_ => mret (Some e_) | None => ensure_traffic_policy gw end)
           (ensure_grpc_route gw (Hostname (Route (odata gw).1)))); mret (e, gw))) as Hrest.
  { intros t' Ht'. apply (always_cut_grow _ _ any).
    - eapply always_cut_grow; [apply ensure_grpc_route_ok; eauto with gw|].
      intros t2 [e|] Ht2 _; [done|]. apply ensure_traffic_policy_ok. eauto with gw.
    - intros t2 e Ht2 _. apply keeps_ret; [grow|done]. }
  destruct r as [e|existing].
  - destruct (IsNotFound e); [|apply keeps_ret; [grow|done]].
    eapply always_cut_grow; [apply gateway_objects_created; eauto with gw|].
    intros t2 [e'|] Ht2 _; [apply keeps_ret; [grow|done]|]. apply Hrest. grow.
  - case_match; [|apply Hrest; grow]. always_step; [|apply keeps_ret; [grow|done]].
    exists gw. split; [eauto with gw|]. left. do 3 eexists. split; [apply saw_last|].
    split_and!; [done|done|]. right. by left.
Qed.

(** ** Browser login *)

Lemma authBridgeRouteTLS_ok t gw : safe_step t (authBridgeRouteTLS gw).
Proof. unfold authBridgeRouteTLS. case_match; [done|]. by always_step. Qed.

Lemma reconcileAuthBridgeRoute_ok t gw : act t gw → safe_step t (reconcileAuthBridgeRoute gw).
Proof.
  intros Ha. unfold reconcileAuthBridgeRoute. case_match; [done|]. always_step; [done|].
  destruct r as [e|existing].
  - destruct (IsNotFound e); cbn [negb]; [|done].
    eapply always_cut_grow; [apply authBridgeRouteTLS_ok|]. intros t' [e'|tls] Ht _; [done|].
    apply route_created. eauto with gw.
  - destruct (routeManagedByGateway gw existing) eqn:Em; cbn [negb]; [|done].
    eapply always_cut_grow; [apply authBridgeRouteTLS_ok|]. intros t' [e'|tls] Ht _; [done|].
    do 2 (case_match; try done). apply last_call; [|done]. exists gw. split; [eauto with gw|].
    do 3 eexists. split; [eauto with gw|]. split; [by left|]. left. by left.
Qed.

Lemma sync_oauth_client_ok t gw secret : act t gw → safe_step t (sync_oauth_client gw secret).
Proof.
  intros Ha. unfold sync_oauth_client, oauth_client. always_step; [done|]. destruct r as [e|existing].
  - destruct (IsNotFound e); [|done]. apply gateway_objects_created. eauto with gw.
  - do 4 (case_match; try done). apply last_call; [|done]. exists gw. split; [eauto with gw|].
    do 3 eexists. split; [apply saw_last|]. split; [by left|]. right. by right.
Qed.

Lemma reconcileOAuthClient_ok t gw : act t gw → safe_step t (reconcileOAuthClient gw).
Proof.
  intros Ha. unfold reconcileOAuthClient. always_step; [done|]. destruct r as [e|s].
  - destruct (IsNotFound e) eqn:En; [|done]. unfold generateOAuthSecret. apply always_bind.
    always_step; [done|]. apply always_ret. always_step.
    { exists gw. split; [eauto with gw|].
      split_and!; [exists e; eauto with gw|apply gateway_labels_marked|no_files]. }
    destruct r0; [done|]. apply sync_oauth_client_ok. eauto with gw.
  - apply sync_oauth_client_ok. eauto with gw.
Qed.

Lemma reconcile_browser_sso_spec t gw authEnabled :
  act t gw → keeps t gw (reconcile_browser_sso gw authEnabled).
Proof.
  intros Ha. unfold reconcile_browser_sso. case_match; [by apply keeps_ret|].
  case_match; [by apply keeps_condition|].
  eapply always_cut_grow; [by apply reconcileAuthBridgeRoute_ok, active_condition|].
  intros t1 [e|] Ht1 _; [by apply keeps_condition|].
  eapply always_cut_grow; [apply reconcileOAuthClient_ok, active_condition; [done|eauto with gw]|].
  intros t2 e Ht2 _. apply keeps_condition; [done|grow|done].
Qed.

Lemma reconcile_entry_spec t gw useGWAPI : act t gw → keeps t gw (reconcile_entry gw useGWAPI).
Proof.
  intros Ha. unfold reconcile_entry. destruct useGWAPI.
  - eapply always_cut_grow; [by apply reconcileEnvoyRoute_ok|]. intros t1 [[c|] e] Ht1 Hc.
    + apply keeps_condition; [by apply Hc|done..].
    + by apply keeps_ret.
  - eapply always_cut_grow; [by apply reconcileRoute_ok|]. intros t1 e Ht1 _. by apply keeps_ret.
Qed.

Lemma reconcileOpenShiftRouting_spec t gw useGWAPI authEnabled :
  act t gw → keeps t gw (reconcileOpenShiftRouting gw useGWAPI authEnabled).
Proof.
  intros Ha. unfold reconcileOpenShiftRouting.
  eapply always_cut_grow; [by apply reconcileObsoleteRoutes_ok|].
  intros t1 [e|] Ht1 _; [by apply keeps_ret|].
  eapply always_cut_grow; [apply reconcile_entry_spec; eauto with gw|].
  intros t2 [[e|] gw2] Ht2 (Ha2 & Hs2 & Hr2); cbn [snd] in *.
  { apply always_ret. split_and!; [done|done|]. intros Hr. apply Hr2. eauto with gw. }
  eapply always_cut_grow; [by apply reconcileSCCBinding_ok|].
  intros t3 [e|] Ht3 _.
  { apply always_ret. split_and!; [cbn [snd]; eauto 6 with gw..]. }
  eapply always_mono; [apply reconcile_browser_sso_spec; eauto with gw|].
  intros t4 r (Ha4 & Hs4 & Hr4). split_and!; [done|congruence|]. intros Hr. apply Hr4. eauto 6 with gw.
Qed.

(** ** Dependencies

    What the reconciler relies on of a dependency: its operations keep to the
    permission of the gateway they are given, and the condition it reports has
    an admitted shape. *)

Record dependency_ok (dep : DependencyReconciler) : Prop := {
  enabled_ok : ∀ t gw, act t gw → safe_step t (dep_Enabled dep gw);
  reconcile_ok : ∀ t gw, act t gw → reports t (dep_Reconcile dep gw);
  cleanup_ok : ∀ t gw, act t gw → safe_step t (dep_Cleanup dep gw)
}.

Lemma for_each_ok {A} (f : A → prog KSig unit) l t gw :
  act t gw → (∀ t' x, t ⊆ t' → act t' gw → x ∈ l → safe_step t' (f x)) → safe_step t (for_each f l).
Proof.
  revert t. induction l as [|x l IH]; intros t Ha Hf; [done|]. cbn [for_each].
  eapply always_cut_grow; [apply Hf; [done|done|apply list_elem_of_here]|].
  intros t' _ Ht _. apply IH; [eauto with gw|]. intros t2 y Ht2 Ha2 Hy.
  apply Hf; [grow|done|by apply list_elem_of_further].
Qed.

Lemma delete_owned_ok t gw k n ns : act t gw → safe_step t (delete_owned k n ns).
Proof.
  intros Ha. unfold delete_owned. always_step; [done|]. destruct r as [e|o]; [done|].
  destruct (isOwnedByOGO (Labels (ometa o))) eqn:Eo; [|done]. always_step; [|done].
  eapply (delete_marked _ gw); [|apply saw_last|by right]. eauto with gw.
Qed.

(** Creating an object with the ownership labels of a component. *)
Lemma owned_created t gw g v kd n component fields :
  act t gw →
  safe_step t (create (KUnstructured g v kd)
    (new_unstructured g v kd n "" (ownershipLabels component gw) fields)).
Proof. intros Ha. apply (create_safe _ _ gw); [done|]. by right. Qed.

Lemma labels_union_owned component gw l : isOwnedByOGO (ownershipLabels component gw ∪ l) = true.
Proof.
  unfold isOwnedByOGO, index. rewrite (lookup_union_Some_l _ _ _ provisionedByOGO); [done|].
  unfold ownershipLabels. by rewrite lookup_insert_eq.
Qed.

Lemma apply_object_ok t gw component m :
  act t gw → safe_step t (apply_object (ownershipLabels component gw) m).
Proof.
  intros Ha. unfold apply_object. case_match; [done|]. always_step; [done|]. destruct r as [e|existing].
  - eapply always_cut_grow; [|done]. apply (create_safe _ _ gw); [eauto with gw|].
    right. apply labels_union_owned.
  - case_match; [done|]. destruct (isOwnedByOGO (Labels (ometa existing))) eqn:Eo; cbn [negb]; [|done].
    always_step; [|done]. exists gw. split; [eauto with gw|]. do 3 eexists. split; [apply saw_last|].
    split; [by right|]. left. by right.
Qed.

Lemma applyManifestFile_ok t gw filename : act t gw → safe_step t (applyManifestFile filename gw).
Proof.
  intros Ha. unfold applyManifestFile, applyManifests. case_match; [done|].
  destruct (yaml_documents _) as [docs eof]. revert t Ha.
  induction docs as [|doc docs IH]; intros t Ha; [done|]. cbn [apply_documents].
  case_match; [by apply IH|]. case_match; [case_match; [by apply IH|done]|].
  eapply always_cut_grow; [by apply apply_object_ok|]. intros t' [e|] Ht _; [done|].
  apply IH. eauto with gw.
Qed.

Lemma grant_sccs_ok t gw component l :
  act t gw → safe_step t (grant_sccs (ownershipLabels component gw) l).
Proof.
  revert t. induction l as [|[[n sa] scc] l IH]; intros t Ha; [done|]. cbn [grant_sccs].
  always_step; [done|]. destruct r as [e|]; [|apply IH; eauto with gw].
  eapply always_cut_grow; [apply owned_created; eauto with gw|].
  intros t' [e'|] Ht _; [case_match; [|done]|]; apply IH; eauto with gw.
Qed.

Lemma install_manifests_ok t gw : act t gw → safe_step t (install_manifests gw).
Proof.
  intros Ha. unfold install_manifests, HasGatewayAPI. eapply always_cut_grow; [apply check_ok|].
  intros t1 has Ht1 _. apply (always_cut_grow _ _ any).
  { destruct has; cbn [negb]; [done|]. apply applyManifestFile_ok. eauto with gw. }
  intros t2 [e|] Ht2 _; [done|]. eapply always_cut_grow; [apply applyManifestFile_ok; eauto with gw|].
  intros t3 [e|] Ht3 _; [done|]. eapply always_cut_grow; [apply applyManifestFile_ok; eauto with gw|].
  done.
Qed.

Lemma install_envoygateway_ok t gw installed : act t gw → reports t (install_envoygateway gw installed).
Proof.
  intros Ha. unfold install_envoygateway, IsOpenShift. eapply always_cut_grow; [apply check_ok|].
  intros t1 isOCP Ht1 _. apply (always_cut_grow _ _ any).
  { destruct installed; cbn [negb]; [done|]. apply install_manifests_ok. eauto with gw. }
  intros t2 [[m e]|] Ht2 _; [done|]. apply (always_cut_grow _ _ any); [|by intros ? []].
  case_match; [|done]. unfold grantOpenShiftSCCs. apply grant_sccs_ok. eauto with gw.
Qed.

Lemma EnvoyGateway_ok : dependency_ok EnvoyGatewayReconciler.
Proof.
  split; intros t gw Ha;
    cbn [dep_Enabled dep_Reconcile dep_Cleanup EnvoyGatewayReconciler EnvoyProxySCCReconciler GroupsReconciler].
  - unfold envoygateway_Enabled, HasGatewayAPI. repeat (case_match; try done); apply check_ok.
  - unfold envoygateway_Reconcile. always_step; [done|]. destruct r as [e|gc];
      do 2 (case_match; [done|]); apply install_envoygateway_ok; eauto with gw.
  - unfold envoygateway_Cleanup. by always_step.
Qed.

Lemma grant_proxies_ok t gw component sas n :
  act t gw → reports t (grant_proxies (ownershipLabels component gw) sas n).
Proof.
  revert t n. induction sas as [|sa sas IH]; intros t n Ha; [done|]. cbn [grant_proxies].
  case_match; [by apply IH|]. always_step; [done|]. destruct r as [e|]; [|apply IH; eauto with gw].
  eapply always_cut_grow; [apply owned_created; eauto with gw|].
  intros t' [e'|] Ht _; [case_match; [|done]|]; apply IH; eauto with gw.
Qed.

Lemma EnvoyProxySCC_ok : dependency_ok EnvoyProxySCCReconciler.
Proof.
  split; intros t gw Ha;
    cbn [dep_Enabled dep_Reconcile dep_Cleanup EnvoyGatewayReconciler EnvoyProxySCCReconciler GroupsReconciler].
  - unfold proxyscc_Enabled, IsOpenShift. eapply always_cut_grow; [apply check_ok|]. intros t1 isOCP Ht1 _.
    unfold HasGatewayAPI. repeat (case_match; try done). apply check_ok.
  - unfold proxyscc_Reconcile. always_step; [done|]. destruct r as [e|sas]; [done|].
    apply grant_proxies_ok. eauto with gw.
  - unfold proxyscc_Cleanup. always_step; [done|]. destruct r as [e|crbs]; [done|].
    eapply always_cut_grow; [|done]. apply (for_each_ok _ _ _ gw); [eauto with gw|].
    intros t1 crb Ht1 Ha1 Hc. destruct (isOwnedByOGO (Labels (ometa crb))) eqn:Eo; [|done].
    always_step; [|done]. exists gw. split; [done|]. right; left. do 2 eexists. exists crb.
    split; [eapply saw_grow; [apply saw_last|done]|]. auto.
Qed.

Lemma Groups_ok : dependency_ok GroupsReconciler.
Proof.
  split; intros t gw Ha;
    cbn [dep_Enabled dep_Reconcile dep_Cleanup EnvoyGatewayReconciler EnvoyProxySCCReconciler GroupsReconciler].
  - unfold groups_Enabled, HasGroupsAPI. eapply always_cut_grow; [apply check_ok|]. done.
  - unfold groups_Reconcile. generalize (groupNames gw) (@nil string). intros names.
    revert t Ha. induction names as [|n names IH]; intros t Ha created; [by destruct created|]. cbn [ensure_groups].
    case_match; [by apply IH|]. always_step; [done|]. destruct r as [e|]; [|apply IH; eauto with gw].
    case_match; [done|]. eapply always_cut_grow; [apply owned_created; eauto with gw|].
    intros t' [e'|] Ht _; [done|]. apply IH. eauto with gw.
  - unfold groups_Cleanup. eapply always_cut_grow; [|done]. apply (for_each_ok _ _ _ gw); [done|].
    intros t1 n Ht1 Ha1 _. case_match; [done|]. by apply (delete_owned_ok _ gw).
Qed.

Lemma pg_secret_created t gw n ns key value e :
  act t gw → (∀ m, has_files gw KSecret n m) → Ev (S := KSig) (CGet KSecret n ns) (inl e) ∈ t → IsNotFound e = true →
  safe_step t (create KSecret (pg_secret (ownershipLabels componentPostgres gw) n ns key value)).
Proof.
  intros Ha Hn He En. apply (create_safe _ _ gw); [done|]. split_and!; [by exists e|by right|apply Hn].
Qed.

Lemma ensurePasswordSecret_ok t gw ns :
  act t gw → safe_step t (ensurePasswordSecret gw ns (ownershipLabels componentPostgres gw)).
Proof.
  intros Ha. unfold ensurePasswordSecret. always_step; [done|]. destruct r as [e|]; [|done].
  destruct (IsNotFound e) eqn:En; cbn [negb]; [|done]. unfold generatePassword. apply always_bind.
  always_step; [done|]. apply always_ret.
  eapply always_cut_grow; [|done]. eapply pg_secret_created; [eauto with gw|intros m; no_files|eauto with gw..].
Qed.

Lemma ensureURISecret_ok t gw ns password :
  act t gw → safe_step t (ensureURISecret gw ns (ownershipLabels componentPostgres gw) password).
Proof.
  intros Ha. unfold ensureURISecret. always_step; [done|]. destruct r as [e|]; [|done].
  destruct (IsNotFound e) eqn:En; cbn [negb]; [|done].
  eapply pg_secret_created; [eauto with gw|intros m; no_files|eauto with gw..].
Qed.

Lemma ensurePVC_ok t gw labels : act t gw → safe_step t (ensurePVC gw (gatewayNamespace gw) labels).
Proof.
  intros Ha. eapply any_ok, (CreateOrUpdate_pure_spec _ _ gw); [done|own_name| |].
  - intros t' o _ Ho. by exists labels, (pg_setting gw StorageSize "1Gi").
  - intros o. unfold fresh_pvc. by case_bool_decide.
Qed.

Lemma ensureDeployment_ok t gw :
  act t gw → safe_step t (ensureDeployment gw (gatewayNamespace gw) (ownershipLabels componentPostgres gw)).
Proof.
  intros Ha. eapply any_ok, (CreateOrUpdate_pure_spec _ _ gw); [done|own_name| |done].
  intros t' o _ _. by right.
Qed.

Lemma ensureService_ok t gw :
  act t gw → safe_step t (ensureService gw (gatewayNamespace gw) (ownershipLabels componentPostgres gw)).
Proof.
  intros Ha. eapply any_ok, (CreateOrUpdate_pure_spec _ _ gw); [done|own_name| |done].
  intros t' o _ _. by right.
Qed.

Lemma PostgreSQL_ok : dependency_ok PostgreSQLReconciler.
Proof.
  split; intros t gw Ha; cbn [dep_Enabled dep_Reconcile dep_Cleanup PostgreSQLReconciler].
  - done.
  - unfold postgres_Reconcile. eapply always_cut_grow; [by apply ensurePasswordSecret_ok|].
    intros t1 [e|password] Ht1 _; [done|].
    eapply always_cut_grow; [apply ensurePVC_ok; eauto with gw|]. intros t2 [e|] Ht2 _; [done|].
    eapply always_cut_grow; [apply ensureDeployment_ok; eauto with gw|]. intros t3 [e|] Ht3 _; [done|].
    eapply always_cut_grow; [apply ensureService_ok; eauto with gw|]. intros t4 [e|] Ht4 _; [done|].
    eapply always_cut_grow; [apply ensureURISecret_ok; eauto with gw|]. by intros ? [].
  - unfold postgres_Cleanup. eapply always_cut_grow; [|done]. apply (for_each_ok _ _ _ gw); [done|].
    intros t1 [k n] Ht1 Ha1 _. by apply (delete_owned_ok _ gw).
Qed.

Lemma dependencies_ok : Forall dependency_ok dependencies.
Proof.
  apply Forall_cons_2; [apply EnvoyGateway_ok|]. apply Forall_cons_2; [apply EnvoyProxySCC_ok|].
  apply Forall_cons_2; [apply PostgreSQL_ok|]. apply Forall_cons_2; [apply Groups_ok|]. constructor.
Qed.

(** A phase of the reconcile: the gateway stays in hand whatever happens. *)
Abbreviation phase t gw p := (always G (λ t' r, act t' r.2 ∧ (odata r.2).1 = (odata gw).1) t p).

Lemma reconcile_dependencies_spec t gw deps :
  Forall dependency_ok deps → act t gw → phase t gw (reconcile_dependencies deps gw).
Proof.
  intros Hd. revert t gw. induction Hd as [|dep deps Hdep Hd IH]; intros t gw Ha; [done|].
  cbn [reconcile_dependencies]. eapply always_cut_grow; [by apply Hdep|]. intros t1 [] Ht1 _; cbn [negb].
  - eapply always_cut_grow; [apply Hdep; eauto with gw|]. intros t2 [c e] Ht2 Hc. cbn [fst snd] in *.
    assert (act t2 (gw_condition gw c)) as Ha2 by (apply active_condition; eauto with gw).
    destruct e; [done|]. eapply always_mono; [by apply IH|]. auto.
  - apply IH. eauto with gw.
Qed.

(** ** The sixteen steps *)

Lemma pure_step_ok {A} (Q : list (event KSig) → option err → Prop) t gw (f : OpenShellGateway → prog KSig (option err))
    (k : option err * OpenShellGateway → prog KSig A) R :
  always G Q t (f gw) →
  (∀ t' e, t ⊆ t' → Q t' e → always G R t' (k (e, gw))) →
  always G R t (pure_step f gw ≫= k).
Proof.
  intros Hf Hk. unfold pure_step. apply always_bind. eapply always_cut_grow; [exact Hf|].
  intros t' e Ht HQ. apply always_ret. by apply Hk.
Qed.

Ltac plain_step lem :=
  cbn [run_steps]; eapply pure_step_ok; [apply lem; eauto with gw|];
  let t' := fresh "t" in let Ht := fresh "Ht" in let H := fresh "H" in
  intros t' [?|] Ht H; [apply always_ret; cbn [fst snd]; split_and!; [eauto with gw|done..]|
                        try specialize (H eq_refl)].

Lemma steps_spec t gw :
  act t gw → database_ok t gw →
  always G (λ t' r, act t' r.2 ∧ (odata r.2).1 = (odata gw).1 ∧ (r.1 = None → rolled_out t' r.2)) t
    (run_steps steps gw).
Proof.
  intros Ha Hdb. unfold steps.
  plain_step reconcileNamespace_ok. plain_step reconcileGatewayServiceAccount_ok.
  plain_step reconcileSandboxServiceAccount_ok. plain_step reconcileClusterRole_ok.
  plain_step reconcileClusterRoleBinding_ok. plain_step reconcileRole_ok. plain_step reconcileRoleBinding_ok.
  plain_step reconcileTLS_spec. plain_step reconcileAuthBridgeCA_ok. plain_step reconcileGatewayCA_spec.
  plain_step reconcileJWTKeys_spec. plain_step reconcileAuthBridgeKeys_spec. plain_step reconcileConfigMap_spec.
  cbn [run_steps]. eapply always_cut_grow.
  - apply reconcileDeployment_spec; [eauto with gw|]. intros t' Ht' Hp.
    split_and!; eauto 6 with gw.
  - intros t' [[e|] gw'] Ht' (Ha' & Hs' & Hr); cbn [fst snd] in *; [by apply always_ret|].
    specialize (Hr eq_refl). plain_step reconcileService_ok. plain_step reconcileNetworkPolicy_ok.
    apply always_ret. cbn [fst snd]. split_and!; eauto with gw.
Qed.

(** ** Status *)

Lemma status_allowed t gw o :
  act t gw → final_write t gw o ∨ failed_write t gw o → G t (CStatusUpdate KGateway o).
Proof. intros [Hh He] Hw. exists gw. auto. Qed.

Lemma setDegraded_ok t gw step e : act t gw → safe_step t (setDegraded gw step e).
Proof.
  intros Ha. unfold setDegraded. always_step; [done|]. destruct r as [|latest]; [done|].
  always_step; [|done]. apply (status_allowed _ gw); [eauto with gw|]. right.
  exists latest. split; [apply saw_last|]. right. by exists step, e.
Qed.

Lemma route_api_spec t gw :
  always G (λ t' has, routeEnabled gw = true → detected t' gatewayGroupVersion has) t
    (if routeEnabled gw then HasGatewayAPI else mret false).
Proof.
  destruct (routeEnabled gw); [|by apply always_ret]. eapply always_mono; [apply check_spec|]. auto.
Qed.

Lemma updateStatus_ok t gw isOCP useGWAPI authEnabled :
  act t gw → rolled_out t gw → switched t gw isOCP useGWAPI authEnabled →
  routing_known t gw isOCP useGWAPI authEnabled → safe_step t (updateStatus gw authEnabled).
Proof.
  intros Ha Hr Hsw Hro. unfold updateStatus. always_step; [done|]. destruct r as [|latest]; [done|].
  always_step; [done|]. destruct r as [e|deploy].
  - apply last_call; [|done]. apply (status_allowed _ gw); [eauto with gw|]. right.
    exists latest. split; [eauto with gw|]. by left.
  - eapply always_cut; [apply always_prefix, (route_api_spec _ gw)|].
    cbn beta. intros t' has [[after ->] Hd]. set (t0 := t ++ _) in *.
    match goal with |- always _ _ ?l _ => assert (t ⊆ l) as Ht end.
    { intros x Hx. unfold t0. rewrite !elem_of_app. auto. }
    apply last_call; [|done]. apply (status_allowed _ gw); [eauto with gw|]. left.
    exists latest, deploy, has, isOCP, useGWAPI, authEnabled. split_and!; [|exists t0, after|..]; [|split|..]; eauto with gw.
    + unfold t0. rewrite !elem_of_app, elem_of_cons. auto.
    + by rewrite <-app_assoc.
Qed.

Lemma unless_failed_ok t p k (R : list (event KSig) → OpenShellGateway → Prop) :
  always G (λ t' r, act t' r.2 ∧ (r.1 = None → R t' r.2)) t p →
  (∀ t' gw, act t' gw → R t' gw → safe_step t' (k gw)) →
  safe_step t (unless_failed p k).
Proof.
  intros Hp Hk. unfold unless_failed. eapply always_cut_grow; [exact Hp|].
  intros t' [[[step e]|] gw] _ [Ha HR]; cbn [fst snd] in *.
  - by apply setDegraded_ok.
  - apply Hk; auto.
Qed.

Lemma prefix_sub {A} (t s : list A) : t ⊆ t ++ s.
Proof. intros x Hx. apply elem_of_app. by left. Qed.

Lemma routing_phase_ok t gw isOCP useGWAPI authEnabled :
  act t gw → rolled_out t gw → switched t gw isOCP useGWAPI authEnabled →
  safe_step t (routing_phase isOCP useGWAPI authEnabled gw).
Proof.
  set (R := λ t' gw', rolled_out t' gw' ∧ switched t' gw' isOCP useGWAPI authEnabled).
  intros Ha Hr Hsw. unfold routing_phase.
  apply (unless_failed_ok _ _ _ (λ t' gw', R t' gw' ∧ (isOCP = false → routing_known t' gw' isOCP useGWAPI authEnabled))).
  { destruct useGWAPI.
    2: { apply always_ret. split; [done|]. intros _. split; [done|]. intros ->. by split. }
    eapply always_cut_grow.
    { apply always_both; [by apply reconcileGatewayAPI_spec|]. apply gateway_api_recorded. }
    cbn beta. intros t' [e gw'] Ht [(Ha' & Hs' & Hr') Hrec]. apply always_ret. cbn [fst snd] in *.
    split; [done|]. intros _. split; [split; eauto with gw|]. intros ->. split; [|done].
    intros _ _ Hh. apply Hrec. by rewrite <-Hs'. }
  intros t1 gw1 Ha1 [[Hr1 Hsw1] Hro1].
  apply (unless_failed_ok _ _ _ (λ t' gw', R t' gw' ∧ routing_known t' gw' isOCP useGWAPI authEnabled)).
  { destruct isOCP; [|apply always_ret; split; [done|]; intros _; split; [done|auto]].
    eapply always_mono.
    { apply always_prefix, always_both; [by apply reconcileOpenShiftRouting_spec|apply routing_records]. }
    cbn beta. intros t' r [[s ->] [(? & Hs' & ?) Hrec]]. split; [done|]. intros Hn.
    split; [|by apply Hrec]. split; [auto|]. eapply switched_grow; [done|apply prefix_sub|done]. }
  intros t2 gw2 Ha2 [[Hr2 Hsw2] Hro2]. eapply always_cut_grow; [by eapply updateStatus_ok|]. done.
Qed.

Lemma reconcile_active_ok t gw : act t gw → safe_step t (reconcile_active gw).
Proof.
  intros Ha. unfold reconcile_active, IsOpenShift, HasGatewayAPI.
  eapply always_cut_grow; [apply check_spec|]. cbn beta. intros t1 isOCP Ht1 Hocp.
  eapply always_cut_grow; [apply check_spec|]. cbn beta. intros t2 hasGWAPI Ht2 Hapi.
  set (A := λ t' gw', switched t' gw' isOCP (gatewayAPIEnabled gw hasGWAPI) (authBridgeEnabled gw isOCP)).
  assert (A t2 gw) as Hau by (split_and!; [eauto with gw|by exists hasGWAPI|done]).
  apply (unless_failed_ok _ _ _ A).
  { eapply always_mono.
    { apply always_prefix, reconcile_dependencies_spec; [apply dependencies_ok|eauto with gw]. }
    intros t' r [[s ->] [? ?]]. split; [done|]. intros _. eapply switched_grow; [done|apply prefix_sub|done]. }
  intros t3 gw3 Ha3 Hau3. apply (unless_failed_ok _ _ _ (λ t' gw', database_ok t' gw' ∧ A t' gw')).
  { eapply always_cut_grow; [apply validateDatabaseSecret_spec|]. intros t' e Ht' Hd. apply always_ret.
    cbn [fst snd]. split; [eauto with gw|]. destruct e; [done|]. intros _. split; [auto|].
    eapply switched_grow; eauto. }
  intros t4 gw4 Ha4 [Hdb Hau4]. apply (unless_failed_ok _ _ _ (λ t' gw', rolled_out t' gw' ∧ A t' gw')).
  { eapply always_mono; [by apply always_prefix, steps_spec|]. intros t' r [[s ->] (? & ? & ?)].
    split; [done|]. intros Hn. split; [auto|]. eapply switched_grow; [done|apply prefix_sub|done]. }
  intros t5 gw5 Ha5 [Hr5 Hau5]. by apply routing_phase_ok.
Qed.

(** ** Deletion *)

(** The errors only accumulate, so an empty list means that nothing failed. *)
Lemma delete_collect_spec t k n ns errs :
  G t (CDelete k n ns) →
  always G (λ t' r, (r = [] → errs = [] ∧ gone t' (k, n, ns))) t (delete_collect k n ns errs).
Proof.
  intros HG. unfold delete_collect. always_step; [done|]. apply always_ret.
  destruct r as [e|]; [destruct (IsNotFound e) eqn:En|].
  - intros ->. split; [done|]. exists (Some e). split; [apply saw_last|done].
  - intros H. by apply app_nil in H as [_ H].
  - intros ->. split; [done|]. exists None. split; [apply saw_last|done].
Qed.

Lemma delete_all_spec t gw l errs :
  act t gw → (∀ t' k n ns, t ⊆ t' → (k, n, ns) ∈ l → G t' (CDelete k n ns)) →
  always G (λ t' r, (r = [] → errs = [] ∧ ∀ x, x ∈ l → gone t' x)) t (delete_all l errs).
Proof.
  revert t errs. induction l as [|[[k n] ns] l IH]; intros t errs Ha HG.
  { apply always_ret. intros ->. split; [done|]. intros x Hx. by apply not_elem_of_nil in Hx. }
  cbn [delete_all]. eapply always_cut_grow.
  { apply delete_collect_spec, HG; [done|apply list_elem_of_here]. }
  intros t1 errs1 Ht1 H1. eapply always_mono.
  { apply always_prefix, IH; [eauto with gw|]. intros t' k' n' ns' Ht' Hin. apply HG; [grow|].
    by apply list_elem_of_further. }
  intros t2 r [[s ->] H2] Hr. destruct (H2 Hr) as [He Hg]. destruct (H1 He) as [-> Hg1].
  split; [done|]. intros x [->|Hx]%elem_of_cons; [|by apply Hg].
  eapply gone_grow; [exact Hg1|]. intros y Hy. apply elem_of_app. by left.
Qed.

Lemma delete_cas_spec t gw suffixes errs :
  act t gw →
  always G (λ t' r, (r = [] → errs = [] ∧ ∀ s, s ∈ suffixes → ca_cleaned t' gw s)) t
    (delete_cas gw suffixes errs).
Proof.
  revert t errs. induction suffixes as [|s l IH]; intros t errs Ha.
  { apply always_ret. intros ->. split; [done|]. intros x Hx. by apply not_elem_of_nil in Hx. }
  cbn [delete_cas]. always_step; [done|].
  apply (always_cut_grow _ _ (λ t' errs', errs' = [] → errs = [] ∧ ca_cleaned t' gw s)).
  - destruct r as [e|ca].
    + apply always_ret. destruct (IsNotFound e) eqn:En.
      * intros ->. split; [done|]. left. exists e. split; [apply saw_last|done].
      * intros H. by apply app_nil in H as [_ H].
    + destruct (managed_by_gateway gw (Labels (ometa ca))) eqn:Em.
      * eapply always_mono.
        { apply always_prefix, delete_collect_spec.
          eapply (delete_marked _ gw); [eauto with gw|apply saw_last|by left]. }
        intros t' r [[z ->] H] Hr. destruct (H Hr) as [-> Hg]. split; [done|]. right.
        exists ca. split; [apply elem_of_app; left; apply saw_last|]. by right.
      * apply always_ret. intros ->. split; [done|]. right. exists ca. split; [apply saw_last|]. by left.
  - intros t1 errs1 Ht1 H1. eapply always_mono; [apply always_prefix, IH; eauto with gw|].
    intros t2 r' [[z ->] H2] Hr. destruct (H2 Hr) as [He Hg]. destruct (H1 He) as [-> Hc].
    split; [done|]. intros x [->|Hx]%elem_of_cons; [|by apply Hg].
    eapply ca_cleaned_grow; [exact Hc|]. intros y Hy. apply elem_of_app. by left.
Qed.

(** A resource of the deletion lists. *)
Lemma delete_listed t gw isOCP k n ns :
  act t gw → gw_deleting gw →
  (k, n, ns) ∈ gateway_api_resources gw ++ cluster_resources gw isOCP ++ cross_ns_resources gw →
  G t (CDelete k n ns).
Proof. intros Ha Hd Hin. exists gw. split; [done|]. right; right. split; [done|]. by exists isOCP. Qed.

Lemma cleanup_spec t gw :
  act t gw → gw_deleting gw →
  always G (λ t' errs, errs = [] → cleaned t' gw) t (cleanup gw).
Proof.
  intros Ha Hd. unfold cleanup, cleanup_dependencies, IsOpenShift.
  apply (always_cut_grow _ _ any).
  { apply (for_each_ok _ _ _ gw); [done|]. intros t' dep Ht' Ha' Hin. eapply always_cut_grow; [|done].
    pose proof dependencies_ok as Hall. rewrite Forall_forall in Hall. apply Hall; [|done].
    by apply elem_of_reverse in Hin. }
  intros t1 _ Ht1 _. eapply always_cut_grow; [apply check_spec|]. intros t2 isOCP Ht2 Hocp.
  apply (always_cut_grow _ _ any).
  { apply (for_each_ok _ _ _ gw); [eauto with gw|]. intros t' [[k n] ns] Ht' Ha' Hin.
    always_step; [|done]. apply (delete_listed _ gw true); [done|done|]. apply elem_of_app. by left. }
  intros t3 _ Ht3 _. eapply always_cut_grow; [apply deleteManagedRoutes_spec; eauto with gw|].
  intros t4 e Ht4 Hr. eapply always_cut_grow.
  { apply (delete_all_spec _ gw); [eauto with gw|]. intros t' k n ns Ht' Hin.
    apply (delete_listed _ gw isOCP); [eauto with gw|done|]. rewrite !elem_of_app. auto. }
  intros t5 errs5 Ht5 H5. eapply always_cut_grow.
  { apply (delete_all_spec _ gw); [eauto with gw|]. intros t' k n ns Ht' Hin.
    apply (delete_listed _ gw isOCP); [eauto with gw|done|]. rewrite !elem_of_app. auto. }
  intros t6 errs6 Ht6 H6. eapply always_mono; [apply always_prefix, delete_cas_spec; eauto with gw|].
  intros t7 errs7 [[s ->] H7] Hn. destruct (H7 Hn) as [E6 Hca]. destruct (H6 E6) as [E5 Hcross].
  destruct (H5 E5) as [E4 Hcluster]. assert (t6 ⊆ t6 ++ s) as Ht7.
  { intros x Hx. apply elem_of_app. by left. }
  split_and!; [|exists isOCP|done].
  - assert (routes_cleaned t4 gw) as Hrc; [|eapply routes_cleaned_grow; [exact Hrc|grow]].
    destruct e as [e|]; [|exact Hr]. apply Hr.
    destruct (IsNoMatchError e); [by left|]. destruct (IsNotFound e); [by right|done].
  - split; [eapply detected_grow; [exact Hocp|grow]|].
    intros x [Hx|Hx]%elem_of_app; eapply gone_grow; [by apply Hcluster|grow|by apply Hcross|grow].
Qed.

Lemma gateway_reconcileDelete_ok t gw :
  act t gw → gw_deleting gw → safe_step t (gateway_reconcileDelete gw).
Proof.
  intros Ha Hd. unfold gateway_reconcileDelete. case_match; [done|].
  eapply always_cut_grow; [by apply cleanup_spec|]. intros t' [|e errs] Ht Hc; [|done].
  always_step; [|done]. exists gw. split; [eauto with gw|]. left. auto.
Qed.

(** ** The whole reconcile *)

Lemma gateway_Reconcile_spec : always G any [] (gateway_Reconcile name).
Proof.
  unfold gateway_Reconcile. always_step; [done|]. destruct r as [e|gw]; [done|]. always_step; [done|].
  destruct r as [e|items]; [done|].
  set (t := ([] ++ [_]) ++ [_] : list (event KSig)).
  assert (held name t gw) as Hh.
  { exists gw. split; [unfold t; eauto with gw|]. constructor. }
  destruct (superseded_by gw items) as [oldest|] eqn:Es.
  - always_step; [|done]. exists gw. split; [done|]. left. exists items, oldest.
    split; [unfold t; apply saw_last|done].
  - assert (act t gw) as Ha by (split; [done|]; exists items; split; [unfold t; apply saw_last|done]).
    case_bool_decide as Hd; [by apply gateway_reconcileDelete_ok|]. case_match; [|by apply reconcile_active_ok].
    always_step; [|done]. exists gw. split; [done|]. right. auto.
Qed.
End flow.
