(* ===== verification/GatewayTheorems.v ===== *)
(** * What the gateway controller guarantees

    Consequences of the permission proved in GatewayFlow for every run of the
    reconciler. *)

From S2P Require Import Prelude Interaction GoStrings GoText GoErrors Jwt ApiTypes Kube Singleton.
From S2P Require Import Detect Pki GatewayHelpers GatewayRpc GatewayTls GatewayResources.
From S2P Require Import GatewayDeployment GatewayRouting Dependencies EmbeddedPostgres.
From S2P Require Import GatewayReconciler GatewayGuard GatewayProofs GatewayFlow.
Import ApiTypes.Gateway.

(** ** Runs of the reconciler *)

(** Calls that change the cluster. *)
Definition mutating (c : kcall) : bool :=
  match c with
  | CCreate _ _ | CUpdate _ _ | CStatusUpdate _ _ | CDelete _ _ _ | CUCommit _ _ => true
  | _ => false
  end.

Section runs.
Context {C : Crypto} {X : X509 C} {U : Unicode} {M : ApiMachinery} {ML : ManifestLib}.
Context {W : Type} (h : handler KSig W) (w : W) (name : string).

Lemma gateway_event i c r :
  trace h (gateway_Reconcile name) w !! i = Some (Ev (S := KSig) c r) →
  gateway_guard name (take i (trace h (gateway_Reconcile name) w)) c.
Proof. apply (always_event _ any), gateway_Reconcile_spec. Qed.

(** The gateway comes first in the cluster: it is the only one, or one of its
    name was created before or together with every other. *)
Definition comes_first (gw : OpenShellGateway) (items : list OpenShellGateway) : Prop :=
  length items ≤ 1 ∨
  ∃ oldest, oldest ∈ items ∧ Name (ometa gw) = Name (ometa oldest) ∧
    ∀ o, o ∈ items → Before (CreationTimestamp (ometa o)) (CreationTimestamp (ometa oldest)) = false.

Lemma superseded_none gw items : superseded_by gw items = None → comes_first gw items.
Proof.
  unfold superseded_by, comes_first. intros H. destruct (Nat.ltb_spec 1 (length items)); [|by left].
  destruct (oldestByCreationTimestamp items) as [oldest|] eqn:Eo.
  - apply oldest_spec in Eo as [Hin Hmin]. right. exists oldest. split; [done|]. split; [|done].
    destruct (Name (ometa gw) =s Name (ometa oldest)) eqn:E; [by bool_simpl|done].
  - destruct items; [cbn in *; lia|done].
Qed.

Lemma superseded_some gw items oldest :
  superseded_by gw items = Some oldest →
  oldest ∈ items ∧ Name (ometa gw) ≠ Name (ometa oldest) ∧
  ∀ o, o ∈ items → Before (CreationTimestamp (ometa o)) (CreationTimestamp (ometa oldest)) = false.
Proof.
  unfold superseded_by. destruct (1 <? length items)%nat; [|done].
  destruct (oldestByCreationTimestamp items) as [o|] eqn:Eo; [|done].
  case_bool_decide; [done|]. intros [= ->]. by apply oldest_spec in Eo as [Hin Hmin].
Qed.

(** C23. One gateway per cluster: a reconcile changes anything only for the
    gateway it was called for, and only when that one comes first among the
    gateways the API server listed; otherwise it writes nothing but that
    gateway's own status, which says Failed and names the older instance. *)
Theorem one_gateway_is_active i c r :
  let tr := trace h (gateway_Reconcile name) w in
  tr !! i = Some (Ev (S := KSig) c r) → mutating c = true →
  ∃ gw items, held name (take i tr) gw ∧
    Ev (S := KSig) (CList KGateway None ∅) (inr items) ∈ take i tr ∧
    (comes_first gw items ∨
     ∃ oldest, oldest ∈ items ∧ Name (ometa gw) ≠ Name (ometa oldest) ∧
       (∀ o, o ∈ items → Before (CreationTimestamp (ometa o)) (CreationTimestamp (ometa oldest)) = false) ∧
       c = CStatusUpdate KGateway (superseded_gateway gw oldest) ∧
       Phase (gw_status (superseded_gateway gw oldest)) = PhaseFailed).
Proof.
  intros tr Hi Hm. apply gateway_event in Hi as HG.
  assert ((∃ gw, active name (take i tr) gw) ∨
    ∃ gw, held name (take i tr) gw ∧ ∃ o, c = CStatusUpdate KGateway o ∧ superseded_write (take i tr) gw o) as Hc.
  { destruct c as [| |k o|k o|k o|k n ns| |k o| | | | | | | | |]; try discriminate Hm;
      try (destruct HG as (gw & Ha & _); left; by exists gw).
    destruct k; try done. destruct HG as (gw & Hh & [Hs|[He _]]); [right|left]; exists gw; [|done].
    split; [done|]. by exists o. }
  destruct Hc as [(gw & Hh & items & Hl & Hs)|(gw & Hh & o & -> & items & oldest & Hl & Hs & ->)];
    exists gw, items; (split; [done|]); (split; [done|]).
  - left. by apply superseded_none.
  - right. exists oldest. by destruct (superseded_some _ _ _ Hs) as (? & ? & ?).
Qed.

(** What a deletion must have removed: the cluster-wide RBAC, with the binding
    to the privileged SCC on OpenShift, and the objects in the sandboxes'
    namespace when that is another one. *)
Definition must_be_gone (gw : OpenShellGateway) (isOCP : bool) : list (kind * string * string) :=
  let n := Name (ometa gw) in
  let ns := sandboxNamespace gw in
  [(KClusterRole, n +:+ "-node-reader", ""); (KClusterRoleBinding, n +:+ "-node-reader", "")] ++
  (if isOCP then [(KClusterRoleBinding, n +:+ "-sandbox-scc-privileged", "")] else []) ++
  (if bool_decide (ns = gatewayNamespace gw) then []
   else [(KServiceAccount, n +:+ "-sandbox", ns); (KRole, n +:+ "-sandbox", ns);
         (KRoleBinding, n +:+ "-sandbox", ns); (KNetworkPolicy, n +:+ "-sandbox-ssh", ns)]).

Lemma must_be_gone_listed gw isOCP x :
  x ∈ must_be_gone gw isOCP ↔ x ∈ cluster_resources gw isOCP ++ cross_ns_resources gw.
Proof.
  unfold must_be_gone, cluster_resources, cross_ns_resources. rewrite !elem_of_app.
  destruct (bool_decide (sandboxNamespace gw = gatewayNamespace gw)); cbn [negb]; tauto.
Qed.

(** Deleted by name with the gateway. *)
Definition deleted_by_name (gw : OpenShellGateway) (isOCP : bool) : list (kind * string * string) :=
  let n := Name (ometa gw) in
  let ns := gatewayNamespace gw in
  [(gatewayKind, n, ns); (grpcRouteKind, n, ns); (btpKind, n +:+ "-timeout", ns)] ++ must_be_gone gw isOCP.

(** The API server showed the object with the operator's marks: it was read with
    them, or it was listed under the selector of the gateway's Routes or with
    the owner label. *)
Definition shown_marked (t : list (event KSig)) (gw : OpenShellGateway) (k : kind) (n ns : string) : Prop :=
  ∃ o : obj k, Name (ometa o) = n ∧ Namespace (ometa o) = ns ∧
    ((∃ n' ns', Ev (S := KSig) (CGet k n' ns') (inr o) ∈ t ∧ marked gw (Labels (ometa o))) ∨
     (∃ sel items, Ev (S := KSig) (CList k None sel) (inr items) ∈ t ∧ o ∈ items ∧
        (sel = managed_route_selector gw ∨ isOwnedByOGO (Labels (ometa o)) = true))).

(** Two objects are deleted after a read that does not look for marks: the
    gateway's own Gateway resource, and its NetworkPolicy when the spec turns it
    off. *)
Definition read_by_name (t : list (event KSig)) (gw : OpenShellGateway) (k : kind) (n ns : string) : Prop :=
  ∃ n' ns' (o : obj k), Ev (S := KSig) (CGet k n' ns') (inr o) ∈ t ∧
    Name (ometa o) = n ∧ Namespace (ometa o) = ns ∧
    ((k, n', ns') = (gatewayKind, Name (ometa gw), gatewayNamespace gw) ∨
     (k, n', ns') = (KNetworkPolicy, Name (ometa gw) +:+ "-sandbox-ssh", sandboxNamespace gw) ∧
       unless_false (NPEnabled (Gateway.NetworkPolicy (odata gw).1)) = false).

(** C24. How far the gateway controller reaches.  It creates only objects that
    carry the operator's marks.  It deletes an object only when the API server
    showed it with these marks; or when the gateway itself is being deleted and
    the object is one of the Gateway API, RBAC and sandbox objects named after
    it, which go unread; or when it was read as the gateway's own Gateway
    resource, or as its NetworkPolicy while the spec turns that off.  It updates,
    besides its own gateway, only objects that it read with the marks, the
    Certificate <gateway>-gateway-tls and the OAuth client openshell.  It writes
    with CreateOrUpdate only over what it fetched under one of nineteen names
    formed from the gateway's, or as one of its namespaces, and keeps name and
    namespace; an existing trust bundle is overwritten only when it carries the
    gateway's labels. *)
Theorem foreign_objects_are_untouched i c r :
  let tr := trace h (gateway_Reconcile name) w in
  tr !! i = Some (Ev (S := KSig) c r) →
  match c with
  | CCreate k o => ∃ gw, held name (take i tr) gw ∧ marked gw (Labels (ometa o))
  | CDelete k n ns =>
      ∃ gw, held name (take i tr) gw ∧
        (shown_marked (take i tr) gw k n ns ∨
         gw_deleting gw ∧ (∃ isOCP, (k, n, ns) ∈ deleted_by_name gw isOCP) ∨
         read_by_name (take i tr) gw k n ns)
  | CUpdate k o => k ≠ KGateway →
      ∃ gw n ns (o0 : obj k), held name (take i tr) gw ∧
        Ev (S := KSig) (CGet k n ns) (inr o0) ∈ take i tr ∧
        (ometa o = ometa o0 ∨ n = Name (ometa o) ∧ ns = Namespace (ometa o)) ∧
        (marked gw (Labels (ometa o0)) ∨
         (k, n, ns) = (certificateKind, Name (ometa gw) +:+ "-gateway-tls", gatewayNamespace gw) ∨
         (k, n, ns) = (oauthClientKind, "openshell", ""))
  | CUCommit k o =>
      ∃ gw n ns (o0 : obj k), held name (take i tr) gw ∧
        Ev (S := KSig) (CUFetch k n ns) (inr o0) ∈ take i tr ∧ (k, n, ns) ∈ written_names gw ∧
        Name (ometa o) = Name (ometa o0) ∧ Namespace (ometa o) = Namespace (ometa o0) ∧
        (k = KConfigMap → n ≠ Name (ometa gw) +:+ "-config" →
           CreationTimestamp (ometa o0) = None ∨ managed_by_gateway gw (Labels (ometa o0)) = true)
  | _ => True
  end.
Proof.
  intros tr Hi. apply gateway_event in Hi as HG.
  destruct c as [| |k o|k o| |k n ns| |k o| | | | | | | | |]; try done.
  - destruct HG as (gw & [Hh _] & Hc). exists gw. split; [done|]. destruct k; by try apply Hc.
  - intros Hg. destruct HG as (gw & [Hh _] & Hu). destruct k; try done.
    destruct Hu as (n & ns & o0 & Hu). by exists gw, n, ns, o0.
  - destruct HG as (gw & [Hh _] & [(n' & ns' & o & Hget & Hn & Hns & Hm)|
      [(sel & items & o & Hl & Hin & Hn & Hns & Hm)|(Hd & isOCP & Hin)]]); exists gw; (split; [done|]).
    + destruct Hm as [Hm|Hm]; [left; exists o|right; right; exists n', ns', o]; eauto 10.
    + left. exists o. eauto 10.
    + right; left. split; [done|]. exists isOCP. apply elem_of_app in Hin as [Hin|Hin];
        apply elem_of_app; [left; exact Hin|right; by apply must_be_gone_listed].
  - destruct HG as (gw & [Hh _] & n & ns & o0 & Hf & Hin & [Hn Hns] & Hc). exists gw, n, ns, o0.
    split_and!; try done. intros -> Hne. by destruct Hc as [[? _]|[_ [? _]]].
Qed.

(** C25. A gateway's finalizer is dropped only while it is being deleted and
    after the API server confirmed as gone (deleted now or not found) its
    ClusterRole and its ClusterRoleBinding, on OpenShift also its binding to the
    privileged SCC, and, when the sandboxes have a namespace of their own, its
    ServiceAccount, Role, RoleBinding and NetworkPolicy there; its Routes were
    listed and removed or there is no Route API; and its two trust bundles were
    absent, removed, or not the operator's.  Whether this is OpenShift is what
    the detection answered. *)
Theorem gateway_finalizer_waits `{!ApiMachineryLaws M} i o r :
  let tr := trace h (gateway_Reconcile name) w in
  tr !! i = Some (Ev (S := KSig) (CUpdate KGateway o) r) →
  finalizerName ∉ Finalizers (ometa o) →
  ∃ gw isOCP, held name (take i tr) gw ∧ gw_deleting gw ∧ odata o = odata gw ∧
    detected (take i tr) "route.openshift.io/v1" isOCP ∧
    (∀ x, x ∈ must_be_gone gw isOCP → gone (take i tr) x) ∧ routes_cleaned (take i tr) gw ∧
    ca_cleaned (take i tr) gw "-auth-ca" ∧ ca_cleaned (take i tr) gw "-gateway-ca".
Proof.
  intros tr Hi Hf.
  apply gateway_event in Hi as (gw & [Hh _] & [(Hd & (Hr & (isOCP & Hocp & Hg) & Hc) & ->)|(_ & _ & Hfin)]).
  - exists gw, isOCP. split_and!; try done.
    + intros x Hx. by apply Hg, must_be_gone_listed.
    + apply Hc. rewrite elem_of_cons. by left.
    + apply Hc. rewrite !elem_of_cons. auto.
  - exfalso. apply Hf. rewrite Hfin. apply add_spec. by left.
Qed.

(** Where a volume of the pod comes from. *)
Definition source_provided (t : list (event KSig)) (ns : string) (s : VolumeSource) : Prop :=
  match s with
  | VConfigMap n => provided t KConfigMap n ns
  | VSecret n _ _ => provided t KSecret n ns
  | VClaim n => provided t KPVC n ns
  end.

(** C26. The gateway is rolled out after what its pod mounts.  A Deployment is
    committed only over what was fetched under <gateway>-pg, and then it is the
    embedded database's, or under the gateway's own name, and then it is the
    gateway's, for the detected kind of cluster, and at that point every
    ConfigMap, Secret and claim among the volumes of its pod is known to exist in
    the gateway's namespace (read, created or written), except that with
    spec.tls.serverCertSecretName the client CA is not, and the database Secret
    was read with a connection string.  Not covered is the Secret
    <gateway>-oauth-client, which the sidecar's environment refers to and a later
    step creates. *)
Theorem rollout_has_its_inputs i o r :
  let tr := trace h (gateway_Reconcile name) w in
  tr !! i = Some (Ev (S := KSig) (CUCommit KDeployment o) r) →
  ∃ gw n ns o0, held name (take i tr) gw ∧ Ev (S := KSig) (CUFetch KDeployment n ns) (inr o0) ∈ take i tr ∧
    (n = Name (ometa gw) +:+ "-pg" ∧ o = pg_deployment gw (ownershipLabels componentPostgres gw) o0 ∨
     n = Name (ometa gw) ∧
     (∃ isOCP rev, detected (take i tr) "route.openshift.io/v1" isOCP ∧
        o = gateway_deployment gw isOCP rev o0) ∧
     database_ok (take i tr) gw ∧
     ∀ v, v ∈ volumes gw →
       ServerCertSecretName (TLS (odata gw).1) = "" ∨ VolumeName v ≠ "tls-client-ca" →
       source_provided (take i tr) (gatewayNamespace gw) (Source v)).
Proof.
  intros tr Hi. apply gateway_event in Hi as (gw & [Hh _] & n & ns & o0 & Hf & _ & _ & Hc).
  exists gw, n, ns, o0. split; [done|]. split; [done|].
  destruct Hc as [(-> & Hin & isOCP & rev & Hd & ->)|[-> ->]]; [right|by left].
  destruct Hin as (Hcfg & Hjwt & Hab & Hst & Hsrv & Hcli & Hdb). split; [done|].
  split; [by exists isOCP, rev|]. split; [done|].
  intros v Hv Hx. unfold volumes in Hv. rewrite !elem_of_app, !elem_of_cons in Hv.
  destruct Hv as [[->|[->|[->|[->|Hv]]]]|Hv]; [done..|by apply not_elem_of_nil in Hv|].
  destruct (tlsEnabled gw) eqn:Et; [|by apply not_elem_of_nil in Hv]. rewrite !elem_of_cons in Hv.
  destruct Hv as [->|[->|Hv]]; [by apply Hsrv| |by apply not_elem_of_nil in Hv].
  destruct Hx as [Hx|Hx]; [by apply Hcli|done].
Qed.

(** C27. Secrets are stable: a key, password or client secret is created only
    after the API server answered that there is none, and is never updated; the
    only Secrets ever overwritten are the two halves of the self-signed TLS
    pair, when one is missing or the server's names other hosts. *)
Theorem secrets_are_stable i c r :
  let tr := trace h (gateway_Reconcile name) w in
  tr !! i = Some (Ev (S := KSig) c r) →
  match c with
  | CCreate KSecret o => absent (take i tr) KSecret (Name (ometa o)) (Namespace (ometa o))
  | CUpdate KSecret _ => False
  | CUCommit KSecret o => ∃ gw o0, held name (take i tr) gw ∧ pki_stale (take i tr) gw ∧
      ometa o = with_annotations (Annotations (ometa o)) (with_labels (gatewayLabels gw) (ometa o0)) ∧
      (Ev (S := KSig) (CUFetch KSecret (Name (ometa gw) +:+ "-server-tls") (gatewayNamespace gw))
         (inr o0) ∈ take i tr ∨
       Ev (S := KSig) (CUFetch KSecret (Name (ometa gw) +:+ "-client-tls") (gatewayNamespace gw))
         (inr o0) ∈ take i tr)
  | _ => True
  end.
Proof.
  intros tr Hi. apply gateway_event in Hi as HG.
  destruct c as [| |[] o|[] o| | | |[] o| | | | | | | | |]; try done.
  - by destruct HG as (gw & _ & Ha & _).
  - by destruct HG as (gw & _ & Hf).
  - destruct HG as (gw & [Hh _] & n & ns & o1 & _ & _ & _ & Hs & b & o0 & _ & [(_ & Hf & ->)|(_ & Hf & _ & ->)]);
      exists gw, o0; auto.
Qed.

(** C28. The self-signed pair works: what is written to the two TLS Secrets is
    one bundle, whose server certificate is issued by the bundle's CA for names
    that include the host the operator itself dials and the published host, and
    the client's half is written only after the server's half of that bundle. *)
Theorem tls_pair_is_consistent i o r :
  let tr := trace h (gateway_Reconcile name) w in
  tr !! i = Some (Ev (S := KSig) (CUCommit KSecret o) r) →
  ∃ gw b o0, held name (take i tr) gw ∧ bundle_ok (computeServerSANs gw) b ∧
    gateway_host gw ∈ computeServerSANs gw ∧
    (Hostname (Route (odata gw).1) ≠ "" → Hostname (Route (odata gw).1) ∈ computeServerSANs gw) ∧
    (o = server_tls_secret gw b (HashSANs (computeServerSANs gw)) o0 ∨
     o = client_tls_secret gw b o0 ∧
     ∃ o1, Ev (S := KSig) (CUCommit KSecret
       (server_tls_secret gw b (HashSANs (computeServerSANs gw)) o1)) None ∈ take i tr).
Proof.
  intros tr Hi. apply gateway_event in Hi as (gw & [Hh _] & n & ns & o1 & _ & _ & _ & _ & b & o0 & Hb & Hw).
  exists gw, b, o0.
  split_and!; [done..| | |destruct Hw as [(_ & _ & ->)|(_ & _ & Hs & ->)]; auto].
  - unfold computeServerSANs, gateway_host. rewrite elem_of_app, !elem_of_cons. auto 6.
  - intros Hn. unfold computeServerSANs. rewrite (bool_decide_eq_false_2 _ Hn). cbn [negb].
    rewrite elem_of_app, !elem_of_cons. auto.
Qed.
End runs.

(** ** Status *)

Section status.
Context {C : Crypto} {X : X509 C} {U : Unicode} {M : ApiMachinery} {ML : ManifestLib} `{!ApiMachineryLaws M}.

Lemma find_add c s t :
  FindStatusCondition (Conditions (add_condition c s)) t =
    if decide (t = CType c) then Some c else FindStatusCondition (Conditions s) t.
Proof. apply find_set. Qed.

(** Copying conditions of other types changes neither a condition nor the phase. *)
Lemma carry_other from types s t :
  t ∉ types → FindStatusCondition (Conditions (carry from types s)) t = FindStatusCondition (Conditions s) t.
Proof.
  unfold carry. revert s. induction types as [|t' types IH]; intros s Ht; [done|]. cbn [foldl].
  apply not_elem_of_cons in Ht as [Hne Ht]. rewrite IH by done.
  destruct (FindStatusCondition from t') as [c|] eqn:Ec; [|done]. apply find_type in Ec.
  rewrite find_add, decide_False; congruence.
Qed.

Lemma carry_phase from types s : Phase (carry from types s) = Phase s.
Proof.
  unfold carry. revert s. induction types as [|t types IH]; intros s; [done|]. cbn [foldl].
  rewrite IH. by destruct (FindStatusCondition from t).
Qed.

Lemma carried_spec routeActive authActive t :
  t ∈ carried routeActive authActive →
  t ∈ [ConditionEnvoyGatewayReady; ConditionDatabaseReady; ConditionEnvoyProxySCCReady;
       ConditionOpenShiftGroups; ConditionEnvoyRouteReady; ConditionBrowserSSOReady;
       ConditionImageConfigValid] ∧
  (t = ConditionEnvoyRouteReady → routeActive = true) ∧ (t = ConditionBrowserSSOReady → authActive = true).
Proof.
  unfold carried. rewrite list_elem_of_In, filter_In, <-list_elem_of_In. intros [Ht Hf]. split; [done|].
  split; intros ->; by destruct routeActive, authActive.
Qed.

(** The two reads of the history that [read_back] speaks of, by position. *)
Lemma read_back_order (tr : list (event KSig)) i gw deploy :
  read_back (take i tr) gw deploy → ∃ isOCP rev o0 l k, (l < k < i)%nat ∧
    tr !! l = Some (Ev (S := KSig) (CUCommit KDeployment (gateway_deployment gw isOCP rev o0)) None) ∧
    tr !! k = Some (Ev (S := KSig) (CGet KDeployment (Name (ometa gw)) (gatewayNamespace gw)) (inr deploy)).
Proof.
  intros (before & after & Ht & isOCP & rev & o0 & Hc). apply list_elem_of_lookup in Hc as [l Hl].
  exists isOCP, rev, o0, l, (length before). pose proof (lookup_lt_Some _ _ _ Hl) as Hlt.
  assert (take i tr !! l = before !! l) as El by (rewrite Ht; by apply lookup_app_l).
  assert (take i tr !! length before =
    Some (Ev (S := KSig) (CGet KDeployment (Name (ometa gw)) (gatewayNamespace gw)) (inr deploy))) as Ek.
  { rewrite Ht, lookup_app_r, Nat.sub_diag by done. done. }
  rewrite Hl in El. apply lookup_take_Some in El as [El _]. apply lookup_take_Some in Ek as [Ek Hi].
  split_and!; [done..|exact El|exact Ek].
Qed.

(** Running is reported exactly when the pods are ready and nothing blocks. *)
Lemma final_running gw podsReady hasGWAPI authEnabled s :
  let o := final_status gw podsReady hasGWAPI authEnabled s in
  let recorded := Conditions (gw_status gw) in
  Phase o = PhaseRunning →
  podsReady = true ∧
  (routeEnabled gw && gatewayAPIEnabled gw hasGWAPI = true → not_true recorded ConditionEnvoyRouteReady = false) ∧
  (authEnabled = true → not_true recorded ConditionBrowserSSOReady = false).
Proof.
  cbn [final_status Phase]. rewrite carry_phase. cbn [add_condition set_conditions Phase].
  unfold phase_status.
  destruct podsReady, (routeEnabled gw && gatewayAPIEnabled gw hasGWAPI), authEnabled,
    (not_true _ ConditionEnvoyRouteReady), (not_true _ ConditionBrowserSSOReady); cbn; done.
Qed.

(** The conditions that come with it. *)
Lemma final_conditions gw hasGWAPI authEnabled s :
  let o := final_status gw true hasGWAPI authEnabled s in
  Phase o = PhaseRunning →
  FindStatusCondition (Conditions o) ConditionAvailable =
    Some (available ConditionTrue "Ready" "Gateway is running") ∧
  FindStatusCondition (Conditions o) ConditionProgressing =
    Some (progressing ConditionFalse "Complete" "Rollout complete") ∧
  FindStatusCondition (Conditions o) ConditionDegraded =
    Some (mkCondition ConditionDegraded ConditionFalse "OK" "").
Proof.
  intros o Ho. pose proof (final_running gw true hasGWAPI authEnabled s Ho) as (_ & Hr & Ha).
  subst o. unfold final_status. cbn [Conditions].
  assert (∀ t, t ∈ [ConditionAvailable; ConditionProgressing; ConditionDegraded] →
    t ∉ carried (routeEnabled gw && gatewayAPIEnabled gw hasGWAPI) authEnabled) as Hc.
  { intros t Ht [Hin _]%carried_spec. rewrite !elem_of_cons in Ht.
    destruct Ht as [->|[->|[->|Ht]]]; [by apply (bool_decide_pack _) in Hin..|by apply not_elem_of_nil in Ht]. }
  rewrite !carry_other by (apply Hc; rewrite !elem_of_cons; auto). rewrite !find_add.
  unfold phase_status.
  destruct (routeEnabled gw && gatewayAPIEnabled gw hasGWAPI), authEnabled; cbn [andb orb negb];
    rewrite ?(Hr eq_refl), ?(Ha eq_refl); cbn [andb orb negb];
    rewrite !find_add; done.
Qed.

(** The [switch] sets the conditions Available and Progressing only. *)
Lemma phase_other podsReady routeBlocking ssoBlocking s t :
  t ≠ ConditionAvailable → t ≠ ConditionProgressing →
  FindStatusCondition (Conditions (phase_status podsReady routeBlocking ssoBlocking s)) t =
  FindStatusCondition (Conditions s) t.
Proof.
  intros H1 H2. unfold phase_status.
  destruct podsReady, routeBlocking, ssoBlocking; cbn [andb orb negb]; by rewrite !find_add, !decide_False.
Qed.

(** A condition that was recorded last as false is not true. *)
Lemma latest_not_true gw ty c :
  latest_condition gw ty c → not_true (Conditions (gw_status gw)) ty = bool_decide (CStatus c ≠ ConditionTrue).
Proof. intros Hc. unfold not_true. by rewrite (latest_condition_find _ _ _ Hc). Qed.

(** What Running says of the routing, by what the steps recorded. *)
Lemma running_routed t gw isOCP useGWAPI authEnabled hasGWAPI :
  routing_known t gw isOCP useGWAPI authEnabled →
  (routeEnabled gw && gatewayAPIEnabled gw hasGWAPI = true →
     not_true (Conditions (gw_status gw)) ConditionEnvoyRouteReady = false) →
  (authEnabled = true → not_true (Conditions (gw_status gw)) ConditionBrowserSSOReady = false) →
  (routeEnabled gw = true → useGWAPI = true → gatewayAPIEnabled gw hasGWAPI = true →
     Hostname (Route (odata gw).1) ≠ "" ∧ (isOCP = true → envoy_route_there t gw)) ∧
  (isOCP = true → authEnabled = true → routeEnabled gw = true → Hostname (Route (odata gw).1) ≠ "").
Proof.
  intros [Hentry Hsso] Hroute Hauth. split.
  - intros Hr Hu Hg. rewrite Hr, Hg in Hroute. specialize (Hroute eq_refl). specialize (Hentry Hu Hr).
    destruct isOCP.
    + destruct Hentry as (c & Hc & Hs). rewrite (latest_not_true _ _ _ Hc) in Hroute.
      apply bool_decide_eq_false in Hroute. apply dec_stable in Hroute. by destruct (Hs Hroute).
    + split; [|done]. intros Hh. by rewrite (latest_not_true _ _ _ (Hentry Hh)) in Hroute.
  - intros -> -> Hr Hh. specialize (Hauth eq_refl).
    rewrite (latest_not_true gw _ sso_missing) in Hauth; [done|]. apply Hsso; [done|].
    unfold browserSSOMissingHostname. by rewrite Hr, Hh.
Qed.

(** C29. Running means ready.  The phase is reported only for the active gateway
    after the commit of its Deployment was accepted in this very reconcile and
    the Deployment was read again after that with all its replicas ready; the
    conditions then say Available, not Progressing and not Degraded, and the
    observed generation is the one that was reconciled.  If the spec has the
    Route on, and the Gateway API was in use, by the spec or by the detection,
    both in the routing step and when the status was computed, then a hostname is
    set, and on OpenShift the Route in front of a listed Envoy proxy was read or
    created.  On OpenShift with the auth bridge and the Route on, a hostname is
    set. *)
Theorem running_means_ready {W} (h : handler KSig W) w name i o r :
  let tr := trace h (gateway_Reconcile name) w in
  tr !! i = Some (Ev (S := KSig) (CStatusUpdate KGateway o) r) →
  Phase (gw_status o) = PhaseRunning →
  ∃ gw, held name (take i tr) gw ∧ elected (take i tr) gw ∧
    (∃ deploy l k isOCP rev o0, (l < k < i)%nat ∧
       tr !! l = Some (Ev (S := KSig) (CUCommit KDeployment (gateway_deployment gw isOCP rev o0)) None) ∧
       tr !! k = Some (Ev (S := KSig) (CGet KDeployment (Name (ometa gw)) (gatewayNamespace gw)) (inr deploy)) ∧
       (0 < ReadyReplicas (odata deploy))%Z ∧
       ReadyReplicas (odata deploy) = default 1%Z (DReplicas (odata deploy))) ∧
    ObservedGeneration (gw_status o) = Generation (ometa gw) ∧
    (∀ t c, (t, c) ∈ [(ConditionAvailable, ConditionTrue); (ConditionProgressing, ConditionFalse);
        (ConditionDegraded, ConditionFalse)] →
       CStatus <$> FindStatusCondition (Conditions (gw_status o)) t = Some c) ∧
    ∃ isOCP has has', detected (take i tr) "route.openshift.io/v1" isOCP ∧
      detected (take i tr) "gateway.networking.k8s.io/v1" has ∧
      (routeEnabled gw = true → detected (take i tr) "gateway.networking.k8s.io/v1" has') ∧
      (routeEnabled gw = true → gatewayAPIEnabled gw has = true → gatewayAPIEnabled gw has' = true →
         Hostname (Route (odata gw).1) ≠ "" ∧ (isOCP = true → envoy_route_there (take i tr) gw)) ∧
      (isOCP = true → authBridgeEnabled gw isOCP = true → routeEnabled gw = true →
         Hostname (Route (odata gw).1) ≠ "").
Proof.
  intros tr Hi Hp. apply gateway_event in Hi as HG. destruct HG as (gw & Hh & Hw).
  destruct Hw as [(items & oldest & _ & _ & ->)|[He [Hw|(latest & _ & [->|(step & e & ->)])]]]; [done| |done..].
  destruct Hw as (latest & deploy & has' & isOCP & u & a & Hl & Hrb & Hapi & (Hocp & (has & Hhas & ->) & ->) & Hro & ->).
  destruct (read_back_order _ _ _ _ Hrb) as (isOCP' & rev & o0 & l & k & [Hlk Hki] & Hcommit & Hread).
  exists gw. cbn [gw_status with_gw_status odata snd] in Hp |- *.
  destruct (final_running _ _ _ _ _ Hp) as (Hready & Hroute & Hauth). rewrite Hready in Hp |- *.
  apply andb_true_iff in Hready as [H1 H2]. apply Z.ltb_lt in H1. apply Z.eqb_eq in H2.
  destruct (final_conditions _ _ _ _ Hp) as (Ha & Hpr & Hdeg).
  destruct (running_routed _ _ _ _ _ _ Hro Hroute Hauth) as [Hr1 Hr2].
  split_and!; try done.
  - by exists deploy, l, k, isOCP', rev, o0.
  - intros t c. rewrite !elem_of_cons.
    intros [[= -> ->]|[[= -> ->]|[[= -> ->]|Ht]]]; [by rewrite Ha|by rewrite Hpr|by rewrite Hdeg|].
    by apply not_elem_of_nil in Ht.
  - exists isOCP, has, has'. by split_and!.
Qed.
End status.
