(* ===== verification/GatewayAgreement.v ===== *)
(** * The rendered objects agree with each other

    The configuration file with the spec, the pod with its Service, and the
    files both name with the mounts and the objects behind them. *)

From S2P Require Import Prelude Interaction GoStrings GoText GoErrors Jwt ApiTypes Kube Pki.
From S2P Require Import GatewayHelpers GatewayConfig Toml GatewayTls GatewayResources.
From S2P Require Import GatewayDeployment GatewayRouting Dependencies EmbeddedPostgres GatewayReconciler.
From S2P Require Import GatewayGuard GatewayFlow GatewayTheorems.
From Stdlib Require Import Ascii.
Import ApiTypes.Gateway.

(** ** The configuration file *)

(** C32. The gateway reads the settings of the spec: for printable values, and
    with the escapes TOML shares with Go, parsing the rendered file gives
    exactly the settings the spec asks for, in order; no value can add, drop or
    change a setting. *)
Theorem config_is_faithful {U : Unicode} gw sandboxNS oidcIssuer :
  Forall (λ v, safe v = true) (config_values gw sandboxNS oidcIssuer) →
  parse_toml (RenderGatewayTOML gw sandboxNS oidcIssuer) = Some (gateway_settings gw sandboxNS oidcIssuer).
Proof. intros Hs. destruct (reads_config gw sandboxNS oidcIssuer Hs) as [t Ht]. by apply (reads_parse _ t). Qed.

(** ** A pod on its own *)

Definition port_of (c : Container) (p : IntOrString) : bool :=
  match p with
  | FromString s => bool_decide (s ∈ map PortName (ContainerPorts c))
  | FromInt32 n => bool_decide (n ∈ map PortNumber (ContainerPorts c))
  end.

Definition probe_resolves (c : Container) (p : option Probe) : bool :=
  match p with
  | Some p => match Handler_ p with HTTPGet _ port _ | TCPSocket port => port_of c port end
  | None => true
  end.

(** What the API server validates, and what makes the probes and mounts work. *)
Definition container_ok (vs : list Volume) (c : Container) : bool :=
  bool_decide (NoDup (map EnvName (Env c))) && bool_decide (NoDup (map MountPath (VolumeMounts c))) &&
  forallb (λ m, bool_decide (MountVolume m ∈ map VolumeName vs)) (VolumeMounts c) &&
  probe_resolves c (StartupProbe c) && probe_resolves c (LivenessProbe c) &&
  probe_resolves c (ReadinessProbe c).

Definition pod_ok (p : PodSpec) : bool :=
  let ports := concat (map ContainerPorts (Containers p)) in
  bool_decide (NoDup (map ContainerName (Containers p))) &&
  bool_decide (NoDup (map VolumeName (Volumes p))) &&
  bool_decide (NoDup (map PortName ports)) && bool_decide (NoDup (map PortNumber ports)) &&
  forallb (container_ok (Volumes p)) (Containers p).

(** ** Files *)

(** The volume a path of the container lies in, and the file's name there. *)
Definition file_of (vs : list Volume) (c : Container) (path : string) : option (Volume * string) :=
  m ← List.find (λ m, HasPrefix path (MountPath m +:+ "/")) (VolumeMounts c);
  v ← List.find (λ v, VolumeName v =s MountVolume m) vs;
  Some (v, drop_bytes (S (String.length (MountPath m))) path).

(** The object behind a volume, and the key a file of it shows. *)
Definition key_of_file (v : Volume) (f : string) : option (kind * string * string) :=
  match Source v with
  | VConfigMap n => Some (KConfigMap, n, f)
  | VSecret n _ [] => Some (KSecret, n, f)
  | VSecret n _ items => (λ kp, (KSecret, n, kp.1)) <$> List.find (λ kp, kp.2 =s f) items
  | VClaim _ => None
  end.

Definition read_from (vs : list Volume) (c : Container) (path : string) : option (kind * string * string) :=
  '(v, f) ← file_of vs c path; key_of_file v f.

(** The Secret of spec.tls.serverCertSecretName is the user's. *)
Definition user_files (gw : OpenShellGateway) : list (kind * string * string) :=
  let custom := ServerCertSecretName (TLS (odata gw).1) in
  if custom =s "" then [] else [(KSecret, custom, "tls.crt"); (KSecret, custom, "tls.key")].

Definition files_known (gw : OpenShellGateway) (vs : list Volume) (c : Container) (paths : list string) : Prop :=
  ∀ path, path ∈ paths → ∃ x, read_from vs c path = Some x ∧ x ∈ operator_files gw ++ user_files gw.

(** The files the gateway is told to read. *)
Definition setting_files (l : list setting) : list string :=
  omap (λ '(_, k, v), match v with
                      | TStr s => if has_suffix k "_path" then Some s else None
                      | _ => None
                      end) l.

(** And the bridge. *)
Definition env_files (l : list EnvVar) : list string :=
  omap (λ e, match EnvFrom e with
             | EnvValue s => if existsb (λ n, EnvName e =s n)
                  ["AUTH_BRIDGE_SIGNING_KEY"; "AUTH_BRIDGE_PUBLIC_KEY"; "AUTH_BRIDGE_KID";
                   "AUTH_BRIDGE_TLS_CERT"; "AUTH_BRIDGE_TLS_KEY"] then Some s else None
             | EnvSecretKey _ _ => None
             end) l.

Definition ports_resolve (svc : Service) (p : PodSpec) : bool :=
  forallb (λ sp, existsb (λ c, port_of c (TargetPort sp)) (Containers p)) (Ports svc).

(** ** What the runs write *)

Lemma server_secret_files gw b hash o :
  has_files gw KSecret (Name (ometa gw) +:+ "-server-tls") (secret_data (server_tls_secret gw b hash o)).
Proof.
  intros key. unfold operator_files. cbv zeta. rewrite !elem_of_cons, elem_of_nil.
  cbn [secret_data server_tls_secret odata SecretData]. naive_solver eauto using lookup_insert_is_Some'.
Qed.

Lemma client_secret_files gw b o :
  has_files gw KSecret (Name (ometa gw) +:+ "-client-tls") (secret_data (client_tls_secret gw b o)).
Proof.
  intros key. unfold operator_files. cbv zeta. rewrite !elem_of_cons, elem_of_nil.
  cbn [secret_data client_tls_secret odata SecretData]. naive_solver eauto using lookup_insert_is_Some'.
Qed.

Section runs.
Context {C : Crypto} {X : X509 C} {U : Unicode} {M : ApiMachinery} {ML : ManifestLib}.

(** A write of a Secret or ConfigMap puts the keys there that the pod reads of
    it, and the rendered configuration under its name. *)
Definition fills (name : string) (t : list (event KSig)) (c : kcall) : Prop :=
  match c with
  | CCreate KSecret o =>
      ∃ gw, held name t gw ∧ has_files gw KSecret (Name (ometa o)) (secret_data o)
  | CUCommit KSecret o =>
      ∃ gw n ns o0, held name t gw ∧ Ev (S := KSig) (CUFetch KSecret n ns) (inr o0) ∈ t ∧
        has_files gw KSecret n (secret_data o)
  | CUCommit KConfigMap o =>
      ∃ gw n ns o0, held name t gw ∧ Ev (S := KSig) (CUFetch KConfigMap n ns) (inr o0) ∈ t ∧
        ∀ key : string, (KConfigMap, n, key) ∈ operator_files gw →
          ∃ isOCP, CMData (odata o) !! key = Some (gateway_toml gw isOCP)
  | _ => True
  end.

Lemma runs_fill name t c : gateway_guard name t c → fills name t c.
Proof.
  destruct c as [| |[] o| | | | |[] o| | | | | | | | |]; try done.
  - intros (gw & [Hh _] & _ & _ & Hf). by exists gw.
  - intros (gw & [Hh _] & n & ns & o0 & Hf & _ & _ & _ & b & o1 & _ & Hw). exists gw, n, ns, o0.
    split_and!; [done|done|]. destruct Hw as [(-> & _ & ->)|(-> & _ & _ & ->)];
      [apply server_secret_files|apply client_secret_files].
  - intros (gw & [Hh _] & n & ns & o0 & Hf & _ & _ & Hw). exists gw, n, ns, o0. split_and!; [done|done|].
    intros key Hk.
    assert (n = Name (ometa gw) +:+ "-config" ∧ key = "gateway.toml") as [-> ->].
    { unfold operator_files in Hk. cbv zeta in Hk. rewrite !elem_of_cons, elem_of_nil in Hk. naive_solver. }
    destruct Hw as [(_ & isOCP & -> & _)|[Hne _]]; [|done]. exists isOCP. apply lookup_insert_eq.
Qed.
End runs.

Section wiring.
Context {C : Crypto} {X : X509 C} {U : Unicode} {M : ApiMachinery} {ML : ManifestLib}.
Context (gw : OpenShellGateway) (isOCP : bool).

Lemma gateway_setting_files :
  setting_files (gateway_settings gw (sandboxNamespace gw) [oidc_issuer gw isOCP]) =
  (if tlsEnabled gw then ["/etc/openshell-tls/server/tls.crt"; "/etc/openshell-tls/server/tls.key";
                          "/etc/openshell-tls/client-ca/ca.crt"] else []) ++
  ["/etc/openshell-jwt/signing.pem"; "/etc/openshell-jwt/public.pem"; "/etc/openshell-jwt/kid"].
Proof.
  unfold gateway_settings, if_set.
  destruct (tlsEnabled gw), (AllowUnauthenticated _), (issuer_of _ <>s ""),
    (ImagePullPolicy _ <>s ""), (WorkspaceStorageSize _ <>s ""), (RuntimeClassName _ <>s ""),
    (AppArmorProfile _ <>s ""); vm_compute; reflexivity.
Qed.

(** One path after the other: its mount, its volume, the object and the key. *)
Ltac each_file :=
  unfold operator_files, user_files; cbv zeta;
  generalize (Name (ometa gw) +:+ "-config") (Name (ometa gw) +:+ "-jwt-keys")
    (Name (ometa gw) +:+ "-auth-bridge-keys") (Name (ometa gw) +:+ "-server-tls")
    (Name (ometa gw) +:+ "-client-tls") (ServerCertSecretName (TLS (odata gw).1));
  intros cfg jwt auth server client custom; destruct (custom =s ""); cbn [negb];
  cbn [app]; rewrite !elem_of_cons, elem_of_nil;
  let H := fresh in intros H;
  repeat match type of H with
    | _ ∨ _ => destruct H as [->|H]; [eexists; split; [vm_compute; reflexivity|]|] | False => destruct H end;
  rewrite !elem_of_cons; auto 20.

Lemma gateway_files_known :
  files_known gw (volumes gw) (gateway_container gw isOCP)
    (drop 1 (Args (gateway_container gw isOCP)) ++
     setting_files (gateway_settings gw (sandboxNamespace gw) [oidc_issuer gw isOCP])).
Proof.
  intros path. rewrite gateway_setting_files. unfold gateway_container, volumes. cbn [Args drop].
  destruct (tlsEnabled gw); each_file.
Qed.

Lemma auth_env_files :
  env_files (auth_env gw) =
  ["/etc/auth-bridge-keys/signing.pem"; "/etc/auth-bridge-keys/public.pem"; "/etc/auth-bridge-keys/kid"] ++
  (if tlsEnabled gw then ["/etc/auth-bridge-tls/tls.crt"; "/etc/auth-bridge-tls/tls.key"] else []).
Proof. unfold auth_env. destruct (tlsEnabled gw); vm_compute; reflexivity. Qed.

Lemma auth_files_known : files_known gw (volumes gw) (auth_container gw) (env_files (auth_env gw)).
Proof.
  intros path. rewrite auth_env_files. unfold auth_container, volumes. destruct (tlsEnabled gw); each_file.
Qed.

End wiring.
