(* ===== verification/SmokeTest.v ===== *)
(** * hack/smoke-test-config/main.go

    The tool that writes a representative configuration and a key pair for the
    smoke test of the gateway.  It calls the operator's own renderer and key
    generator; its own calls are on the file system. *)

From S2P Require Import Prelude Interaction GoStrings GoText GoErrors GoPath Jwt ApiTypes Kube Pki.
From S2P Require Import GatewayHelpers GatewayConfig Toml Concrete.
Import ApiTypes.Gateway.

(** File system calls, and those of the library code. *)
Inductive scall :=
| SMkdirAll (path : string) (perm : Z)
| SWriteFile (path content : string) (perm : Z)
| SLib (c : kcall).

Definition sresp (c : scall) : Type :=
  match c with
  | SMkdirAll _ _ | SWriteFile _ _ _ => option err
  | SLib c => kresp c
  end.

Definition SSig : sig := Sig scall sresp.
Definition sdo (c : scall) : prog SSig (sresp c) := Call (S := SSig) c Ret.

Fixpoint lib {A} (p : prog KSig A) : prog SSig A :=
  match p with
  | Ret a => Ret a
  | Call c k => Call (S := SSig) (SLib c) (λ r, lib (k r))
  end.

Section smoke.
Context {C : Crypto} {X : X509 C} {U : Unicode}.

(** Every optional field of the sandbox is set. *)
Definition smoke_gateway : OpenShellGateway :=
  mkObj (k := KGateway) (named "smoke-test" "")
    (mkSpec "ogo" "" "" "" "" None (mkDatabase false None "")
       (mkSandbox "" "" "IfNotPresent" "2Gi" "kata" "Unconfined")
       (mkTLS (Some false) (mkCertManager false "" "") "")
       (mkRoute None "" (mkGatewayAPI None "" None None))
       (mkAuth true (mkOpenShiftAuth None "" "" "" None)) "" (mkResources ∅ ∅) (mkNetworkPolicy None),
     mkStatus "" "" "" 0 []).

Definition smoke_toml : string := RenderGatewayTOML smoke_gateway "ogo" [].

(** [0o755] and [0o644]. *)
Definition dir_perm : Z := 493.
Definition file_perm : Z := 420.

(** The loop over [writes]: [false] is [os.Exit(1)]. *)
Fixpoint write_all (jwtDir : string) (l : list (string * string * Z)) : prog SSig bool :=
  match l with
  | [] => mret true
  | (name, content, perm) :: l =>
      e ← sdo (SWriteFile (Join [jwtDir; name]) content perm);
      match e with
      | Some _ => mret false
      | None => write_all jwtDir l
      end
  end.

Definition key_files (keys : JWTKeys) : list (string * string * Z) :=
  [("signing.pem", SigningKey keys, file_perm); ("public.pem", PublicKey keys, file_perm);
   ("kid", KID keys, file_perm)].

(** [os.Args]; the result is the exit code. *)
Definition smoke_main (args : list string) : prog SSig nat :=
  match args with
  | [_; outDir] =>
      e ← sdo (SMkdirAll outDir dir_perm);
      match e with
      | Some _ => mret 1
      | None =>
          e ← sdo (SWriteFile (Join [outDir; "gateway.toml"]) smoke_toml file_perm);
          match e with
          | Some _ => mret 1
          | None =>
              k ← lib GenerateJWTKeys;
              match k with
              | inl _ => mret 1
              | inr keys =>
                  let jwtDir := Join [outDir; "jwt"] in
                  e ← sdo (SMkdirAll jwtDir dir_perm);
                  match e with
                  | Some _ => mret 1
                  | None =>
                      ok ← write_all jwtDir (key_files keys);
                      mret (if ok : bool then 0 else 1)
                  end
              end
          end
      end
  | _ => mret 1
  end.

(** ** What it writes *)

Definition write_event (dir : string) (f : string * string * Z) : event SSig :=
  Ev (S := SSig) (SWriteFile (Join [dir; f.1.1]) f.1.2 f.2) None.

(** The calls of a run that ends with code 0. *)
Definition smoke_events (outDir seed : string) (keys : JWTKeys) : list (event SSig) :=
  [Ev (S := SSig) (SMkdirAll outDir dir_perm) None;
   Ev (S := SSig) (SWriteFile (Join [outDir; "gateway.toml"]) smoke_toml file_perm) None;
   Ev (S := SSig) (SLib CEntropy) seed;
   Ev (S := SSig) (SMkdirAll (Join [outDir; "jwt"]) dir_perm) None] ++
  map (write_event (Join [outDir; "jwt"])) (key_files keys).

Lemma write_all_spec t dir l :
  always (λ _ _, True) (λ t' (b : bool), b = true → t' = t ++ map (write_event dir) l) t (write_all dir l).
Proof.
  revert t. induction l as [|[[n c] perm] l IH]; intros t; cbn [write_all map].
  { apply always_ret. by rewrite app_nil_r. }
  always_step; [done|]. destruct r as [e|]; [by apply always_ret|].
  eapply always_mono; [apply IH|]. cbn. intros t' b Hb Heq. rewrite (Hb Heq), <-app_assoc. done.
Qed.

(** The generated keys, as a function of the entropy. *)
Definition keys_from (seed : string) (keys : JWTKeys) : Prop :=
  ∃ key priv pub, ed_GenerateKey seed = inr key ∧ MarshalPKCS8_ed key = inr priv ∧
    MarshalPKIXPublicKey_ed key = inr pub ∧
    keys = mkJWTKeys (pem_EncodeToMemory "PRIVATE KEY" priv) (pem_EncodeToMemory "PUBLIC KEY" pub)
             (hex_EncodeToString (take_bytes 16 (sha256_Sum256 pub))).

(** The tool succeeds only when it wrote exactly the configuration and one
    consistent key pair, below the given directory. *)
Theorem smoke_writes_everything {W} (h : handler SSig W) w prog outDir :
  (run h (smoke_main [prog; outDir]) w).1 = 0 →
  ∃ seed keys, keys_from seed keys ∧
    trace h (smoke_main [prog; outDir]) w = smoke_events outDir seed keys.
Proof.
  intros H0.
  assert (always (λ _ _, True) (λ t r, r = 0 → ∃ seed keys, keys_from seed keys ∧
    t = smoke_events outDir seed keys) [] (smoke_main [prog; outDir])) as Hm.
  { unfold smoke_main. always_step; [done|]. destruct r as [e|]; [by apply always_ret|].
    always_step; [done|]. destruct r as [e|]; [by apply always_ret|].
    cbn [lib GenerateJWTKeys]. unfold GenerateJWTKeys. cbn [lib mbind prog_bind bind kdo].
    split; [done|]. intros seed. cbn [lib].
    destruct (ed_GenerateKey seed) as [e|key] eqn:Hk; [by apply always_ret|].
    destruct (MarshalPKCS8_ed key) as [e|priv] eqn:Hp; [by apply always_ret|].
    destruct (MarshalPKIXPublicKey_ed key) as [e|pub] eqn:Hb; [by apply always_ret|].
    split; [done|]. intros [e|]; [done|].
    eapply always_bind, always_mono; [apply write_all_spec|]. cbn beta.
    intros t' [|] Ht; apply always_ret; [|done]. intros _. rewrite (Ht eq_refl).
    exists seed. eexists. split; [by exists key, priv, pub|]. done. }
  by destruct (always_run _ _ h [] _ w Hm) as [HQ _]; apply HQ.
Qed.

(** Its configuration has every setting that depends on a field of the
    sandbox, and authentication is open. *)
Lemma smoke_settings :
  ∃ l, parse_toml smoke_toml = Some l ∧
    Forall (λ k, k ∈ map (λ s : setting, s.1.2) l)
      ["image_pull_policy"; "workspace_default_storage_size"; "default_runtime_class_name";
       "app_armor_profile"; "disable_tls"; "allow_unauthenticated_users"].
Proof.
  destruct (reads_config smoke_gateway "ogo" []) as [t Ht].
  { by repeat constructor. }
  exists (gateway_settings smoke_gateway "ogo" []). split; [by apply (reads_parse _ t)|].
  repeat apply Forall_cons_2; try apply Forall_nil_2;
    (apply (bool_decide_unpack (_ ∈ _)); vm_compute; exact I).
Qed.
End smoke.
