(* ===== verification/BridgeMain.v ===== *)
(** * cmd/auth-bridge/main.go: starting the bridge

    The process reads its configuration from the environment, checks the TLS
    files and opens one listener, or two when TLS is configured.  The serving
    certificate is reloaded at most every five minutes. *)

From S2P Require Import Prelude Interaction GoStrings GoErrors GoUrl Jwt BridgeSig OpenShiftClient.
From S2P Require Import BridgeServer ApiTypes Kube GatewayHelpers GatewayRpc.

(** [time.ParseDuration]. *)
Class Durations := ParseDuration : string → err + Z.

Definition parseDuration {D : Durations} (s : string) (fallback : Z) : Z :=
  if s =s "" then fallback
  else match ParseDuration s with
       | inl _ => fallback
       | inr d => d
       end.

Definition resolveListenAddr (explicit : string) (explicitlySet tlsConfigured : bool) : string :=
  if explicitlySet && (explicit <>s "") then explicit
  else if tlsConfigured then "127.0.0.1:8085"
  else ":8085".

(** A listener: its address, and the certificate and key files (empty: plain
    HTTP), as [newHTTPServer] and [listenAndServe] get them. *)
Record listener := mkListener { Addr : string; CertFile : string; KeyFile : string }.

Section main.
Context {C : Crypto} {T : TlsLib} {D : Durations}.

(** The end of [main]'s set-up: [log.Fatal], or the servers that are started. *)
Inductive startup := Fatal (msg : string) | Serving (cfg : Config) (s : Server) (ls : list listener).

Definition envOrDefault (key fallback : string) : prog BSig string :=
  v ← Getenv key;
  mret (if v <>s "" then v else fallback).

(** [tls.LoadX509KeyPair]: both files are read, then parsed. *)
Definition LoadX509KeyPair (cert key : string) : prog BSig (err + (string * string)) :=
  certPEM ←? bdo (BReadFile cert);
  keyPEM ←? bdo (BReadFile key);
  mret (match X509KeyPair certPEM keyPEM with
        | Some e => inl e
        | None => inr (certPEM, keyPEM)
        end).

Definition validateTLSFiles (cert key : string) : prog BSig (option err) :=
  if xorb (cert =s "") (key =s "") then
    mret (Some (Err "AUTH_BRIDGE_TLS_CERT and AUTH_BRIDGE_TLS_KEY must be configured together"))
  else if cert <>s "" then
    r ← LoadX509KeyPair cert key;
    mret (match r with
          | inl e => Some (Errorf_w "loading TLS cert/key: " e)
          | inr _ => None
          end)
  else mret None.

(** The listeners: the plain one, and the TLS one when a certificate is set. *)
Definition listeners (listenAddr tlsCert tlsKey tlsListen : string) : list listener :=
  mkListener listenAddr "" "" ::
  (if tlsCert <>s "" then [mkListener tlsListen tlsCert tlsKey] else []).

(** [authbridge.Config{...}] from the environment. *)
Definition read_config (internalIssuer externalIssuer tlsCert explicitListen : string)
    (listenExplicitlySet : bool) : prog BSig Config :=
  audience ← envOrDefault "AUTH_BRIDGE_AUDIENCE" "openshell-cli";
  oauth ← envOrDefault "AUTH_BRIDGE_OPENSHIFT_ISSUER" "https://oauth-openshift.apps.example.com";
  clientID ← envOrDefault "AUTH_BRIDGE_CLIENT_ID" "openshell";
  clientSecret ← Getenv "AUTH_BRIDGE_CLIENT_SECRET";
  userGroup ← Getenv "AUTH_BRIDGE_USER_GROUP";
  adminGroup ← Getenv "AUTH_BRIDGE_ADMIN_GROUP";
  ttl ← Getenv "AUTH_BRIDGE_TOKEN_TTL";
  mret (mkConfig internalIssuer externalIssuer audience
          (resolveListenAddr explicitListen listenExplicitlySet (tlsCert <>s ""))
          oauth clientID clientSecret userGroup adminGroup (parseDuration ttl (8 * Hour))).

Definition main : prog BSig startup :=
  internalIssuer ← envOrDefault "AUTH_BRIDGE_ISSUER" "http://localhost:8085";
  externalIssuer ← envOrDefault "AUTH_BRIDGE_EXTERNAL_ISSUER" internalIssuer;
  tlsCert ← Getenv "AUTH_BRIDGE_TLS_CERT";
  tlsKey ← Getenv "AUTH_BRIDGE_TLS_KEY";
  v ← validateTLSFiles tlsCert tlsKey;
  match v with
  | Some e => mret (Fatal (Error e))
  | None =>
      listen ← bdo (BGetenv "AUTH_BRIDGE_LISTEN");
      config ← read_config internalIssuer externalIssuer tlsCert (default "" listen)
                 (bool_decide (is_Some listen));
      if cfgClientSecret config =s "" then mret (Fatal "AUTH_BRIDGE_CLIENT_SECRET is required")
      else
        s ← NewServer config;
        match s with
        | inl e => mret (Fatal ("Failed to create auth-bridge server: " +:+ Error e))
        | inr server =>
            tlsListen ← (if tlsCert <>s "" then envOrDefault "AUTH_BRIDGE_TLS_LISTEN" ":8443"
                         else mret "");
            mret (Serving config server (listeners (cfgListenAddr config) tlsCert tlsKey tlsListen))
        end
  end.

(** ** The serving certificate *)

(** The variables of [dynamicTLSConfigWithTTL]'s closure. *)
Record cert_cache := mkCache { cached : option (string * string); cachedAt : Z }.

Definition loadCertificate (cert key : string) (cacheTTL : Z) (st : cert_cache)
    : prog BSig ((err + (string * string)) * cert_cache) :=
  fresh ← match cached st with
          | Some _ => now ← bdo BNow; mret (now - cachedAt st <? cacheTTL)%Z
          | None => mret false
          end;
  match cached st, fresh with
  | Some c, true => mret (inr c, st)
  | _, _ =>
      r ← LoadX509KeyPair cert key;
      match r with
      | inl e => mret (match cached st with Some c => inr c | None => inl e end, st)
      | inr kp =>
          now ← bdo BNow;
          mret (inr kp, mkCache (Some kp) now)
      end
  end.

Definition dynamicTLSConfig (cert key : string) : cert_cache → prog BSig ((err + (string * string)) * cert_cache) :=
  loadCertificate cert key (5 * Minute).

(** ** A sequence of handshakes *)

Fixpoint handshakes (cert key : string) (n : nat) (st : cert_cache)
    : prog BSig (list (err + (string * string)) * cert_cache) :=
  match n with
  | 0 => mret ([], st)
  | S n =>
      r ← dynamicTLSConfig cert key st;
      rest ← handshakes cert key n r.2;
      mret (r.1 :: rest.1, rest.2)
  end.

(** What a file read in the history held. *)
Definition file_read (t : list (event BSig)) (path content : string) : Prop :=
  Ev (S := BSig) (BReadFile path) (inr content) ∈ t.

(** A served pair was read from the two files and parsed. *)
Definition pair_loaded (t : list (event BSig)) (cert key : string) (p : string * string) : Prop :=
  file_read t cert p.1 ∧ file_read t key p.2 ∧ X509KeyPair p.1 p.2 = None.

Definition cache_loaded (t : list (event BSig)) (cert key : string) (st : cert_cache) : Prop :=
  match cached st with Some p => pair_loaded t cert key p | None => True end.

Lemma pair_loaded_mono t t' cert key p : t ⊆ t' → pair_loaded t cert key p → pair_loaded t' cert key p.
Proof. intros Ht (H1 & H2 & H3). split; [by apply Ht|]. split; [by apply Ht|done]. Qed.

Lemma cache_loaded_mono t t' cert key st :
  t ⊆ t' → cache_loaded t cert key st → cache_loaded t' cert key st.
Proof. unfold cache_loaded. destruct (cached st); eauto using pair_loaded_mono. Qed.

Definition any_call (t : list (event BSig)) (c : call BSig) : Prop := True.

Lemma LoadX509KeyPair_spec t cert key :
  always any_call (λ t' r, t ⊆ t' ∧ match r with inr p => pair_loaded t' cert key p | inl _ => True end)
    t (LoadX509KeyPair cert key).
Proof.
  unfold LoadX509KeyPair. always_step; [done|]. destruct r as [e|c].
  { apply always_ret. split; [|done]. apply hist_grow. }
  always_step; [done|]. destruct r as [e|k]; apply always_ret.
  { split; [|done]. etrans; apply hist_grow. }
  split; [etrans; apply hist_grow|]. destruct (X509KeyPair c k) eqn:Ek; [done|].
  split; [|split; [|done]]; unfold file_read; rewrite !elem_of_snoc; auto.
Qed.

(** One handshake: a certificate is served whenever one was ever loaded, and
    what is served was read from the files. *)
Lemma loadCertificate_spec t cert key ttl st :
  cache_loaded t cert key st →
  always any_call (λ t' r, t ⊆ t' ∧ cache_loaded t' cert key r.2 ∧
    (cached st ≠ None → cached r.2 ≠ None ∧ ∃ p, r.1 = inr p) ∧
    match r.1 with inr p => pair_loaded t' cert key p ∧ cached r.2 ≠ None | inl _ => True end)
    t (loadCertificate cert key ttl st).
Proof.
  intros Hc. unfold loadCertificate.
  apply (always_cut_grow _ _ (λ t' (fresh : bool), t ⊆ t' ∧ (cached st = None → fresh = false))).
  { destruct (cached st); [|by split]. always_step; [done|]. apply always_ret.
    split; [apply hist_grow|done]. }
  intros t1 fresh _ [Ht Hf]. apply (cache_loaded_mono _ t1) in Hc; [|done].
  assert (always any_call (λ t' r, t ⊆ t' ∧ cache_loaded t' cert key r.2 ∧
    (cached st ≠ None → cached r.2 ≠ None ∧ ∃ p, r.1 = inr p) ∧
    match r.1 with inr p => pair_loaded t' cert key p ∧ cached r.2 ≠ None | inl _ => True end) t1
      (r ← LoadX509KeyPair cert key; match r with
       | inl e => mret (match cached st with Some c => inr c | None => inl e end, st)
       | inr kp => now ← bdo BNow; mret (inr kp, mkCache (Some kp) now) end)) as Hload.
  { eapply always_cut_grow; [apply LoadX509KeyPair_spec|]. intros t2 [e|p] Hs [_ Hr].
    - apply always_ret. cbn [fst snd]. apply (cache_loaded_mono _ t2) in Hc; [|done].
      split; [by etrans|]. split; [done|]. unfold cache_loaded in Hc.
      destruct (cached st) as [p|]; [|done]. split; [|done]. intros _. split; [done|]. by exists p.
    - always_step; [done|]. apply always_ret. cbn [fst snd].
      assert (pair_loaded (t2 ++ [Ev (S := BSig) BNow r]) cert key p) as Hp
        by (eapply pair_loaded_mono; [apply hist_grow|done]).
      split; [etrans; [exact Ht|etrans; [exact Hs|apply hist_grow]]|]. split; [done|].
      split; [|done]. intros _. split; [done|]. by exists p. }
  destruct (cached st) as [p|] eqn:Ec; [|exact Hload].
  destruct fresh; [|exact Hload]. apply always_ret. cbn [fst snd].
  unfold cache_loaded in *. rewrite Ec in *. split; [done|]. split; [done|].
  split; [|done]. intros _. split; [done|]. by exists p.
Qed.

Definition served (r : err + (string * string)) : bool := match r with inr _ => true | inl _ => false end.

(** A sequence of handshakes: every pair served was loaded from the files, and
    with a pair at hand none fails. *)
Lemma handshakes_spec n t cert key st :
  cache_loaded t cert key st →
  always any_call (λ t' r, Forall (λ x, match x with inr p => pair_loaded t' cert key p | inl _ => True end) r.1 ∧
    (cached st ≠ None → Forall (λ x, served x = true) r.1) ∧
    ∀ i j x y, i ≤ j → r.1 !! i = Some x → r.1 !! j = Some y → served x = true → served y = true)
    t (handshakes cert key n st).
Proof.
  revert t st. induction n as [|n IH]; intros t st Hc; cbn [handshakes].
  { apply always_ret. by split_and!; try apply Forall_nil. }
  eapply always_cut_grow; [by apply loadCertificate_spec|].
  intros t1 [x st1] Ht (_ & Hc1 & Hkeep & Hx). cbn [fst snd] in *.
  assert (served x = true → cached st1 ≠ None) as Hhas.
  { destruct x; [done|]. by destruct Hx. }
  eapply always_cut_grow; [by apply IH|]. intros t2 [xs st2] Ht2 (HF & Hall & Hord). apply always_ret.
  cbn [fst snd] in *. split_and!.
  - constructor; [|done]. destruct x; [done|]. destruct Hx. by eapply pair_loaded_mono.
  - intros Hst. destruct (Hkeep Hst) as [H1 [p ->]]. constructor; [done|]. by apply Hall.
  - intros [|i] [|j] a b Hij; [naive_solver| |lia|]; cbn [lookup list_lookup].
    + intros [= <-] Hb Ha. apply Hhas in Ha. apply Hall in Ha. rewrite Forall_lookup in Ha. by eapply Ha.
    + intros Ha Hb. eapply Hord; [|done..]. lia.
Qed.

Lemma handshakes_length {W} (h : handler BSig W) w n cert key st :
  length (run h (handshakes cert key n st) w).1.1 = n.
Proof.
  revert w st. induction n as [|n IH]; intros w st; [done|]. cbn [handshakes]. rewrite run_bind.
  destruct (run h (dynamicTLSConfig cert key st) w) as [[x st1] w1]. rewrite run_bind. cbn [fst snd].
  specialize (IH w1 st1). destruct (run h (handshakes cert key n st1) w1) as [[xs st2] w2].
  cbn in *. congruence.
Qed.

(** C38. Rotating the serving certificate is safe: in any sequence of
    handshakes every pair served was read from the two files and parsed as a
    pair, and after the first success no handshake fails, whatever the files
    hold later. *)
Theorem certificate_reload_is_safe {W} (h : handler BSig W) w n cert key :
  let p := handshakes cert key n (mkCache None 0) in
  let rs := (run h p w).1.1 in
  length rs = n ∧
  (∀ x, inr x ∈ rs → pair_loaded (trace h p w) cert key x) ∧
  (∀ i j x y, i ≤ j → rs !! i = Some x → rs !! j = Some y → served x = true → served y = true).
Proof.
  intros p rs. split; [apply handshakes_length|].
  pose proof (handshakes_spec n [] cert key (mkCache None 0) I) as H.
  apply (always_run _ _ h [] p w) in H as [(HF & _ & Hord) _]. cbn [app] in HF. split; [|done].
  intros x Hx. rewrite Forall_forall in HF. by apply (HF (inr x)).
Qed.
End main.
