(* ===== verification/BridgeProcess.v ===== *)
(** * cmd/auth-bridge/main.go: the life of the bridge process

    After its set-up (BridgeMain) the process is a handful of goroutines: one
    per listener, the sweeper, and [main], which waits for a signal, shuts every
    server down with five seconds to drain, and returns.  They are a transition
    system on [process].  A server's goroutine binds its address some time after
    it was spawned, or fails to, or finds the server shut down already.

    Requests come and go while time passes.  Time also passes while a goroutine
    that could move is not scheduled; the total of such delays is the field
    [delay], which is arbitrary at the start and used up by them. *)

From S2P Require Import Prelude Interaction GoStrings GoErrors GoUrl Jwt BridgeSig OpenShiftClient.
From S2P Require Import BridgeServer ApiTypes Kube GatewayHelpers GatewayRpc BridgeMain Concrete.

(** [http.Server] as [newHTTPServer] fills it in; its handler is the bridge's. *)
Record http_server := mkHTTPServer {
  SAddr : string; ReadTimeout : Z; WriteTimeout : Z; IdleTimeout : Z
}.

Definition newHTTPServer (addr : string) : http_server :=
  mkHTTPServer addr (30 * Second) (30 * Second) (120 * Second).

(** [listenAndServe]: in the clear, or with the reloading certificate. *)
Inductive serving := ListenAndServe (s : http_server) | ListenAndServeTLS (s : http_server) (cert key : string).

Definition listenAndServe (s : http_server) (cert key : string) : serving :=
  if cert =s "" then ListenAndServe s else ListenAndServeTLS s cert key.

(** A server with its two goroutines: the one that serves and, after the
    signal, the one that calls [Shutdown]. *)
Inductive serve_state := Starting | Listening | Closed.
#[export] Instance serve_state_eq_dec : EqDecision serve_state.
Proof. solve_decision. Defined.

Inductive shutdown := NotStarted | Spawned | Draining | Finished.
#[export] Instance shutdown_eq_dec : EqDecision shutdown.
Proof. solve_decision. Defined.

Record server_state := mkServerState {
  mode : serving; serve : serve_state; active : nat; shut : shutdown
}.

Inductive main_state := Waiting | Stopping (deadline : Z) | Ended.

Record process := mkProcess {
  pmain : main_state; servers : list server_state;
  sweeping : bool; done_closed : bool; now : Z; delay : Z; exited : option nat
}.

Definition with_servers (l : list server_state) (p : process) : process :=
  mkProcess (pmain p) l (sweeping p) (done_closed p) (now p) (delay p) (exited p).
Definition with_exit (c : nat) (p : process) : process :=
  mkProcess (pmain p) (servers p) (sweeping p) (done_closed p) (now p) (delay p) (Some c).

(** The process after [main]'s set-up at time [t]: the goroutines are spawned,
    none listens yet. *)
Definition boot {C : Crypto} (s : startup) (t lag : Z) : process :=
  match s with
  | Fatal _ => mkProcess Ended [] false false t lag (Some 1)
  | Serving _ _ ls =>
      mkProcess Waiting
        ((λ l, mkServerState (listenAndServe (newHTTPServer (Addr l)) (CertFile l) (KeyFile l)) Starting 0 NotStarted)
           <$> ls)
        true false t lag None
  end.

(** [context.WithTimeout(context.Background(), 5*time.Second)]. *)
Definition drain_time : Z := 5 * Second.

Definition with_serve (x : serve_state) (s : server_state) : server_state :=
  mkServerState (mode s) x (active s) (shut s).
Definition spawn (s : server_state) : server_state :=
  mkServerState (mode s) (serve s) (active s) Spawned.
(** [srv.Shutdown(ctx)] marks the server as shut down and closes its listener;
    a goroutine that has not bound yet finds out when it tries to. *)
Definition close_listener (s : server_state) : server_state :=
  mkServerState (mode s) (match serve s with Starting => Starting | _ => Closed end) (active s) Draining.
Definition finish (s : server_state) : server_state :=
  mkServerState (mode s) (serve s) (active s) Finished.

(** [Shutdown] was called on the server. *)
Definition shut_down (s : server_state) : Prop := shut s = Draining ∨ shut s = Finished.

(** [Shutdown] returns: no request is left, or the context has expired. *)
Definition may_return (p : process) (s : server_state) : Prop :=
  shut s = Draining ∧
  (active s = 0 ∨ match pmain p with Stopping d => (d ≤ now p)%Z | _ => True end).

(** A goroutine on the way to the exit can move. *)
Definition urgent (p : process) : Prop :=
  (∃ i s, servers p !! i = Some s ∧ shut s = Spawned) ∨
  (∃ i s, servers p !! i = Some s ∧ may_return p s) ∨
  (∃ d, pmain p = Stopping d ∧ Forall (λ s, shut s = Finished) (servers p)) ∨
  pmain p = Ended.

(** While time passes requests come in and are answered; a server that does not
    listen only loses some. *)
Definition evolves (s s' : server_state) : Prop :=
  mode s' = mode s ∧ serve s' = serve s ∧ shut s' = shut s ∧
  (serve s ≠ Listening → active s' ≤ active s).

Inductive step : process → process → Prop :=
| listens p i s :            (* net.Listen and Serve *)
    exited p = None → servers p !! i = Some s → serve s = Starting → ¬ shut_down s →
    step p (with_servers (<[i := with_serve Listening s]> (servers p)) p)
| refused p i s :            (* http.ErrServerClosed, which is not an error here *)
    exited p = None → servers p !! i = Some s → serve s = Starting → shut_down s →
    step p (with_servers (<[i := with_serve Closed s]> (servers p)) p)
| serve_fails p i s :        (* log.Fatalf: the address is taken, or accepting failed *)
    exited p = None → servers p !! i = Some s → serve s ≠ Closed →
    step p (with_exit 1 p)
| signalled p :              (* <-stop *)
    exited p = None → pmain p = Waiting →
    step p (mkProcess (Stopping (now p + drain_time)) (spawn <$> servers p)
              (sweeping p) (done_closed p) (now p) (delay p) None)
| shutdown_called p i s :
    exited p = None → servers p !! i = Some s → shut s = Spawned →
    step p (with_servers (<[i := close_listener s]> (servers p)) p)
| shutdown_returned p i s :
    exited p = None → servers p !! i = Some s → may_return p s →
    step p (with_servers (<[i := finish s]> (servers p)) p)
| waited p d :               (* shutdowns.Wait(), then the deferred server.Close() *)
    exited p = None → pmain p = Stopping d → Forall (λ s, shut s = Finished) (servers p) →
    step p (mkProcess Ended (servers p) (sweeping p) true (now p) (delay p) None)
| sweeper_stopped p :        (* <-s.done *)
    exited p = None → done_closed p = true → sweeping p = true →
    step p (mkProcess (pmain p) (servers p) false true (now p) (delay p) None)
| returned p :
    exited p = None → pmain p = Ended → step p (with_exit 0 p)
| time_passes p dt l :       (* nothing to schedule before the deadline *)
    exited p = None → ¬ urgent p → (0 < dt)%Z →
    (∀ d, pmain p = Stopping d → (now p + dt ≤ d)%Z) →
    Forall2 evolves (servers p) l →
    step p (mkProcess (pmain p) l (sweeping p) (done_closed p) (now p + dt) (delay p) None)
| not_scheduled p dt l :     (* a goroutine that can move is left waiting *)
    exited p = None → (0 < dt ≤ delay p)%Z → Forall2 evolves (servers p) l →
    step p (mkProcess (pmain p) l (sweeping p) (done_closed p) (now p + dt) (delay p - dt) None).

(** ** The invariant *)

(** A server after the signal, at time [t] with deadline [d]. *)
Definition server_ok (d t : Z) (s : server_state) : Prop :=
  shut s ≠ NotStarted ∧ (shut_down s → serve s ≠ Listening) ∧
  (shut s = Finished → active s = 0 ∨ (d ≤ t)%Z).

(** The process after the signal; [d] is the deadline, [lag] the delay that was
    left at the signal. *)
Definition process_ok (d lag : Z) (p : process) : Prop :=
  (now p ≤ d + (lag - delay p))%Z ∧ (delay p ≤ lag)%Z ∧ Forall (server_ok d (now p)) (servers p) ∧
  match pmain p with
  | Waiting => False
  | Stopping d' => d' = d
  | Ended => done_closed p = true ∧ Forall (λ s, shut s = Finished) (servers p)
  end ∧
  (exited p = Some 0 → pmain p = Ended).

Lemma evolves_ok d t t' s s' :
  (t < t')%Z → evolves s s' → server_ok d t s → server_ok d t' s'.
Proof.
  intros Ht (_ & Hl & Hs & Ha) (H1 & H2 & H3). unfold server_ok, shut_down in *. rewrite Hs, Hl.
  split_and!; [done..|]. intros Hf. assert (active s' ≤ active s) by (apply Ha, H2; by right).
  destruct (H3 Hf); [left|right]; lia.
Qed.

Lemma evolve_ok d t t' l l' :
  (t < t')%Z → Forall2 evolves l l' → Forall (server_ok d t) l → Forall (server_ok d t') l'.
Proof.
  intros Ht. induction 1 as [|s s' l l' Hs _ IH]; intros HF; [done|].
  apply Forall_cons in HF as [H1 H2]. constructor; [by eapply evolves_ok|by apply IH].
Qed.

Lemma insert_ok (P : server_state → Prop) l i s s' :
  Forall P l → l !! i = Some s → (P s → P s') → Forall P (<[i := s']> l).
Proof. intros HF Hi HP. apply Forall_insert; [done|]. apply HP. by eapply Forall_lookup_1. Qed.

Lemma evolves_finished l l' :
  Forall2 evolves l l' → Forall (λ s, shut s = Finished) l → Forall (λ s, shut s = Finished) l'.
Proof.
  induction 1 as [|s s' l l' (_ & _ & Hs & _) _ IH]; intros HF; [done|].
  apply Forall_cons in HF as [H1 H2]. constructor; [by rewrite Hs|by apply IH].
Qed.

(** A step that touches one server and leaves [shut] alone, or finds it not
    finished. *)
Lemma server_step_ok d lag p i s s' :
  process_ok d lag p → exited p = None → servers p !! i = Some s →
  (server_ok d (now p) s → server_ok d (now p) s') → (shut s = Finished → shut s' = Finished) →
  process_ok d lag (with_servers (<[i := s']> (servers p)) p).
Proof.
  intros (Hn & Hlag & HF & Hm & _) He Hi Hok Hfin. unfold process_ok. cbn [with_servers now delay servers pmain exited done_closed].
  split_and!; [done|done|by eapply insert_ok| |by rewrite He].
  destruct (pmain p); [done|done|]. destruct Hm as [Hd Hall]. split; [done|]. by eapply insert_ok.
Qed.

Lemma step_ok d lag p p' : process_ok d lag p → step p p' → process_ok d lag p'.
Proof.
  intros Hok Hs. pose proof Hok as (Hn & Hlag & HF & Hm & _).
  destruct Hs as [p i s He Hi Hst Hsd|p i s He Hi Hst Hsd|p i s He Hi Hl|p He Hw|p i s He Hi Hsp|p i s He Hi Hr
                 |p d' He Hst Hall|p He Hd Hsw|p He Hend|p dt l He Hu Hdt Hdl Hev|p dt l He Hdt Hev].
  - eapply server_step_ok; [done..| |done]. intros (H1 & H2 & H3). split_and!; [done|by intros ?%Hsd|done].
  - eapply server_step_ok; [done..| |done]. intros (H1 & H2 & H3). by split_and!.
  - by split_and!.
  - by rewrite Hw in Hm.
  - eapply server_step_ok; [done..| |congruence]. intros (H1 & H2 & H3).
    split_and!; [done| |done]. intros _. cbn. by destruct (serve s).
  - destruct Hr as [Hdr Hret]. eapply server_step_ok; [done..| |congruence]. intros (H1 & H2 & H3).
    split_and!; [done|intros _; apply H2; by left|]. intros _. cbn.
    destruct Hret as [?|Hret]; [by left|]. right. destruct (pmain p); [done|by subst|].
    destruct Hm as [_ Hf]. eapply Forall_lookup_1 in Hf; [|exact Hi]. cbn in Hf. congruence.
  - split_and!; [done..|]. by split.
  - split_and!; [done..| |done]. destruct (pmain p); [done|done|]. by destruct Hm.
  - split_and!; [done..| |done]. cbn. by rewrite Hend in Hm |- *.
  - destruct (pmain p) as [|d'|] eqn:Ep; [done| |].
    + subst d'. specialize (Hdl d eq_refl). split_and!; cbn; [lia|done| |done|done].
      eapply evolve_ok; [|done..]. lia.
    + exfalso. apply Hu. right. right. by right.
  - split_and!; cbn; [lia|lia| | |done].
    + eapply evolve_ok; [|done..]. lia.
    + destruct (pmain p); [done|done|]. destruct Hm as [Hd Hall]. split; [done|]. by eapply evolves_finished.
Qed.

Lemma steps_ok d lag p p' : rtc step p p' → process_ok d lag p → process_ok d lag p'.
Proof. induction 1; eauto using step_ok. Qed.

(** ** Termination *)

(** What is left to do: the moves of the goroutines, the time to the deadline
    and the delays. *)
Definition moves_left (s : server_state) : nat :=
  match shut s with NotStarted => 3 | Spawned => 2 | Draining => 1 | Finished => 0 end +
  match serve s with Starting => 1 | _ => 0 end.

Definition work_left (d : Z) (p : process) : nat :=
  match exited p with
  | Some _ => 0
  | None => 1 + sum_list_with moves_left (servers p) +
      match pmain p with Waiting => 3 | Stopping _ => 2 | Ended => 1 end +
      (if sweeping p then 1 else 0) + Z.to_nat (d - now p) + Z.to_nat (delay p)
  end.

Lemma moves_left_insert l i s s' :
  l !! i = Some s → moves_left s' < moves_left s →
  sum_list_with moves_left (<[i := s']> l) < sum_list_with moves_left l.
Proof.
  intros Hi Hlt. revert i Hi. induction l as [|x l IH]; intros [|i] Hi; try done.
  - injection Hi as ->. cbn. lia.
  - change (<[S i := s']> (x :: l)) with (x :: <[i := s']> l). cbn [sum_list_with].
    specialize (IH i Hi). lia.
Qed.

Lemma evolves_moves l l' :
  Forall2 evolves l l' → sum_list_with moves_left l' = sum_list_with moves_left l.
Proof.
  induction 1 as [|s s' l l' (_ & Hl & Hs & _) _ IH]; [done|]. cbn.
  assert (moves_left s' = moves_left s) by (unfold moves_left; by rewrite Hs, Hl). lia.
Qed.

Lemma step_decreases d lag p p' : process_ok d lag p → step p p' → work_left d p' < work_left d p.
Proof.
  intros (Hn & Hlag & HF & Hm & _) Hs. unfold work_left.
  destruct Hs as [p i s He Hi Hst Hsd|p i s He Hi Hst Hsd|p i s He Hi Hl|p He Hw|p i s He Hi Hsp|p i s He Hi Hr
                 |p d' He Hst Hall|p He Hd Hsw|p He Hend|p dt l He Hu Hdt Hdl Hev|p dt l He Hdt Hev];
    cbn; rewrite He; cbn.
  - enough (sum_list_with moves_left (<[i := with_serve Listening s]> (servers p)) <
      sum_list_with moves_left (servers p)) by lia.
    eapply moves_left_insert; [done|]. unfold moves_left. cbn. rewrite Hst. lia.
  - enough (sum_list_with moves_left (<[i := with_serve Closed s]> (servers p)) <
      sum_list_with moves_left (servers p)) by lia.
    eapply moves_left_insert; [done|]. unfold moves_left. cbn. rewrite Hst. lia.
  - lia.
  - by rewrite Hw in Hm.
  - enough (sum_list_with moves_left (<[i := close_listener s]> (servers p)) <
      sum_list_with moves_left (servers p)) by lia.
    eapply moves_left_insert; [done|]. unfold moves_left. cbn. rewrite Hsp. destruct (serve s); lia.
  - destruct Hr as [Hdr _]. enough (sum_list_with moves_left (<[i := finish s]> (servers p)) <
      sum_list_with moves_left (servers p)) by lia.
    eapply moves_left_insert; [done|]. unfold moves_left. cbn. rewrite Hdr. lia.
  - rewrite Hst. lia.
  - rewrite Hsw. lia.
  - lia.
  - rewrite (evolves_moves _ _ Hev). destruct (pmain p) as [|d'|] eqn:Ep; [done| |].
    + subst d'. specialize (Hdl d eq_refl). lia.
    + exfalso. apply Hu. right. right. by right.
  - rewrite (evolves_moves _ _ Hev). lia.
Qed.

Lemma stopping_terminates d lag p : process_ok d lag p → Acc (λ a b, step b a) p.
Proof.
  remember (work_left d p) as n eqn:Hn. revert p Hn.
  induction (lt_wf n) as [n _ IH]. intros p -> Hp. constructor. intros p' Hs.
  eapply IH; [by eapply step_decreases|done|by eapply step_ok].
Qed.

(** ** Progress *)

Lemma evolves_refl l : Forall2 evolves l l.
Proof. induction l; constructor; [by unfold evolves|done]. Qed.

(** Some server is not done, or all are. *)
Lemma servers_cases d lag p :
  process_ok d lag p →
  (∃ i s, servers p !! i = Some s ∧ (shut s = Spawned ∨ shut s = Draining)) ∨
  Forall (λ s, shut s = Finished) (servers p).
Proof.
  intros (_ & _ & HF & _). induction (servers p) as [|s l IH]; [by right|].
  apply Forall_cons in HF as [(Hs & _) HF].
  destruct (shut s) eqn:E; [done|left; exists 0, s; by auto..|].
  destruct (IH HF) as [(i & s' & Hi & ?)|Hall]; [left; exists (S i), s'; by split|].
  right. by constructor.
Qed.

Lemma progress d lag p : process_ok d lag p → exited p = None → ∃ p', step p p'.
Proof.
  intros Hok He. pose proof Hok as (Hn & Hlag & HF & Hm & _).
  destruct (pmain p) as [|d'|] eqn:Ep; [done| |by eexists; eapply returned].
  subst d'. destruct (servers_cases d lag p Hok) as [(i & s & Hi & [Hs|Hs])|Hall].
  - eexists. by eapply shutdown_called.
  - destruct (decide (active s = 0)) as [Ha|Ha].
    { eexists. eapply shutdown_returned; [done..|]. split; [done|by left]. }
    destruct (decide (d ≤ now p)%Z) as [Hd|Hd].
    { eexists. eapply shutdown_returned; [done..|]. split; [done|]. right. by rewrite Ep. }
    (* wait, unless some goroutine can move *)
    destruct (decide (Exists (λ s, shut s = Spawned ∨ shut s = Draining ∧ active s = 0) (servers p)))
      as [Hex|Hno].
    + apply Exists_exists in Hex as (s' & Hin & Hs').
      apply list_elem_of_lookup in Hin as [j Hj].
      destruct Hs' as [?|[? ?]]; eexists.
      * by eapply shutdown_called.
      * eapply shutdown_returned; [done..|]. split; [done|by left].
    + rewrite <-Forall_Exists_neg, Forall_lookup in Hno.
      eexists. apply (time_passes p (d - now p) (servers p)); [done| |lia| |apply evolves_refl].
      * intros [(j & s' & Hj & ?)|[(j & s' & Hj & ? & Hr)|[(d' & Hd' & Hall)|?]]].
        -- apply (Hno j s' Hj). by left.
        -- rewrite Ep in Hr. apply (Hno j s' Hj). right. split; [done|]. destruct Hr; [done|lia].
        -- eapply Forall_lookup_1 in Hall; [|exact Hi]. cbn in Hall. congruence.
        -- congruence.
      * intros d' Hd'. rewrite Ep in Hd'. injection Hd' as ->. lia.
  - eexists. by eapply waited.
Qed.

(** ** The whole life *)

Definition modes (p : process) : list serving := mode <$> servers p.

Lemma modes_insert (l : list server_state) i s s' :
  l !! i = Some s → mode s' = mode s → mode <$> <[i := s']> l = mode <$> l.
Proof. intros Hi Hm. rewrite list_fmap_insert, Hm. apply list_insert_id. by rewrite list_lookup_fmap, Hi. Qed.

Lemma modes_evolve (l l' : list server_state) : Forall2 evolves l l' → mode <$> l' = mode <$> l.
Proof. induction 1 as [|s s' l l' (Hm & _) _ IH]; [done|]. cbn. by rewrite Hm, IH. Qed.

Lemma step_modes p p' : step p p' → modes p' = modes p.
Proof.
  unfold modes. intros Hs. destruct Hs; cbn; try done;
    try (by eapply modes_insert); try (by apply modes_evolve).
  rewrite <-list_fmap_compose. by apply list_fmap_ext.
Qed.

Lemma steps_modes p p' : rtc step p p' → modes p' = modes p.
Proof. induction 1 as [|p p1 p' Hs _ IH]; [done|]. by rewrite IH, (step_modes _ _ Hs). Qed.

(** Before the signal no server is shut down: each is starting or listens. *)
Definition serving_all (p : process) : Prop :=
  pmain p = Waiting → Forall (λ s, serve s ≠ Closed ∧ shut s = NotStarted) (servers p).

Lemma evolve_serving l l' :
  Forall2 evolves l l' → Forall (λ s, serve s ≠ Closed ∧ shut s = NotStarted) l →
  Forall (λ s, serve s ≠ Closed ∧ shut s = NotStarted) l'.
Proof.
  induction 1 as [|s s' l l' (_ & Hl & Hs & _) _ IH]; intros Hp; [done|].
  apply Forall_cons in Hp as [[H1 H2] Hp]. constructor; [by rewrite Hl, Hs|by apply IH].
Qed.

Lemma step_serving p p' : serving_all p → step p p' → serving_all p'.
Proof.
  unfold serving_all. intros Hp Hs.
  destruct Hs as [p i s He Hi Hst Hsd|p i s He Hi Hst Hsd|p i s He Hi Hl|p He Hw|p i s He Hi Hsp|p i s He Hi Hr
                 |p d' He Hst Hall|p He Hd Hsw|p He Hend|p dt l He Hu Hdt Hdl Hev|p dt l He Hdt Hev]; cbn; try done.
  - intros Hw. eapply insert_ok; [by apply Hp|done|]. by intros [_ ?].
  - intros Hw. specialize (Hp Hw). eapply Forall_lookup_1 in Hp as [_ Hn]; [|exact Hi].
    destruct Hsd; congruence.
  - intros Hw. specialize (Hp Hw). eapply Forall_lookup_1 in Hp as [_ Hn]; [|exact Hi]. congruence.
  - intros Hw. specialize (Hp Hw). eapply Forall_lookup_1 in Hp as [_ Hn]; [|exact Hi].
    destruct Hr. congruence.
  - intros Hw. eapply evolve_serving; [done|]. by apply Hp.
  - intros Hw. eapply evolve_serving; [done|]. by apply Hp.
Qed.

Lemma boot_serving {C : Crypto} s t lag p : rtc step (boot s t lag) p → serving_all p.
Proof.
  assert (serving_all (boot s t lag)) as H0.
  { destruct s as [m|cfg srv ls]; [done|]. intros _. cbn. apply Forall_fmap, Forall_true. done. }
  intros Hr. revert H0. induction Hr; eauto using step_serving.
Qed.

Lemma signalled_ok p : process_ok (now p + drain_time) (delay p)
  (mkProcess (Stopping (now p + drain_time)) (spawn <$> servers p) (sweeping p) (done_closed p)
     (now p) (delay p) None).
Proof.
  split_and!; cbn; [unfold drain_time, Second; lia|done| |done..]. apply Forall_fmap, Forall_true.
  intros s. split_and!; cbn; [done|by intros [?|?]|done].
Qed.

(** C35. The bridge stops gracefully.  Before the signal no configured server is
    shut down: each listens, or its goroutine is still about to bind.  Whenever
    the signal comes, every run after it ends: there is no infinite one, and the
    process is never stuck before it exits.  When it ends by [main] returning,
    at most five seconds have passed since the signal, beyond the time for which
    goroutines that could move were not scheduled; no server listens any more,
    also none whose goroutine was overtaken by the signal; the sweeper is told to
    stop; and no request was cut off unless the five seconds were over.  The
    total of those delays is finite and otherwise arbitrary. *)
Theorem bridge_stops_gracefully {C : Crypto} s t lag p p1 d :
  rtc step (boot s t lag) p → pmain p = Waiting → step p p1 → pmain p1 = Stopping d →
  Forall (λ s, serve s ≠ Closed ∧ shut s = NotStarted) (servers p) ∧
  Acc (λ a b, step b a) p1 ∧
  (∀ p', rtc step p1 p' → exited p' = None → ∃ p'', step p' p'') ∧
  (∀ p', rtc step p1 p' → exited p' = Some 0 →
     (now p' ≤ now p + 5 * Second + (delay p - delay p'))%Z ∧ done_closed p' = true ∧
     modes p' = modes (boot s t lag) ∧
     Forall (λ s, serve s ≠ Listening ∧ (active s = 0 ∨ (now p + 5 * Second ≤ now p')%Z)) (servers p')).
Proof.
  intros Hr Hw Hs Hst.
  assert (process_ok (now p + drain_time) (delay p) p1) as Hok.
  { destruct Hs; cbn in Hst; try congruence. apply signalled_ok. }
  split; [by apply (boot_serving s t lag p Hr)|split; [by eapply stopping_terminates|split]].
  - intros p' Hr' He. eapply progress; [by eapply steps_ok|done].
  - intros p' Hr' He. pose proof (steps_ok _ _ _ _ Hr' Hok) as (Hn & Hlag & HF & Hm & Hend).
    rewrite (Hend He) in Hm. destruct Hm as [Hd Hall]. split_and!; [unfold drain_time in Hn; lia|done| |].
    + rewrite (steps_modes _ _ Hr'), (step_modes _ _ Hs). by apply steps_modes.
    + rewrite Forall_forall in HF, Hall |- *. intros x Hx.
      destruct (HF x Hx) as (_ & H2 & H3). specialize (Hall x Hx). cbn in Hall.
      split; [apply H2; by right|by apply H3].
Qed.

(** ** A concrete run *)

Definition two_listeners : startup :=
  Serving toy_config toy_server [mkListener "127.0.0.1:8085" "" ""; mkListener ":8443" "/tls/tls.crt" "/tls/tls.key"].

(** The first server listens, the second is overtaken by the signal. *)
Definition half_started : process :=
  let p := boot two_listeners 0 0 in
  with_servers (match servers p with s :: l => with_serve Listening s :: l | [] => [] end) p.

Lemma half_started_reached : rtc step (boot two_listeners 0 0) half_started.
Proof. eapply rtc_l; [eapply (listens _ 0); [reflexivity..|by intros [?|?]]|]. apply rtc_refl. Qed.

(** The process after the signal. *)
Definition stopping (p : process) : process :=
  mkProcess (Stopping (now p + drain_time)) (spawn <$> servers p) (sweeping p) (done_closed p)
    (now p) (delay p) None.

Lemma idle_run : ∃ p', rtc step (stopping half_started) p' ∧ exited p' = Some 0.
Proof.
  eexists. split; [|shelve].
  eapply rtc_l; [eapply (shutdown_called _ 0); reflexivity|].
  eapply rtc_l; [eapply (shutdown_called _ 1); reflexivity|].
  eapply rtc_l; [eapply (shutdown_returned _ 0); [reflexivity..|split; [reflexivity|by left]]|].
  eapply rtc_l; [eapply (refused _ 1); [reflexivity..|by left]|].
  eapply rtc_l; [eapply (shutdown_returned _ 1); [reflexivity..|split; [reflexivity|by left]]|].
  eapply rtc_l; [eapply waited; [reflexivity..|repeat constructor]|].
  eapply rtc_l; [eapply sweeper_stopped; reflexivity|].
  eapply rtc_l; [eapply returned; reflexivity|]. apply rtc_refl.
  Unshelve. reflexivity.
Qed.

Lemma bridge_stops_gracefully_witness :
  ∃ p', rtc step (stopping half_started) p' ∧ exited p' = Some 0 ∧
    (now p' ≤ 5 * Second + (0 - delay p'))%Z ∧ done_closed p' = true ∧
    Forall (λ s, serve s ≠ Listening) (servers p').
Proof.
  destruct idle_run as (p' & Hr & He). exists p'. split; [exact Hr|]. split; [exact He|].
  destruct (bridge_stops_gracefully two_listeners 0 0 half_started (stopping half_started) _
    half_started_reached eq_refl (signalled half_started eq_refl eq_refl) eq_refl) as (_ & _ & _ & Hend).
  destruct (Hend p' Hr He) as (Hn & Hd & _ & HF). split; [exact Hn|]. split; [exact Hd|].
  eapply Forall_impl; [exact HF|]. intros x [Hx _]. exact Hx.
Defined.
