(* ===== verification/BridgeStartup.v ===== *)
(** * The bridge starts as the operator configured it

    The environment and the files of the sidecar are those the Deployment
    renders; [main] of the auth-bridge runs in it.  The signing key it loads is
    the one the operator generated and mints its own tokens with. *)

From S2P Require Import Prelude Interaction GoStrings GoText GoErrors GoUrl Jwt BridgeSig.
From S2P Require Import OpenShiftClient BridgeServer ApiTypes Kube Detect Pki GatewayHelpers.
From S2P Require Import GatewayRpc GatewayConfig Toml GatewayTls GatewayResources GatewayDeployment.
From S2P Require Import GatewayRouting GatewayAgreement BridgeMain.
From Stdlib Require Import Ascii.
Import ApiTypes.Gateway.

(** ** The bridge in its pod *)

Section pod.
Context {C : Crypto} {T : TlsLib} {D : Durations} (gw : OpenShellGateway).
Context (secrets : string → gmap string string).          (* Secrets of the namespace *)
Context (projected : string → err + string).              (* the node's files, the ServiceAccount's *)
Let name : string := Name (ometa gw).

(** An environment variable of the sidecar, and a file it has mounted. *)
Definition env_value (e : EnvVar) : option string :=
  match EnvFrom e with
  | EnvValue v => Some v
  | EnvSecretKey s key => secrets s !! key
  end.
Definition pod_env (key : string) : option string :=
  e ← List.find (λ e, EnvName e =s key) (auth_env gw); env_value e.

Definition pod_file (path : string) : err + string :=
  match file_of (volumes gw) (auth_container gw) path with
  | None => projected path
  | Some (v, f) =>
      match key_of_file v f ≫= (λ '(k, s, key), if bool_decide (k = KSecret) then secrets s !! key else None) with
      | Some content => inr content
      | None => inl (Err ("open " +:+ path +:+ ": no such file or directory"))
      end
  end.

(** What the container's process meets while it starts. *)
Definition pod_handler : handler BSig unit := λ c w,
  (match c return bresp c with
   | BNow => 0%Z
   | BRand _ => ""
   | BGetenv key => pod_env key
   | BReadFile path => pod_file path
   | BHttp _ _ => inl (Err "connection refused")
   | BGenerateRSA => inl (Err "no entropy")
   | BTake _ => None
   | BPut _ _ _ _ => false
   end, w).

Definition server_secret : string :=
  let custom := ServerCertSecretName (TLS (odata gw).1) in
  if custom <>s "" then custom else name +:+ "-server-tls".

(** The configuration and the listeners the operator means. *)
Definition bridge_config (clientSecret : string) (ttl : Z) : Config :=
  let auth := OpenShift (Auth (odata gw).1) in
  mkConfig authBridgeInternalURL (authBridgeExternalURL gw) gatewayOIDCAudience
    (if tlsEnabled gw then "127.0.0.1:8085" else ":8085")
    ("https://oauth-openshift." +:+ clusterDomain gw) "openshell" clientSecret
    (UserGroup auth) (AdminGroup auth) ttl.

Definition bridge_listeners : list listener :=
  if tlsEnabled gw
  then [mkListener "127.0.0.1:8085" "" "";
        mkListener ":8443" "/etc/auth-bridge-tls/tls.crt" "/etc/auth-bridge-tls/tls.key"]
  else [mkListener ":8085" "" ""].

(** Running a program in the pod, one call or one part at a time. *)
Lemma run_then {A B} (p : prog BSig A) (k : A → prog BSig B) a x :
  run pod_handler p () = (a, ()) → run pod_handler (k a) () = x → run pod_handler (p ≫= k) () = x.
Proof. intros Hp Hk. by rewrite run_bind, Hp. Qed.

Lemma run_getenv key v : pod_env key = Some v → run pod_handler (Getenv key) () = (v, ()).
Proof. intros H. transitivity (default "" (pod_env key), ()); [done|by rewrite H]. Qed.

Lemma run_getenv_unset key : pod_env key = None → run pod_handler (Getenv key) () = ("", ()).
Proof. intros H. transitivity (default "" (pod_env key), ()); [done|by rewrite H]. Qed.

Lemma run_env key fallback v :
  pod_env key = Some v → v ≠ "" → run pod_handler (envOrDefault key fallback) () = (v, ()).
Proof.
  intros H Hv. unfold envOrDefault. eapply run_then; [by apply run_getenv|].
  by rewrite bool_decide_eq_false_2.
Qed.

Lemma run_env_unset key fallback :
  pod_env key = None → run pod_handler (envOrDefault key fallback) () = (fallback, ()).
Proof. intros H. unfold envOrDefault. by eapply run_then; [by apply run_getenv_unset|]. Qed.

Lemma run_read path content :
  pod_file path = inr content → run pod_handler (bdo (BReadFile path)) () = (inr content, ()).
Proof. intros H. transitivity (pod_file path, ()); [done|by rewrite H]. Qed.

Lemma tokenTTL_set : tokenTTL gw ≠ "".
Proof. unfold tokenTTL. by case_bool_decide. Qed.

Lemma externalURL_set : authBridgeExternalURL gw ≠ "".
Proof. unfold authBridgeExternalURL. by destruct (routeEnabled gw && _), (tlsEnabled gw). Qed.

Section startup.
Context (pem kid clientSecret : string) (ttl : Z) (signer : JWTSigner).
Hypothesis has_pem : secrets (name +:+ "-auth-bridge-keys") !! "signing.pem" = Some pem.
Hypothesis has_kid : secrets (name +:+ "-auth-bridge-keys") !! "kid" = Some kid.
Hypothesis kid_trimmed : TrimSpace kid = kid.
Hypothesis loads : NewJWTSignerFromPEM pem kid = inr signer.
Hypothesis has_client_secret : secrets (name +:+ "-oauth-client") !! "secret" = Some clientSecret.
Hypothesis client_secret_set : clientSecret ≠ "".
Hypothesis ttl_parses : ParseDuration (tokenTTL gw) = inr ttl.
Hypothesis has_pair : tlsEnabled gw = true → ∃ cert key,
  secrets (server_secret) !! "tls.crt" = Some cert ∧ secrets (server_secret) !! "tls.key" = Some key ∧
  X509KeyPair cert key = None.

Lemma pod_file_secret path v f s key content :
  file_of (volumes gw) (auth_container gw) path = Some (v, f) → key_of_file v f = Some (KSecret, s, key) →
  secrets s !! key = Some content → pod_file path = inr content.
Proof. intros Hf Hk Hs. unfold pod_file. rewrite Hf, Hk. cbn. by rewrite bool_decide_eq_true_2, Hs. Qed.

Lemma signing_file : pod_file "/etc/auth-bridge-keys/signing.pem" = inr pem.
Proof. by eapply pod_file_secret. Qed.
Lemma kid_file : pod_file "/etc/auth-bridge-keys/kid" = inr kid.
Proof. by eapply pod_file_secret. Qed.

Lemma run_NewJWTSigner : run pod_handler NewJWTSigner () = (inr signer, ()).
Proof.
  unfold NewJWTSigner. do 3 (eapply run_then; [by apply run_getenv|]).
  rewrite !bool_decide_eq_false_2 by done. cbn [negb andb]. unfold loadJWTSigner.
  eapply run_then; [apply run_read, signing_file|].
  rewrite !bool_decide_eq_false_2 by done. cbn [negb andb].
  eapply run_then; [eapply run_then; [apply run_read, kid_file|done]|].
  cbn. by rewrite kid_trimmed, loads.
Qed.

(** The variables that are set only with TLS. *)
Definition tls_var (v : string) : string := if tlsEnabled gw then v else "".
Let certPath : string := tls_var "/etc/auth-bridge-tls/tls.crt".
Let keyPath : string := tls_var "/etc/auth-bridge-tls/tls.key".

Lemma run_cert : run pod_handler (Getenv "AUTH_BRIDGE_TLS_CERT") () = (certPath, ()).
Proof.
  unfold certPath, tls_var. destruct (tlsEnabled gw) eqn:Et; [apply run_getenv|apply run_getenv_unset];
    unfold pod_env, auth_env; by rewrite Et.
Qed.
Lemma run_key : run pod_handler (Getenv "AUTH_BRIDGE_TLS_KEY") () = (keyPath, ()).
Proof.
  unfold keyPath, tls_var. destruct (tlsEnabled gw) eqn:Et; [apply run_getenv|apply run_getenv_unset];
    unfold pod_env, auth_env; by rewrite Et.
Qed.

Lemma run_validate : run pod_handler (validateTLSFiles certPath keyPath) () = (None, ()).
Proof.
  unfold certPath, keyPath, tls_var, validateTLSFiles. destruct (tlsEnabled gw) eqn:Et; [|done].
  destruct (has_pair eq_refl) as (cert & key & Hc & Hk & Hp).
  cbn [xorb]. rewrite !bool_decide_eq_false_2 by done. cbn [xorb negb].
  apply (run_then _ _ (inr (cert, key))); [|done]. unfold LoadX509KeyPair.
  eapply run_then; [apply (run_read _ cert)|].
  { eapply pod_file_secret; [| |exact Hc]; [unfold file_of, volumes, auth_container; rewrite Et; done|done]. }
  eapply run_then; [apply (run_read _ key)|].
  { eapply pod_file_secret; [| |exact Hk]; [unfold file_of, volumes, auth_container; rewrite Et; done|done]. }
  cbn. by rewrite Hp.
Qed.

Lemma run_read_config :
  run pod_handler (l ← bdo (BGetenv "AUTH_BRIDGE_LISTEN");
      read_config authBridgeInternalURL (authBridgeExternalURL gw) certPath (default "" l)
        (bool_decide (is_Some l))) () = (bridge_config clientSecret ttl, ()).
Proof.
  eapply run_then; [done|]. unfold read_config.
  eapply run_then; [apply run_env_unset; unfold pod_env, auth_env; by destruct (tlsEnabled gw)|]. do 2 (eapply run_then; [by apply run_env|]).
  eapply run_then; [apply run_getenv, has_client_secret|].
  do 3 (eapply run_then; [by apply run_getenv|]).
  unfold parseDuration, bridge_config, certPath, tls_var. rewrite ttl_parses.
  rewrite (bool_decide_eq_false_2 (tokenTTL gw = "")) by apply tokenTTL_set.
  unfold pod_env, auth_env. by destruct (tlsEnabled gw).
Qed.

Let cfg : Config := bridge_config clientSecret ttl.
Let server : Server :=
  mkServer cfg signer
    (mkOSC (TrimRightByte slash ("https://oauth-openshift." +:+ clusterDomain gw)) "openshell" clientSecret
       defaultSATokenPath (match projected saCACertPath with inr ca => Some ca | inl _ => None end)).

(** No volume of the Deployment hides the ServiceAccount's files. *)
Lemma run_client url id secret :
  run pod_handler (NewOpenShiftClient url id secret) () =
  (mkOSC (TrimRightByte slash url) id secret defaultSATokenPath
     (match projected saCACertPath with inr ca => Some ca | inl _ => None end), ()).
Proof.
  unfold NewOpenShiftClient. eapply run_then; [|done].
  transitivity (pod_file saCACertPath, ()); [done|]. f_equal.
  unfold pod_file, file_of, auth_container. by destruct (tlsEnabled gw).
Qed.

Lemma run_main : run pod_handler main () = (Serving cfg server bridge_listeners, ()).
Proof.
  unfold main. eapply run_then; [by apply run_env|].
  eapply run_then; [apply run_env; [reflexivity|apply externalURL_set]|].
  eapply run_then; [apply run_cert|]. eapply run_then; [apply run_key|].
  eapply run_then; [apply run_validate|]. cbv beta iota.
  pose proof run_read_config as Hrc. rewrite run_bind in Hrc. rewrite run_bind.
  destruct (run pod_handler (bdo (BGetenv "AUTH_BRIDGE_LISTEN")) ()) as [l []].
  eapply run_then; [exact Hrc|]. cbn [bridge_config cfgClientSecret].
  rewrite bool_decide_eq_false_2 by done. unfold NewServer.
  eapply run_then; [eapply run_then; [apply run_NewJWTSigner|]; eapply run_then; [apply run_client|done]|].
  unfold certPath, tls_var, bridge_listeners. destruct (tlsEnabled gw) eqn:Et; cycle 1.
  { rewrite bool_decide_eq_true_2 by done. unfold listeners, cfg, server. cbn. by rewrite Et. }
  rewrite bool_decide_eq_false_2 by done. eapply run_then.
  { apply (run_env _ _ ":8443"); [|done]. unfold pod_env, auth_env. rewrite Et. reflexivity. }
  unfold listeners, cfg, server. cbn. unfold keyPath, tls_var. by rewrite !Et.
Qed.
End startup.

(** C34. The sidecar starts as the operator means it: in the environment and
    with the files the Deployment gives it, the bridge loads the operator's
    signing key and serves with the issuer and audience the gateway is
    configured to accept, the redirect URI the OAuth client is registered with,
    and plain HTTP only on the loopback when TLS is on; its calls to the cluster
    trust the CA that the node projects for the ServiceAccount, and the system's
    roots when that file cannot be read. *)
Theorem bridge_starts_as_configured `{!Unicode} pem kid clientSecret ttl signer :
  secrets (name +:+ "-auth-bridge-keys") !! "signing.pem" = Some pem →
  secrets (name +:+ "-auth-bridge-keys") !! "kid" = Some kid →
  TrimSpace kid = kid → NewJWTSignerFromPEM pem kid = inr signer →
  secrets (name +:+ "-oauth-client") !! "secret" = Some clientSecret → clientSecret ≠ "" →
  ParseDuration (tokenTTL gw) = inr ttl →
  (tlsEnabled gw = true → ∃ cert key,
     secrets server_secret !! "tls.crt" = Some cert ∧ secrets server_secret !! "tls.key" = Some key ∧
     X509KeyPair cert key = None) →
  ∃ server, run pod_handler main () = (Serving (bridge_config clientSecret ttl) server bridge_listeners, ()) ∧
    BridgeServer.signer server = signer ∧ config server = bridge_config clientSecret ttl ∧
    cfgExternalIssuer (config server) +:+ "/callback" = callback_url gw ∧
    RootCAs (osc server) = match projected saCACertPath with inr ca => Some ca | inl _ => None end ∧
    ∀ isOCP, authBridgeEnabled gw isOCP = true →
      let settings := gateway_settings gw (sandboxNamespace gw) [oidc_issuer gw isOCP] in
      ("openshell.gateway.oidc", "issuer", TStr (cfgIssuer (config server))) ∈ settings ∧
      ("openshell.gateway.oidc", "audience", TStr (cfgAudience (config server))) ∈ settings.
Proof.
  intros Hp Hk Ht Hl Hs Hn Hd Hx. eexists. split; [by eapply run_main|]. split_and!; [done..|].
  intros isOCP He settings.
  assert (in_table "openshell.gateway.oidc"
     [("issuer", TStr authBridgeInternalURL); ("audience", TStr "openshell-cli"); ("jwks_ttl_secs", TInt 300);
      ("roles_claim", TStr "realm_access.roles"); ("admin_role", TStr "openshell-admin");
      ("user_role", TStr "openshell-user")] ⊆ settings) as Hsub.
  { unfold settings, gateway_settings, oidc_issuer. rewrite He. cbn [issuer_of].
    rewrite (bool_decide_eq_false_2 (authBridgeInternalURL = "")) by done. cbn [negb].
    intros x Hx'. rewrite !elem_of_app. tauto. }
  split; apply Hsub; unfold in_table; cbn [map]; rewrite !elem_of_cons; auto.
Qed.
End pod.

(** ** Generated keys *)

Section keys.
Context {C : Crypto} {X : X509 C} `{!X509Laws C X}.

(** A generated key pair is loadable and its key id is what the key gives. *)
Definition keys_load (k : JWTKeys) : Prop :=
  ∃ key, NewJWTSignerFromPEM (SigningKey k) (KID k) = inr (mkSigner key (KID k)) ∧
    KID k = derive_kid key ∧ TrimSpace (KID k) = KID k ∧
    PublicKey k = pem_EncodeToMemory "RSA PUBLIC KEY" (MarshalPKCS1PublicKey key).

Lemma GenerateRSAKeys_spec (G : list (event KSig) → call KSig → Prop) t :
  (∀ t, G t CEntropy) →
  always G (λ _ r, match r with inr k => keys_load k | inl _ => True end) t GenerateRSAKeys.
Proof.
  intros HG. unfold GenerateRSAKeys. always_step; [done|]. apply always_ret.
  destruct (rsa_GenerateKey r) as [|key]; [done|].
  destruct (MarshalPKCS8_rsa key) as [|der] eqn:Ed; [done|]. exists key. cbn [SigningKey KID PublicKey].
  split_and!; [by apply generated_signer_loads|done|apply TrimSpace_hex, hex_encode_is_hex|done].
Qed.

(** What the step creates. *)
Definition creates_keys (gw : OpenShellGateway) (t : list (event KSig)) (c : call KSig) : Prop :=
  match c with
  | CCreate KSecret o => ∃ k, keys_load k ∧ o = key_secret gw (Name (ometa gw) +:+ "-auth-bridge-keys") k
  | CCreate _ _ | CUpdate _ _ | CUCommit _ _ | CDelete _ _ _ | CStatusUpdate _ _ => False
  | _ => True
  end.

Lemma reconcileAuthBridgeKeys_keys gw t : always (creates_keys gw) (λ _ _, True) t (reconcileAuthBridgeKeys gw).
Proof.
  unfold reconcileAuthBridgeKeys. always_step; [done|]. destruct r as [e|s]; [|done].
  destruct (negb (IsNotFound e)); [done|].
  eapply always_cut; [by apply GenerateRSAKeys_spec|]. intros t' [e'|k] Hk; [done|].
  unfold create. always_step; [by exists k|]. done.
Qed.

(** C36. Generated keys work on both sides: the Secret the operator creates for
    the bridge holds a key that loads, under the key id derived from it, both
    for the operator's own tokens and for the bridge, and its public half is
    the published one. *)
Theorem generated_keys_are_loadable {W} (h : handler KSig W) w gw i o r :
  trace h (reconcileAuthBridgeKeys gw) w !! i = Some (Ev (S := KSig) (CCreate KSecret o) r) →
  ∃ key, let kid := secret_key o "kid" in
    NewJWTSignerFromPEM (secret_key o "signing.pem") kid = inr (mkSigner key kid) ∧
    kid = derive_kid key ∧ TrimSpace kid = kid ∧
    secret_key o "public.pem" = pem_EncodeToMemory "RSA PUBLIC KEY" (MarshalPKCS1PublicKey key) ∧
    Name (ometa o) = Name (ometa gw) +:+ "-auth-bridge-keys" ∧ Namespace (ometa o) = gatewayNamespace gw.
Proof.
  intros Hi. apply (always_event (creates_keys gw) (λ _ _, True)) in Hi as (k & (key & Hload & Hkid & Htrim & Hpub) & ->);
    [|apply reconcileAuthBridgeKeys_keys].
  exists key. by split_and!.
Qed.
End keys.
