(* ===== verification/GatewayCluster.v ===== *)
(** * A concrete cluster for the gateway controller

    An executable API server that stores what is written to it, and executable
    instances of the certificate and manifest libraries.  The witnesses run the
    reconciler against it; its Deployment controller is prompt: a committed
    Deployment has all its replicas ready. *)

From S2P Require Import Prelude Interaction GoStrings GoText GoErrors Jwt ApiTypes Kube Detect Pki.
From S2P Require Import GatewayHelpers GatewayTls GatewayDeployment Dependencies Concrete FakeCluster.
From Stdlib Require Import Ascii.
Import ApiTypes.Gateway.

(** ** Libraries *)

(** A PEM block is its bytes behind one marker byte. *)
#[export] Instance pem_crypto : Crypto := {|
  rsa_key := string;
  pem_Decode := λ s, match s with String _ b => Some b | EmptyString => None end;
  ParsePKCS8PrivateKey := λ s, inr (Some s);
  MarshalPKCS1PublicKey := λ k, k;
  sha256_Sum256 := λ s, take_bytes 32 s;
  SignPKCS1v15 := λ k d, inr (k +:+ d);
  VerifyPKCS1v15 := λ k d g, g =s (k +:+ d);
  pub_N_Bytes := λ k, k;
  pub_E := λ _, 65537%N
|}.

(** A certificate is the name of its subject; keys are their entropy. *)
#[export] Instance pem_x509 : X509 pem_crypto := {|
  ec_key := string;
  ec_GenerateKey := inr;
  CreateCertificate := λ _ t parent _ _, inr (CommonName t +:+ " by " +:+ CommonName parent);
  ParseCertificate := λ der, inr (ca_template "" 0 0);
  MarshalECPrivateKey := inr;
  pem_EncodeToMemory := λ _ b, String "P"%char b;
  ParseIP := λ s, if s =s "127.0.0.1" then Some s else None;
  rsa_GenerateKey := inr;
  MarshalPKCS8_rsa := inr;
  ed_key := string;
  ed_GenerateKey := inr;
  MarshalPKCS8_ed := inr;
  MarshalPKIXPublicKey_ed := inr
|}.

#[export] Instance pem_laws : X509Laws pem_crypto pem_x509.
Proof. split; [done|]. intros k der [= <-]. done. Qed.

(** No embedded manifests. *)
#[export] Instance no_manifests : ManifestLib := {|
  Manifests_ReadFile := λ _, inr "";
  yaml_documents := λ _, ([], None);
  yaml_Decode := λ _, inl (Err "empty document")
|}.

(** ** The store *)

Definition store : Type := list {k & obj k}.

Definition as_kind (k : kind) (x : {k & obj k}) : option (obj k) :=
  match decide (projT1 x = k) with
  | left e => Some (eq_rect _ obj (projT2 x) _ e)
  | right _ => None
  end.

Definition stored (s : store) (k : kind) : list (obj k) := omap (as_kind k) s.

Definition same_object (k : kind) (n ns : string) (x : {k & obj k}) : bool :=
  bool_decide (projT1 x = k) && (Name (ometa (projT2 x)) =s n) && (Namespace (ometa (projT2 x)) =s ns).

Definition remove (s : store) (k : kind) (n ns : string) : store :=
  List.filter (λ x, negb (same_object k n ns x)) s.

(** The server sets what the client leaves open. *)
Definition admitted_meta (m : ObjectMeta) : ObjectMeta :=
  mkMeta (Name m) (Namespace m) (Labels m) (Annotations m) "uid" "2" (Generation m)
    (Some (default 50%Z (CreationTimestamp m))) (DeletionTimestamp m) (Finalizers m).

Definition roll_out (k : kind) : body k → body k :=
  match k return body k → body k with
  | KDeployment => λ d, mkDeployment (DReplicas d) (Strategy d) (MatchLabels d) (Template d)
                          (default 1%Z (DReplicas d))
  | _ => λ d, d
  end.

Definition put (s : store) (k : kind) (o : obj k) : store :=
  existT k (mkObj (admitted_meta (ometa o)) (roll_out k (odata o))) ::
  remove s k (Name (ometa o)) (Namespace (ometa o)).

Definition exists_in (s : store) (k : kind) (n ns : string) : bool := existsb (same_object k n ns) s.

Definition matching {k} (ns : option string) (labels : gmap string string) (o : obj k) : bool :=
  (match ns with Some ns => Namespace (ometa o) =s ns | None => true end) &&
  bool_decide (labels ⊆ Labels (ometa o)).

(** [apis]: the API groups the server has. *)
Definition store_handler (apis : list string) : handler KSig store := λ c s,
  match c return kresp c * store with
  | CGet k n ns => (lookup_obj (stored s k) n ns, s)
  | CList k ns labels => (inr (List.filter (matching ns labels) (stored s k)), s)
  | CCreate k o =>
      if exists_in s k (Name (ometa o)) (Namespace (ometa o))
      then (inl (EApi AlreadyExists "already exists"), s) else (inr o, put s k o)
  | CUpdate k o | CStatusUpdate k o => (None, put s k o)
  | CUCommit k o => (None, put s k o)
  | CDelete k n ns =>
      if exists_in s k n ns then (None, remove s k n ns)
      else (Some (EApi NotFound "not found"), s)
  | CUFetch k n ns => (match lookup_obj (stored s k) n ns with
                       | inl _ => inr (blank k n ns)
                       | inr o => inr o
                       end, s)
  | CDiscover gv => (bool_decide (gv ∈ apis), s)
  | CDetectLoad _ => (mkDetection false 0, s)
  | CDetectStore _ _ => ((), s)
  | CNow => (1000%Z, s)
  | CRand n => (repeat_byte n, s)
  | CEntropy => ("seed", s)
  | CDial _ _ => (None, s)
  | CClose => ((), s)
  | CRpc _ r => (toy_rpc r, s)
  end.

(** ** Gateways *)

Definition spec_of (hostname dbSecret : string) : Spec :=
  mkSpec "" "" "" "" "" None (mkDatabase false None dbSecret) (mkSandbox "boxes" "" "" "" "" "")
    (mkTLS None (mkCertManager false "" "") "")
    (mkRoute None hostname (mkGatewayAPI None "" None None))
    (mkAuth false (mkOpenShiftAuth None "devs" "admins" "" None)) ""
    (mkResources ∅ ∅) (mkNetworkPolicy None).

Definition store_gateway (name : string) (created : Z) (deleted : option Z) : OpenShellGateway :=
  mkObj (k := KGateway) (meta_of name "" "uid-gw" created [finalizerName] deleted)
    (spec_of "gw.apps.example.org" "db", mkStatus "" "" "" 0 []).

Definition db_secret : obj KSecret := toy_secret "db" "ogo" {["uri" := "postgres://db"]}.

(** A cluster with the gateway and the Secret of its database. *)
Definition first_store (deleted : option Z) : store :=
  [existT KGateway (store_gateway "gw" 10 deleted); existT KSecret db_secret].

Definition openshift : list string := ["route.openshift.io/v1"; "user.openshift.io/v1"].

(** The object written by the [i]-th call of a trace. *)
Definition written_at (t : list (event KSig)) (i : nat) (k : kind) : obj k :=
  match t !! i with
  | Some e =>
      match ev_call e with
      | CCreate k' o | CUpdate k' o | CStatusUpdate k' o | CUCommit k' o =>
          default (blank k "" "") (as_kind k (existT k' o))
      | _ => blank k "" ""
      end
  | None => blank k "" ""
  end.
