(* ===== verification/ControllerLiveness.v ===== *)
(** * The controllers keep at it, and get there

    What the safety theorems of ControllerTheorems and GatewayTheorems leave
    open: no reconcile of the four controllers drops its work on the floor, and
    against an API server and a gateway that answer, providers, members and
    policies do become Synced. *)

From S2P Require Import Prelude Interaction GoStrings GoText GoErrors GoUrl Jwt ApiTypes Kube.
From S2P Require Import Singleton GatewayHelpers GatewayRpc ProviderController ProviderProofs.
From S2P Require Import MemberController MemberProofs PolicyController PolicyProofs.
From S2P Require Import Detect Pki GatewayTls GatewayResources GatewayDeployment GatewayRouting.
From S2P Require Import Dependencies EmbeddedPostgres GatewayReconciler Concrete FakeCluster.

(** ** Nothing is dropped *)

(** controller-runtime calls again: an error is retried with backoff, a result
    that asks for it is requeued. *)
Definition retried (o : outcome) : Prop :=
  o.2 ≠ None ∨ Requeue o.1 = true ∨ (0 < RequeueAfter o.1)%Z.

Lemma retried_error e r : retried (r, Some e).
Proof. by left. Qed.
Lemma retried_update (u : option err) d : (0 < d)%Z → retried (requeue_after d, u).
Proof. right. by right. Qed.
Lemma retried_later : retried (requeue_after gatewayRetryInterval, None).
Proof. by apply retried_update. Qed.
Lemma retried_interval u : retried (requeue_after requeueInterval, u).
Proof. by apply retried_update. Qed.
#[export] Hint Resolve retried_error retried_later retried_interval : ogo.

Section dropped.
Context {C : Crypto} {T : TlsLib} {U : Unicode} {M : ApiMachinery} {X : X509 C} {ML : ManifestLib}.

(** The object is gone. *)
Definition gone (k : kind) (t : list (event KSig)) (name ns : string) : Prop :=
  ∃ e, Ev (S := KSig) (CGet k name ns) (inl e) ∈ t ∧ IsNotFound e = true.

(** Its deletion is complete as far as the controller is concerned: it has no
    finalizer of the controller, or that one was just dropped. *)
Definition let_go (k : kind) (fin : string) (t : list (event KSig)) (name ns : string) : Prop :=
  ∃ o, Ev (S := KSig) (CGet k name ns) (inr o) ∈ t ∧ DeletionTimestamp (ometa o) ≠ None ∧
    (ContainsFinalizer (Finalizers (ometa o)) fin = false ∨
     Ev (S := KSig) (CUpdate k (set_finalizers (λ fs, RemoveFinalizer fs fin) o)) None ∈ t).

Definition settled (k : kind) (fin name ns : string) (t : list (event KSig)) (o : outcome) : Prop :=
  retried o ∨ gone k t name ns ∨ let_go k fin t name ns.

Lemma settled_retried k fin name ns t o : retried o → settled k fin name ns t o.
Proof. by left. Qed.
#[local] Hint Resolve settled_retried : ogo.

(** The ends of a reconcile that is called again. *)
Ltac called_again := apply always_ret; eauto with ogo.

Lemma setNotReady_retried Q t p reason cause :
  (∀ t' o, retried o → Q t' o) → always unguarded Q t (setNotReady p reason cause).
Proof.
  intros HQ. unfold setNotReady. always_step; [done|]. destruct r; apply always_ret, HQ; eauto with ogo.
Qed.

Lemma member_setNotReady_retried Q t p reason cause :
  (∀ t' o, retried o → Q t' o) → always unguarded Q t (member_setNotReady p reason cause).
Proof.
  intros HQ. unfold member_setNotReady. always_step; [done|].
  destruct r; apply always_ret, HQ; eauto with ogo.
Qed.

Lemma policy_setNotReady_retried Q t p reason cause :
  (∀ t' o, retried o → Q t' o) → always unguarded Q t (policy_setNotReady p reason cause).
Proof.
  intros HQ. unfold policy_setNotReady. always_step; [done|].
  destruct r; apply always_ret, HQ; eauto with ogo.
Qed.

Lemma closing_retried (Q : list (event KSig) → outcome → Prop) t p :
  always unguarded (λ t' o, ∀ t'', t' ⊆ t'' → Q t'' o) t p → always unguarded Q t (closing p).
Proof.
  intros Hp. unfold closing. eapply always_cut; [exact Hp|]. cbn beta. intros t' a Ha.
  always_step; [done|]. apply always_ret, Ha, hist_grow.
Qed.

(** The last write of a deletion. *)
Lemma drop_settled k fin name ns t o :
  Ev (S := KSig) (CGet k name ns) (inr o) ∈ t → DeletionTimestamp (ometa o) ≠ None →
  always unguarded (λ t' r, ∀ t'', t' ⊆ t'' → settled k fin name ns t'' r) t
    (u ← kdo (CUpdate k (set_finalizers (λ fs, RemoveFinalizer fs fin) o)); mret (no_requeue, u)).
Proof.
  intros Hr Hd. always_step; [done|]. apply always_ret. destruct r as [e|]; intros t'' Ht; [eauto with ogo|].
  right. right. exists o. split; [by apply Ht, hist_grow|]. split; [done|]. right.
  apply Ht, elem_of_snoc. by right.
Qed.

Lemma weaken_now {A} (Q : list (event KSig) → A → Prop) t p :
  always unguarded (λ t' r, ∀ t'', t' ⊆ t'' → Q t'' r) t p → always unguarded Q t p.
Proof. intros Hp. eapply always_mono; [exact Hp|]. cbn. intros t' a H. by apply H. Qed.

(** The read that starts a reconcile: a missing object is settled, another
    error is returned. *)
Lemma read_failed k fin name ns t e :
  always unguarded (settled k fin name ns) (t ++ [Ev (S := KSig) (CGet k name ns) (inl e)])
    (mret (no_requeue, IgnoreNotFound e)).
Proof.
  apply always_ret. unfold IgnoreNotFound. destruct (IsNotFound e) eqn:He; [|eauto with ogo].
  right. left. exists e. split; [|done]. apply elem_of_snoc. by right.
Qed.

Lemma no_finalizer_settled k fin name ns t (o : obj k) :
  Ev (S := KSig) (CGet k name ns) (inr o) ∈ t → DeletionTimestamp (ometa o) ≠ None →
  ContainsFinalizer (Finalizers (ometa o)) fin = false → settled k fin name ns t (no_requeue, None).
Proof. intros Hr Hd Hf. right. right. exists o. eauto. Qed.

(** *** Providers *)

Lemma reconcileSync_retried fin name ns t p :
  always unguarded (settled KProvider fin name ns) t (reconcileSync p).
Proof.
  unfold reconcileSync. apply always_skip. intros t1 [e|gw] _.
  { apply setNotReady_retried. eauto with ogo. }
  apply always_skip. intros t2 [[reason cause|e]|desired] _.
  { apply setNotReady_retried. eauto with ogo. }
  { called_again. }
  apply always_skip. intros t3 [e|tok] _; [apply setNotReady_retried; eauto with ogo|].
  apply closing_retried, always_skip. intros t4 [[reason cause]|] _.
  { apply setNotReady_retried. eauto with ogo. }
  always_step; [done|]. called_again.
Qed.

Lemma reconcileDelete_settled name ns t p :
  Ev (S := KSig) (CGet KProvider name ns) (inr p) ∈ t → DeletionTimestamp (ometa p) ≠ None →
  always unguarded (settled KProvider providerFinalizer name ns) t (reconcileDelete p).
Proof.
  intros Hr Hd. unfold reconcileDelete. destruct (ContainsFinalizer _ _) eqn:Hf; cbn [negb].
  2: { by apply always_ret, (no_finalizer_settled _ _ _ _ _ p). }
  apply always_skip. intros t1 [e|gw] H1; [called_again|].
  apply always_skip. intros t2 [e|tok] H2; [called_again|].
  apply closing_retried. always_step; [done|]. destruct r as [st|u].
  - case_bool_decide; [|called_again]. always_step; [done|]. destruct r; called_again.
  - apply drop_settled; [|done]. by apply hist_grow, H2, H1.
Qed.

Lemma provider_settled name ns :
  always unguarded (settled KProvider providerFinalizer name ns) [] (Reconcile name ns).
Proof.
  unfold Reconcile. always_step; [done|]. destruct r as [e|p]; [apply read_failed|].
  case_bool_decide as Hd.
  { apply reconcileDelete_settled; [by left|]. by apply option_is_some_not_none. }
  destruct (ContainsFinalizer _ _); cbn [negb]; [apply reconcileSync_retried|].
  always_step; [done|]. destruct r; [called_again|]. apply always_ret. left. right. by left.
Qed.

(** *** Members *)

Lemma member_sync_with_client_retried fin name ns t tok wm cur :
  always unguarded (λ t' o, ∀ t'', t' ⊆ t'' → settled KMember fin name ns t'' o) t
    (member_sync_with_client tok wm cur).
Proof.
  unfold member_sync_with_client. apply always_skip. intros t1 [e|wm'] _.
  { apply member_setNotReady_retried. eauto with ogo. }
  apply always_skip. intros t2 [e|] _; [apply member_setNotReady_retried; eauto with ogo|].
  always_step; [done|]. called_again.
Qed.

Lemma member_reconcileSync_retried fin name ns t wm :
  always unguarded (settled KMember fin name ns) t (member_reconcileSync wm).
Proof.
  unfold member_reconcileSync. apply always_skip. intros t1 [e|gw] _.
  { apply member_setNotReady_retried. eauto with ogo. }
  always_step; [done|]. destruct r as [e|sa].
  - destruct (IsNotFound e); cbn [negb]; [|called_again].
    case_bool_decide; cbn [negb]; [apply member_setNotReady_retried; eauto with ogo|].
    apply always_skip. intros t2 [rm|] _; apply member_setNotReady_retried; eauto with ogo.
  - case_bool_decide; [apply member_setNotReady_retried; eauto with ogo|].
    apply always_skip. intros t2 [e|tok] _; [apply member_setNotReady_retried; eauto with ogo|].
    apply closing_retried, member_sync_with_client_retried.
Qed.

Lemma member_settled name ns :
  always unguarded (settled KMember workspaceMemberFinalizer name ns) [] (member_Reconcile name ns).
Proof.
  unfold member_Reconcile. always_step; [done|]. destruct r as [e|wm]; [apply read_failed|].
  case_bool_decide as Hd.
  - apply option_is_some_not_none in Hd. unfold member_reconcileDelete.
    destruct (ContainsFinalizer _ _) eqn:Hf; cbn [negb].
    2: { apply always_ret, (no_finalizer_settled _ _ _ _ _ wm); [by left|done..]. }
    case_bool_decide; cbn [negb]; [apply weaken_now, drop_settled; [by left|done]|].
    apply always_skip. intros t1 [e|gw] H1; [called_again|].
    apply always_skip. intros t2 [e|] H2; [called_again|].
    apply weaken_now, drop_settled; [|done]. apply H2, H1. by left.
  - destruct (ContainsFinalizer _ _); cbn [negb]; [apply member_reconcileSync_retried|].
    always_step; [done|]. destruct r; [called_again|]. apply always_ret. left. right. by right.
Qed.

(** *** Policies *)

Lemma policy_reconcileSync_retried fin name ns t p :
  always unguarded (settled KPolicy fin name ns) t (policy_reconcileSync p).
Proof.
  unfold policy_reconcileSync. apply always_skip. intros t1 [e|active] _.
  { apply policy_setNotReady_retried. eauto with ogo. }
  case_bool_decide; cbn [negb]; [|always_step; [done|]; called_again].
  apply always_skip. intros t2 [e|gw] _; [apply policy_setNotReady_retried; eauto with ogo|].
  apply always_skip. intros t3 [e|tok] _; [apply policy_setNotReady_retried; eauto with ogo|].
  apply closing_retried. always_step; [done|]. destruct r as [st|u].
  - case_bool_decide; apply policy_setNotReady_retried; eauto with ogo.
  - always_step; [done|]. called_again.
Qed.

Lemma policy_settled name ns :
  always unguarded (settled KPolicy policyFinalizer name ns) [] (policy_Reconcile name ns).
Proof.
  unfold policy_Reconcile. always_step; [done|]. destruct r as [e|p]; [apply read_failed|].
  case_bool_decide as Hd.
  - apply option_is_some_not_none in Hd. unfold policy_reconcileDelete, policy_drop_finalizer.
    destruct (ContainsFinalizer _ _) eqn:Hf; cbn [negb].
    2: { apply always_ret, (no_finalizer_settled _ _ _ _ _ p); [by left|done..]. }
    destruct (Policy.AppliedToGateway _); [|apply weaken_now, drop_settled; [by left|done]].
    apply always_skip. intros t1 [e|[|]] H1; [called_again| |].
    { apply weaken_now, drop_settled; [|done]. apply H1. by left. }
    apply always_skip. intros t2 [e|gw] H2; [called_again|].
    apply always_skip. intros t3 [e|tok] H3; [called_again|].
    apply closing_retried. always_step; [done|]. destruct r; [called_again|].
    apply drop_settled; [|done]. apply hist_grow, H3, H2, H1. by left.
  - destruct (ContainsFinalizer _ _); cbn [negb]; [apply policy_reconcileSync_retried|].
    always_step; [done|]. destruct r; [called_again|]. apply always_ret. left. right. by left.
Qed.

(** *** Gateways *)

(** Another gateway is the active one, and the status says so. *)
Definition stood_down (t : list (event KSig)) (name : string) : Prop :=
  ∃ gw oldest, Ev (S := KSig) (CGet KGateway name "") (inr gw) ∈ t ∧
    Ev (S := KSig) (CStatusUpdate KGateway (superseded_gateway gw oldest)) None ∈ t.

Lemma setDegraded_retried (Q : list (event KSig) → outcome → Prop) t gw step e :
  (∀ t' o, retried o → Q t' o) → always unguarded Q t (setDegraded gw step e).
Proof.
  intros HQ. unfold setDegraded. always_step; [done|].
  destruct r; [apply always_ret, HQ; eauto with ogo|]. always_step; [done|]. apply always_ret, HQ. eauto with ogo.
Qed.

Lemma unless_failed_retried (Q : list (event KSig) → outcome → Prop) t p k :
  (∀ t' o, retried o → Q t' o) → (∀ t' gw, always unguarded Q t' (k gw)) →
  always unguarded Q t (unless_failed p k).
Proof.
  intros HQ Hk. unfold unless_failed. apply always_skip. intros t' [[[step e]|] gw] _; [|done].
  by apply setDegraded_retried.
Qed.

Lemma reconcile_active_retried t gw : always unguarded (λ _ o, retried o) t (reconcile_active gw).
Proof.
  unfold reconcile_active. apply always_skip. intros t1 isOCP _. apply always_skip. intros t2 has _.
  do 3 (apply unless_failed_retried; [done|]; intros).
  unfold routing_phase. do 2 (apply unless_failed_retried; [done|]; intros).
  apply always_skip. intros. apply always_ret. eauto with ogo.
Qed.

Lemma gateway_settled name :
  always unguarded (λ t o, settled KGateway finalizerName name "" t o ∨ stood_down t name) []
    (gateway_Reconcile name).
Proof.
  unfold gateway_Reconcile. always_step; [done|]. destruct r as [e|gw].
  { eapply always_mono; [apply (read_failed KGateway finalizerName name "" [])|]. by left. }
  always_step; [done|]. destruct r as [e|items]; [apply always_ret; left; eauto with ogo|].
  destruct (superseded_by gw items) as [oldest|].
  { always_step; [done|]. apply always_ret. destruct r as [e|]; [left; eauto with ogo|].
    right. exists gw, oldest. split; [apply hist_grow, hist_grow; by left|].
    apply elem_of_snoc. by right. }
  case_bool_decide as Hd.
  - eapply always_mono with (Q := settled KGateway finalizerName name ""); [|by left].
    unfold gateway_reconcileDelete. destruct (ContainsFinalizer _ _) eqn:Hf; cbn [negb].
    2: { apply always_ret, (no_finalizer_settled _ _ _ _ _ gw); [by apply hist_grow; left|done..]. }
    apply always_skip. intros t1 [|e errs] H1; [|called_again].
    apply weaken_now, (drop_settled KGateway finalizerName name "" t1 gw); [|done].
    apply H1, hist_grow. by left.
  - destruct (ContainsFinalizer _ _); cbn [negb].
    + eapply always_mono; [apply reconcile_active_retried|]. cbn. intros t' o Ho. left. eauto with ogo.
    + always_step; [done|]. apply always_ret. left. left. destruct r; [eauto with ogo|]. right. by right.
Qed.

(** C19. No work is dropped.  Whatever the API server and the gateway answer, a
    reconcile of any of the four controllers that will not be called again (no
    error, no requeue) has nothing left to do: its object is gone, or being
    deleted and free of the controller's finalizer, or it is a gateway that
    stands down for an older one and says so in its status. *)
Theorem no_work_is_dropped {W} (h : handler KSig W) w name ns :
  (let p := Reconcile name ns in
   settled KProvider providerFinalizer name ns (trace h p w) (run h p w).1) ∧
  (let p := member_Reconcile name ns in
   settled KMember workspaceMemberFinalizer name ns (trace h p w) (run h p w).1) ∧
  (let p := policy_Reconcile name ns in
   settled KPolicy policyFinalizer name ns (trace h p w) (run h p w).1) ∧
  (let p := gateway_Reconcile name in
   settled KGateway finalizerName name "" (trace h p w) (run h p w).1 ∨ stood_down (trace h p w) name).
Proof.
  split_and!.
  - by destruct (always_run _ _ h [] _ w (provider_settled name ns)) as [HQ _].
  - by destruct (always_run _ _ h [] _ w (member_settled name ns)) as [HQ _].
  - by destruct (always_run _ _ h [] _ w (policy_settled name ns)) as [HQ _].
  - by destruct (always_run _ _ h [] _ w (gateway_settled name)) as [HQ _].
Qed.
End dropped.

(** ** Getting there *)

Section liveness.
Context {C : Crypto} {T : TlsLib} {U : Unicode} {M : ApiMachinery}.
Context {W : Type} (h : handler KSig W).

(** A gateway that can be reached: it is listed, its signing key loads and
    signs, its client certificate is usable, and it accepts connections. *)
Record reachable_gateway (gw : OpenShellGateway) : Prop := {
  gateway_listed : responds h (CList KGateway None ∅)
    (λ r, ∃ items, r = inr items ∧ oldestByCreationTimestamp items = Some gw);
  gateway_keyed : responds h
    (CGet KSecret (Name (ometa gw) +:+ "-auth-bridge-keys") (gatewayNamespace gw))
    (λ r, ∃ s signer, r = inr s ∧
       NewJWTSignerFromPEM (secret_key s "signing.pem") (secret_key s "kid") = inr signer ∧
       ∀ now, ∃ tok, MintToken signer now authBridgeInternalURL gatewayOIDCAudience
         "ogo-controller" "ogo-controller" "" [gatewayAdminRole] adminTokenTTL = inr tok);
  gateway_certified : tlsEnabled gw = true → responds h
    (CGet KSecret (Name (ometa gw) +:+ "-client-tls") (gatewayNamespace gw))
    (λ r, ∃ s, r = inr s ∧ X509KeyPair (secret_key s "tls.crt") (secret_key s "tls.key") = None ∧
       AppendCertsFromPEM (secret_key s "ca.crt") = true);
  gateway_up : ∀ creds, responds h (CDial (gateway_host gw +:+ ":" +:+ itoa gatewayGRPCPort) creds)
    (λ r, r = None)
}.

Lemma resolveGateway_yields gw :
  reachable_gateway gw → yields h resolveGateway (λ _ r, r = inr gw).
Proof.
  intros Hg. unfold resolveGateway. eapply yields_call; [apply (gateway_listed _ Hg)|].
  intros r (items & -> & Ho). apply yields_ret. by rewrite Ho.
Qed.

Lemma gatewayClient_yields gw :
  reachable_gateway gw → yields h (gatewayClient gw) (λ _ r, ∃ tok, r = inr tok).
Proof.
  intros Hg. unfold gatewayClient.
  eapply yields_bind with (R := λ _ r, ∃ tok, r = inr tok).
  { unfold mintAdminToken. eapply yields_call; [apply (gateway_keyed _ Hg)|].
    intros r (s & signer & -> & Hs & Hm). rewrite Hs. apply yields_any. intros now.
    apply yields_ret. apply Hm. }
  intros t1 r [tok ->]. eapply yields_bind with (R := λ _ r, r = inr ()).
  - unfold dialConnectClient. eapply yields_bind with (R := λ _ r, ∃ creds, r = inr creds).
    + unfold dialCredentials. destruct (tlsEnabled gw) eqn:Ht; cbn [negb]; [|apply yields_ret; by eexists].
      eapply yields_call; [by apply (gateway_certified _ Hg)|]. intros r (s & -> & Hk & Ha).
      rewrite Hk, Ha. apply yields_ret. by eexists.
    + intros t2 r [creds ->]. eapply yields_call; [apply (gateway_up _ Hg)|]. intros r ->. by apply yields_ret.
  - intros t2 r ->. apply yields_ret. by eexists.
Qed.

(** Around an open connection. *)
Lemma closing_yields {A} (p : prog KSig A) (Q : list (event KSig) → A → Prop) :
  yields h p (λ t a, ∀ t', Q (t ++ t') a) → yields h (closing p) Q.
Proof.
  intros Hp. unfold closing. eapply yields_bind; [exact Hp|]. cbn beta. intros t a Ha.
  apply yields_any. intros r. apply yields_ret, Ha.
Qed.

(** An object of its own finalizer, not being deleted. *)
Definition ready {k} (fin : string) (o : obj k) : Prop :=
  DeletionTimestamp (ometa o) = None ∧ ContainsFinalizer (Finalizers (ometa o)) fin = true.

(** A new object: read without the finalizer and not being deleted; the API
    server accepts the update that adds the finalizer. *)
Record fresh {k} (fin name ns : string) (o : obj k) : Prop := {
  fresh_there : responds h (CGet k name ns) (λ r, r = inr o);
  fresh_live : DeletionTimestamp (ometa o) = None;
  fresh_bare : ContainsFinalizer (Finalizers (ometa o)) fin = false;
  fresh_update : responds h (CUpdate k (set_finalizers (λ fs, AddFinalizer fs fin) o)) (λ r, r = None)
}.

(** The finalizer of the object is stored and it is reconciled again. *)
Definition takes_charge {k} (fin : string) (p : obj k) (t : list (event KSig)) (o : outcome) : Prop :=
  retried o ∧ Ev (S := KSig) (CUpdate k (set_finalizers (λ fs, AddFinalizer fs fin) p)) None ∈ t.

(** The status of the object itself, with its metadata and spec, is stored with
    phase Synced for the generation that was read. *)
Definition provider_synced (p : OpenShellProvider) (t : list (event KSig)) (o : outcome) : Prop :=
  o = (requeue_after requeueInterval, None) ∧
  ∃ st, let p' := mkObj (k := KProvider) (ometa p) ((odata p).1, st) in
    Ev (S := KSig) (CStatusUpdate KProvider p') None ∈ t ∧
    Provider.Phase st = "Synced" ∧ Provider.ObservedGeneration st = Generation (ometa p).
Definition member_synced (p : OpenShellWorkspaceMember) (uid : string)
    (t : list (event KSig)) (o : outcome) : Prop :=
  o = (requeue_after requeueInterval, None) ∧
  ∃ st, let p' := mkObj (k := KMember) (ometa p) ((odata p).1, st) in
    Ev (S := KSig) (CStatusUpdate KMember p') None ∈ t ∧
    Member.Phase st = "Synced" ∧ Member.ObservedGeneration st = Generation (ometa p) ∧
    Member.ReconciledSubject st = uid.
Definition policy_synced (p : OpenShellPolicy) (t : list (event KSig)) (o : outcome) : Prop :=
  o = (requeue_after requeueInterval, None) ∧
  ∃ st, let p' := mkObj (k := KPolicy) (ometa p) ((odata p).1, st) in
    Ev (S := KSig) (CStatusUpdate KPolicy p') None ∈ t ∧
    Policy.Phase st = "Synced" ∧ Policy.ObservedGeneration st = Generation (ometa p) ∧
    Policy.AppliedToGateway st = true.

(** *** Providers *)

Record provider_ready (name ns : string) (p : OpenShellProvider) : Prop := {
  provider_there : responds h (CGet KProvider name ns) (λ r, r = inr p);
  provider_live : ready providerFinalizer p;
  credentials_there : ∀ key ref, Provider.Credentials (odata p).1 !! key = Some ref →
    responds h (CGet KSecret (Provider.RefName ref) (Namespace (ometa p)))
      (λ r, ∃ s v, r = inr s ∧ secret_data s !! Provider.RefKey ref = Some v);
  provider_accepted : ∀ tok q ws, responds h (CRpc tok (CreateProvider q ws))
    (λ r, r = inr () ∨ ∃ st, r = inl st ∧ Code (status_err st) = CodeAlreadyExists);
  provider_updated : ∀ tok q ws, responds h (CRpc tok (UpdateProvider q ws)) (λ r, r = inr ());
  provider_status : ∀ o, responds h (CStatusUpdate KProvider o) (λ r, r = None)
}.

Lemma resolve_credentials_yields name ns p keys desired :
  provider_ready name ns p →
  Forall (λ k, is_Some (Provider.Credentials (odata p).1 !! k)) keys →
  yields h (resolve_credentials (Namespace (ometa p)) (Provider.Credentials (odata p).1) keys desired)
    (λ _ r, ∃ d, r = inr d).
Proof.
  intros Hp HF. revert desired. induction HF as [|k keys [ref Hr] _ IH]; intros desired; cbn [resolve_credentials].
  { apply yields_ret. by eexists. }
  unfold or_zero. rewrite Hr. cbn [default from_option id].
  eapply yields_call; [by apply (credentials_there _ _ _ Hp k)|]. intros r (s & v & -> & Hv). rewrite Hv.
  eapply yields_mono; [apply IH|]. done.
Qed.

Lemma push_provider_yields name ns p tok q :
  provider_ready name ns p → yields h (push_provider tok q) (λ _ r, r = None).
Proof.
  intros Hp. unfold push_provider. eapply yields_call; [apply (provider_accepted _ _ _ Hp)|].
  intros r [->|(st & -> & Hst)]; [by apply yields_ret|]. rewrite Hst.
  eapply yields_call; [apply (provider_updated _ _ _ Hp)|]. intros r ->. by apply yields_ret.
Qed.

Lemma synced_provider_of (p : OpenShellProvider) d : ∃ st,
  mkObj (k := KProvider) (ometa p) ((odata p).1, st) = synced_provider p d ∧
  Provider.Phase st = "Synced" ∧ Provider.ObservedGeneration st = Generation (ometa p).
Proof. destruct p as [m [sp st]]. by eexists. Qed.

Lemma provider_syncs gw name ns p :
  reachable_gateway gw → provider_ready name ns p →
  yields h (Reconcile name ns) (provider_synced p).
Proof.
  intros Hg Hp. destruct (provider_live _ _ _ Hp) as [Hd Hf]. unfold Reconcile.
  eapply yields_call; [apply (provider_there _ _ _ Hp)|]. intros r ->.
  rewrite Hd, bool_decide_eq_false_2, Hf by by intros [? ?]. cbn [negb]. unfold reconcileSync.
  eapply yields_bind; [by apply (resolveGateway_yields gw)|]. cbn beta. intros t1 r ->.
  eapply yields_bind; [eapply (resolve_credentials_yields name ns); [done|]|].
  { apply Forall_forall. intros k. apply sorted_keys_spec. }
  cbn beta. intros t2 r [d ->].
  eapply yields_bind; [by apply gatewayClient_yields|]. cbn beta. intros t3 r [tok ->].
  apply closing_yields. eapply yields_bind; [by eapply push_provider_yields|]. cbn beta. intros t4 r ->.
  eapply yields_call; [apply (provider_status _ _ _ Hp)|]. intros r ->. apply yields_ret. intros t'.
  split; [done|]. destruct (synced_provider_of p d) as (st & E & ?). exists st.
  split; [|done]. rewrite E. set_solver.
Qed.

Lemma provider_starts name ns (p : OpenShellProvider) :
  fresh providerFinalizer name ns p → yields h (Reconcile name ns) (takes_charge providerFinalizer p).
Proof.
  intros Hp. unfold Reconcile. eapply yields_call; [apply (fresh_there _ _ _ _ Hp)|]. intros r ->.
  rewrite (fresh_live _ _ _ _ Hp), bool_decide_eq_false_2, (fresh_bare _ _ _ _ Hp) by by intros [? ?].
  cbn [negb]. eapply yields_call; [apply (fresh_update _ _ _ _ Hp)|]. intros r ->. apply yields_ret.
  split; [by right; left|]. set_solver.
Qed.

(** *** Members *)

Record member_ready (name ns : string) (wm : OpenShellWorkspaceMember) (uid : string) : Prop := {
  member_there : responds h (CGet KMember name ns) (λ r, r = inr wm);
  member_live : ready workspaceMemberFinalizer wm;
  account_there : responds h (CGet KServiceAccount (Member.ServiceAccountRef (odata wm).1) (Namespace (ometa wm)))
    (λ r, ∃ sa, r = inr sa ∧ UID (ometa sa) = uid);
  account_has_uid : uid ≠ "";
  member_removed : ∀ tok ws u, responds h (CRpc tok (RemoveWorkspaceMember ws u)) (λ r, r = inr ());
  member_listed : ∀ tok ws, responds h (CRpc tok (ListWorkspaceMembers ws 1000))
    (λ r, ∃ ms role, r = inr ms ∧ find_role ms uid = Some role);
  member_added : ∀ tok ws role, responds h (CRpc tok (AddWorkspaceMember ws uid role))
    (λ r, r = inr () ∨ ∃ st, r = inl st ∧ Code (status_err st) = CodeAlreadyExists);
  (* who was just removed can be added *)
  member_readded : ∀ tok ws role w,
    (h (CRpc tok (AddWorkspaceMember ws uid role)) (h (CRpc tok (RemoveWorkspaceMember ws uid)) w).2).1 = inr ();
  member_status : ∀ o, responds h (CStatusUpdate KMember o) (λ r, r = None)
}.

Lemma addMemberWithClient_yields name ns wm uid tok ws role :
  member_ready name ns wm uid → yields h (addMemberWithClient tok ws uid role) (λ _ r, r = None).
Proof.
  intros Hm. unfold addMemberWithClient. eapply yields_call; [apply (member_added _ _ _ _ Hm)|].
  intros r [->|(st & -> & Hst)]; [by apply yields_ret|]. rewrite Hst, bool_decide_eq_true_2 by done.
  cbn [negb]. eapply yields_bind with (R := λ _ r, ∃ role, r = inr role).
  { unfold findMemberRole. eapply yields_call; [apply (member_listed _ _ _ _ Hm)|].
    intros r (ms & role' & -> & Hr). rewrite Hr. apply yields_ret. by eexists. }
  intros t1 r [role' ->]. case_bool_decide; [by apply yields_ret|].
  intros w. pose proof (member_removed _ _ _ _ Hm tok ws uid w) as Hr.
  pose proof (member_readded _ _ _ _ Hm tok ws role w) as Ha. cbn.
  destruct (h (CRpc tok (RemoveWorkspaceMember ws uid)) w) as [r w1]. cbn in Hr, Ha. subst r. cbn.
  destruct (h (CRpc tok (AddWorkspaceMember ws uid role)) w1) as [r w2]. cbn in Ha. by subst r.
Qed.

Lemma synced_member_of (wm wm' : OpenShellWorkspaceMember) uid : ometa wm' = ometa wm → (odata wm').1 = (odata wm).1 → ∃ st,
  mkObj (k := KMember) (ometa wm) ((odata wm).1, st) = synced_member wm' uid ∧
  Member.Phase st = "Synced" ∧ Member.ObservedGeneration st = Generation (ometa wm) ∧
  Member.ReconciledSubject st = uid.
Proof. destruct wm as [m [sp st]], wm' as [m' [sp' st']]. cbn. intros -> ->. by eexists. Qed.

Lemma member_syncs gw name ns wm uid :
  reachable_gateway gw → member_ready name ns wm uid →
  yields h (member_Reconcile name ns) (member_synced wm uid).
Proof.
  intros Hg Hm. destruct (member_live _ _ _ _ Hm) as [Hd Hf]. unfold member_Reconcile.
  eapply yields_call; [apply (member_there _ _ _ _ Hm)|]. intros r ->.
  rewrite Hd, bool_decide_eq_false_2, Hf by by intros [? ?]. cbn [negb]. unfold member_reconcileSync.
  eapply yields_bind; [by apply (resolveGateway_yields gw)|]. cbn beta. intros t1 r ->.
  eapply yields_call; [apply (account_there _ _ _ _ Hm)|]. intros r (sa & -> & Hu).
  rewrite Hu, bool_decide_eq_false_2 by apply (account_has_uid _ _ _ _ Hm).
  eapply yields_bind; [by apply gatewayClient_yields|]. cbn beta. intros t3 r [tok ->].
  apply closing_yields. unfold member_sync_with_client.
  eapply yields_bind with (R := λ _ r, ∃ wm' : OpenShellWorkspaceMember,
    r = inr wm' ∧ ometa wm' = ometa wm ∧ (odata wm').1 = (odata wm).1).
  { destruct (_ && _); [|apply yields_ret; by eexists]. unfold removeMemberWithClient.
    eapply yields_bind with (R := λ _ r, r = None).
    - eapply yields_call; [apply (member_removed _ _ _ _ Hm)|]. intros r ->. by apply yields_ret.
    - intros t r ->. apply yields_ret. by eexists. }
  intros t4 r (wm' & -> & Hmeta & Hspec). eapply yields_bind; [by eapply addMemberWithClient_yields|]. cbn beta. intros t5 r ->.
  eapply yields_call; [apply (member_status _ _ _ _ Hm)|]. intros r ->. apply yields_ret. intros t'.
  split; [done|]. destruct (synced_member_of wm wm' uid Hmeta Hspec) as (st & E & ?). exists st.
  split; [|done]. rewrite E. set_solver.
Qed.

Lemma member_starts name ns (p : OpenShellWorkspaceMember) :
  fresh workspaceMemberFinalizer name ns p →
  yields h (member_Reconcile name ns) (takes_charge workspaceMemberFinalizer p).
Proof.
  intros Hp. unfold member_Reconcile. eapply yields_call; [apply (fresh_there _ _ _ _ Hp)|]. intros r ->.
  rewrite (fresh_live _ _ _ _ Hp), bool_decide_eq_false_2, (fresh_bare _ _ _ _ Hp) by by intros [? ?].
  cbn [negb]. eapply yields_call; [apply (fresh_update _ _ _ _ Hp)|]. intros r ->. apply yields_ret.
  split; [by right; right|]. set_solver.
Qed.

(** *** Policies *)

Record policy_ready (name ns : string) (p : OpenShellPolicy) : Prop := {
  policy_there : responds h (CGet KPolicy name ns) (λ r, r = inr p);
  policy_live : ready policyFinalizer p;
  policy_oldest : responds h (CList KPolicy None ∅)
    (λ r, ∃ items active, r = inr items ∧ oldestByCreationTimestamp items = Some active ∧
       UID (ometa active) = UID (ometa p));
  policy_accepted : ∀ tok q, responds h (CRpc tok (UpdateConfig q)) (λ r, r = inr ());
  policy_status : ∀ o, responds h (CStatusUpdate KPolicy o) (λ r, r = None)
}.

Lemma policy_syncs gw name ns p :
  reachable_gateway gw → policy_ready name ns p →
  yields h (policy_Reconcile name ns) (policy_synced p).
Proof.
  intros Hg Hp. destruct (policy_live _ _ _ Hp) as [Hd Hf]. unfold policy_Reconcile.
  eapply yields_call; [apply (policy_there _ _ _ Hp)|]. intros r ->.
  rewrite Hd, bool_decide_eq_false_2, Hf by by intros [? ?]. cbn [negb].
  unfold policy_reconcileSync, resolveActivePolicy.
  eapply yields_bind with (R := λ _ r, ∃ active, r = inr active ∧ UID (ometa active) = UID (ometa p)).
  { eapply yields_call; [apply (policy_oldest _ _ _ Hp)|]. intros r (items & active & -> & Ho & Hu).
    apply yields_ret. rewrite Ho. by exists active. }
  intros t0 r (active & -> & Hu). rewrite bool_decide_eq_true_2 by done. cbn [negb].
  eapply yields_bind; [by apply (resolveGateway_yields gw)|]. cbn beta. intros t1 r ->.
  eapply yields_bind; [by apply gatewayClient_yields|]. cbn beta. intros t3 r [tok ->].
  apply closing_yields. eapply yields_call; [apply (policy_accepted _ _ _ Hp)|]. intros r ->.
  eapply yields_call; [apply (policy_status _ _ _ Hp)|]. intros r ->. apply yields_ret. intros t'.
  split; [done|]. exists (odata (synced_policy p)).2. split; [|done].
  change (mkObj _ _) with (synced_policy p). cbn zeta. set_solver.
Qed.

Lemma policy_starts name ns (p : OpenShellPolicy) :
  fresh policyFinalizer name ns p → yields h (policy_Reconcile name ns) (takes_charge policyFinalizer p).
Proof.
  intros Hp. unfold policy_Reconcile. eapply yields_call; [apply (fresh_there _ _ _ _ Hp)|]. intros r ->.
  rewrite (fresh_live _ _ _ _ Hp), bool_decide_eq_false_2, (fresh_bare _ _ _ _ Hp) by by intros [? ?].
  cbn [negb]. eapply yields_call; [apply (fresh_update _ _ _ _ Hp)|]. intros r ->. apply yields_ret.
  split; [by right; left|]. set_solver.
Qed.

End liveness.

(** ** A concrete cluster *)

Definition live_handler : handler KSig unit := λ c w,
  match c return kresp c * unit with
  | CRpc _ (ListWorkspaceMembers _ _) => (inr [("uid-new", ROLE_USER)], w)
  | c => cluster_handler (toy_cluster None) c w
  end.

Lemma toy_gateway_reachable : reachable_gateway live_handler toy_gateway.
Proof.
  split.
  - intros w. by exists [toy_gateway].
  - intros w. eexists _, _. split; [reflexivity|]. split; [reflexivity|]. intros now. by eexists.
  - intros _ w. eexists. split; [reflexivity|]. split; reflexivity.
  - by intros creds w.
Qed.

Lemma toy_provider_ready : provider_ready live_handler "p" "team" (toy_provider None).
Proof.
  split; try by intros.
  - intros key ref. cbn. rewrite lookup_singleton_Some. intros [_ <-] w. by eexists _, _.
  - intros tok q ws w. right. by eexists.
Qed.

Lemma toy_member_ready : member_ready live_handler "m" "team" (toy_member None) "uid-new".
Proof.
  split; try by intros.
  - intros w. by eexists.
  - intros tok ws w. by eexists _, _.
  - intros tok ws role w. by left.
Qed.

Lemma toy_policy_ready : policy_ready live_handler "old" "team" (toy_policy "old" "uid-1" 100 None true).
Proof. split; try by intros. intros w. by eexists _, _. Qed.

(** The same provider before its first reconcile. *)
Definition new_provider : OpenShellProvider := set_finalizers (λ _, []) (toy_provider None).
Definition new_handler : handler KSig unit :=
  cluster_handler (mkCluster [toy_gateway] toy_secrets [new_provider] [] [] []).

Lemma new_provider_fresh : fresh new_handler providerFinalizer "p" "team" new_provider.
Proof. by split. Qed.

