(* ===== verification/StatusTheorems.v ===== *)
(** * Every status the operator writes is one the API server accepts

    The four reconcilers against the schemas of StatusSchema.  The proofs use
    what the permissions of the controllers already say of a status write: it
    sets one condition on what was read (providers, members, policies), or it is
    built from the latest object and the conditions the steps recorded (the
    gateway). *)

From S2P Require Import Prelude Interaction GoStrings GoText GoErrors GoUrl Jwt ApiTypes Kube.
From S2P Require Import StatusSchema Singleton Detect Pki GatewayHelpers GatewayRpc.
From S2P Require Import ProviderController ProviderProofs MemberController MemberProofs.
From S2P Require Import PolicyController PolicyProofs GatewayTls GatewayResources GatewayDeployment.
From S2P Require Import GatewayRouting Dependencies EmbeddedPostgres GatewayReconciler GatewayGuard.
From S2P Require Import GatewayFlow GatewayTheorems Concrete FakeCluster ControllerTheorems GatewayCluster.

(** ** Phases *)

Lemma enum_value values s : s ∈ values → enum values s = true.
Proof. intros Hs. unfold enum. rewrite (bool_decide_eq_true_2 (s ∈ values)) by done. apply orb_true_r. Qed.

Section statuses.
Context {M : ApiMachinery} `{!ConditionLists M}.

(** ** Providers, members and policies *)

Lemma provider_shape_admitted p o :
  provider_shaped p o → admitted KProvider p = true → admitted KProvider o = true.
Proof.
  intros (Hp & Hc & H1 & H2). cbn. unfold provider_status_schema.
  rewrite !andb_true_iff, !bool_decide_eq_true. intros (((_ & Hcs) & Hn1) & Hn2).
  split_and!; [by apply enum_value|by eapply conditioned_admitted|auto..].
Qed.

Lemma member_shape_admitted p o :
  member_shaped p o → admitted KMember p = true → admitted KMember o = true.
Proof.
  intros (Hp & Hc). cbn. unfold member_status_schema. rewrite !andb_true_iff. intros [_ Hcs].
  split; [by apply enum_value|by eapply conditioned_admitted].
Qed.

Lemma policy_shape_admitted p o :
  policy_shaped p o → admitted KPolicy p = true → admitted KPolicy o = true.
Proof.
  intros (Hp & Hc). cbn. unfold policy_status_schema. rewrite !andb_true_iff. intros [_ Hcs].
  split; [by apply enum_value|by eapply conditioned_admitted].
Qed.

(** ** The gateway *)

Import ApiTypes.Gateway.

(** Statuses whose conditions conform; the phase is set on the way. *)
Abbreviation conforming s := (conditions_admitted (Conditions s) = true).

Lemma add_conforming c s : condition_admitted c = true → conforming s → conforming (add_condition c s).
Proof. apply set_admitted. Qed.

Lemma recorded_admitted gw0 gw :
  recorded gw0 gw → admitted KGateway gw0 = true → admitted KGateway gw = true.
Proof.
  induction 1 as [|gw c Hc Hr IH]; [done|]. intros H0. specialize (IH H0). revert IH.
  cbn. unfold gateway_status_schema. rewrite !andb_true_iff. intros [He Hcs].
  split; [exact He|by apply add_conforming].
Qed.

Lemma carry_conforming from types s :
  conditions_admitted from = true → conforming s → conforming (carry from types s).
Proof.
  intros Hf. unfold carry. revert s. induction types as [|t types IH]; intros s Hs; [done|].
  cbn [foldl]. apply IH. destruct (FindStatusCondition from t) eqn:Et; [|done].
  apply add_conforming; [by eapply found_admitted|done].
Qed.

Lemma phase_status_admitted a b c s :
  conforming s → conforming (phase_status a b c s) ∧ Phase (phase_status a b c s) ∈ gateway_phases.
Proof.
  intros Hs. unfold phase_status. destruct a, b, c; cbn [andb orb negb];
    (split; [do 2 (apply add_conforming; [done|]); done|cbn; set_solver]).
Qed.

Lemma final_status_admitted gw ready hasGWAPI auth s :
  conditions_admitted (Conditions (gw_status gw)) = true → conforming s →
  gateway_status_schema (final_status gw ready hasGWAPI auth s) = true.
Proof.
  intros Hgw Hs. unfold final_status.
  set (s1 := if negb (_ && _) then _ else s). assert (conforming s1) as H1.
  { subst s1. case_match; [by apply remove_admitted|done]. }
  set (s2 := if negb auth then _ else s1). assert (conforming s2) as H2.
  { subst s2. case_match; [by apply remove_admitted|done]. }
  set (s3 := phase_status _ _ _ s2). assert (conforming s3 ∧ Phase s3 ∈ gateway_phases) as [H3 Hp]
    by by apply phase_status_admitted.
  unfold gateway_status_schema. cbn [Phase Conditions]. rewrite carry_phase. apply andb_true_iff.
  split; [by apply enum_value|]. apply carry_conforming; [done|]. by apply add_conforming.
Qed.

Lemma set_failed_admitted s s' c :
  Conditions s' = SetStatusCondition (Conditions s) c → condition_admitted c = true →
  Phase s' = PhaseFailed → conforming s →
  gateway_status_schema s' = true.
Proof.
  intros Hcs Hc Hp Hs. unfold gateway_status_schema. rewrite Hp, Hcs. cbn [andb]. by apply set_admitted.
Qed.

Lemma schema_conforming s : gateway_status_schema s = true → conforming s.
Proof. unfold gateway_status_schema. by intros [_ ?]%andb_true_iff. Qed.

Lemma gateway_write_admitted `{X : !X509 C} {U : Unicode} {ML : ManifestLib} name t o :
  status_ok name t KGateway o → reads_admitted t = true → admitted KGateway o = true.
Proof.
  intros (gw & (gw0 & H0 & Hr) & Hw) Ht.
  assert (gateway_status_schema (gw_status gw) = true) as Hgw.
  { eapply (recorded_admitted gw0); [done|]. by eapply read_was_admitted. }
  apply schema_conforming in Hgw.
  destruct Hw as [(items & oldest & _ & _ & ->)|[_ [(latest & d & ha & ocp & u & au & Hl & _ & _ & _ & _ & ->)|(latest & Hl & Hf)]]].
  - by eapply (set_failed_admitted (gw_status gw)); [reflexivity|..].
  - apply final_status_admitted; [done|]. apply schema_conforming. by eapply (read_was_admitted t KGateway).
  - assert (conforming (gw_status latest)) as Hc.
    { apply schema_conforming. by eapply (read_was_admitted t KGateway). }
    destruct Hf as [->|(step & e & ->)]; by eapply (set_failed_admitted (gw_status latest)); [reflexivity|..].
Qed.
End statuses.

(** ** The concrete library *)

Lemma toy_set_members cs c x : x ∈ set_condition cs c → x = c ∨ x ∈ cs.
Proof.
  induction cs as [|c' cs IH]; cbn; [set_solver|].
  case_match; rewrite !elem_of_cons; [tauto|]. intros [->|Hx]; [tauto|]. apply IH in Hx. tauto.
Qed.

Lemma toy_set_keys cs c : NoDup (CType <$> cs) → NoDup (CType <$> set_condition cs c).
Proof.
  induction cs as [|c' cs IH]; cbn; [intros _; apply NoDup_singleton|].
  intros [Hn Hd]%NoDup_cons. case_bool_decide as E; cbn; apply NoDup_cons; [by rewrite <-E|].
  split; [|auto]. intros (x & Ex & Hx)%list_elem_of_fmap.
  apply toy_set_members in Hx as [->|Hx]; [congruence|]. apply Hn. rewrite Ex.
  by apply list_elem_of_fmap_2.
Qed.

#[export] Instance toy_lists : ConditionLists toy_machinery.
Proof.
  split; cbn.
  - apply toy_set_members.
  - apply toy_set_keys.
  - intros cs t. apply sublist_filter.
  - intros cs t c Hf. unfold find_condition in Hf. apply list_elem_of_In. by apply find_some in Hf as [? _].
Qed.

(** ** The reconcilers *)

Section writes.
Context {C : Crypto} {X : X509 C} {T : TlsLib} {U : Unicode} {M : ApiMachinery} {ML : ManifestLib}.
Context `{!ApiMachineryLaws M} `{!ConditionLists M} {W : Type} (h : handler KSig W) (w : W).

(** The kinds whose status the operator owns. *)
Definition has_status (k : kind) : bool :=
  match k with KGateway | KProvider | KPolicy | KMember => true | _ => false end.

(** Every status write of the history is one the API server accepts, the
    objects read before it being such. *)
Definition statuses_admitted (tr : list (event KSig)) : Prop :=
  ∀ i k o r, tr !! i = Some (Ev (S := KSig) (CStatusUpdate k o) r) →
    reads_admitted (take i tr) = true → has_status k = true ∧ admitted k o = true.

(** C30. The schemas of the statuses are an invariant of the four reconcilers:
    given that every custom resource the API server returned earlier in the
    reconcile has a status that conforms to the schema of its kind, every status
    update the reconcile sends is for one of the four kinds and conforms too.
    That is, the phase is one the CRD enumerates, no condition type occurs twice,
    each condition's type and reason match the patterns of the API, and the
    tracked keys of a provider have no duplicates.  Other answers of the API
    server and of the gateway are arbitrary. *)
Theorem written_statuses_are_admitted name ns :
  statuses_admitted (trace h (Reconcile name ns) w) ∧
  statuses_admitted (trace h (member_Reconcile name ns) w) ∧
  statuses_admitted (trace h (policy_Reconcile name ns) w) ∧
  statuses_admitted (trace h (gateway_Reconcile name) w).
Proof.
  split_and!; intros i k o r Hi Ht.
  - pose proof (always_event _ _ _ _ _ _ _ _ (Reconcile_spec name ns) Hi) as HG. destruct k; try done.
    destruct HG as (p & Hr & _ & _ & [_ Hs] & _). split; [done|].
    eapply provider_shape_admitted, read_was_admitted; eauto.
  - pose proof (always_event _ _ _ _ _ _ _ _ (member_Reconcile_spec name ns) Hi) as HG. destruct k; try done.
    destruct HG as (p & Hr & _ & _ & [_ Hs] & _). split; [done|].
    eapply member_shape_admitted, read_was_admitted; eauto.
  - pose proof (always_event _ _ _ _ _ _ _ _ (policy_Reconcile_spec name ns) Hi) as HG. destruct k; try done.
    destruct HG as (p & Hr & _ & _ & [_ Hs] & _). split; [done|].
    eapply policy_shape_admitted, read_was_admitted; eauto.
  - pose proof (always_event _ _ _ _ _ _ _ _ (gateway_Reconcile_spec name) Hi) as HG. destruct k; try done.
    split; [done|]. by eapply gateway_write_admitted.
Qed.
End writes.

(** ** On concrete clusters *)

Definition status_trace : list (event KSig) :=
  trace (store_handler openshift) (gateway_Reconcile "gw") (first_store None).

Lemma written_statuses_are_admitted_witness :
  admitted KGateway (written_at status_trace 137 KGateway) = true ∧
  admitted KProvider toy_synced_provider = true.
Proof.
  split.
  - refine (proj2 (proj2 (proj2 (proj2 (written_statuses_are_admitted (store_handler openshift)
      (first_store None) "gw" ""))) 137 KGateway (written_at status_trace 137 KGateway) None _ _));
      vm_compute; reflexivity.
  - refine (proj2 (proj1 (written_statuses_are_admitted (toy_world None) () "p" "team")
      9 KProvider toy_synced_provider None _ _)); vm_compute; reflexivity.
Defined.

(** The schema refuses what it should: a lower-case phase, a repeated condition
    type, a reason with a blank. *)
Example schema_refuses :
  map gateway_status_schema
    [Gateway.mkStatus "running" "" "" 1 [];
     Gateway.mkStatus "Running" "" "" 1
       [mkCondition "Available" ConditionTrue "Ready" ""; mkCondition "Available" ConditionFalse "Ready" ""];
     Gateway.mkStatus "Running" "" "" 1 [mkCondition "Available" ConditionTrue "Not ready" ""];
     Gateway.mkStatus "Running" "" "" 1 [mkCondition "ogo.io/Available" ConditionTrue "Ready" ""]] =
  [false; false; false; true].
Proof. by vm_compute. Qed.
