(* ===== verification/GatewayWitnesses.v ===== *)
(** * The gateway controller on a concrete cluster

    The reconciler runs to the end on an executable API server: a first
    reconcile on an empty OpenShift cluster, a second one, and the deletion.
    The theorems of GatewayTheorems, GatewayAgreement and BridgeStartup are
    applied to calls of these runs. *)

From S2P Require Import Prelude Interaction GoStrings GoText GoErrors GoUrl Jwt BridgeSig.
From S2P Require Import OpenShiftClient BridgeServer ApiTypes Kube Singleton Detect Pki GatewayHelpers.
From S2P Require Import GatewayRpc GatewayConfig Toml GatewayTls GatewayResources GatewayDeployment.
From S2P Require Import GatewayRouting Dependencies EmbeddedPostgres GatewayReconciler GatewayGuard.
From S2P Require Import GatewayTheorems GatewayAgreement BridgeMain BridgeStartup Concrete FakeCluster.
From S2P Require Import GatewayCluster.
From Stdlib Require Import Ascii.
Import ApiTypes.Gateway.

(** ** The runs *)

Definition server : handler KSig store := store_handler openshift.
Definition first_trace : list (event KSig) := trace server (gateway_Reconcile "gw") (first_store None).
Definition settled : store := (run server (gateway_Reconcile "gw") (first_store None)).2.

(** The settled cluster when the gateway is then deleted. *)
Definition deleted_store : store :=
  existT KGateway (store_gateway "gw" 10 (Some 99%Z)) :: remove settled KGateway "gw" "".
Definition delete_trace : list (event KSig) := trace server (gateway_Reconcile "gw") deleted_store.
Definition cleaned_store : store := (run server (gateway_Reconcile "gw") deleted_store).2.

(** One reconcile brings the gateway up. *)
Example first_reconcile_settles :
  Phase (gw_status (written_at first_trace 137 KGateway)) = PhaseRunning ∧
  (run server (gateway_Reconcile "gw") (first_store None)).1 = (requeue_after requeueInterval, None).
Proof. by vm_compute. Qed.

(** The next one creates, replaces and deletes nothing. *)
Example second_reconcile_is_quiet :
  forallb (λ e : event KSig, match ev_call e with
    | CCreate _ _ | CUpdate _ _ | CDelete _ _ _ => false | _ => true end)
    (trace server (gateway_Reconcile "gw") settled) = true.
Proof. by vm_compute. Qed.

(** Deleting the gateway object leaves its Deployment, its Secrets and the OAuth
    client: the finalizer does not remove them and they have no owner. *)
Example deletion_leaves_the_workload :
  Finalizers (ometa (written_at delete_trace 35 KGateway)) = [] ∧
  exists_in cleaned_store KDeployment "gw" "ogo" = true ∧
  exists_in cleaned_store KSecret "gw-auth-bridge-keys" "ogo" = true ∧
  exists_in cleaned_store oauthClientKind "openshell" "" = true.
Proof. by vm_compute. Qed.

(** Without a hostname the sidecar is rolled out all the same, and the Secret
    its environment refers to is not created. *)
Example missing_hostname_leaves_no_client_secret :
  let gw := mkObj (k := KGateway) (ometa (store_gateway "gw" 10 None)) (spec_of "" "db", mkStatus "" "" "" 0 []) in
  let final := (run server (gateway_Reconcile "gw") [existT KGateway gw; existT KSecret db_secret]).2 in
  match lookup_obj (stored final KDeployment) "gw" "ogo" with
  | inr d => existsb (λ c, existsb (λ e, match EnvFrom e with
                 | EnvSecretKey s _ => s =s "gw-oauth-client" | EnvValue _ => false end) (Env c))
               (match Template (odata d) with Some t => Containers (TSpec t) | None => [] end) = true
  | inl _ => False
  end ∧ exists_in final KSecret "gw-oauth-client" "ogo" = false.
Proof. by vm_compute. Qed.

(** A GRPCRoute that exists is left as it is when the hostname changes. *)
Example existing_grpc_route_keeps_its_hostname :
  let gw := store_gateway "gw" 10 None in
  let before : store := [existT grpcRouteKind (grpc_route gw "old.example.org")] in
  run server (ensure_grpc_route gw "new.example.org") before = (None, before).
Proof. by vm_compute. Qed.

(** ** Witnesses *)

Lemma one_gateway_is_active_witness :
  ∃ gw items, held "gw" (take 107 first_trace) gw ∧
    Ev (S := KSig) (CList KGateway None ∅) (inr items) ∈ take 107 first_trace ∧
    (comes_first gw items ∨
     ∃ oldest, oldest ∈ items ∧ Name (ometa gw) ≠ Name (ometa oldest) ∧
       (∀ o, o ∈ items → Before (CreationTimestamp (ometa o)) (CreationTimestamp (ometa oldest)) = false) ∧
       CUCommit KDeployment (written_at first_trace 107 KDeployment) =
         CStatusUpdate KGateway (superseded_gateway gw oldest) ∧
       Phase (gw_status (superseded_gateway gw oldest)) = PhaseFailed).
Proof.
  refine (one_gateway_is_active server (first_store None) "gw" 107
    (CUCommit KDeployment (written_at first_trace 107 KDeployment)) None _ _); [by vm_compute|done].
Defined.

Lemma foreign_objects_are_untouched_witness :
  (∃ gw, held "gw" (take 3 delete_trace) gw ∧
     (shown_marked (take 3 delete_trace) gw groupKind "devs" "" ∨
      gw_deleting gw ∧ (∃ isOCP, (groupKind, "devs", "") ∈ deleted_by_name gw isOCP) ∨
      read_by_name (take 3 delete_trace) gw groupKind "devs" "")) ∧
  ∃ gw n ns (o0 : obj KDeployment), held "gw" (take 107 first_trace) gw ∧
    Ev (S := KSig) (CUFetch KDeployment n ns) (inr o0) ∈ take 107 first_trace ∧
    (KDeployment, n, ns) ∈ written_names gw ∧
    Name (ometa (written_at first_trace 107 KDeployment)) = Name (ometa o0) ∧
    Namespace (ometa (written_at first_trace 107 KDeployment)) = Namespace (ometa o0) ∧
    (KDeployment = KConfigMap → n ≠ Name (ometa gw) +:+ "-config" →
       CreationTimestamp (ometa o0) = None ∨ managed_by_gateway gw (Labels (ometa o0)) = true).
Proof.
  split.
  - refine (foreign_objects_are_untouched server deleted_store "gw" 3 (CDelete groupKind "devs" "") None _).
    by vm_compute.
  - refine (foreign_objects_are_untouched server (first_store None) "gw" 107
      (CUCommit KDeployment (written_at first_trace 107 KDeployment)) None _).
    by vm_compute.
Defined.

Lemma gateway_finalizer_waits_witness :
  ∃ gw isOCP, held "gw" (take 35 delete_trace) gw ∧ gw_deleting gw ∧
    odata (written_at delete_trace 35 KGateway) = odata gw ∧
    detected (take 35 delete_trace) "route.openshift.io/v1" isOCP ∧
    (∀ x, x ∈ must_be_gone gw isOCP → gone (take 35 delete_trace) x) ∧
    routes_cleaned (take 35 delete_trace) gw ∧
    ca_cleaned (take 35 delete_trace) gw "-auth-ca" ∧ ca_cleaned (take 35 delete_trace) gw "-gateway-ca".
Proof.
  refine (gateway_finalizer_waits server deleted_store "gw" 35 (written_at delete_trace 35 KGateway) None _ _).
  - by vm_compute.
  - apply (bool_decide_unpack _). by vm_compute.
Defined.

Lemma rollout_has_its_inputs_witness :
  let o := written_at first_trace 107 KDeployment in
  ∃ gw n ns o0, held "gw" (take 107 first_trace) gw ∧
    Ev (S := KSig) (CUFetch KDeployment n ns) (inr o0) ∈ take 107 first_trace ∧
    (n = Name (ometa gw) +:+ "-pg" ∧ o = pg_deployment gw (ownershipLabels componentPostgres gw) o0 ∨
     n = Name (ometa gw) ∧
     (∃ isOCP rev, detected (take 107 first_trace) "route.openshift.io/v1" isOCP ∧
        o = gateway_deployment gw isOCP rev o0) ∧
     database_ok (take 107 first_trace) gw ∧
     ∀ v, v ∈ volumes gw →
       ServerCertSecretName (TLS (odata gw).1) = "" ∨ VolumeName v ≠ "tls-client-ca" →
       source_provided (take 107 first_trace) (gatewayNamespace gw) (Source v)).
Proof.
  refine (rollout_has_its_inputs server (first_store None) "gw" 107
    (written_at first_trace 107 KDeployment) None _). by vm_compute.
Defined.

Lemma secrets_are_stable_witness :
  absent (take 90 first_trace) KSecret "gw-auth-bridge-keys" "ogo".
Proof.
  refine (secrets_are_stable server (first_store None) "gw" 90
    (CCreate KSecret (written_at first_trace 90 KSecret)) (inr (written_at first_trace 90 KSecret)) _).
  by vm_compute.
Defined.

Lemma tls_pair_is_consistent_witness :
  ∃ gw b o0, held "gw" (take 73 first_trace) gw ∧ bundle_ok (computeServerSANs gw) b ∧
    gateway_host gw ∈ computeServerSANs gw ∧
    (Hostname (Route (odata gw).1) ≠ "" → Hostname (Route (odata gw).1) ∈ computeServerSANs gw) ∧
    (written_at first_trace 73 KSecret = server_tls_secret gw b (HashSANs (computeServerSANs gw)) o0 ∨
     written_at first_trace 73 KSecret = client_tls_secret gw b o0 ∧
     ∃ o1, Ev (S := KSig) (CUCommit KSecret
       (server_tls_secret gw b (HashSANs (computeServerSANs gw)) o1)) None ∈ take 73 first_trace).
Proof.
  refine (tls_pair_is_consistent server (first_store None) "gw" 73 (written_at first_trace 73 KSecret) None _).
  by vm_compute.
Defined.

Lemma running_means_ready_witness :
  let tr := first_trace in
  let o := written_at first_trace 137 KGateway in
  ∃ gw, held "gw" (take 137 tr) gw ∧ elected (take 137 tr) gw ∧
    (∃ deploy l k isOCP rev o0, (l < k < 137)%nat ∧
       tr !! l = Some (Ev (S := KSig) (CUCommit KDeployment (gateway_deployment gw isOCP rev o0)) None) ∧
       tr !! k = Some (Ev (S := KSig) (CGet KDeployment (Name (ometa gw)) (gatewayNamespace gw)) (inr deploy)) ∧
       (0 < ReadyReplicas (odata deploy))%Z ∧
       ReadyReplicas (odata deploy) = default 1%Z (DReplicas (odata deploy))) ∧
    ObservedGeneration (gw_status o) = Generation (ometa gw) ∧
    (∀ t c, (t, c) ∈ [(ConditionAvailable, ConditionTrue); (ConditionProgressing, ConditionFalse);
        (ConditionDegraded, ConditionFalse)] →
       CStatus <$> FindStatusCondition (Conditions (gw_status o)) t = Some c) ∧
    ∃ isOCP has has', detected (take 137 tr) "route.openshift.io/v1" isOCP ∧
      detected (take 137 tr) "gateway.networking.k8s.io/v1" has ∧
      (routeEnabled gw = true → detected (take 137 tr) "gateway.networking.k8s.io/v1" has') ∧
      (routeEnabled gw = true → gatewayAPIEnabled gw has = true → gatewayAPIEnabled gw has' = true →
         Hostname (Route (odata gw).1) ≠ "" ∧ (isOCP = true → envoy_route_there (take 137 tr) gw)) ∧
      (isOCP = true → authBridgeEnabled gw isOCP = true → routeEnabled gw = true →
         Hostname (Route (odata gw).1) ≠ "").
Proof.
  refine (running_means_ready server (first_store None) "gw" 137 (written_at first_trace 137 KGateway) None _ _);
    by vm_compute.
Defined.

Lemma config_is_faithful_witness :
  parse_toml (RenderGatewayTOML (store_gateway "gw" 10 None) "boxes" [authBridgeInternalURL]) =
    Some (gateway_settings (store_gateway "gw" 10 None) "boxes" [authBridgeInternalURL]).
Proof. refine (config_is_faithful (store_gateway "gw" 10 None) "boxes" [authBridgeInternalURL] _). repeat constructor. Defined.


Lemma generated_keys_are_loadable_witness :
  let gw := store_gateway "gw" 10 None in
  let tr := trace server (reconcileAuthBridgeKeys gw) [] in
  ∃ key, NewJWTSignerFromPEM (secret_key (written_at tr 2 KSecret) "signing.pem")
           (secret_key (written_at tr 2 KSecret) "kid") =
         inr (mkSigner key (secret_key (written_at tr 2 KSecret) "kid")) ∧
    secret_key (written_at tr 2 KSecret) "kid" = derive_kid key ∧
    TrimSpace (secret_key (written_at tr 2 KSecret) "kid") = secret_key (written_at tr 2 KSecret) "kid" ∧
    secret_key (written_at tr 2 KSecret) "public.pem" =
      pem_EncodeToMemory "RSA PUBLIC KEY" (MarshalPKCS1PublicKey key) ∧
    Name (ometa (written_at tr 2 KSecret)) = "gw-auth-bridge-keys" ∧
    Namespace (ometa (written_at tr 2 KSecret)) = "ogo".
Proof.
  intros gw tr.
  refine (generated_keys_are_loadable server [] gw 2 (written_at tr 2 KSecret) (inr (written_at tr 2 KSecret)) _).
  by vm_compute.
Defined.

Lemma detection_is_fresh_witness :
  answered server (trace (mem_handler server) (checks [routeGroupVersion]) (∅, []))
    (run (mem_handler server) (checks [routeGroupVersion]) (∅, [])).2 routeGroupVersion.
Proof. refine (detection_is_fresh server [] [routeGroupVersion] routeGroupVersion _). intros w. by vm_compute. Defined.

(** Durations in whole hours. *)
#[export] Instance toy_durations : Durations := λ s,
  if s =s "8h" then inr (8 * Hour)%Z else inl (Err "time: invalid duration").

(** The Secrets the first reconcile left in the gateway's namespace. *)
Definition pod_secrets (n : string) : gmap string string :=
  match lookup_obj (stored settled KSecret) n "ogo" with
  | inr s => secret_data s
  | inl _ => ∅
  end.

(** What the node projects into the pod for its ServiceAccount. *)
Definition pod_projected (path : string) : err + string :=
  if path =s saCACertPath then inr "cluster ca" else inl (Err "no such file or directory").

Lemma bridge_starts_as_configured_witness :
  let gw := store_gateway "gw" 10 None in
  let secret := index (pod_secrets "gw-oauth-client") "secret" in
  let kid := index (pod_secrets "gw-auth-bridge-keys") "kid" in
  ∃ s, run (pod_handler gw pod_secrets pod_projected) main () =
       (Serving (bridge_config gw secret (8 * Hour)) s (bridge_listeners gw), ()) ∧
    BridgeServer.signer s = mkSigner (C := pem_crypto) "seed" kid ∧
    config s = bridge_config gw secret (8 * Hour) ∧
    cfgExternalIssuer (config s) +:+ "/callback" = callback_url gw ∧
    RootCAs (osc s) = Some "cluster ca" ∧
    ∀ isOCP, authBridgeEnabled gw isOCP = true →
      let settings := gateway_settings gw (sandboxNamespace gw) [oidc_issuer gw isOCP] in
      ("openshell.gateway.oidc", "issuer", TStr (cfgIssuer (config s))) ∈ settings ∧
      ("openshell.gateway.oidc", "audience", TStr (cfgAudience (config s))) ∈ settings.
Proof.
  intros gw secret kid.
  refine (bridge_starts_as_configured gw pod_secrets pod_projected
    (index (pod_secrets "gw-auth-bridge-keys") "signing.pem") kid secret (8 * Hour)
    (mkSigner (C := pem_crypto) "seed" kid) _ _ _ _ _ _ _ _); try by vm_compute.
  intros _. exists (index (pod_secrets "gw-server-tls") "tls.crt"), (index (pod_secrets "gw-server-tls") "tls.key").
  by vm_compute.
Defined.
